(** * pv: transfer engine, display layout and remote control

    A shallow embedding of the parts of pv that its design document makes
    promises about: [src/pv/transfer.c] (reading, error skipping, splice,
    writing, line-boundary truncation), [src/pv/loop.c] (the accounting done
    on every pass of the main loop), [src/pv/calc.c] and [src/pv/number.c]
    (completion percentage), [src/pv/display.c] and [src/pv/format/eta.c]
    (layout of the display line, ETA), and [src/pv/remote.c] (the hand-shake
    of [pv_remote_set]); and of what these rest on: the rest of
    [src/pv/number.c] (reading sizes, counts and their units) and
    [src/pv/string.c] (the width of a string, [pv_strlcat], [pv_memrchr]).

    Conventions.
    - C integers are [Z]; a conversion to a fixed-width type is written out
      with [to_size_t], [to_off_t], [to_int] and [to_uint16].
    - A [double] or [long double] value is the rational ([Q]) it stands for;
      every arithmetic step of the source is followed by the rounding of its
      type (module [Float]), and the formats of [long double] and the
      outcome of an out-of-range conversion to [long] are parameters.
    - The operating system is an oracle: each function takes a record with
      the outcome of every system call it may make, and the calls made and
      the messages printed are appended to a trace, so that "is attempted",
      "is emitted" and "is removed" are statements about that trace.
    - A [NULL] pointer is [None]. *)

From Stdlib Require Import ZArith List Bool Lia String Ascii QArith Qround Lqa.
From Stdlib Require Import Strings.Byte DecimalString.
From Stdlib Require DecimalFacts DecimalPos.
Import ListNotations.

Local Open Scope Z_scope.

(** ** C integer types *)

Definition to_size_t (z : Z) : Z := z mod 2 ^ 64.
Definition to_off_t (z : Z) : Z := (z + 2 ^ 63) mod 2 ^ 64 - 2 ^ 63.
Definition to_ssize_t (z : Z) : Z := to_off_t z.
Definition to_long (z : Z) : Z := to_off_t z.
Definition to_int (z : Z) : Z := (z + 2 ^ 31) mod 2 ^ 32 - 2 ^ 31.
Definition to_uint (z : Z) : Z := z mod 2 ^ 32.
Definition to_uint16 (z : Z) : Z := z mod 2 ^ 16.

Definition LONG_MIN : Z := - 2 ^ 63.
Definition LONG_MAX : Z := 2 ^ 63 - 1.

Definition fits_off_t (z : Z) : Prop := - 2 ^ 63 <= z < 2 ^ 63.
Definition fits_size_t (z : Z) : Prop := 0 <= z < 2 ^ 64.
Definition fits_int (z : Z) : Prop := - 2 ^ 31 <= z < 2 ^ 31.
Definition fits_uint16 (z : Z) : Prop := 0 <= z < 2 ^ 16.

(** ** Constants of pv-internal.h *)

Definition PV_FORMAT_ARRAY_MAX : nat := 100.
Definition MAX_LINE_POSITIONS : Z := 100000.
Definition PV_SIZEOF_LASTWRITTEN_BUFFER : Z := 256.
Definition PV_SIZEOF_PREVLINE_BUFFER : Z := 1024.
Definition PV_SIZEOF_FORMAT_SEGMENTS_BUF : Z := 4096.

(** Modelled from the spec: pv.h, which defines the PV_ERROREXIT_ bits, is not
    among the sources; the values are the exit codes of the design document
    ("1 generic transfer error; 2 memory; ... 8 remote or pid failure"). *)
Definition PV_ERROREXIT_TRANSFER : Z := 1.
Definition PV_ERROREXIT_MEMORY : Z := 2.
Definition PV_ERROREXIT_REMOTE_OR_PID : Z := 8.

(** ** errno *)

Inductive errno_t : Type :=
  | ENONE | EINTR | EIO | EAGAIN | EINVAL | ESPIPE | EPIPE | ENOMEM | EOTHER.

Definition errno_eqb (a b : errno_t) : bool :=
  match a, b with
  | ENONE, ENONE | EINTR, EINTR | EIO, EIO | EAGAIN, EAGAIN | EINVAL, EINVAL
  | ESPIPE, ESPIPE | EPIPE, EPIPE | ENOMEM, ENOMEM | EOTHER, EOTHER => true
  | _, _ => false
  end.

(** The result of a system call: its return value, and the errno it leaves
    when that value is negative. *)
Definition sysret : Type := (Z * errno_t)%type.

(** ** What the program does to the outside world *)

(** Lines printed through [pv_error]. *)
Inductive message : Type :=
  | MsgReadFailed
  | MsgWarningReadErrors            (* "warning: read errors detected" *)
  | MsgNotSeekable                  (* "file is not seekable" *)
  | MsgFailedToSeek                 (* "failed to seek past error" *)
  | MsgSkipped (orig_offset skip_offset amount_skipped : Z)
                                    (* "skipped past read error: a - b (n B)" *)
  | MsgNoTransferBuffer
  | MsgSetTimerFailed
  | MsgClearTimerFailed
  | MsgLinePositionAlloc
  | MsgWriteFailed
  | MsgBufferAllocFailed
  | MsgSelectFailed
  | MsgRemote (e : errno_t)         (* strerror(errno) alone, or with the pid *)
  | MsgNotReceived.                 (* "message not received" *)

Inductive event : Type :=
  | EvSplice (fd_in fd_out len : Z)
  | EvFdatasync (fd : Z)
  | EvRead (fd len : Z)             (* pv__transfer_read_repeated *)
  | EvWrite (fd len : Z)            (* pv__transfer_write_repeated *)
  | EvLseekCur (fd off : Z)         (* lseek(fd, off, SEEK_CUR) *)
  | EvLseekSet (fd off : Z)         (* lseek(fd, off, SEEK_SET) *)
  | EvSelect (fd_in fd_out usec : Z)
  | EvSetitimer (armed : bool)
  | EvFcntl (fd : Z)
  | EvFpathconf (fd : Z)            (* fpathconf(fd, _PC_REC_XFER_ALIGN) *)
  | EvSysconf                       (* sysconf(_SC_PAGESIZE) *)
  | EvPosixMemalign (alignment size : Z)
  | EvMalloc (size : Z)
  | EvKill (pid : Z) (sig : Z)
  | EvOpenControlFile
  | EvWriteControlFile
  | EvCloseControlFile
  | EvRemoveControlFile
  | EvError (m : message).

Definition is_message (m : message) (e : event) : bool :=
  match e, m with
  | EvError MsgReadFailed, MsgReadFailed
  | EvError MsgWarningReadErrors, MsgWarningReadErrors
  | EvError MsgNotSeekable, MsgNotSeekable
  | EvError MsgFailedToSeek, MsgFailedToSeek
  | EvError MsgNoTransferBuffer, MsgNoTransferBuffer
  | EvError MsgSetTimerFailed, MsgSetTimerFailed
  | EvError MsgClearTimerFailed, MsgClearTimerFailed
  | EvError MsgLinePositionAlloc, MsgLinePositionAlloc
  | EvError MsgWriteFailed, MsgWriteFailed
  | EvError MsgBufferAllocFailed, MsgBufferAllocFailed
  | EvError MsgSelectFailed, MsgSelectFailed
  | EvError MsgNotReceived, MsgNotReceived => true
  | _, _ => false
  end.

Definition is_error (e : event) : bool :=
  match e with EvError _ => true | _ => false end.

Definition is_skip_trace (e : event) : bool :=
  match e with EvError (MsgSkipped _ _ _) => true | _ => false end.

Definition is_splice_on (fd : Z) (e : event) : bool :=
  match e with EvSplice f _ _ => f =? fd | _ => false end.

Definition is_read_on (fd : Z) (e : event) : bool :=
  match e with EvRead f _ => f =? fd | _ => false end.

Definition is_warning (e : event) : bool := is_message MsgWarningReadErrors e.

(** lseek(fd, 0, SEEK_CUR): asking where the input is. *)
Definition is_seek_probe (fd : Z) (e : event) : bool :=
  match e with EvLseekCur f o => (f =? fd) && (o =? 0) | _ => false end.

Definition is_write_call (e : event) : bool :=
  match e with EvWrite _ _ => true | _ => false end.

Definition is_sleep (e : event) : bool :=
  match e with EvSelect _ _ _ => true | _ => false end.

(** The calls of [pv__allocate_aligned_buffer]. *)
Definition is_allocation_call (e : event) : bool :=
  match e with
  | EvFpathconf _ | EvSysconf | EvPosixMemalign _ _ | EvMalloc _ => true
  | _ => false
  end.

Definition is_remove (e : event) : bool :=
  match e with EvRemoveControlFile => true | _ => false end.

Definition count_events (p : event -> bool) (l : list event) : nat :=
  List.length (List.filter p l).

(** ** Build configuration (config.h) *)

Record config_h : Type := Build_config {
  HAVE_SPLICE : bool;
  HAVE_FDATASYNC : bool;
  HAVE_SETITIMER : bool;
  HAVE_FIONREAD : bool;             (* #ifdef FIONREAD *)
  HAVE_O_DIRECT : bool;             (* #ifdef O_DIRECT *)
  HAVE_FPATHCONF : bool;
  HAVE_POSIX_MEMALIGN : bool;
  HAVE_PC_REC_XFER_ALIGN : bool;    (* defined(_PC_REC_XFER_ALIGN) *)
  HAVE_SYSCONF : bool;
  HAVE_SC_PAGESIZE : bool           (* defined(_SC_PAGESIZE) *)
}.

(** ** The program state (struct pvstate_s of pv-internal.h)

    The records list the members that the functions below read or write. *)

Record pvcontrol_s : Type := Build_pvcontrol {
  error_skip_block : Z;  (* off_t: skip block size, 0 for adaptive *)
  rate_limit : Z;  (* off_t: rate limit, in bytes per second *)
  target_buffer_size : Z;  (* size_t: buffer size (0=default) *)
  size : Z;  (* off_t: total size of data *)
  skip_errors : Z;  (* unsigned int: skip read errors counter *)
  output_fd : Z;  (* int: fd to write output to *)
  history_interval : Z;  (* unsigned int: seconds between history entries *)
  width : Z;  (* pvdisplay_width_t: screen width *)
  interval : Q;  (* double: interval between updates *)
  linemode : bool;  (* count lines instead of bytes *)
  bits : bool;  (* report bits instead of bytes *)
  null_terminated_lines : bool;  (* lines are null-terminated *)
  no_splice : bool;  (* never use splice() *)
  stop_at_size : bool;  (* stop at size bytes *)
  sync_after_write : bool;  (* sync after every write *)
  direct_io : bool;  (* O_DIRECT is to be used *)
  direct_io_changed : bool;  (* set when direct_io is changed *)
  sparse_output : bool;  (* leave holes in the output *)
  discard_input : bool  (* write nothing to stdout *)
}.

Definition set_target_buffer_size (v : Z) (r : pvcontrol_s) : pvcontrol_s :=
  {| error_skip_block := error_skip_block r; rate_limit := rate_limit r; target_buffer_size := v;
     size := size r; skip_errors := skip_errors r; output_fd := output_fd r;
     history_interval := history_interval r; width := width r; interval := interval r;
     linemode := linemode r; bits := bits r; null_terminated_lines := null_terminated_lines r;
     no_splice := no_splice r; stop_at_size := stop_at_size r;
     sync_after_write := sync_after_write r; direct_io := direct_io r;
     direct_io_changed := direct_io_changed r; sparse_output := sparse_output r;
     discard_input := discard_input r |}.

Definition set_direct_io_changed (v : bool) (r : pvcontrol_s) : pvcontrol_s :=
  {| error_skip_block := error_skip_block r; rate_limit := rate_limit r;
     target_buffer_size := target_buffer_size r; size := size r; skip_errors := skip_errors r;
     output_fd := output_fd r; history_interval := history_interval r; width := width r;
     interval := interval r; linemode := linemode r; bits := bits r;
     null_terminated_lines := null_terminated_lines r; no_splice := no_splice r;
     stop_at_size := stop_at_size r; sync_after_write := sync_after_write r;
     direct_io := direct_io r; direct_io_changed := v; sparse_output := sparse_output r;
     discard_input := discard_input r |}.

Record pvtransferstate_s : Type := Build_pvtransferstate {
  elapsed_seconds : Q;  (* long double *)
  transfer_buffer : option (list byte);  (* char *, None for NULL *)
  buffer_size : Z;  (* size_t *)
  read_position : Z;  (* size_t: amount of data in buffer *)
  write_position : Z;  (* size_t: buffered data written *)
  to_write : Z;  (* ssize_t: max to write this time around *)
  written : Z;  (* ssize_t: bytes sent to stdout this time *)
  written_but_not_consumed : Z;  (* size_t: bytes in the output pipe, unread *)
  total_bytes_read : Z;  (* off_t *)
  total_written : Z;  (* off_t: total bytes or lines written *)
  transferred : Z;  (* off_t: amount transferred (written - unconsumed) *)
  line_positions : option (list Z);  (* off_t *, circular buffer, None for NULL *)
  line_positions_capacity : Z;  (* size_t *)
  line_positions_length : Z;  (* size_t *)
  line_positions_head : Z;  (* size_t *)
  last_output_position : Z;  (* off_t *)
  read_errors_in_a_row : Z;  (* off_t *)
  last_read_skip_fd : Z;  (* int *)
  splice_failed_fd : Z;  (* int *)
  splice_used : bool;
  read_error_warning_shown : bool;
  output_not_seekable : bool  (* set if lseek() fails on output *)
}.

Definition set_transfer_buffer (v : option (list byte)) (r : pvtransferstate_s) : pvtransferstate_s :=
  {| elapsed_seconds := elapsed_seconds r; transfer_buffer := v; buffer_size := buffer_size r;
     read_position := read_position r; write_position := write_position r;
     to_write := to_write r; written := written r;
     written_but_not_consumed := written_but_not_consumed r;
     total_bytes_read := total_bytes_read r; total_written := total_written r;
     transferred := transferred r; line_positions := line_positions r;
     line_positions_capacity := line_positions_capacity r;
     line_positions_length := line_positions_length r;
     line_positions_head := line_positions_head r;
     last_output_position := last_output_position r;
     read_errors_in_a_row := read_errors_in_a_row r; last_read_skip_fd := last_read_skip_fd r;
     splice_failed_fd := splice_failed_fd r; splice_used := splice_used r;
     read_error_warning_shown := read_error_warning_shown r;
     output_not_seekable := output_not_seekable r |}.

Definition set_buffer_size (v : Z) (r : pvtransferstate_s) : pvtransferstate_s :=
  {| elapsed_seconds := elapsed_seconds r; transfer_buffer := transfer_buffer r;
     buffer_size := v; read_position := read_position r; write_position := write_position r;
     to_write := to_write r; written := written r;
     written_but_not_consumed := written_but_not_consumed r;
     total_bytes_read := total_bytes_read r; total_written := total_written r;
     transferred := transferred r; line_positions := line_positions r;
     line_positions_capacity := line_positions_capacity r;
     line_positions_length := line_positions_length r;
     line_positions_head := line_positions_head r;
     last_output_position := last_output_position r;
     read_errors_in_a_row := read_errors_in_a_row r; last_read_skip_fd := last_read_skip_fd r;
     splice_failed_fd := splice_failed_fd r; splice_used := splice_used r;
     read_error_warning_shown := read_error_warning_shown r;
     output_not_seekable := output_not_seekable r |}.

Definition set_read_position (v : Z) (r : pvtransferstate_s) : pvtransferstate_s :=
  {| elapsed_seconds := elapsed_seconds r; transfer_buffer := transfer_buffer r;
     buffer_size := buffer_size r; read_position := v; write_position := write_position r;
     to_write := to_write r; written := written r;
     written_but_not_consumed := written_but_not_consumed r;
     total_bytes_read := total_bytes_read r; total_written := total_written r;
     transferred := transferred r; line_positions := line_positions r;
     line_positions_capacity := line_positions_capacity r;
     line_positions_length := line_positions_length r;
     line_positions_head := line_positions_head r;
     last_output_position := last_output_position r;
     read_errors_in_a_row := read_errors_in_a_row r; last_read_skip_fd := last_read_skip_fd r;
     splice_failed_fd := splice_failed_fd r; splice_used := splice_used r;
     read_error_warning_shown := read_error_warning_shown r;
     output_not_seekable := output_not_seekable r |}.

Definition set_write_position (v : Z) (r : pvtransferstate_s) : pvtransferstate_s :=
  {| elapsed_seconds := elapsed_seconds r; transfer_buffer := transfer_buffer r;
     buffer_size := buffer_size r; read_position := read_position r; write_position := v;
     to_write := to_write r; written := written r;
     written_but_not_consumed := written_but_not_consumed r;
     total_bytes_read := total_bytes_read r; total_written := total_written r;
     transferred := transferred r; line_positions := line_positions r;
     line_positions_capacity := line_positions_capacity r;
     line_positions_length := line_positions_length r;
     line_positions_head := line_positions_head r;
     last_output_position := last_output_position r;
     read_errors_in_a_row := read_errors_in_a_row r; last_read_skip_fd := last_read_skip_fd r;
     splice_failed_fd := splice_failed_fd r; splice_used := splice_used r;
     read_error_warning_shown := read_error_warning_shown r;
     output_not_seekable := output_not_seekable r |}.

Definition set_to_write (v : Z) (r : pvtransferstate_s) : pvtransferstate_s :=
  {| elapsed_seconds := elapsed_seconds r; transfer_buffer := transfer_buffer r;
     buffer_size := buffer_size r; read_position := read_position r;
     write_position := write_position r; to_write := v; written := written r;
     written_but_not_consumed := written_but_not_consumed r;
     total_bytes_read := total_bytes_read r; total_written := total_written r;
     transferred := transferred r; line_positions := line_positions r;
     line_positions_capacity := line_positions_capacity r;
     line_positions_length := line_positions_length r;
     line_positions_head := line_positions_head r;
     last_output_position := last_output_position r;
     read_errors_in_a_row := read_errors_in_a_row r; last_read_skip_fd := last_read_skip_fd r;
     splice_failed_fd := splice_failed_fd r; splice_used := splice_used r;
     read_error_warning_shown := read_error_warning_shown r;
     output_not_seekable := output_not_seekable r |}.

Definition set_written (v : Z) (r : pvtransferstate_s) : pvtransferstate_s :=
  {| elapsed_seconds := elapsed_seconds r; transfer_buffer := transfer_buffer r;
     buffer_size := buffer_size r; read_position := read_position r;
     write_position := write_position r; to_write := to_write r; written := v;
     written_but_not_consumed := written_but_not_consumed r;
     total_bytes_read := total_bytes_read r; total_written := total_written r;
     transferred := transferred r; line_positions := line_positions r;
     line_positions_capacity := line_positions_capacity r;
     line_positions_length := line_positions_length r;
     line_positions_head := line_positions_head r;
     last_output_position := last_output_position r;
     read_errors_in_a_row := read_errors_in_a_row r; last_read_skip_fd := last_read_skip_fd r;
     splice_failed_fd := splice_failed_fd r; splice_used := splice_used r;
     read_error_warning_shown := read_error_warning_shown r;
     output_not_seekable := output_not_seekable r |}.

Definition set_written_but_not_consumed (v : Z) (r : pvtransferstate_s) : pvtransferstate_s :=
  {| elapsed_seconds := elapsed_seconds r; transfer_buffer := transfer_buffer r;
     buffer_size := buffer_size r; read_position := read_position r;
     write_position := write_position r; to_write := to_write r; written := written r;
     written_but_not_consumed := v; total_bytes_read := total_bytes_read r;
     total_written := total_written r; transferred := transferred r;
     line_positions := line_positions r; line_positions_capacity := line_positions_capacity r;
     line_positions_length := line_positions_length r;
     line_positions_head := line_positions_head r;
     last_output_position := last_output_position r;
     read_errors_in_a_row := read_errors_in_a_row r; last_read_skip_fd := last_read_skip_fd r;
     splice_failed_fd := splice_failed_fd r; splice_used := splice_used r;
     read_error_warning_shown := read_error_warning_shown r;
     output_not_seekable := output_not_seekable r |}.

Definition set_total_bytes_read (v : Z) (r : pvtransferstate_s) : pvtransferstate_s :=
  {| elapsed_seconds := elapsed_seconds r; transfer_buffer := transfer_buffer r;
     buffer_size := buffer_size r; read_position := read_position r;
     write_position := write_position r; to_write := to_write r; written := written r;
     written_but_not_consumed := written_but_not_consumed r; total_bytes_read := v;
     total_written := total_written r; transferred := transferred r;
     line_positions := line_positions r; line_positions_capacity := line_positions_capacity r;
     line_positions_length := line_positions_length r;
     line_positions_head := line_positions_head r;
     last_output_position := last_output_position r;
     read_errors_in_a_row := read_errors_in_a_row r; last_read_skip_fd := last_read_skip_fd r;
     splice_failed_fd := splice_failed_fd r; splice_used := splice_used r;
     read_error_warning_shown := read_error_warning_shown r;
     output_not_seekable := output_not_seekable r |}.

Definition set_total_written (v : Z) (r : pvtransferstate_s) : pvtransferstate_s :=
  {| elapsed_seconds := elapsed_seconds r; transfer_buffer := transfer_buffer r;
     buffer_size := buffer_size r; read_position := read_position r;
     write_position := write_position r; to_write := to_write r; written := written r;
     written_but_not_consumed := written_but_not_consumed r;
     total_bytes_read := total_bytes_read r; total_written := v; transferred := transferred r;
     line_positions := line_positions r; line_positions_capacity := line_positions_capacity r;
     line_positions_length := line_positions_length r;
     line_positions_head := line_positions_head r;
     last_output_position := last_output_position r;
     read_errors_in_a_row := read_errors_in_a_row r; last_read_skip_fd := last_read_skip_fd r;
     splice_failed_fd := splice_failed_fd r; splice_used := splice_used r;
     read_error_warning_shown := read_error_warning_shown r;
     output_not_seekable := output_not_seekable r |}.

Definition set_transferred (v : Z) (r : pvtransferstate_s) : pvtransferstate_s :=
  {| elapsed_seconds := elapsed_seconds r; transfer_buffer := transfer_buffer r;
     buffer_size := buffer_size r; read_position := read_position r;
     write_position := write_position r; to_write := to_write r; written := written r;
     written_but_not_consumed := written_but_not_consumed r;
     total_bytes_read := total_bytes_read r; total_written := total_written r; transferred := v;
     line_positions := line_positions r; line_positions_capacity := line_positions_capacity r;
     line_positions_length := line_positions_length r;
     line_positions_head := line_positions_head r;
     last_output_position := last_output_position r;
     read_errors_in_a_row := read_errors_in_a_row r; last_read_skip_fd := last_read_skip_fd r;
     splice_failed_fd := splice_failed_fd r; splice_used := splice_used r;
     read_error_warning_shown := read_error_warning_shown r;
     output_not_seekable := output_not_seekable r |}.

Definition set_line_positions (v : option (list Z)) (r : pvtransferstate_s) : pvtransferstate_s :=
  {| elapsed_seconds := elapsed_seconds r; transfer_buffer := transfer_buffer r;
     buffer_size := buffer_size r; read_position := read_position r;
     write_position := write_position r; to_write := to_write r; written := written r;
     written_but_not_consumed := written_but_not_consumed r;
     total_bytes_read := total_bytes_read r; total_written := total_written r;
     transferred := transferred r; line_positions := v;
     line_positions_capacity := line_positions_capacity r;
     line_positions_length := line_positions_length r;
     line_positions_head := line_positions_head r;
     last_output_position := last_output_position r;
     read_errors_in_a_row := read_errors_in_a_row r; last_read_skip_fd := last_read_skip_fd r;
     splice_failed_fd := splice_failed_fd r; splice_used := splice_used r;
     read_error_warning_shown := read_error_warning_shown r;
     output_not_seekable := output_not_seekable r |}.

Definition set_line_positions_capacity (v : Z) (r : pvtransferstate_s) : pvtransferstate_s :=
  {| elapsed_seconds := elapsed_seconds r; transfer_buffer := transfer_buffer r;
     buffer_size := buffer_size r; read_position := read_position r;
     write_position := write_position r; to_write := to_write r; written := written r;
     written_but_not_consumed := written_but_not_consumed r;
     total_bytes_read := total_bytes_read r; total_written := total_written r;
     transferred := transferred r; line_positions := line_positions r;
     line_positions_capacity := v; line_positions_length := line_positions_length r;
     line_positions_head := line_positions_head r;
     last_output_position := last_output_position r;
     read_errors_in_a_row := read_errors_in_a_row r; last_read_skip_fd := last_read_skip_fd r;
     splice_failed_fd := splice_failed_fd r; splice_used := splice_used r;
     read_error_warning_shown := read_error_warning_shown r;
     output_not_seekable := output_not_seekable r |}.

Definition set_line_positions_length (v : Z) (r : pvtransferstate_s) : pvtransferstate_s :=
  {| elapsed_seconds := elapsed_seconds r; transfer_buffer := transfer_buffer r;
     buffer_size := buffer_size r; read_position := read_position r;
     write_position := write_position r; to_write := to_write r; written := written r;
     written_but_not_consumed := written_but_not_consumed r;
     total_bytes_read := total_bytes_read r; total_written := total_written r;
     transferred := transferred r; line_positions := line_positions r;
     line_positions_capacity := line_positions_capacity r; line_positions_length := v;
     line_positions_head := line_positions_head r;
     last_output_position := last_output_position r;
     read_errors_in_a_row := read_errors_in_a_row r; last_read_skip_fd := last_read_skip_fd r;
     splice_failed_fd := splice_failed_fd r; splice_used := splice_used r;
     read_error_warning_shown := read_error_warning_shown r;
     output_not_seekable := output_not_seekable r |}.

Definition set_line_positions_head (v : Z) (r : pvtransferstate_s) : pvtransferstate_s :=
  {| elapsed_seconds := elapsed_seconds r; transfer_buffer := transfer_buffer r;
     buffer_size := buffer_size r; read_position := read_position r;
     write_position := write_position r; to_write := to_write r; written := written r;
     written_but_not_consumed := written_but_not_consumed r;
     total_bytes_read := total_bytes_read r; total_written := total_written r;
     transferred := transferred r; line_positions := line_positions r;
     line_positions_capacity := line_positions_capacity r;
     line_positions_length := line_positions_length r; line_positions_head := v;
     last_output_position := last_output_position r;
     read_errors_in_a_row := read_errors_in_a_row r; last_read_skip_fd := last_read_skip_fd r;
     splice_failed_fd := splice_failed_fd r; splice_used := splice_used r;
     read_error_warning_shown := read_error_warning_shown r;
     output_not_seekable := output_not_seekable r |}.

Definition set_last_output_position (v : Z) (r : pvtransferstate_s) : pvtransferstate_s :=
  {| elapsed_seconds := elapsed_seconds r; transfer_buffer := transfer_buffer r;
     buffer_size := buffer_size r; read_position := read_position r;
     write_position := write_position r; to_write := to_write r; written := written r;
     written_but_not_consumed := written_but_not_consumed r;
     total_bytes_read := total_bytes_read r; total_written := total_written r;
     transferred := transferred r; line_positions := line_positions r;
     line_positions_capacity := line_positions_capacity r;
     line_positions_length := line_positions_length r;
     line_positions_head := line_positions_head r; last_output_position := v;
     read_errors_in_a_row := read_errors_in_a_row r; last_read_skip_fd := last_read_skip_fd r;
     splice_failed_fd := splice_failed_fd r; splice_used := splice_used r;
     read_error_warning_shown := read_error_warning_shown r;
     output_not_seekable := output_not_seekable r |}.

Definition set_read_errors_in_a_row (v : Z) (r : pvtransferstate_s) : pvtransferstate_s :=
  {| elapsed_seconds := elapsed_seconds r; transfer_buffer := transfer_buffer r;
     buffer_size := buffer_size r; read_position := read_position r;
     write_position := write_position r; to_write := to_write r; written := written r;
     written_but_not_consumed := written_but_not_consumed r;
     total_bytes_read := total_bytes_read r; total_written := total_written r;
     transferred := transferred r; line_positions := line_positions r;
     line_positions_capacity := line_positions_capacity r;
     line_positions_length := line_positions_length r;
     line_positions_head := line_positions_head r;
     last_output_position := last_output_position r; read_errors_in_a_row := v;
     last_read_skip_fd := last_read_skip_fd r; splice_failed_fd := splice_failed_fd r;
     splice_used := splice_used r; read_error_warning_shown := read_error_warning_shown r;
     output_not_seekable := output_not_seekable r |}.

Definition set_last_read_skip_fd (v : Z) (r : pvtransferstate_s) : pvtransferstate_s :=
  {| elapsed_seconds := elapsed_seconds r; transfer_buffer := transfer_buffer r;
     buffer_size := buffer_size r; read_position := read_position r;
     write_position := write_position r; to_write := to_write r; written := written r;
     written_but_not_consumed := written_but_not_consumed r;
     total_bytes_read := total_bytes_read r; total_written := total_written r;
     transferred := transferred r; line_positions := line_positions r;
     line_positions_capacity := line_positions_capacity r;
     line_positions_length := line_positions_length r;
     line_positions_head := line_positions_head r;
     last_output_position := last_output_position r;
     read_errors_in_a_row := read_errors_in_a_row r; last_read_skip_fd := v;
     splice_failed_fd := splice_failed_fd r; splice_used := splice_used r;
     read_error_warning_shown := read_error_warning_shown r;
     output_not_seekable := output_not_seekable r |}.

Definition set_splice_failed_fd (v : Z) (r : pvtransferstate_s) : pvtransferstate_s :=
  {| elapsed_seconds := elapsed_seconds r; transfer_buffer := transfer_buffer r;
     buffer_size := buffer_size r; read_position := read_position r;
     write_position := write_position r; to_write := to_write r; written := written r;
     written_but_not_consumed := written_but_not_consumed r;
     total_bytes_read := total_bytes_read r; total_written := total_written r;
     transferred := transferred r; line_positions := line_positions r;
     line_positions_capacity := line_positions_capacity r;
     line_positions_length := line_positions_length r;
     line_positions_head := line_positions_head r;
     last_output_position := last_output_position r;
     read_errors_in_a_row := read_errors_in_a_row r; last_read_skip_fd := last_read_skip_fd r;
     splice_failed_fd := v; splice_used := splice_used r;
     read_error_warning_shown := read_error_warning_shown r;
     output_not_seekable := output_not_seekable r |}.

Definition set_splice_used (v : bool) (r : pvtransferstate_s) : pvtransferstate_s :=
  {| elapsed_seconds := elapsed_seconds r; transfer_buffer := transfer_buffer r;
     buffer_size := buffer_size r; read_position := read_position r;
     write_position := write_position r; to_write := to_write r; written := written r;
     written_but_not_consumed := written_but_not_consumed r;
     total_bytes_read := total_bytes_read r; total_written := total_written r;
     transferred := transferred r; line_positions := line_positions r;
     line_positions_capacity := line_positions_capacity r;
     line_positions_length := line_positions_length r;
     line_positions_head := line_positions_head r;
     last_output_position := last_output_position r;
     read_errors_in_a_row := read_errors_in_a_row r; last_read_skip_fd := last_read_skip_fd r;
     splice_failed_fd := splice_failed_fd r; splice_used := v;
     read_error_warning_shown := read_error_warning_shown r;
     output_not_seekable := output_not_seekable r |}.

Definition set_read_error_warning_shown (v : bool) (r : pvtransferstate_s) : pvtransferstate_s :=
  {| elapsed_seconds := elapsed_seconds r; transfer_buffer := transfer_buffer r;
     buffer_size := buffer_size r; read_position := read_position r;
     write_position := write_position r; to_write := to_write r; written := written r;
     written_but_not_consumed := written_but_not_consumed r;
     total_bytes_read := total_bytes_read r; total_written := total_written r;
     transferred := transferred r; line_positions := line_positions r;
     line_positions_capacity := line_positions_capacity r;
     line_positions_length := line_positions_length r;
     line_positions_head := line_positions_head r;
     last_output_position := last_output_position r;
     read_errors_in_a_row := read_errors_in_a_row r; last_read_skip_fd := last_read_skip_fd r;
     splice_failed_fd := splice_failed_fd r; splice_used := splice_used r;
     read_error_warning_shown := v; output_not_seekable := output_not_seekable r |}.

Definition set_output_not_seekable (v : bool) (r : pvtransferstate_s) : pvtransferstate_s :=
  {| elapsed_seconds := elapsed_seconds r; transfer_buffer := transfer_buffer r;
     buffer_size := buffer_size r; read_position := read_position r;
     write_position := write_position r; to_write := to_write r; written := written r;
     written_but_not_consumed := written_but_not_consumed r;
     total_bytes_read := total_bytes_read r; total_written := total_written r;
     transferred := transferred r; line_positions := line_positions r;
     line_positions_capacity := line_positions_capacity r;
     line_positions_length := line_positions_length r;
     line_positions_head := line_positions_head r;
     last_output_position := last_output_position r;
     read_errors_in_a_row := read_errors_in_a_row r; last_read_skip_fd := last_read_skip_fd r;
     splice_failed_fd := splice_failed_fd r; splice_used := splice_used r;
     read_error_warning_shown := read_error_warning_shown r; output_not_seekable := v |}.

Record pvdisplay_s : Type := Build_pvdisplay {
  previous_line : list byte;  (* char[PV_SIZEOF_PREVLINE_BUFFER] *)
  next_line : list byte;  (* char[PV_SIZEOF_PREVLINE_BUFFER] *)
  lastwritten_buffer : list byte;  (* char[PV_SIZEOF_LASTWRITTEN_BUFFER] *)
  initial_offset : Z;  (* off_t *)
  next_line_len : Z;  (* size_t *)
  lastwritten_bytes : Z;  (* pvdisplay_bytecount_t *)
  showing_last_written : bool;
  showing_previous_line : bool;
  final_update : bool;
  output_produced : bool
}.

Definition set_previous_line (v : list byte) (r : pvdisplay_s) : pvdisplay_s :=
  {| previous_line := v; next_line := next_line r; lastwritten_buffer := lastwritten_buffer r;
     initial_offset := initial_offset r; next_line_len := next_line_len r;
     lastwritten_bytes := lastwritten_bytes r; showing_last_written := showing_last_written r;
     showing_previous_line := showing_previous_line r; final_update := final_update r;
     output_produced := output_produced r |}.

Definition set_next_line (v : list byte) (r : pvdisplay_s) : pvdisplay_s :=
  {| previous_line := previous_line r; next_line := v;
     lastwritten_buffer := lastwritten_buffer r; initial_offset := initial_offset r;
     next_line_len := next_line_len r; lastwritten_bytes := lastwritten_bytes r;
     showing_last_written := showing_last_written r;
     showing_previous_line := showing_previous_line r; final_update := final_update r;
     output_produced := output_produced r |}.

Definition set_lastwritten_buffer (v : list byte) (r : pvdisplay_s) : pvdisplay_s :=
  {| previous_line := previous_line r; next_line := next_line r; lastwritten_buffer := v;
     initial_offset := initial_offset r; next_line_len := next_line_len r;
     lastwritten_bytes := lastwritten_bytes r; showing_last_written := showing_last_written r;
     showing_previous_line := showing_previous_line r; final_update := final_update r;
     output_produced := output_produced r |}.

Definition set_next_line_len (v : Z) (r : pvdisplay_s) : pvdisplay_s :=
  {| previous_line := previous_line r; next_line := next_line r;
     lastwritten_buffer := lastwritten_buffer r; initial_offset := initial_offset r;
     next_line_len := v; lastwritten_bytes := lastwritten_bytes r;
     showing_last_written := showing_last_written r;
     showing_previous_line := showing_previous_line r; final_update := final_update r;
     output_produced := output_produced r |}.


Record pvstate_s : Type := Build_pvstate {
  exit_status : Z;                  (* status.exit_status *)
  control : pvcontrol_s;
  pipe_closed : Z;                  (* flags.pipe_closed *)
  display : pvdisplay_s;
  transfer : pvtransferstate_s
}.

(** The state together with what lives outside it: the C library's errno
    and the calls and messages so far, oldest first. *)
Record world : Type := Build_world {
  pv : pvstate_s;
  errno : errno_t;
  trace : list event
}.

Definition on_state (f : pvstate_s -> pvstate_s) (w : world) : world :=
  {| pv := f (pv w); errno := errno w; trace := trace w |}.

Definition on_transfer (f : pvtransferstate_s -> pvtransferstate_s) (w : world) : world :=
  on_state (fun s => {| exit_status := exit_status s; control := control s;
                        pipe_closed := pipe_closed s; display := display s;
                        transfer := f (transfer s) |}) w.

Definition on_control (f : pvcontrol_s -> pvcontrol_s) (w : world) : world :=
  on_state (fun s => {| exit_status := exit_status s; control := f (control s);
                        pipe_closed := pipe_closed s; display := display s;
                        transfer := transfer s |}) w.

Definition on_display (f : pvdisplay_s -> pvdisplay_s) (w : world) : world :=
  on_state (fun s => {| exit_status := exit_status s; control := control s;
                        pipe_closed := pipe_closed s; display := f (display s);
                        transfer := transfer s |}) w.

Definition set_exit_status (v : Z) (w : world) : world :=
  on_state (fun s => {| exit_status := v; control := control s;
                        pipe_closed := pipe_closed s; display := display s;
                        transfer := transfer s |}) w.

Definition set_pipe_closed (v : Z) (w : world) : world :=
  on_state (fun s => {| exit_status := exit_status s; control := control s;
                        pipe_closed := v; display := display s;
                        transfer := transfer s |}) w.

Definition emit (e : event) (w : world) : world :=
  {| pv := pv w; errno := errno w; trace := trace w ++ [e] |}.

(** [pv_error]: one line on standard error. *)
Definition pv_error (m : message) (w : world) : world := emit (EvError m) w.

(** A system call: it is recorded, and errno changes when it fails. *)
Definition syscall (e : event) (r : sysret) (w : world) : Z * world :=
  (fst r, {| pv := pv w;
             errno := if fst r <? 0 then snd r else errno w;
             trace := trace w ++ [e] |}).

(** [emits w w' new]: from [w] to [w'], exactly [new] was added to the trace. *)
Definition emits (w w' : world) (new : list event) : Prop :=
  trace w' = trace w ++ new.

(** What was added to the trace from [w] to [w']. *)
Definition events_since (w w' : world) : list event :=
  skipn (List.length (trace w)) (trace w').

(** ** Byte buffers *)

Definition NUL : byte := x00.
Definition NEWLINE : byte := x0a.

Definition buf_get (buf : list byte) (i : Z) : byte := nth (Z.to_nat i) buf NUL.

Definition buf_slice (buf : list byte) (pos len : Z) : list byte :=
  firstn (Z.to_nat len) (skipn (Z.to_nat pos) buf).

(** memcpy(buf + pos, data, |data|) *)
Definition buf_store (buf : list byte) (pos : Z) (data : list byte) : list byte :=
  firstn (Z.to_nat pos) buf ++ data ++ skipn (Z.to_nat pos + List.length data) buf.

(** memset(buf + pos, 0, len) *)
Definition buf_zero (buf : list byte) (pos len : Z) : list byte :=
  buf_store buf pos (repeat NUL (Z.to_nat len)).

Definition option_map_buf (f : list byte -> list byte) (b : option (list byte))
  : option (list byte) :=
  match b with Some l => Some (f l) | None => None end.

(** * src/pv/transfer.c *)

Module Transfer.

(** Outcomes of the system calls [pv__transfer_read] may make.  The second
    [lseek(SEEK_SET)] is the one-byte retry. *)
Record read_env : Type := Build_read_env {
  re_splice : sysret;               (* splice(fd, output_fd, n, SPLICE_F_MORE) *)
  re_fdatasync : sysret;            (* fdatasync(output_fd) after a splice *)
  re_read : sysret;                 (* pv__transfer_read_repeated(): like read() *)
  re_read_data : list byte;         (* the bytes its read() calls gave *)
  re_lseek_cur : sysret;            (* lseek(fd, 0, SEEK_CUR) *)
  re_lseek_set : Z -> sysret;       (* lseek(fd, target, SEEK_SET) *)
  re_lseek_retry : Z -> sysret      (* the same, on the retry *)
}.

(** [*eof_in = true; if (write_position >= read_position) *eof_out = true;] *)
Definition mark_input_ended (w : world) (eof_out : bool) : bool * bool :=
  (true,
   if write_position (transfer (pv w)) >=? read_position (transfer (pv w))
   then true else eof_out).

(** Lines 342-358: how much may be read. *)
Definition bytes_can_read_of (s : pvstate_s) : Z :=
  let bytes_can_read :=
    to_size_t (buffer_size (transfer s) - read_position (transfer s)) in
  if stop_at_size (control s) && negb (linemode (control s)) then
    let bytes_remaining_to_read :=
      to_off_t (size (control s) - total_bytes_read (transfer s)) in
    if to_off_t bytes_can_read >? bytes_remaining_to_read
    then to_size_t bytes_remaining_to_read
    else bytes_can_read
  else bytes_can_read.

(** The call of [pv__transfer_read_repeated] (lines 116-173) on the free
    part of the buffer.  The wrapper calls read() until the buffer is full,
    the input has nothing more at present or its time is up, each read()
    storing its bytes after those of the one before.  A positive result is
    the count of bytes stored.  A negative result is that of a read() that
    failed: the bytes stored by the calls before it, fewer than were asked
    for, stay in the buffer, although the result does not count them. *)
Definition read_into_buffer (env : read_env) (w : world) (fd bytes_can_read : Z)
  : Z * world :=
  let '(nread, w) := syscall (EvRead fd bytes_can_read) (re_read env) w in
  let stored :=
    if nread >? 0 then firstn (Z.to_nat nread) (re_read_data env)
    else if nread <? 0
    then firstn (Z.to_nat (bytes_can_read - 1)) (re_read_data env)
    else [] in
  (nread,
   on_transfer (fun t =>
     set_transfer_buffer
       (option_map_buf (fun b => buf_store b (read_position t) stored)
          (transfer_buffer t)) t) w).

(** Lines 360-427: splice() if it may be used, read() otherwise.  Returns
    nread and do_not_skip_errors. *)
Definition splice_or_read (cfg : config_h) (env : read_env) (w : world)
    (fd max_to_write bytes_can_read : Z) (do_not_skip_errors : bool)
  : Z * bool * world :=
  if HAVE_SPLICE cfg then
    let w := on_transfer (set_splice_used false) w in
    let c := control (pv w) in
    let '(nread, do_not_skip_errors, w) :=
      if negb (linemode c) && negb (no_splice c)
         && negb (fd =? splice_failed_fd (transfer (pv w)))
         && (to_write (transfer (pv w)) =? 0)
      then
        let bytes_to_splice :=
          if (rate_limit c >? 0) || negb (max_to_write =? 0)
          then to_size_t max_to_write else bytes_can_read in
        let '(nread, w) :=
          syscall (EvSplice fd (output_fd c) bytes_to_splice) (re_splice env) w in
        let w := on_transfer (set_splice_used true) w in
        if (nread <? 0) && errno_eqb (errno w) EINVAL then
          (nread, do_not_skip_errors,
           on_transfer (fun t => set_splice_used false (set_splice_failed_fd fd t)) w)
        else if nread >? 0 then
          let w :=
            on_transfer (fun t =>
              set_total_bytes_read (to_off_t (total_bytes_read t + nread))
                (set_written nread t)) w in
          if HAVE_FDATASYNC cfg && sync_after_write c then
            let '(r, w) := syscall (EvFdatasync (output_fd c)) (re_fdatasync env) w in
            if (r <? 0) && errno_eqb (errno w) EIO
            then (-1, true, w)
            else (nread, do_not_skip_errors, w)
          else (nread, do_not_skip_errors, w)
        else if (nread =? -1) && errno_eqb (errno w) EAGAIN then
          (nread, do_not_skip_errors, w)
        else
          (nread, do_not_skip_errors, on_transfer (set_splice_used false) w)
      else (0, do_not_skip_errors, w) in
    if negb (splice_used (transfer (pv w))) then
      let '(nread, w) := read_into_buffer env w fd bytes_can_read in
      (nread, do_not_skip_errors, w)
    else (nread, do_not_skip_errors, w)
  else
    let '(nread, w) := read_into_buffer env w fd bytes_can_read in
    (nread, do_not_skip_errors, w).

(** Lines 540-547: the skip amount when no block size was given. *)
Definition adaptive_skip (read_errors_in_a_row : Z) : Z :=
  if read_errors_in_a_row <? 10 then
    (if read_errors_in_a_row <? 5 then 1 else 2)
  else if read_errors_in_a_row <? 20 then
    let shift_by := to_uint (read_errors_in_a_row - 10) in
    to_off_t (to_int (Z.shiftl 1 shift_by))
  else 512.

(** Lines 537-548. *)
Definition choose_skip (error_skip_block read_errors_in_a_row : Z) : Z :=
  if error_skip_block >? 0 then error_skip_block
  else adaptive_skip read_errors_in_a_row.

(** Lines 555-561: stop at the next multiple of the skip amount. *)
Definition align_skip (orig_offset amount_to_skip : Z) : Z :=
  if amount_to_skip >? 1 then
    let skip_offset := to_off_t (orig_offset + amount_to_skip) in
    let skip_offset := to_off_t (skip_offset - Z.rem skip_offset amount_to_skip) in
    if skip_offset >? orig_offset
    then to_off_t (skip_offset - orig_offset)
    else amount_to_skip
  else amount_to_skip.

(** Lines 566-567. *)
Definition trim_skip (amount_to_skip bytes_can_read : Z) : Z :=
  if amount_to_skip >? to_off_t bytes_can_read
  then to_off_t bytes_can_read else amount_to_skip.

(** Lines 498-634: try to skip past a read error. *)
Definition skip_past_error (env : read_env) (w : world) (fd : Z)
    (eof_in eof_out : bool) (bytes_can_read : Z) : Z * bool * bool * world :=
  let w :=
    if negb (read_error_warning_shown (transfer (pv w))) then
      on_transfer (set_read_error_warning_shown true)
        (pv_error MsgWarningReadErrors w)
    else w in
  let '(orig_offset, w) := syscall (EvLseekCur fd 0) (re_lseek_cur env) w in
  if 0 >? orig_offset then
    let w := pv_error MsgNotSeekable w in
    let '(eof_in, eof_out) := mark_input_ended w eof_out in
    (1, eof_in, eof_out, w)
  else
    let amount_to_skip :=
      choose_skip (error_skip_block (control (pv w)))
                  (read_errors_in_a_row (transfer (pv w))) in
    let amount_to_skip := align_skip orig_offset amount_to_skip in
    let amount_to_skip := trim_skip amount_to_skip bytes_can_read in
    let target := to_off_t (orig_offset + amount_to_skip) in
    let '(skip_offset, w) :=
      syscall (EvLseekSet fd target) (re_lseek_set env target) w in
    let '(skip_offset, w) :=
      if skip_offset <? 0 then
        let target := to_off_t (orig_offset + 1) in
        syscall (EvLseekSet fd target) (re_lseek_retry env target) w
      else (skip_offset, w) in
    let '(amount_skipped, eof_in, w) :=
      if skip_offset <? 0 then
        (-1, true,
         if negb (errno_eqb (errno w) EINVAL) then pv_error MsgFailedToSeek w else w)
      else (to_off_t (skip_offset - orig_offset), eof_in, w) in
    if amount_skipped >? 0 then
      let w :=
        on_transfer (fun t =>
          set_read_position (to_size_t (read_position t + amount_skipped))
            (set_transfer_buffer
               (option_map_buf
                  (fun b => buf_zero b (read_position t) (to_size_t amount_skipped))
                  (transfer_buffer t)) t)) w in
      let w :=
        if skip_errors (control (pv w)) <? 2
        then pv_error (MsgSkipped orig_offset skip_offset amount_skipped) w
        else w in
      (1, eof_in, eof_out, w)
    else
      let '(eof_in, eof_out) := mark_input_ended w eof_out in
      (1, eof_in, eof_out, w).

(** [pv__transfer_read]: returns 0 on a transient error, 1 otherwise, with
    the new values of [*eof_in] and [*eof_out]. *)
Definition pv__transfer_read (cfg : config_h) (env : read_env) (w : world)
    (fd : Z) (eof_in eof_out : bool) (max_to_write : Z)
  : Z * bool * bool * world :=
  let do_not_skip_errors := skip_errors (control (pv w)) =? 0 in
  let bytes_can_read := bytes_can_read_of (pv w) in
  let '(nread, do_not_skip_errors, w) :=
    splice_or_read cfg env w fd max_to_write bytes_can_read do_not_skip_errors in
  if nread =? 0 then
    let '(eof_in, eof_out) := mark_input_ended w eof_out in
    (1, eof_in, eof_out, w)
  else if nread >? 0 then
    let w := on_transfer (set_read_errors_in_a_row 0) w in
    let w :=
      if HAVE_SPLICE cfg && splice_used (transfer (pv w)) then w
      else on_transfer (fun t =>
             set_read_position (to_size_t (read_position t + nread)) t) w in
    let w :=
      on_transfer (fun t =>
        set_total_bytes_read (to_off_t (total_bytes_read t + nread)) t) w in
    (1, eof_in, eof_out, w)
  else if errno_eqb (errno w) EINTR || errno_eqb (errno w) EAGAIN then
    (* is_data_ready(-1, NULL, -1, NULL, 10000): a 10 ms pause *)
    (0, eof_in, eof_out, emit (EvSelect (-1) (-1) 10000) w)
  else
    let w := set_exit_status (Z.lor (exit_status (pv w)) PV_ERROREXIT_TRANSFER) w in
    let w :=
      on_transfer (fun t =>
        set_read_errors_in_a_row (to_off_t (read_errors_in_a_row t + 1)) t) w in
    if do_not_skip_errors then
      let w := pv_error MsgReadFailed w in
      let '(eof_in, eof_out) := mark_input_ended w eof_out in
      (1, eof_in, eof_out, w)
    else
      skip_past_error env w fd eof_in eof_out bytes_can_read.

(** Outcomes of the system calls [pv__transfer_write] may make. *)
Record write_env : Type := Build_write_env {
  we_lseek : sysret;                (* lseek(output_fd, to_write, SEEK_CUR) *)
  we_setitimer : sysret;            (* arming the interval timer *)
  we_write : sysret;                (* pv__transfer_write_repeated(): like write() *)
  we_cleartimer : sysret;           (* clearing the interval timer *)
  we_calloc : bool                  (* whether calloc() of the line positions worked *)
}.

(** Lines 683-692: whether the bytes to be written are all null. *)
Definition all_nulls (buf : list byte) (pos len : Z) : bool :=
  forallb (fun b => Byte.eqb b NUL) (buf_slice buf pos len).

(** One turn of the loop of lines 835-900, on the byte [b] just written:
    the lines counted so far, the display and the transfer state. *)
Definition track_byte (separator b : byte)
    (acc : Z * pvdisplay_s * pvtransferstate_s) : Z * pvdisplay_s * pvtransferstate_s :=
  let '(lines, d, t) := acc in
  let advance (t : pvtransferstate_s) :=
    set_last_output_position (to_off_t (last_output_position t + 1)) t in
  if negb (Byte.eqb b separator) then
    let d :=
      if showing_previous_line d
         && (next_line_len d <? PV_SIZEOF_PREVLINE_BUFFER - 1)
      then set_next_line_len (next_line_len d + 1)
             (set_next_line (buf_store (next_line d) (next_line_len d) [b]) d)
      else d in
    (lines, d, advance t)
  else
    let lines := lines + 1 in
    let d :=
      if showing_previous_line d then
        let len :=
          if next_line_len d >? PV_SIZEOF_PREVLINE_BUFFER - 1
          then PV_SIZEOF_PREVLINE_BUFFER - 1 else next_line_len d in
        let cleared := repeat NUL (Z.to_nat PV_SIZEOF_PREVLINE_BUFFER) in
        let copied :=
          if len >? 0 then buf_store cleared 0 (buf_slice (next_line d) 0 len)
          else cleared in
        set_next_line_len 0 (set_previous_line copied d)
      else d in
    match line_positions t with
    | None => (lines, d, advance t)
    | Some positions =>
        let positions :=
          firstn (Z.to_nat (line_positions_head t)) positions
          ++ [last_output_position t]
          ++ skipn (Z.to_nat (line_positions_head t) + 1) positions in
        let head := line_positions_head t + 1 in
        let head := if head >=? line_positions_capacity t then 0 else head in
        let length :=
          if line_positions_length t <? line_positions_capacity t
          then line_positions_length t + 1 else line_positions_length t in
        (lines, d,
         advance (set_line_positions_length length
                   (set_line_positions_head head
                     (set_line_positions (Some positions) t))))
    end.

Definition track_lines (separator : byte) (bytes : list byte)
    (d : pvdisplay_s) (t : pvtransferstate_s) : Z * pvdisplay_s * pvtransferstate_s :=
  fold_left (fun acc b => track_byte separator b acc) bytes (0, d, t).

(** Lines 913-947: remember the last few bytes written. *)
Definition update_lastwritten (buf : list byte) (write_position nwritten : Z)
    (d : pvdisplay_s) : pvdisplay_s :=
  let new_portion_size :=
    if nwritten >? lastwritten_bytes d then lastwritten_bytes d else nwritten in
  let old_portion_size := lastwritten_bytes d - new_portion_size in
  let moved :=
    if old_portion_size >? 0
    then buf_store (lastwritten_buffer d) 0
           (buf_slice (lastwritten_buffer d) new_portion_size old_portion_size)
    else lastwritten_buffer d in
  set_lastwritten_buffer
    (buf_store moved old_portion_size
       (buf_slice buf (write_position - new_portion_size) new_portion_size)) d.

(** Lines 790-963: the write gave nwritten > 0. *)
Definition write_completed (env : write_env) (w : world) (buf : list byte)
    (nwritten : Z) (eof_in eof_out : bool) (lineswritten : option Z)
  : Z * bool * bool * option Z * world :=
  let tracking_lines :=
    match lineswritten with
    | Some _ =>
        if linemode (control (pv w)) then true
        else showing_previous_line (display (pv w))
    | None => showing_previous_line (display (pv w))
    end in
  let '(lineswritten, w) :=
    if tracking_lines then
      let w :=
        match line_positions (transfer (pv w)), lineswritten with
        | None, Some _ =>
            let w :=
              on_transfer (set_line_positions_capacity MAX_LINE_POSITIONS) w in
            if we_calloc env then
              on_transfer
                (set_line_positions
                   (Some (repeat 0 (Z.to_nat MAX_LINE_POSITIONS)))) w
            else pv_error MsgLinePositionAlloc w
        | _, _ => w
        end in
      let separator :=
        if null_terminated_lines (control (pv w)) then NUL else NEWLINE in
      let '(lines, d, t) :=
        track_lines separator
          (buf_slice buf (write_position (transfer (pv w))) nwritten)
          (display (pv w)) (transfer (pv w)) in
      let w := on_transfer (fun _ => t) (on_display (fun _ => d) w) in
      (match lineswritten with
       | Some l => Some (to_long (l + lines))
       | None => None
       end, w)
    else (lineswritten, w) in
  let w :=
    on_transfer (fun t =>
      set_written (to_ssize_t (written t + nwritten))
        (set_write_position (to_size_t (write_position t + nwritten)) t)) w in
  let w :=
    if showing_last_written (display (pv w)) && (nwritten >? 0) then
      on_display
        (update_lastwritten buf (write_position (transfer (pv w))) nwritten) w
    else w in
  if write_position (transfer (pv w)) >=? read_position (transfer (pv w)) then
    (1, eof_in, (if eof_in then true else eof_out), lineswritten,
     on_transfer (fun t => set_read_position 0 (set_write_position 0 t)) w)
  else (1, eof_in, eof_out, lineswritten, w).

(** Lines 965-1001: the write gave nwritten <= 0. *)
Definition write_failed (w : world) (nwritten : Z) (write_errno : errno_t)
    (eof_in eof_out : bool) (lineswritten : option Z)
  : Z * bool * bool * option Z * world :=
  if (nwritten =? 0) || errno_eqb write_errno EINTR || errno_eqb write_errno EAGAIN
  then
    (0, eof_in, eof_out, lineswritten, emit (EvSelect (-1) (-1) 10000) w)
  else if errno_eqb write_errno EPIPE then
    (0, true, true, lineswritten, set_pipe_closed 1 w)
  else
    let w := pv_error MsgWriteFailed w in
    let w := set_exit_status (Z.lor (exit_status (pv w)) PV_ERROREXIT_TRANSFER) w in
    (1, eof_in, true, lineswritten, on_transfer (set_written (-1)) w).

(** Lines 728-785: the timed call of [pv__transfer_write_repeated].  Returns
    nwritten and write_errno. *)
Definition timed_write (cfg : config_h) (env : write_env) (w : world)
  : Z * errno_t * world :=
  let t := transfer (pv w) in
  let w :=
    if HAVE_SETITIMER cfg then
      let '(r, w) := syscall (EvSetitimer true) (we_setitimer env) w in
      if negb (r =? 0) then pv_error MsgSetTimerFailed w else w
    else emit (EvSetitimer true) w in
  let '(nwritten, w) :=
    syscall (EvWrite (output_fd (control (pv w))) (to_size_t (to_write t)))
            (we_write env) w in
  let write_errno := if nwritten <? 0 then errno w else ENONE in
  let w :=
    if HAVE_SETITIMER cfg then
      let '(r, w) := syscall (EvSetitimer false) (we_cleartimer env) w in
      if negb (r =? 0) then pv_error MsgClearTimerFailed w else w
    else emit (EvSetitimer false) w in
  (nwritten, write_errno, w).

(** [pv__transfer_write]: returns 0 on a transient error, 1 otherwise, with
    the new values of [*eof_in], [*eof_out] and [*lineswritten]. *)
Definition pv__transfer_write (cfg : config_h) (env : write_env) (w : world)
    (eof_in eof_out : bool) (lineswritten : option Z)
  : Z * bool * bool * option Z * world :=
  match transfer_buffer (transfer (pv w)) with
  | None =>
      let w := pv_error MsgNoTransferBuffer w in
      let w := set_exit_status (Z.lor (exit_status (pv w)) PV_ERROREXIT_MEMORY) w in
      (1, eof_in, true, lineswritten, on_transfer (set_written (-1)) w)
  | Some buf =>
      let t := transfer (pv w) in
      let c := control (pv w) in
      let '(nwritten, write_errno, w) :=
        if discard_input c then (to_write t, ENONE, w)
        else if to_write t >? 0 then
          if sparse_output c && negb (output_not_seekable t)
             && all_nulls buf (write_position t) (to_size_t (to_write t))
          then
            let '(output_offset, w) :=
              syscall (EvLseekCur (output_fd c) (to_write t)) (we_lseek env) w in
            if output_offset =? -1 then
              timed_write cfg env (on_transfer (set_output_not_seekable true) w)
            else (to_write t, ENONE, w)
          else timed_write cfg env w
        else (0, ENONE, w) in
      if nwritten >? 0
      then write_completed env w buf nwritten eof_in eof_out lineswritten
      else write_failed w nwritten write_errno eof_in eof_out lineswritten
  end.

(** [pv_memrchr] of src/pv/string.c: the offset of the last byte equal to
    [match_] among the first [length] bytes of [buffer], or [None] for NULL. *)
Fixpoint memrchr_from (buffer : list byte) (match_ : byte) (n : nat) : option Z :=
  match n with
  | O => None
  | S k =>
      if Byte.eqb (nth k buffer NUL) match_ then Some (Z.of_nat k)
      else memrchr_from buffer match_ k
  end.

Definition pv_memrchr (buffer : list byte) (match_ : byte) (length : Z) : option Z :=
  if length <? 1 then None else memrchr_from buffer match_ (Z.to_nat length).

(** Outcomes of the calls of [pv__allocate_aligned_buffer]. *)
Record alloc_env : Type := Build_alloc_env {
  ae_fpathconf_in : sysret;         (* fpathconf(infd, _PC_REC_XFER_ALIGN) *)
  ae_fpathconf_out : sysret;        (* fpathconf(outfd, _PC_REC_XFER_ALIGN) *)
  ae_sysconf : sysret;              (* sysconf(_SC_PAGESIZE) *)
  ae_posix_memalign : Z;            (* posix_memalign(): 0 when it gives memory *)
  ae_malloc : bool                  (* whether malloc() gives memory *)
}.

(** Outcomes of the system calls of one call of [pv_transfer]. *)
Record transfer_env : Type := Build_transfer_env {
  te_alloc : alloc_env;
  te_select : sysret;               (* select() inside is_data_ready() *)
  te_fd_in_set : bool;              (* FD_ISSET(fd_in, &readfds) afterwards *)
  te_fd_out_set : bool;             (* FD_ISSET(fd_out, &writefds) afterwards *)
  te_read : read_env;
  te_write : write_env
}.

(** [is_data_ready(fd_in, &ready_in, fd_out, &ready_out, usec)] *)
Definition is_data_ready (env : transfer_env) (w : world) (fd_in fd_out usec : Z)
  : Z * bool * bool * world :=
  let '(result, w) := syscall (EvSelect fd_in fd_out usec) (te_select env) w in
  (result,
   (result >? 0) && (fd_in >=? 0) && te_fd_in_set env,
   (result >? 0) && (fd_out >=? 0) && te_fd_out_set env,
   w).

(** Lines 1090-1115. *)
Definition apply_direct_io (cfg : config_h) (w : world) (fd : Z)
    (eof_in eof_out : bool) : world :=
  if HAVE_O_DIRECT cfg && direct_io_changed (control (pv w)) then
    let w := if negb eof_in then emit (EvFcntl fd) w else w in
    let w :=
      if negb eof_out then emit (EvFcntl (output_fd (control (pv w)))) w else w in
    on_control (set_direct_io_changed false) w
  else w.

(** Lines 1121-1125. *)
Definition reset_error_skipping (w : world) (fd : Z) : world :=
  if negb (fd =? last_read_skip_fd (transfer (pv w))) then
    on_transfer (fun t =>
      set_read_error_warning_shown false
        (set_read_errors_in_a_row 0 (set_last_read_skip_fd fd t))) w
  else w.

(** Lines 1035-1048: the alignment asked for. *)
Definition required_alignment_of (input_alignment output_alignment min_alignment : Z)
  : Z :=
  let required_alignment :=
    if input_alignment >? output_alignment then input_alignment
    else if output_alignment >? input_alignment then output_alignment
    else if input_alignment <? min_alignment then min_alignment
    else input_alignment in
  if required_alignment <? min_alignment then min_alignment
  else required_alignment.

(** Whether the aligned allocation is compiled in (line 1023). *)
Definition aligned_allocation (cfg : config_h) : bool :=
  HAVE_FPATHCONF cfg && HAVE_POSIX_MEMALIGN cfg && HAVE_PC_REC_XFER_ALIGN cfg.

(** [pv__allocate_aligned_buffer]: a zeroed buffer of [target_size] bytes,
    or [None] for NULL. *)
Definition pv__allocate_aligned_buffer (cfg : config_h) (env : alloc_env)
    (w : world) (outfd infd target_size : Z) : option (list byte) * world :=
  let zeroed := repeat NUL (Z.to_nat target_size) in
  let by_malloc (w : world) :=
    let w := emit (EvMalloc target_size) w in
    if ae_malloc env then (Some zeroed, w)
    else (None, {| pv := pv w; errno := ENOMEM; trace := trace w |}) in
  if aligned_allocation cfg then
    let '(input_alignment, w) :=
      if infd >=? 0 then syscall (EvFpathconf infd) (ae_fpathconf_in env) w
      else (-1, w) in
    let '(output_alignment, w) :=
      syscall (EvFpathconf outfd) (ae_fpathconf_out env) w in
    let '(min_alignment, w) :=
      if HAVE_SYSCONF cfg && HAVE_SC_PAGESIZE cfg
      then syscall EvSysconf (ae_sysconf env) w
      else (8192, w) in
    let required_alignment :=
      required_alignment_of input_alignment output_alignment min_alignment in
    let w := emit (EvPosixMemalign (to_size_t required_alignment) target_size) w in
    if ae_posix_memalign env =? 0 then (Some zeroed, w) else by_malloc w
  else by_malloc w.

(** Whether [pv__allocate_aligned_buffer] returns a buffer. *)
Definition allocation_succeeds (cfg : config_h) (env : alloc_env) : bool :=
  (aligned_allocation cfg && (ae_posix_memalign env =? 0)) || ae_malloc env.

(** Lines 1149-1178: a larger buffer when the target size has grown. *)
Definition grow_buffer (cfg : config_h) (env : transfer_env) (w : world)
    (fd : Z) (buf : list byte) : world :=
  let t := transfer (pv w) in
  let target := target_buffer_size (control (pv w)) in
  if buffer_size t <? target then
    let '(newptr, w) :=
      pv__allocate_aligned_buffer cfg (te_alloc env) w
        (output_fd (control (pv w))) fd (to_size_t (target + 32)) in
    match newptr with
    | None => on_control (set_target_buffer_size (buffer_size t)) w
    | Some newbuf =>
        let newbuf :=
          if buffer_size t >? 0
          then buf_store newbuf 0 (buf_slice buf 0 (buffer_size t))
          else newbuf in
        on_transfer (fun t => set_buffer_size target
                                (set_transfer_buffer (Some newbuf) t)) w
    end
  else w.

(** Lines 1267-1277: in line mode, write up to and including the last
    newline only. *)
Definition truncate_to_last_line (s : pvstate_s) : Z :=
  let t := transfer s in
  if (to_write t >? 0) && linemode (control s)
     && negb (null_terminated_lines (control s))
  then
    match transfer_buffer t with
    | Some buf =>
        let start := skipn (Z.to_nat (write_position t)) buf in
        match pv_memrchr start NEWLINE (to_size_t (to_write t)) with
        | Some end_ => to_ssize_t (end_ + 1)
        | None => to_write t
        end
    | None => to_write t
    end
  else to_write t.

(** Lines 1303-1315 (MAXIMISE_BUFFER_FILL). *)
Definition rotate_buffer (w : world) : world :=
  let t := transfer (pv w) in
  if write_position t >? 0 then
    if write_position t <? read_position t then
      on_transfer (fun t =>
        set_write_position 0
          (set_read_position (to_size_t (read_position t - write_position t))
            (set_transfer_buffer
               (option_map_buf
                  (fun b => buf_store b 0
                     (buf_slice b (write_position t)
                        (read_position t - write_position t)))
                  (transfer_buffer t)) t))) w
    else
      on_transfer (fun t => set_read_position 0 (set_write_position 0 t)) w
  else w.

(** Lines 1188-1222: what to wait for, and the wait.  Returns n,
    ready_to_read and ready_to_write. *)
Definition await_descriptors (env : transfer_env) (w : world)
    (fd : Z) (eof_in eof_out : bool) (allowed : Z) : Z * bool * bool * world :=
  let check_read_fd :=
    if negb eof_in
       && (read_position (transfer (pv w)) <? buffer_size (transfer (pv w)))
    then fd else -1 in
  let w :=
    on_transfer (fun t =>
      let to_write := to_ssize_t (read_position t - write_position t) in
      let to_write :=
        if (rate_limit (control (pv w)) >? 0) || (allowed >? 0) then
          (if to_write >? allowed then to_ssize_t allowed else to_write)
        else to_write in
      set_to_write to_write t) w in
  let check_write_fd :=
    if negb eof_out && (to_write (transfer (pv w)) >? 0)
    then output_fd (control (pv w)) else -1 in
  is_data_ready env w check_read_fd check_write_fd 90000.

(** Lines 1254-1261: read, if there is data to read. *)
Definition read_stage (cfg : config_h) (env : transfer_env) (w : world)
    (fd : Z) (eof_in eof_out : bool) (allowed : Z) (ready_to_read : bool)
  : Z * bool * bool * world :=
  if ready_to_read
  then pv__transfer_read cfg (te_read env) w fd eof_in eof_out allowed
  else (1, eof_in, eof_out, w).

(** Lines 1263-1297: cut the amount to write at the last newline, then write,
    if the output is ready. *)
Definition write_stage (cfg : config_h) (env : transfer_env) (w : world)
    (eof_in eof_out : bool) (lineswritten : option Z) (ready_to_write : bool)
  : Z * bool * bool * option Z * world :=
  let w := on_transfer (set_to_write (truncate_to_last_line (pv w))) w in
  let t := transfer (pv w) in
  match lineswritten with
  | Some _ =>
      if ready_to_write
         && negb (HAVE_SPLICE cfg && splice_used t)
         && (read_position t >? write_position t)
         && (to_write t >? 0)
      then pv__transfer_write cfg (te_write env) w eof_in eof_out lineswritten
      else (1, eof_in, eof_out, lineswritten, w)
  | None => (1, eof_in, eof_out, lineswritten, w)
  end.

(** Lines 1183-1322: from the early return on EOF to the end. *)
Definition transfer_body (cfg : config_h) (env : transfer_env) (w : world)
    (fd : Z) (eof_in eof_out : bool) (allowed : Z) (lineswritten : option Z)
  : Z * bool * bool * option Z * world :=
  if eof_in && eof_out then (0, eof_in, eof_out, lineswritten, w)
  else
    let '(n, ready_to_read, ready_to_write, w) :=
      await_descriptors env w fd eof_in eof_out allowed in
    if n <? 0 then
      if errno_eqb (errno w) EINTR then (0, eof_in, eof_out, lineswritten, w)
      else
        let w := pv_error MsgSelectFailed w in
        let w :=
          set_exit_status (Z.lor (exit_status (pv w)) PV_ERROREXIT_TRANSFER) w in
        (-1, eof_in, eof_out, lineswritten, w)
    else
      let w := on_transfer (set_written 0) w in
      let '(r, eof_in, eof_out, w) :=
        read_stage cfg env w fd eof_in eof_out allowed ready_to_read in
      if r =? 0 then (0, eof_in, eof_out, lineswritten, w)
      else
        let '(r, eof_in, eof_out, lineswritten, w) :=
          write_stage cfg env w eof_in eof_out lineswritten ready_to_write in
        if r =? 0 then (0, eof_in, eof_out, lineswritten, w)
        else
          let w := rotate_buffer w in
          (written (transfer (pv w)), eof_in, eof_out, lineswritten, w).

(** Lines 1131-1140: the first allocation of the buffer; [None] when it
    fails. *)
Definition ensure_buffer (cfg : config_h) (env : transfer_env) (w : world) (fd : Z)
  : option (list byte) * world :=
  match transfer_buffer (transfer (pv w)) with
  | Some buf => (Some buf, w)
  | None =>
      let target := target_buffer_size (control (pv w)) in
      let '(newptr, w) :=
        pv__allocate_aligned_buffer cfg (te_alloc env) w
          (output_fd (control (pv w))) fd (to_size_t (target + 32)) in
      match newptr with
      | Some buf =>
          (Some buf,
           on_transfer (fun t => set_buffer_size target
                                   (set_transfer_buffer (Some buf) t)) w)
      | None => (None, w)
      end
  end.

(** [pv_transfer]: returns the number of bytes written, or a negative value
    on error, with the new values of [*eof_in], [*eof_out], [*lineswritten]. *)
Definition pv_transfer (cfg : config_h) (env : transfer_env) (w : world)
    (fd : Z) (eof_in eof_out : bool) (allowed : Z) (lineswritten : option Z)
  : Z * bool * bool * option Z * world :=
  let w := apply_direct_io cfg w fd eof_in eof_out in
  let w := reset_error_skipping w fd in
  let '(buffer, w) := ensure_buffer cfg env w fd in
  match buffer with
  | None =>
      let w := pv_error MsgBufferAllocFailed w in
      let w := set_exit_status (Z.lor (exit_status (pv w)) PV_ERROREXIT_MEMORY) w in
      (-1, eof_in, eof_out, lineswritten, w)
  | Some buf =>
      let w := grow_buffer cfg env w fd buf in
      let lineswritten :=
        match lineswritten with
        | Some l => if linemode (control (pv w)) then Some 0 else Some l
        | None => None
        end in
      transfer_body cfg env w fd eof_in eof_out allowed lineswritten
  end.

(** ** Successive calls

    One call of [pv_transfer] as [pv_main_loop] makes it: what the loop did
    to the state since the previous call, then the arguments. *)
Record transfer_call : Type := Build_transfer_call {
  tc_between : world -> world;
  tc_env : transfer_env;
  tc_fd : Z;
  tc_eof_in : bool;
  tc_eof_out : bool;
  tc_allowed : Z;
  tc_lineswritten : option Z
}.

Definition call_transfer (cfg : config_h) (c : transfer_call) (w : world) : world :=
  snd (pv_transfer cfg (tc_env c) (tc_between c w) (tc_fd c)
         (tc_eof_in c) (tc_eof_out c) (tc_allowed c) (tc_lineswritten c)).

Fixpoint run_transfers (cfg : config_h) (calls : list transfer_call) (w : world)
  : world :=
  match calls with
  | [] => w
  | c :: rest => run_transfers cfg rest (call_transfer cfg c w)
  end.

(** What the rest of the loop may do between two calls: anything that
    prints nothing and keeps line mode and the three members of the transfer
    state that only transfer.c writes. *)
Definition keeps_bookkeeping (f : world -> world) : Prop :=
  forall w,
    trace (f w) = trace w
    /\ linemode (control (pv (f w))) = linemode (control (pv w))
    /\ splice_failed_fd (transfer (pv (f w))) = splice_failed_fd (transfer (pv w))
    /\ read_error_warning_shown (transfer (pv (f w)))
       = read_error_warning_shown (transfer (pv w))
    /\ last_read_skip_fd (transfer (pv (f w))) = last_read_skip_fd (transfer (pv w)).

End Transfer.

(** * src/pv/loop.c: the accounting of one pass of [pv_main_loop] *)

Module Loop.

(** Outcomes of the system calls of one pass. *)
Record pass_env : Type := Build_pass_env {
  pe_transfer : Transfer.transfer_env;
  pe_ioctl : Z;                     (* return value of ioctl(output_fd, FIONREAD, &nbytes) *)
  pe_nbytes : Z                     (* the int it stores in nbytes *)
}.

(** The local variables of [pv_main_loop] that one pass reads and writes. *)
Record locals : Type := Build_locals {
  input_fd : Z;
  output_is_pipe : bool;
  eof_in : bool;
  eof_out : bool;
  lineswritten : Z;                 (* long *)
  cansend : Z;                      (* off_t *)
  target : Q;                       (* long double *)
  written_now : Z                   (* ssize_t written *)
}.

(** Lines 402-429: how much is sitting in the output pipe. *)
Definition update_unread (cfg : config_h) (env : pass_env) (output_is_pipe : bool)
    (w : world) : world :=
  if HAVE_FIONREAD cfg && output_is_pipe then
    if negb (pipe_closed (pv w) =? 0) then
      on_transfer (set_written_but_not_consumed 0) w
    else if pe_ioctl env =? 0 then
      if pe_nbytes env >=? 0
      then on_transfer (set_written_but_not_consumed (to_size_t (pe_nbytes env))) w
      else on_transfer (set_written_but_not_consumed 0) w
    else on_transfer (set_written_but_not_consumed 0) w
  else w.

(** Lines 467-477: walk back through the recorded line positions. *)
Fixpoint count_lines_not_consumed (positions : list Z)
    (head capacity last_consumed_position : Z)
    (line_from_end : Z) (remaining : nat) : Z :=
  match remaining with
  | O => 0
  | S k =>
      let array_index := (head + capacity - line_from_end - 1) mod capacity in
      if nth (Z.to_nat array_index) positions 0 <=? last_consumed_position then 0
      else 1 + count_lines_not_consumed positions head capacity
                 last_consumed_position (line_from_end + 1) k
  end.

(** Lines 431-484: the amount the receiver has seen. *)
Definition update_transferred (output_is_pipe : bool) (w : world) : world :=
  let c := control (pv w) in
  on_transfer (fun t =>
    let transferred := total_written t in
    if output_is_pipe && negb (linemode c) then
      set_transferred (to_off_t (transferred - written_but_not_consumed t)) t
    else
      match line_positions t with
      | Some positions =>
          if output_is_pipe && linemode c && (written_but_not_consumed t >? 0) then
            let last_consumed_position :=
              to_off_t (last_output_position t - written_but_not_consumed t) in
            let lines_not_consumed :=
              count_lines_not_consumed positions (line_positions_head t)
                (line_positions_capacity t) last_consumed_position 0
                (Z.to_nat (line_positions_length t)) in
            set_transferred (to_off_t (transferred - lines_not_consumed)) t
          else set_transferred transferred t
      | None => set_transferred transferred t
      end) w.

(** Lines 377-484.  [inr] is the early [return state->status.exit_status]
    on a negative result of [pv_transfer]. *)
Definition transfer_and_account (cfg : config_h) (env : pass_env)
    (l : locals) (w : world) : (locals * world) + (Z * world) :=
  let c := control (pv w) in
  let '(written, eof_in', eof_out', lw, w) :=
    if (0 <? size c) && stop_at_size c && (0 >=? cansend l)
       && eof_in l && eof_out l
    then (0, eof_in l, eof_out l, Some (lineswritten l), w)
    else Transfer.pv_transfer cfg (pe_transfer env) w (input_fd l)
           (eof_in l) (eof_out l) (cansend l) (Some (lineswritten l)) in
  let lineswritten' := match lw with Some v => v | None => lineswritten l end in
  if written <? 0 then inr (exit_status (pv w), w)
  else
    let c := control (pv w) in
    let amount := if linemode c then lineswritten' else written in
    let w :=
      on_transfer (fun t => set_total_written (to_off_t (total_written t + amount)) t) w in
    let target' :=
      if rate_limit c >? 0 then (target l - inject_Z amount)%Q else target l in
    let w := update_unread cfg env (output_is_pipe l) w in
    let w := update_transferred (output_is_pipe l) w in
    inl ({| input_fd := input_fd l; output_is_pipe := output_is_pipe l;
                  eof_in := eof_in'; eof_out := eof_out';
                  lineswritten := lineswritten'; cansend := cansend l;
                  target := target'; written_now := written |}, w).

(** Modelled from the spec: file.c, which defines [pv_next_file], is not
    among the sources.  "When an input reaches EOF, advance to the next
    input": the call of line 491 closes [oldfd] and opens the file
    numbered [filenum]; the descriptor it returns, [opened_as] here, is for
    the system to choose, open() giving the lowest number not in use, which
    is the number just closed unless a lower one is free.  The transfer
    state is left alone. *)
Definition pv_next_file (opened_as : Z) (w : world) (filenum oldfd : Z)
  : Z * world :=
  (opened_as, w).

End Loop.

(** * Floating-point arithmetic (float.h)

    A finite [double] or [long double] is the rational number it stands
    for.  An arithmetic operation of the code is the exact operation
    followed by [round] to the format of its type: to nearest, ties to even,
    with gradual underflow, as IEEE 754 has it by default; double
    expressions are evaluated in double (FLT_EVAL_METHOD 0).  Infinities and
    NaN have no counterpart here: [round] has no largest finite value, so
    the model follows the code as long as no result exceeds the largest
    value of its format. *)

Module Float.

(** The two constants of float.h that fix a binary format: a value is
    [m * 2 ^ e] with [|m| < 2 ^ MANT_DIG] and [MIN_EXP - MANT_DIG <= e]. *)
Record format : Type := Build_format {
  MANT_DIG : Z;
  MIN_EXP : Z
}.

(** [double]: DBL_MANT_DIG, DBL_MIN_EXP. *)
Definition binary64 : format := {| MANT_DIG := 53; MIN_EXP := -1021 |}.

(** What the compiler and the machine decide about [long double]. *)
Record platform : Type := Build_platform {
  long_double : format;             (* LDBL_MANT_DIG, LDBL_MIN_EXP *)
  long_of_unrepresentable : Q -> Z  (* (long) x when the integer part of x is
                                       no long: undefined in C *)
}.

(** x86-64 with the System V ABI: the 80-bit extended format, and the
    "integer indefinite" value for a conversion that does not fit. *)
Definition x86_64 : platform :=
  {| long_double := {| MANT_DIG := 64; MIN_EXP := -16381 |};
     long_of_unrepresentable := fun _ => LONG_MIN |}.

(** 64-bit ARM as on Apple's systems: long double is double, and a
    conversion that does not fit saturates. *)
Definition arm64_apple : platform :=
  {| long_double := binary64;
     long_of_unrepresentable :=
       fun x => if Qle_bool 0 x then LONG_MAX else LONG_MIN |}.

(** 2 ^ e, for any integer e. *)
Definition pow2 (e : Z) : Q :=
  match e with
  | Z0 => 1
  | Zpos p => inject_Z (2 ^ Zpos p)
  | Zneg p => 1 # (2 ^ p)
  end.

(** For x <> 0, the e with 2 ^ e <= |x| < 2 ^ (e + 1). *)
Definition floor_log2 (x : Q) : Z :=
  let k := Z.log2 (Z.abs (Qnum x)) - Z.log2 (Zpos (Qden x)) in
  if Qle_bool (pow2 k) (Z.abs (Qnum x) # Qden x) then k else k - 1.

(** The nearest integer, the even one of two that are equally near. *)
Definition round_half_even (x : Q) : Z :=
  let f := Qfloor x in
  match (x - inject_Z f ?= 1 # 2)%Q with
  | Lt => f
  | Gt => f + 1
  | Eq => if Z.even f then f else f + 1
  end.

(** The exponent of the last place of the values of [fmt] around [x]. *)
Definition ulp_exponent (fmt : format) (x : Q) : Z :=
  Z.max (floor_log2 x + 1 - MANT_DIG fmt) (MIN_EXP fmt - MANT_DIG fmt).

(** The value of [fmt] nearest to [x]. *)
Definition round (fmt : format) (x : Q) : Q :=
  let x := Qred x in
  if Qeq_bool x 0 then 0%Q
  else
    let e := ulp_exponent fmt x in
    (inject_Z (round_half_even (x / pow2 e)) * pow2 e)%Q.

(** A decimal constant of the source, such as [0.01]: a double. *)
Definition double_constant (x : Q) : Q := round binary64 x.

(** [(long double) n] and [(double) n] for an integer [n]. *)
Definition of_integer (fmt : format) (n : Z) : Q := round fmt (inject_Z n).

(** The integer part of [x], rounding toward zero. *)
Definition Qtruncate (x : Q) : Z := Z.quot (Qnum x) (Zpos (Qden x)).

(** [(long) x] for a long double [x]. *)
Definition long_of_ldouble (p : platform) (x : Q) : Z :=
  let z := Qtruncate x in
  if (LONG_MIN <=? z) && (z <=? LONG_MAX) then z
  else long_of_unrepresentable p x.

End Float.

(** * src/pv/calc.c and pv_percentage of src/pv/number.c *)

Module Calc.

Definition Qltb (a b : Q) : bool := negb (Qle_bool b a).
Definition Qleb (a b : Q) : bool := Qle_bool a b.

(** struct pvtransfercalc_s *)
Record pvtransfercalc_s : Type := Build_pvtransfercalc {
  transfer_rate : Q;  (* long double: calculated transfer rate *)
  average_rate : Q;  (* long double: calculated average transfer rate *)
  prev_elapsed_sec : Q;  (* long double: elapsed sec at which rate last calculated *)
  prev_rate : Q;  (* long double: last calculated instantaneous transfer rate *)
  prev_trans : Q;  (* long double: amount transferred since last rate calculation *)
  current_avg_rate : Q;  (* long double: current average rate over last history intervals *)
  rate_min : Q;  (* long double *)
  rate_max : Q;  (* long double *)
  rate_sum : Q;  (* long double *)
  ratesquared_sum : Q;  (* long double *)
  measurements_taken : Z;  (* unsigned long *)
  history : option (list (Q * Z));  (* (elapsed_sec, transferred) pairs, circular; None for NULL *)
  history_len : Z;  (* size_t *)
  history_first : Z;  (* size_t: index of oldest entry *)
  history_last : Z;  (* size_t: index of newest entry *)
  prev_transferred : Z;  (* off_t *)
  percentage : Q  (* double: transfer percentage completion *)
}.

Definition set_transfer_rate (v : Q) (r : pvtransfercalc_s) : pvtransfercalc_s :=
  {| transfer_rate := v; average_rate := average_rate r; prev_elapsed_sec := prev_elapsed_sec r;
     prev_rate := prev_rate r; prev_trans := prev_trans r;
     current_avg_rate := current_avg_rate r; rate_min := rate_min r; rate_max := rate_max r;
     rate_sum := rate_sum r; ratesquared_sum := ratesquared_sum r;
     measurements_taken := measurements_taken r; history := history r;
     history_len := history_len r; history_first := history_first r;
     history_last := history_last r; prev_transferred := prev_transferred r;
     percentage := percentage r |}.

Definition set_average_rate (v : Q) (r : pvtransfercalc_s) : pvtransfercalc_s :=
  {| transfer_rate := transfer_rate r; average_rate := v; prev_elapsed_sec := prev_elapsed_sec r;
     prev_rate := prev_rate r; prev_trans := prev_trans r;
     current_avg_rate := current_avg_rate r; rate_min := rate_min r; rate_max := rate_max r;
     rate_sum := rate_sum r; ratesquared_sum := ratesquared_sum r;
     measurements_taken := measurements_taken r; history := history r;
     history_len := history_len r; history_first := history_first r;
     history_last := history_last r; prev_transferred := prev_transferred r;
     percentage := percentage r |}.

Definition set_prev_elapsed_sec (v : Q) (r : pvtransfercalc_s) : pvtransfercalc_s :=
  {| transfer_rate := transfer_rate r; average_rate := average_rate r; prev_elapsed_sec := v;
     prev_rate := prev_rate r; prev_trans := prev_trans r;
     current_avg_rate := current_avg_rate r; rate_min := rate_min r; rate_max := rate_max r;
     rate_sum := rate_sum r; ratesquared_sum := ratesquared_sum r;
     measurements_taken := measurements_taken r; history := history r;
     history_len := history_len r; history_first := history_first r;
     history_last := history_last r; prev_transferred := prev_transferred r;
     percentage := percentage r |}.

Definition set_prev_rate (v : Q) (r : pvtransfercalc_s) : pvtransfercalc_s :=
  {| transfer_rate := transfer_rate r; average_rate := average_rate r;
     prev_elapsed_sec := prev_elapsed_sec r; prev_rate := v; prev_trans := prev_trans r;
     current_avg_rate := current_avg_rate r; rate_min := rate_min r; rate_max := rate_max r;
     rate_sum := rate_sum r; ratesquared_sum := ratesquared_sum r;
     measurements_taken := measurements_taken r; history := history r;
     history_len := history_len r; history_first := history_first r;
     history_last := history_last r; prev_transferred := prev_transferred r;
     percentage := percentage r |}.

Definition set_prev_trans (v : Q) (r : pvtransfercalc_s) : pvtransfercalc_s :=
  {| transfer_rate := transfer_rate r; average_rate := average_rate r;
     prev_elapsed_sec := prev_elapsed_sec r; prev_rate := prev_rate r; prev_trans := v;
     current_avg_rate := current_avg_rate r; rate_min := rate_min r; rate_max := rate_max r;
     rate_sum := rate_sum r; ratesquared_sum := ratesquared_sum r;
     measurements_taken := measurements_taken r; history := history r;
     history_len := history_len r; history_first := history_first r;
     history_last := history_last r; prev_transferred := prev_transferred r;
     percentage := percentage r |}.

Definition set_current_avg_rate (v : Q) (r : pvtransfercalc_s) : pvtransfercalc_s :=
  {| transfer_rate := transfer_rate r; average_rate := average_rate r;
     prev_elapsed_sec := prev_elapsed_sec r; prev_rate := prev_rate r;
     prev_trans := prev_trans r; current_avg_rate := v; rate_min := rate_min r;
     rate_max := rate_max r; rate_sum := rate_sum r; ratesquared_sum := ratesquared_sum r;
     measurements_taken := measurements_taken r; history := history r;
     history_len := history_len r; history_first := history_first r;
     history_last := history_last r; prev_transferred := prev_transferred r;
     percentage := percentage r |}.

Definition set_rate_min (v : Q) (r : pvtransfercalc_s) : pvtransfercalc_s :=
  {| transfer_rate := transfer_rate r; average_rate := average_rate r;
     prev_elapsed_sec := prev_elapsed_sec r; prev_rate := prev_rate r;
     prev_trans := prev_trans r; current_avg_rate := current_avg_rate r; rate_min := v;
     rate_max := rate_max r; rate_sum := rate_sum r; ratesquared_sum := ratesquared_sum r;
     measurements_taken := measurements_taken r; history := history r;
     history_len := history_len r; history_first := history_first r;
     history_last := history_last r; prev_transferred := prev_transferred r;
     percentage := percentage r |}.

Definition set_rate_max (v : Q) (r : pvtransfercalc_s) : pvtransfercalc_s :=
  {| transfer_rate := transfer_rate r; average_rate := average_rate r;
     prev_elapsed_sec := prev_elapsed_sec r; prev_rate := prev_rate r;
     prev_trans := prev_trans r; current_avg_rate := current_avg_rate r; rate_min := rate_min r;
     rate_max := v; rate_sum := rate_sum r; ratesquared_sum := ratesquared_sum r;
     measurements_taken := measurements_taken r; history := history r;
     history_len := history_len r; history_first := history_first r;
     history_last := history_last r; prev_transferred := prev_transferred r;
     percentage := percentage r |}.

Definition set_rate_sum (v : Q) (r : pvtransfercalc_s) : pvtransfercalc_s :=
  {| transfer_rate := transfer_rate r; average_rate := average_rate r;
     prev_elapsed_sec := prev_elapsed_sec r; prev_rate := prev_rate r;
     prev_trans := prev_trans r; current_avg_rate := current_avg_rate r; rate_min := rate_min r;
     rate_max := rate_max r; rate_sum := v; ratesquared_sum := ratesquared_sum r;
     measurements_taken := measurements_taken r; history := history r;
     history_len := history_len r; history_first := history_first r;
     history_last := history_last r; prev_transferred := prev_transferred r;
     percentage := percentage r |}.

Definition set_ratesquared_sum (v : Q) (r : pvtransfercalc_s) : pvtransfercalc_s :=
  {| transfer_rate := transfer_rate r; average_rate := average_rate r;
     prev_elapsed_sec := prev_elapsed_sec r; prev_rate := prev_rate r;
     prev_trans := prev_trans r; current_avg_rate := current_avg_rate r; rate_min := rate_min r;
     rate_max := rate_max r; rate_sum := rate_sum r; ratesquared_sum := v;
     measurements_taken := measurements_taken r; history := history r;
     history_len := history_len r; history_first := history_first r;
     history_last := history_last r; prev_transferred := prev_transferred r;
     percentage := percentage r |}.

Definition set_measurements_taken (v : Z) (r : pvtransfercalc_s) : pvtransfercalc_s :=
  {| transfer_rate := transfer_rate r; average_rate := average_rate r;
     prev_elapsed_sec := prev_elapsed_sec r; prev_rate := prev_rate r;
     prev_trans := prev_trans r; current_avg_rate := current_avg_rate r; rate_min := rate_min r;
     rate_max := rate_max r; rate_sum := rate_sum r; ratesquared_sum := ratesquared_sum r;
     measurements_taken := v; history := history r; history_len := history_len r;
     history_first := history_first r; history_last := history_last r;
     prev_transferred := prev_transferred r; percentage := percentage r |}.

Definition set_history (v : option (list (Q * Z))) (r : pvtransfercalc_s) : pvtransfercalc_s :=
  {| transfer_rate := transfer_rate r; average_rate := average_rate r;
     prev_elapsed_sec := prev_elapsed_sec r; prev_rate := prev_rate r;
     prev_trans := prev_trans r; current_avg_rate := current_avg_rate r; rate_min := rate_min r;
     rate_max := rate_max r; rate_sum := rate_sum r; ratesquared_sum := ratesquared_sum r;
     measurements_taken := measurements_taken r; history := v; history_len := history_len r;
     history_first := history_first r; history_last := history_last r;
     prev_transferred := prev_transferred r; percentage := percentage r |}.

Definition set_history_first (v : Z) (r : pvtransfercalc_s) : pvtransfercalc_s :=
  {| transfer_rate := transfer_rate r; average_rate := average_rate r;
     prev_elapsed_sec := prev_elapsed_sec r; prev_rate := prev_rate r;
     prev_trans := prev_trans r; current_avg_rate := current_avg_rate r; rate_min := rate_min r;
     rate_max := rate_max r; rate_sum := rate_sum r; ratesquared_sum := ratesquared_sum r;
     measurements_taken := measurements_taken r; history := history r;
     history_len := history_len r; history_first := v; history_last := history_last r;
     prev_transferred := prev_transferred r; percentage := percentage r |}.

Definition set_history_last (v : Z) (r : pvtransfercalc_s) : pvtransfercalc_s :=
  {| transfer_rate := transfer_rate r; average_rate := average_rate r;
     prev_elapsed_sec := prev_elapsed_sec r; prev_rate := prev_rate r;
     prev_trans := prev_trans r; current_avg_rate := current_avg_rate r; rate_min := rate_min r;
     rate_max := rate_max r; rate_sum := rate_sum r; ratesquared_sum := ratesquared_sum r;
     measurements_taken := measurements_taken r; history := history r;
     history_len := history_len r; history_first := history_first r; history_last := v;
     prev_transferred := prev_transferred r; percentage := percentage r |}.

Definition set_prev_transferred (v : Z) (r : pvtransfercalc_s) : pvtransfercalc_s :=
  {| transfer_rate := transfer_rate r; average_rate := average_rate r;
     prev_elapsed_sec := prev_elapsed_sec r; prev_rate := prev_rate r;
     prev_trans := prev_trans r; current_avg_rate := current_avg_rate r; rate_min := rate_min r;
     rate_max := rate_max r; rate_sum := rate_sum r; ratesquared_sum := ratesquared_sum r;
     measurements_taken := measurements_taken r; history := history r;
     history_len := history_len r; history_first := history_first r;
     history_last := history_last r; prev_transferred := v; percentage := percentage r |}.

Definition set_percentage (v : Q) (r : pvtransfercalc_s) : pvtransfercalc_s :=
  {| transfer_rate := transfer_rate r; average_rate := average_rate r;
     prev_elapsed_sec := prev_elapsed_sec r; prev_rate := prev_rate r;
     prev_trans := prev_trans r; current_avg_rate := current_avg_rate r; rate_min := rate_min r;
     rate_max := rate_max r; rate_sum := rate_sum r; ratesquared_sum := ratesquared_sum r;
     measurements_taken := measurements_taken r; history := history r;
     history_len := history_len r; history_first := history_first r;
     history_last := history_last r; prev_transferred := prev_transferred r; percentage := v |}.

(** [history[i]] and [history[i] = e] *)
Definition history_get (h : list (Q * Z)) (i : Z) : Q * Z :=
  nth (Z.to_nat i) h (0%Q, 0).

Definition history_put (h : list (Q * Z)) (i : Z) (e : Q * Z) : list (Q * Z) :=
  firstn (Z.to_nat i) h ++ [e] ++ skipn (Z.to_nat i + 1) h.

(** Rounding to [double], and to the [long double] of platform [p]. *)
Definition dbl (x : Q) : Q := Float.round Float.binary64 x.
Definition ldbl (p : Float.platform) (x : Q) : Q :=
  Float.round (Float.long_double p) x.

(** The constants [0.01], [0.001] and [0.000001] of the source. *)
Definition c_0_01 : Q := Float.double_constant (1 # 100).
Definition c_0_001 : Q := Float.double_constant (1 # 1000).
Definition c_0_000001 : Q := Float.double_constant (1 # 1000000).

(** [pv_percentage] of number.c: 100 * amount / total in double, or 0 when
    total is below 1. *)
Definition pv_percentage (amount total : Z) : Q :=
  if total <? 1 then 0%Q
  else
    let amount_as_double := Float.of_integer Float.binary64 amount in
    let amount_as_double := dbl (amount_as_double * 100) in
    let amount_as_double :=
      dbl (amount_as_double / Float.of_integer Float.binary64 total) in
    amount_as_double.

(** [pv__update_average_rate_history] *)
Definition pv__update_average_rate_history (p : Float.platform)
    (calc : pvtransfercalc_s) (transfer : pvtransferstate_s)
    (history_interval : Z) (rate : Q)
  : pvtransfercalc_s :=
  match history calc with
  | None => calc
  | Some h =>
      let first := history_first calc in
      let last := history_last calc in
      let last_elapsed := fst (history_get h last) in
      if Qltb 0 last_elapsed
         && Qltb (elapsed_seconds transfer)
              (ldbl p (last_elapsed
                       + Float.of_integer (Float.long_double p) history_interval))
      then calc
      else
        let '(first, last, calc) :=
          if Qltb 0 last_elapsed then
            let len := history_len calc in
            let last := (last + 1) mod len in
            let calc := set_history_last last calc in
            if last =? first then
              let first := (first + 1) mod len in
              (first, last, set_history_first first calc)
            else (first, last, calc)
          else (first, last, calc) in
        let h := history_put h last (elapsed_seconds transfer, transferred transfer) in
        let calc := set_history (Some h) calc in
        if first =? last then set_current_avg_rate rate calc
        else
          let bytes :=
            to_off_t (snd (history_get h last) - snd (history_get h first)) in
          let sec := ldbl p (fst (history_get h last) - fst (history_get h first)) in
          let sec :=
            if Qltb sec c_0_000001 && Qltb (- c_0_000001) sec
            then c_0_000001 else sec in
          set_current_avg_rate
            (ldbl p (Float.of_integer (Float.long_double p) bytes / sec)) calc
  end.

(** Lines 97-135: the instantaneous rate and the statistics of the rates
    measured.  Returns transfer_rate. *)
Definition measure_rate (p : Float.platform) (calc : pvtransfercalc_s)
    (transfer : pvtransferstate_s) (control : pvcontrol_s)
  : Q * pvtransfercalc_s :=
  let '(bytes_since_last, calc) :=
    if transferred transfer >=? 0 then
      (to_off_t (transferred transfer - prev_transferred calc),
       set_prev_transferred (transferred transfer) calc)
    else (0, calc) in
  let time_since_last :=
    ldbl p (elapsed_seconds transfer - prev_elapsed_sec calc) in
  let '(transfer_rate, calc) :=
    if Qleb time_since_last c_0_01 then
      (prev_rate calc,
       set_prev_trans
         (ldbl p (prev_trans calc
                  + Float.of_integer (Float.long_double p) bytes_since_last))
         calc)
    else
      let transfer_rate :=
        ldbl p (ldbl p (Float.of_integer (Float.long_double p) bytes_since_last
                        + prev_trans calc)
                / time_since_last) in
      let calc :=
        set_prev_trans 0%Q (set_prev_elapsed_sec (elapsed_seconds transfer) calc) in
      let measured_rate :=
        if bits control then ldbl p (8 * transfer_rate) else transfer_rate in
      let calc :=
        if (measurements_taken calc <? 1) || Qltb measured_rate (rate_min calc)
        then set_rate_min measured_rate calc else calc in
      let calc :=
        if Qltb (rate_max calc) measured_rate
        then set_rate_max measured_rate calc else calc in
      let calc := set_rate_sum (ldbl p (rate_sum calc + measured_rate)) calc in
      let calc :=
        set_ratesquared_sum
          (ldbl p (ratesquared_sum calc + ldbl p (measured_rate * measured_rate)))
          calc in
      (transfer_rate,
       set_measurements_taken (to_size_t (measurements_taken calc + 1)) calc) in
  (transfer_rate, set_prev_rate transfer_rate calc).

(** Lines 160-181: the completion percentage. *)
Definition update_percentage (calc : pvtransfercalc_s) (transfer : pvtransferstate_s)
    (control : pvcontrol_s) (transfer_rate : Q) : pvtransfercalc_s :=
  let calc :=
    if size control <=? 0 then
      let calc :=
        if Qltb 0 transfer_rate
        then set_percentage (dbl (percentage calc + 2)) calc else calc in
      if Qltb 199 (percentage calc) then set_percentage 0%Q calc else calc
    else
      set_percentage (pv_percentage (transferred transfer) (size control)) calc in
  let calc :=
    if Qltb (percentage calc) 0 then set_percentage 0%Q calc else calc in
  if Qltb 100000 (percentage calc) then set_percentage 100000%Q calc else calc.

(** [pv_calculate_transfer_rate] *)
Definition pv_calculate_transfer_rate (p : Float.platform)
    (calc : pvtransfercalc_s) (transfer : pvtransferstate_s)
    (control : pvcontrol_s) (display : pvdisplay_s) (final : bool)
  : pvtransfercalc_s :=
  let '(transfer_rate, calc) := measure_rate p calc transfer control in
  let calc :=
    pv__update_average_rate_history p calc transfer (history_interval control)
      transfer_rate in
  let average_rate := current_avg_rate calc in
  let '(transfer_rate, average_rate) :=
    if final then
      let total_elapsed_seconds := elapsed_seconds transfer in
      let total_elapsed_seconds :=
        if Qltb total_elapsed_seconds c_0_000001
        then c_0_000001 else total_elapsed_seconds in
      let average_rate :=
        ldbl p
          (ldbl p (Float.of_integer (Float.long_double p) (transferred transfer)
                   - Float.of_integer (Float.long_double p) (initial_offset display))
           / total_elapsed_seconds) in
      (average_rate, average_rate)
    else (transfer_rate, average_rate) in
  let calc := set_average_rate average_rate (set_transfer_rate transfer_rate calc) in
  update_percentage calc transfer control transfer_rate.

(** [pv_reset_calc] of src/pv/state.c *)
Definition pv_reset_calc (calc : pvtransfercalc_s) : pvtransfercalc_s :=
  {| transfer_rate := 0; average_rate := 0; prev_elapsed_sec := 0; prev_rate := 0;
     prev_trans := 0; current_avg_rate := 0; rate_min := 0; rate_max := 0;
     rate_sum := 0; ratesquared_sum := 0; measurements_taken := 0;
     history :=
       match history calc with
       | Some h => Some (history_put h 0 (0%Q, snd (history_get h 0)))
       | None => None
       end;
     history_len := history_len calc; history_first := 0; history_last := 0;
     prev_transferred := 0; percentage := 0 |}.

End Calc.

(** * src/pv/display.c and src/pv/format/eta.c *)

Module Display.

(** ** Helpers of display.c *)

(** [pv_bound_long] *)
Definition pv_bound_long (x min max : Z) : Z :=
  if x <? min then min else if x >? max then max else x.

(** [pv_seconds_remaining] *)
Definition pv_seconds_remaining (p : Float.platform) (so_far total : Z) (rate : Q)
  : Z :=
  if (so_far <? 1) || Calc.Qltb rate Calc.c_0_001 then 0
  else
    let amount_left :=
      Calc.ldbl p
        (Float.of_integer (Float.long_double p) (to_off_t (total - so_far))
         / rate) in
    Float.long_of_ldouble p amount_left.

(** ** printf conversions used by the ETA formatter *)

(** The C string held in [s]: its bytes up to the first null. *)
Fixpoint c_string (s : string) : string :=
  match s with
  | EmptyString => EmptyString
  | String c rest =>
      if Ascii.eqb c "000"%char then EmptyString else String c (c_string rest)
  end.

Fixpoint string_take (n : nat) (s : string) : string :=
  match n, s with
  | O, _ => EmptyString
  | _, EmptyString => EmptyString
  | S k, String c rest => String c (string_take k rest)
  end.

(** "%ld" *)
Definition fmt_ld (z : Z) : string := NilZero.string_of_int (Z.to_int z).

(** "%02ld" *)
Definition fmt_02ld (z : Z) : string :=
  let s := fmt_ld z in
  if (String.length s <? 2)%nat then append "0" s else s.

(** "%.16s" *)
Definition fmt_16s (s : string) : string := string_take 16 (c_string s).

(** [pv_snprintf(content, size, ...)]: what fits in [size - 1] bytes. *)
Definition pv_snprintf (size : nat) (formatted : string) : string :=
  string_take (size - 1) formatted.

Fixpoint blank_out (s : string) : string :=
  match s with
  | EmptyString => EmptyString
  | String c rest =>
      if Ascii.eqb c "000"%char then s else String " "%char (blank_out rest)
  end.

(** [n] spaces. *)
Fixpoint spaces (n : nat) : string :=
  match n with
  | O => EmptyString
  | S k => String " "%char (spaces k)
  end.

(** No null byte in [s]. *)
Fixpoint no_nul (s : string) : bool :=
  match s with
  | EmptyString => true
  | String c rest => negb (Ascii.eqb c "000"%char) && no_nul rest
  end.

(** ** Segments and formatter arguments (pv-internal.h) *)

Record pvdisplay_segment_s : Type := Build_segment {
  seg_type : Z;                     (* pvdisplay_component_t type; -1: static string *)
  seg_parameter : Z;                (* int8_t parameter *)
  seg_chosen_size : Z;              (* pvdisplay_width_t chosen_size *)
  seg_offset : Z;                   (* pvdisplay_bytecount_t offset *)
  seg_bytes : Z;                    (* pvdisplay_bytecount_t bytes *)
  seg_width : Z                     (* pvdisplay_width_t width *)
}.

Definition set_seg_width (v : Z) (s : pvdisplay_segment_s) : pvdisplay_segment_s :=
  {| seg_type := seg_type s; seg_parameter := seg_parameter s;
     seg_chosen_size := seg_chosen_size s; seg_offset := seg_offset s;
     seg_bytes := seg_bytes s; seg_width := v |}.

Definition set_seg_content (offset bytes : Z) (s : pvdisplay_segment_s)
  : pvdisplay_segment_s :=
  {| seg_type := seg_type s; seg_parameter := seg_parameter s;
     seg_chosen_size := seg_chosen_size s; seg_offset := offset;
     seg_bytes := bytes; seg_width := seg_width s |}.

(** struct pvformatter_args_s; the pointers are the values pointed to. *)
Record pvformatter_args_s : Type := Build_formatter_args {
  fa_display : pvdisplay_s;
  fa_segment : pvdisplay_segment_s;
  fa_control : pvcontrol_s;
  fa_transfer : pvtransferstate_s;
  fa_calc : Calc.pvtransfercalc_s;
  fa_buffer : list byte;
  fa_buffer_size : Z;               (* pvdisplay_bytecount_t *)
  fa_offset : Z                     (* pvdisplay_bytecount_t *)
}.

Definition with_segment (s : pvdisplay_segment_s) (a : pvformatter_args_s)
  : pvformatter_args_s :=
  {| fa_display := fa_display a; fa_segment := s; fa_control := fa_control a;
     fa_transfer := fa_transfer a; fa_calc := fa_calc a; fa_buffer := fa_buffer a;
     fa_buffer_size := fa_buffer_size a; fa_offset := fa_offset a |}.

Definition with_buffer (b : list byte) (a : pvformatter_args_s) : pvformatter_args_s :=
  {| fa_display := fa_display a; fa_segment := fa_segment a;
     fa_control := fa_control a; fa_transfer := fa_transfer a;
     fa_calc := fa_calc a; fa_buffer := b;
     fa_buffer_size := fa_buffer_size a; fa_offset := fa_offset a |}.

Definition with_offset (o : Z) (a : pvformatter_args_s) : pvformatter_args_s :=
  {| fa_display := fa_display a; fa_segment := fa_segment a;
     fa_control := fa_control a; fa_transfer := fa_transfer a;
     fa_calc := fa_calc a; fa_buffer := fa_buffer a;
     fa_buffer_size := fa_buffer_size a; fa_offset := o |}.

Definition with_display (d : pvdisplay_s) (a : pvformatter_args_s)
  : pvformatter_args_s :=
  {| fa_display := d; fa_segment := fa_segment a;
     fa_control := fa_control a; fa_transfer := fa_transfer a;
     fa_calc := fa_calc a; fa_buffer := fa_buffer a;
     fa_buffer_size := fa_buffer_size a; fa_offset := fa_offset a |}.

(** [pv_formatter_segmentcontent]: returns the bytes value. *)
Definition pv_formatter_segmentcontent (content : string)
    (formatter_info : pvformatter_args_s) : Z * pvformatter_args_s :=
  let bytes := to_uint16 (Z.of_nat (String.length (c_string content))) in
  let bytes :=
    if fa_offset formatter_info >=? fa_buffer_size formatter_info then 0 else bytes in
  let bytes :=
    if fa_offset formatter_info + bytes >=? fa_buffer_size formatter_info
    then 0 else bytes in
  let formatter_info :=
    with_segment
      (set_seg_content (fa_offset formatter_info) bytes (fa_segment formatter_info))
      formatter_info in
  if bytes =? 0 then (0, formatter_info)
  else
    (bytes,
     with_buffer
       (buf_store (fa_buffer formatter_info) (fa_offset formatter_info)
          (firstn (Z.to_nat bytes) (list_byte_of_string (c_string content))))
       formatter_info).

(** ** format/eta.c *)

(** Lines 48-57: the text for [eta] seconds; [label] is what gettext gives
    for "ETA". *)
Definition eta_text (label : string) (eta : Z) : string :=
  if eta >? 86400 then
    pv_snprintf 128
      (fmt_16s label ++ " " ++ fmt_ld (Z.quot eta 86400) ++ ":"
       ++ fmt_02ld (Z.rem (Z.quot eta 3600) 24) ++ ":"
       ++ fmt_02ld (Z.rem (Z.quot eta 60) 60) ++ ":"
       ++ fmt_02ld (Z.rem eta 60))%string
  else
    pv_snprintf 128
      (fmt_16s label ++ " " ++ fmt_ld (Z.quot eta 3600) ++ ":"
       ++ fmt_02ld (Z.rem (Z.quot eta 60) 60) ++ ":"
       ++ fmt_02ld (Z.rem eta 60))%string.

(** Lines 33-41: the number of seconds shown. *)
Definition eta_seconds (p : Float.platform) (args : pvformatter_args_s) : Z :=
  let eta :=
    pv_seconds_remaining p
      (to_off_t (transferred (fa_transfer args) - initial_offset (fa_display args)))
      (to_off_t (size (fa_control args) - initial_offset (fa_display args)))
      (Calc.current_avg_rate (fa_calc args)) in
  pv_bound_long eta 0 360000000.

(** Lines 33-69: the content the formatter hands over. *)
Definition eta_content (p : Float.platform) (label : string)
    (args : pvformatter_args_s) : string :=
  let content := eta_text label (eta_seconds p args) in
  if final_update (fa_display args) then blank_out content else content.

(** [pv_formatter_eta] *)
Definition pv_formatter_eta (p : Float.platform) (label : string)
    (args : pvformatter_args_s) : Z * pvformatter_args_s :=
  if size (fa_control args) <? 1 then (0, args)
  else if fa_buffer_size args =? 0 then (0, args)
  else pv_formatter_segmentcontent (eta_content p label args) args.

(** ** pv_format: the two passes that lay the segments out *)

(** The [dynamic] member of each entry of [format_component_array]. *)
Definition format_component_array : list (string * bool) :=
  [ ("p", true); ("{progress}", true); ("{progress-amount-only}", false);
    ("{progress-bar-only}", true); ("{bar-plain}", true); ("{bar-block}", true);
    ("{bar-granular}", true); ("{bar-shaded}", true);
    ("t", false); ("{timer}", false); ("e", false); ("{eta}", false);
    ("I", false); ("{fineta}", false); ("r", false); ("{rate}", false);
    ("a", false); ("{average-rate}", false); ("b", false); ("{bytes}", false);
    ("{transferred}", false); ("T", false); ("{buffer-percent}", false);
    ("A", false); ("{last-written}", false);
    ("L", true); ("{previous-line}", true);
    ("N", false); ("{name}", false); ("{sgr:colour,...}", false) ]%string.

Definition component_dynamic (type : Z) : bool :=
  snd (nth (Z.to_nat type) format_component_array (EmptyString, false)).

(** [fixed_width] of lines 1090-1092 and 1147-1149. *)
Definition fixed_width (segment : pvdisplay_segment_s) : bool :=
  negb (component_dynamic (seg_type segment) && (seg_chosen_size segment =? 0)).

(** The segments that the second pass renders: not a static string, and
    not of fixed width. *)
Definition elastic (segment : pvdisplay_segment_s) : bool :=
  negb (seg_type segment =? -1) && negb (fixed_width segment).

Definition total_width (segments : list pvdisplay_segment_s) : Z :=
  fold_right Z.add 0 (map seg_width segments).

Section Layout.

(** [component->function]: the formatter of each component type, as the
    bytes it adds and what it leaves in [*formatter_info]. *)
Variable component_function :
  Z -> pvformatter_args_s -> Z * pvformatter_args_s.

(** [pv_strwidth] of string.c: the display columns a run of bytes takes. *)
Variable pv_strwidth : list byte -> Z.

(** Lines 1077-1113.  Returns the segments, [formatter_info],
    static_portion_width and dynamic_segment_count. *)
Fixpoint fixed_pass (segments : list pvdisplay_segment_s)
    (formatter_info : pvformatter_args_s)
    (static_portion_width dynamic_segment_count : Z)
  : list pvdisplay_segment_s * pvformatter_args_s * Z * Z :=
  match segments with
  | [] => ([], formatter_info, static_portion_width, dynamic_segment_count)
  | segment :: rest =>
      if seg_type segment =? -1 then
        let '(rest, formatter_info, s, c) :=
          fixed_pass rest formatter_info
            (to_size_t (static_portion_width + seg_width segment))
            dynamic_segment_count in
        (segment :: rest, formatter_info, s, c)
      else if negb (fixed_width segment) then
        let '(rest, formatter_info, s, c) :=
          fixed_pass rest formatter_info static_portion_width
            (to_size_t (dynamic_segment_count + 1)) in
        (segment :: rest, formatter_info, s, c)
      else
        let segment := set_seg_width (seg_chosen_size segment) segment in
        let '(bytes_added, formatter_info) :=
          component_function (seg_type segment)
            (with_segment segment formatter_info) in
        let segment := fa_segment formatter_info in
        let segment :=
          set_seg_width
            (if bytes_added >? 0
             then to_uint16
                    (pv_strwidth
                       (buf_slice (fa_buffer formatter_info)
                          (fa_offset formatter_info) bytes_added))
             else 0) segment in
        let formatter_info :=
          with_offset (to_uint16 (fa_offset formatter_info + bytes_added))
            formatter_info in
        let '(rest, formatter_info, s, c) :=
          fixed_pass rest formatter_info
            (to_size_t (static_portion_width + seg_width segment))
            dynamic_segment_count in
        (segment :: rest, formatter_info, s, c)
  end.

(** Lines 1120-1129. *)
Definition dynamic_width (width static_portion_width dynamic_segment_count : Z) : Z :=
  let dynamic_segment_width :=
    if width >? static_portion_width
    then to_size_t (width - static_portion_width) else 0 in
  if dynamic_segment_count >? 1
  then Z.quot dynamic_segment_width dynamic_segment_count
  else dynamic_segment_width.

(** Lines 1134-1162. *)
Fixpoint elastic_pass (segments : list pvdisplay_segment_s)
    (formatter_info : pvformatter_args_s)
    (static_portion_width dynamic_segment_width : Z)
  : list pvdisplay_segment_s * pvformatter_args_s * Z :=
  match segments with
  | [] => ([], formatter_info, static_portion_width)
  | segment :: rest =>
      if seg_type segment =? -1 then
        let '(rest, formatter_info, s) :=
          elastic_pass rest formatter_info
            (to_size_t (static_portion_width + seg_width segment))
            dynamic_segment_width in
        (segment :: rest, formatter_info, s)
      else if fixed_width segment then
        let '(rest, formatter_info, s) :=
          elastic_pass rest formatter_info static_portion_width
            dynamic_segment_width in
        (segment :: rest, formatter_info, s)
      else
        let segment := set_seg_width (to_uint16 dynamic_segment_width) segment in
        let '(bytes_added, formatter_info) :=
          component_function (seg_type segment)
            (with_segment segment formatter_info) in
        let formatter_info :=
          with_offset (to_uint16 (fa_offset formatter_info + bytes_added))
            formatter_info in
        let '(rest, formatter_info', s) :=
          elastic_pass rest formatter_info static_portion_width
            dynamic_segment_width in
        (fa_segment formatter_info :: rest, formatter_info', s)
  end.

(** Lines 1072-1162 of [pv_format].  Returns the segments, [formatter_info],
    the static_portion_width and dynamic_segment_count of the first pass,
    and the dynamic_segment_width. *)
Definition pv_format_layout (control : pvcontrol_s)
    (segments : list pvdisplay_segment_s) (formatter_info : pvformatter_args_s)
  : list pvdisplay_segment_s * pvformatter_args_s * Z * Z * Z :=
  let '(segments, formatter_info, static_portion_width, dynamic_segment_count) :=
    fixed_pass segments formatter_info 0 0 in
  let dynamic_segment_width :=
    dynamic_width (width control) static_portion_width dynamic_segment_count in
  let '(segments, formatter_info, _) :=
    elastic_pass segments formatter_info static_portion_width
      dynamic_segment_width in
  (segments, formatter_info, static_portion_width, dynamic_segment_count,
   dynamic_segment_width).

(** The layout in the words of the design document: "every elastic segment
    is rendered with exactly that quotient as its allotted width".  Going
    through the segments in order, the formatter of each elastic segment is
    run on the segment with [allotted] as its width, what the formatter
    leaves being the segment from then on, and its bytes follow those of the
    segments before it; the other segments stay as they are. *)
Fixpoint rendered_with_width (allotted : Z)
    (segments : list pvdisplay_segment_s) (formatter_info : pvformatter_args_s)
  : list pvdisplay_segment_s * pvformatter_args_s :=
  match segments with
  | [] => ([], formatter_info)
  | segment :: rest =>
      if elastic segment then
        let '(bytes_added, formatter_info) :=
          component_function (seg_type segment)
            (with_segment (set_seg_width allotted segment) formatter_info) in
        let rendered := fa_segment formatter_info in
        let '(rest, formatter_info') :=
          rendered_with_width allotted rest
            (with_offset (to_uint16 (fa_offset formatter_info + bytes_added))
               formatter_info) in
        (rendered :: rest, formatter_info')
      else
        let '(rest, formatter_info') :=
          rendered_with_width allotted rest formatter_info in
        (segment :: rest, formatter_info')
  end.

End Layout.

End Display.

(** * src/pv/remote.c: pv_remote_set, and the SIGUSR2 half of src/pv/signal.c *)

Module Remote.

Definition SIGUSR2 : Z := 12.

(** struct pvsignal_s, the SIGUSR2 members. *)
Record pvsignal_s : Type := Build_pvsignal {
  rxusr2 : Z;                       (* whether SIGUSR2 was received *)
  sender_usr2 : Z                   (* PID of sending process for SIGUSR2 *)
}.

(** [pv_sig_usr2], the handler, for a signal sent by [si_pid]. *)
Definition pv_sig_usr2 (si_pid : Z) (s : pvsignal_s) : pvsignal_s :=
  {| rxusr2 := 1; sender_usr2 := si_pid |}.

(** [pv_sigusr2_received(state, &pid)]: the result, [*pid] and the state. *)
Definition pv_sigusr2_received (s : pvsignal_s) (pid : Z) : bool * Z * pvsignal_s :=
  if rxusr2 s =? 0 then (false, pid, s)
  else (true, sender_usr2 s, {| rxusr2 := 0; sender_usr2 := sender_usr2 s |}).

(** Outcomes of the system calls of [pv_remote_set], and the SIGUSR2 signals
    that arrive while it runs: [rm_arrivals k] lists the senders of those
    delivered during the k-th 10 ms sleep, in order. *)
Record remote_env : Type := Build_remote_env {
  rm_kill_check : sysret;           (* kill(remote, 0) *)
  rm_open : sysret;                 (* pv_open_controlfile(): negative for NULL *)
  rm_fwrite : Z * errno_t;          (* fwrite(&msgbuf, sizeof(msgbuf), 1, fptr):
                                       the count of items written, and the
                                       errno it leaves when that is not 1 *)
  rm_fclose : sysret;
  rm_kill_signal : sysret;          (* kill(remote, SIGUSR2) *)
  rm_arrivals : nat -> list Z;
  rm_remove : sysret                (* remove(control_filename) at the end *)
}.

(** The sender's side: signal state, errno and trace. *)
Record sender : Type := Build_sender {
  sg : pvsignal_s;
  s_errno : errno_t;
  s_trace : list event
}.

Definition s_emit (e : event) (s : sender) : sender :=
  {| sg := sg s; s_errno := s_errno s; s_trace := s_trace s ++ [e] |}.

Definition s_call (e : event) (r : sysret) (s : sender) : Z * sender :=
  (fst r, {| sg := sg s;
             s_errno := if fst r <? 0 then snd r else s_errno s;
             s_trace := s_trace s ++ [e] |}).

Definition s_error (s : sender) : sender :=
  s_emit (EvError (MsgRemote (s_errno s))) s.

Definition deliver (pids : list Z) (s : sender) : sender :=
  {| sg := fold_left (fun g p => pv_sig_usr2 p g) pids (sg s);
     s_errno := s_errno s; s_trace := s_trace s |}.

(** [select(0, NULL, NULL, NULL, &tv)] with [tv] at 10000 microseconds. *)
Definition sleep_event : event := EvSelect (-1) (-1) 10000.

(** Lines 198-215: the loop waiting for the acknowledgement; [k] counts the
    turns taken so far.  [None] when [fuel] runs out before the loop ends. *)
Fixpoint wait_for_ack (fuel : nat) (env : remote_env) (remote : Z)
    (timeout : Z) (received : bool) (signal_sender : Z) (k : nat) (s : sender)
  : option (bool * sender) :=
  if (timeout >? 10000) && negb received then
    match fuel with
    | O => None
    | S fuel =>
        let s := s_emit sleep_event s in
        let s := deliver (rm_arrivals env k) s in
        let timeout := timeout - 10000 in
        let '(got, signal_sender, g) := pv_sigusr2_received (sg s) signal_sender in
        let s := {| sg := g; s_errno := s_errno s; s_trace := s_trace s |} in
        let received :=
          if got then (if signal_sender =? remote then true else received)
          else received in
        wait_for_ack fuel env remote timeout received signal_sender (S k) s
    end
  else Some (received, s).

(** [pv_remote_set]; the contents of the message are not modelled.  [None]
    only if the waiting loop does not end within 110 turns. *)
Definition pv_remote_set (env : remote_env) (s : sender) (remote : Z)
  : option (Z * sender) :=
  let '(r, s) := s_call (EvKill remote 0) (rm_kill_check env) s in
  if negb (r =? 0) then Some (PV_ERROREXIT_REMOTE_OR_PID, s_error s)
  else
    let '(fptr, s) := s_call EvOpenControlFile (rm_open env) s in
    if fptr <? 0 then Some (PV_ERROREXIT_REMOTE_OR_PID, s_error s)
    else
      let s := s_emit EvWriteControlFile s in
      if negb (fst (rm_fwrite env) =? 1) then
        let s :=
          {| sg := sg s; s_errno := snd (rm_fwrite env); s_trace := s_trace s |} in
        let s := s_error s in
        let s := s_emit EvCloseControlFile s in
        let s := s_emit EvRemoveControlFile s in
        Some (PV_ERROREXIT_REMOTE_OR_PID, s)
      else
        let '(r, s) := s_call EvCloseControlFile (rm_fclose env) s in
        if negb (r =? 0) then
          let s := s_error s in
          let s := s_emit EvRemoveControlFile s in
          Some (PV_ERROREXIT_REMOTE_OR_PID, s)
        else
          let signal_sender := 0 in
          let '(_, signal_sender, g) := pv_sigusr2_received (sg s) signal_sender in
          let s := {| sg := g; s_errno := s_errno s; s_trace := s_trace s |} in
          let '(r, s) := s_call (EvKill remote SIGUSR2) (rm_kill_signal env) s in
          if negb (r =? 0) then
            let s := s_error s in
            let s := s_emit EvRemoveControlFile s in
            Some (PV_ERROREXIT_REMOTE_OR_PID, s)
          else
            match wait_for_ack 110 env remote 1100000 false signal_sender 0 s with
            | None => None
            | Some (received, s) =>
                let '(r, s) := s_call EvRemoveControlFile (rm_remove env) s in
                let s := if negb (r =? 0) then s_error s else s in
                if received then Some (0, s)
                else
                  Some (PV_ERROREXIT_REMOTE_OR_PID,
                        s_emit (EvError MsgNotReceived) s)
            end.

(** The signals delivered during the k-th sleep end with one from [remote]:
    the handler keeps the sender of the latest signal only. *)
Definition acknowledged (env : remote_env) (remote : Z) (k : nat) : bool :=
  match rev (rm_arrivals env k) with
  | [] => false
  | pid :: _ => pid =? remote
  end.

End Remote.

(** * Vocabulary for the statements about transfer.c

    What a stretch of code does to the trace and to the members of the
    state that record a failed splice and an announced read error. *)

Module Footprint.
Import Transfer.

Definition fetch_footprint (env : read_env) (fd : Z) (w w1 : world) (new : list event) : Prop :=
  control (pv w1) = control (pv w)
  /\ display (pv w1) = display (pv w)
  /\ pipe_closed (pv w1) = pipe_closed (pv w)
  /\ exit_status (pv w1) = exit_status (pv w)
  /\ read_errors_in_a_row (transfer (pv w1)) = read_errors_in_a_row (transfer (pv w))
  /\ read_error_warning_shown (transfer (pv w1)) = read_error_warning_shown (transfer (pv w))
  /\ last_read_skip_fd (transfer (pv w1)) = last_read_skip_fd (transfer (pv w))
  /\ to_write (transfer (pv w1)) = to_write (transfer (pv w))
  /\ count_events is_warning new = 0%nat
  /\ count_events (is_seek_probe fd) new = 0%nat
  /\ count_events is_write_call new = 0%nat
  /\ count_events is_skip_trace new = 0%nat
  /\ (forall f, f <> fd \/ splice_failed_fd (transfer (pv w)) = fd ->
        count_events (is_splice_on f) new = 0%nat)
  /\ (splice_failed_fd (transfer (pv w1)) = splice_failed_fd (transfer (pv w))
      \/ (splice_failed_fd (transfer (pv w1)) = fd
          /\ fst (re_splice env) < 0 /\ snd (re_splice env) = EINVAL
          /\ count_events (is_splice_on fd) new = 1%nat))
  /\ ((0 < count_events (is_splice_on fd) new)%nat ->
      fst (re_splice env) < 0 -> snd (re_splice env) = EINVAL ->
      splice_failed_fd (transfer (pv w1)) = fd)
  /\ (splice_failed_fd (transfer (pv w)) = fd ->
      count_events (is_read_on fd) new = 1%nat).

Definition skip_footprint (fd : Z) (w w' : world) (eof_in' : bool) (new : list event) : Prop :=
  control (pv w') = control (pv w)
  /\ display (pv w') = display (pv w)
  /\ pipe_closed (pv w') = pipe_closed (pv w)
  /\ exit_status (pv w') = exit_status (pv w)
  /\ last_read_skip_fd (transfer (pv w')) = last_read_skip_fd (transfer (pv w))
  /\ to_write (transfer (pv w')) = to_write (transfer (pv w))
  /\ splice_failed_fd (transfer (pv w')) = splice_failed_fd (transfer (pv w))
  /\ count_events is_write_call new = 0%nat
  /\ (forall f, count_events (is_splice_on f) new = 0%nat)
  /\ count_events (is_read_on fd) new = 0%nat
  /\ count_events (is_seek_probe fd) new = 1%nat
  /\ read_error_warning_shown (transfer (pv w')) = true
  /\ count_events is_warning new
     = (if read_error_warning_shown (transfer (pv w)) then 0%nat else 1%nat)
  /\ count_events is_skip_trace new
     = (if negb eof_in' && (skip_errors (control (pv w)) <? 2) then 1%nat else 0%nat).

(** What one call of [pv__transfer_read] may do, as far as the bookkeeping of
    splice and of the error-skip protocol goes. *)
Definition read_footprint (env : read_env) (fd : Z) (w w' : world)
    (eof_in' : bool) (new : list event) : Prop :=
  control (pv w') = control (pv w)
  /\ display (pv w') = display (pv w)
  /\ pipe_closed (pv w') = pipe_closed (pv w)
  /\ last_read_skip_fd (transfer (pv w')) = last_read_skip_fd (transfer (pv w))
  /\ to_write (transfer (pv w')) = to_write (transfer (pv w))
  /\ count_events is_write_call new = 0%nat
  /\ (forall f, f <> fd \/ splice_failed_fd (transfer (pv w)) = fd ->
        count_events (is_splice_on f) new = 0%nat)
  /\ (splice_failed_fd (transfer (pv w')) = splice_failed_fd (transfer (pv w))
      \/ (splice_failed_fd (transfer (pv w')) = fd
          /\ fst (re_splice env) < 0 /\ snd (re_splice env) = EINVAL
          /\ count_events (is_splice_on fd) new = 1%nat))
  /\ ((0 < count_events (is_splice_on fd) new)%nat ->
      fst (re_splice env) < 0 -> snd (re_splice env) = EINVAL ->
      splice_failed_fd (transfer (pv w')) = fd)
  /\ (splice_failed_fd (transfer (pv w)) = fd ->
      count_events (is_read_on fd) new = 1%nat)
  /\ ((count_events (is_seek_probe fd) new = 0%nat
       /\ count_events is_warning new = 0%nat
       /\ count_events is_skip_trace new = 0%nat
       /\ read_error_warning_shown (transfer (pv w'))
          = read_error_warning_shown (transfer (pv w)))
      \/ (count_events (is_seek_probe fd) new = 1%nat
          /\ count_events is_warning new
             = (if read_error_warning_shown (transfer (pv w)) then 0%nat else 1%nat)
          /\ count_events is_skip_trace new
             = (if negb eof_in' && (skip_errors (control (pv w)) <? 2)
                then 1%nat else 0%nat)
          /\ read_error_warning_shown (transfer (pv w')) = true)).

(** A step that leaves the bookkeeping of splice and of error skipping alone. *)
Definition quiet (w w' : world) (new : list event) : Prop :=
  emits w w' new
  /\ linemode (control (pv w')) = linemode (control (pv w))
  /\ splice_failed_fd (transfer (pv w')) = splice_failed_fd (transfer (pv w))
  /\ read_error_warning_shown (transfer (pv w'))
     = read_error_warning_shown (transfer (pv w))
  /\ last_read_skip_fd (transfer (pv w')) = last_read_skip_fd (transfer (pv w))
  /\ count_events is_warning new = 0%nat
  /\ (forall f, count_events (is_seek_probe f) new = 0%nat)
  /\ (forall f, count_events (is_splice_on f) new = 0%nat).

(** A quiet step that makes no write call either. *)
Definition silent (w w' : world) (new : list event) : Prop :=
  quiet w w' new /\ count_events is_write_call new = 0%nat.

(** The bookkeeping of one call of [pv_transfer] on [fd], from a state with
    warning flag [ws0], splice-failed fd [sff0] and line mode [lm0]. *)
Definition transfer_footprint (env : transfer_env) (fd : Z)
    (ws0 : bool) (sff0 : Z) (lm0 : bool) (w' : world) (new : list event) : Prop :=
  last_read_skip_fd (transfer (pv w')) = fd
  /\ linemode (control (pv w')) = lm0
  /\ (forall f, f <> fd \/ sff0 = fd -> count_events (is_splice_on f) new = 0%nat)
  /\ (splice_failed_fd (transfer (pv w')) = sff0
      \/ (splice_failed_fd (transfer (pv w')) = fd
          /\ fst (re_splice (te_read env)) < 0
          /\ snd (re_splice (te_read env)) = EINVAL
          /\ count_events (is_splice_on fd) new = 1%nat))
  /\ ((count_events (is_seek_probe fd) new = 0%nat
       /\ count_events is_warning new = 0%nat
       /\ read_error_warning_shown (transfer (pv w')) = ws0)
      \/ (count_events (is_seek_probe fd) new = 1%nat
          /\ count_events is_warning new = (if ws0 then 0%nat else 1%nat)
          /\ read_error_warning_shown (transfer (pv w')) = true)).

(** The warning flag that [pv_transfer] starts from: cleared when the file
    descriptor is not the one of the previous call. *)
Definition warning_shown_for (fd : Z) (w : world) : bool :=
  if fd =? last_read_skip_fd (transfer (pv w))
  then read_error_warning_shown (transfer (pv w)) else false.

(** [pv__transfer_write_repeated] was called: it was asked for [to_write]
    bytes, and a failure with EPIPE is the orderly end of the transfer. *)
Definition write_called (env : write_env) (w : world)
    (result : Z * bool * bool * option Z * world) (lw : option Z)
    (new : list event) : Prop :=
  filter is_write_call new
  = [EvWrite (output_fd (control (pv w))) (to_size_t (to_write (transfer (pv w))))]
  /\ (fst (we_write env) < 0 -> snd (we_write env) = EPIPE ->
      exists w', result = (0, true, true, lw, w') /\ pipe_closed (pv w') = 1).

End Footprint.

(** * Concrete states and environments *)

Module Examples.
Import Transfer.

Definition all_features : config_h :=
  {| HAVE_SPLICE := true; HAVE_FDATASYNC := true; HAVE_SETITIMER := true;
     HAVE_FIONREAD := true; HAVE_O_DIRECT := true;
     HAVE_FPATHCONF := true; HAVE_POSIX_MEMALIGN := true;
     HAVE_PC_REC_XFER_ALIGN := true; HAVE_SYSCONF := true;
     HAVE_SC_PAGESIZE := true |}.

(** Settings with a 16-byte buffer, output on fd 1; the level of
    --skip-errors, --no-splice and --line-mode vary. *)
Definition settings (skip_level : Z) (without_splice line_mode : bool) : pvcontrol_s :=
  {| error_skip_block := 0; rate_limit := 0; target_buffer_size := 16; size := 0;
     skip_errors := skip_level; output_fd := 1; history_interval := 1; width := 80;
     interval := 1; linemode := line_mode; bits := false;
     null_terminated_lines := false; no_splice := without_splice;
     stop_at_size := false; sync_after_write := false; direct_io := false;
     direct_io_changed := false; sparse_output := false; discard_input := false |}.

(** A transfer state around buffer [buf], reading input fd 3, with [pending]
    bytes read and not yet written and [errors] read errors in a row. *)
Definition transfer_state (buf : list byte) (pending errors : Z) : pvtransferstate_s :=
  {| elapsed_seconds := 0; transfer_buffer := Some buf; buffer_size := 16;
     read_position := pending; write_position := 0; to_write := pending; written := 0;
     written_but_not_consumed := 0; total_bytes_read := 0; total_written := 0;
     transferred := 0; line_positions := None; line_positions_capacity := 0;
     line_positions_length := 0; line_positions_head := 0; last_output_position := 0;
     read_errors_in_a_row := errors; last_read_skip_fd := 3; splice_failed_fd := -1;
     splice_used := false; read_error_warning_shown := false;
     output_not_seekable := false |}.

Definition plain_display : pvdisplay_s :=
  {| previous_line := []; next_line := []; lastwritten_buffer := [];
     initial_offset := 0; next_line_len := 0; lastwritten_bytes := 0;
     showing_last_written := false; showing_previous_line := false;
     final_update := false; output_produced := false |}.

Definition make_world (c : pvcontrol_s) (t : pvtransferstate_s) : world :=
  {| pv := {| exit_status := 0; control := c; pipe_closed := 0;
              display := plain_display; transfer := t |};
     errno := ENONE; trace := [] |}.

Definition empty_buffer : list byte := repeat NUL 48.

(** The input is at offset 100, every read fails with EIO, every splice
    with EINVAL, and every seek succeeds. *)
Definition failing_input : read_env :=
  {| re_splice := (-1, EINVAL); re_fdatasync := (0, ENONE);
     re_read := (-1, EIO); re_read_data := [];
     re_lseek_cur := (100, ENONE);
     re_lseek_set := fun target => (target, ENONE);
     re_lseek_retry := fun target => (target, ENONE) |}.

(** An empty input on which splice is not possible: every splice fails
    with EINVAL, every read is at the end of the file. *)
Definition empty_unspliceable : read_env :=
  {| re_splice := (-1, EINVAL); re_fdatasync := (0, ENONE);
     re_read := (0, ENONE); re_read_data := [];
     re_lseek_cur := (0, ENONE);
     re_lseek_set := fun target => (target, ENONE);
     re_lseek_retry := fun target => (target, ENONE) |}.

(** The reader of the output pipe has gone: every write fails with EPIPE. *)
Definition closed_pipe : write_env :=
  {| we_lseek := (-1, ESPIPE); we_setitimer := (0, ENONE);
     we_write := (-1, EPIPE); we_cleartimer := (0, ENONE); we_calloc := true |}.

(** Memory is to be had: both descriptors transfer best in blocks of 512
    bytes, pages are of 4096 bytes, and posix_memalign() works. *)
Definition memory_available : alloc_env :=
  {| ae_fpathconf_in := (512, ENONE); ae_fpathconf_out := (512, ENONE);
     ae_sysconf := (4096, ENONE); ae_posix_memalign := 0; ae_malloc := true |}.

(** No memory is to be had: posix_memalign() gives ENOMEM (12) and malloc()
    fails. *)
Definition no_memory : alloc_env :=
  {| ae_fpathconf_in := (512, ENONE); ae_fpathconf_out := (512, ENONE);
     ae_sysconf := (4096, ENONE); ae_posix_memalign := 12; ae_malloc := false |}.

(** Both descriptors are ready. *)
Definition both_ready (r : read_env) (w : write_env) : transfer_env :=
  {| te_alloc := memory_available; te_select := (2, ENONE);
     te_fd_in_set := true; te_fd_out_set := true;
     te_read := r; te_write := w |}.

Definition call_on (fd : Z) (env : transfer_env) : transfer_call :=
  {| tc_between := fun w => w; tc_env := env; tc_fd := fd;
     tc_eof_in := false; tc_eof_out := false; tc_allowed := 0;
     tc_lineswritten := Some 0 |}.

(** "ab\ncd\nef" *)
Definition three_lines : list byte :=
  [x61; x62; x0a; x63; x64; x0a; x65; x66] ++ repeat NUL 40.

(** Eight bytes arrive at every read. *)
Definition steady_input : read_env :=
  {| re_splice := (-1, EINVAL); re_fdatasync := (0, ENONE);
     re_read := (8, ENONE); re_read_data := [x61; x62; x0a; x63; x64; x0a; x65; x66];
     re_lseek_cur := (0, ENONE);
     re_lseek_set := fun target => (target, ENONE);
     re_lseek_retry := fun target => (target, ENONE) |}.

(** The output pipe takes eight bytes at every write. *)
Definition open_pipe : write_env :=
  {| we_lseek := (-1, ESPIPE); we_setitimer := (0, ENONE);
     we_write := (8, ENONE); we_cleartimer := (0, ENONE); we_calloc := true |}.

(** One pass of the main loop in which FIONREAD reports [unread] bytes. *)
Definition pass_reporting (wenv : write_env) (unread : Z) : Loop.pass_env :=
  {| Loop.pe_transfer := both_ready steady_input wenv;
     Loop.pe_ioctl := 0; Loop.pe_nbytes := unread |}.

(** The loop reading fd 3 and writing to a pipe. *)
Definition piping : Loop.locals :=
  {| Loop.input_fd := 3; Loop.output_is_pipe := true;
     Loop.eof_in := false; Loop.eof_out := false; Loop.lineswritten := 0;
     Loop.cansend := 0; Loop.target := 0; Loop.written_now := 0 |}.

(** Nothing measured yet, no rate history. *)
Definition idle_calc : Calc.pvtransfercalc_s :=
  {| Calc.transfer_rate := 0; Calc.average_rate := 0; Calc.prev_elapsed_sec := 0;
     Calc.prev_rate := 0; Calc.prev_trans := 0; Calc.current_avg_rate := 0;
     Calc.rate_min := 0; Calc.rate_max := 0; Calc.rate_sum := 0;
     Calc.ratesquared_sum := 0; Calc.measurements_taken := 0;
     Calc.history := None; Calc.history_len := 0; Calc.history_first := 0;
     Calc.history_last := 0; Calc.prev_transferred := 0; Calc.percentage := 0 |}.

(** [amount] transferred after [seconds] seconds. *)
Definition progress (amount : Z) (seconds : Q) : pvtransferstate_s :=
  {| elapsed_seconds := seconds; transfer_buffer := Some empty_buffer; buffer_size := 16;
     read_position := 0; write_position := 0; to_write := 0; written := 0;
     written_but_not_consumed := 0; total_bytes_read := amount; total_written := amount;
     transferred := amount; line_positions := None; line_positions_capacity := 0;
     line_positions_length := 0; line_positions_head := 0; last_output_position := 0;
     read_errors_in_a_row := 0; last_read_skip_fd := 3; splice_failed_fd := -1;
     splice_used := false; read_error_warning_shown := false;
     output_not_seekable := false |}.

(** The settings of "pv -s expected". *)
Definition expecting (expected : Z) : pvcontrol_s :=
  {| error_skip_block := 0; rate_limit := 0; target_buffer_size := 16; size := expected;
     skip_errors := 0; output_fd := 1; history_interval := 1; width := 80;
     interval := 1; linemode := false; bits := false;
     null_terminated_lines := false; no_splice := false;
     stop_at_size := false; sync_after_write := false; direct_io := false;
     direct_io_changed := false; sparse_output := false; discard_input := false |}.

(** A formatter that writes five bytes whatever the component, and a
    terminal on which every byte takes one column. *)
Definition five_bytes (type : Z) (args : Display.pvformatter_args_s)
  : Z * Display.pvformatter_args_s :=
  Display.pv_formatter_segmentcontent "12345" args.

Definition one_column_each (bytes : list byte) : Z := Z.of_nat (List.length bytes).

Definition segment_of (type chosen_size width : Z) : Display.pvdisplay_segment_s :=
  {| Display.seg_type := type; Display.seg_parameter := 0;
     Display.seg_chosen_size := chosen_size; Display.seg_offset := 0;
     Display.seg_bytes := 0; Display.seg_width := width |}.

(** The arguments handed to the formatters, [amount] of [expected] bytes
    having been transferred at [rate] bytes per second. *)
Definition formatter_args (amount expected : Z) (rate : Q) (final : bool)
  : Display.pvformatter_args_s :=
  {| Display.fa_display :=
       {| previous_line := []; next_line := []; lastwritten_buffer := [];
          initial_offset := 0; next_line_len := 0; lastwritten_bytes := 0;
          showing_last_written := false; showing_previous_line := false;
          final_update := final; output_produced := false |};
     Display.fa_segment := segment_of 10 0 0;
     Display.fa_control := expecting expected;
     Display.fa_transfer := progress amount 1;
     Display.fa_calc :=
       {| Calc.transfer_rate := rate; Calc.average_rate := rate;
          Calc.prev_elapsed_sec := 0; Calc.prev_rate := rate; Calc.prev_trans := 0;
          Calc.current_avg_rate := rate; Calc.rate_min := rate; Calc.rate_max := rate;
          Calc.rate_sum := rate; Calc.ratesquared_sum := 0;
          Calc.measurements_taken := 1; Calc.history := None; Calc.history_len := 0;
          Calc.history_first := 0; Calc.history_last := 0;
          Calc.prev_transferred := 0; Calc.percentage := 0 |};
     Display.fa_buffer := repeat NUL 256;
     Display.fa_buffer_size := 256;
     Display.fa_offset := 0 |}.

(** "%p ab %e %p": two bars around a two-column string and an ETA. *)
Definition two_bars : list Display.pvdisplay_segment_s :=
  [ segment_of 0 0 0; segment_of (-1) 0 2; segment_of 10 0 0; segment_of 0 0 0 ].

(** The receiver, process 4242, answers during the third sleep; a signal from
    another process arrives during the second. *)
Definition answered_in_third_sleep : Remote.remote_env :=
  {| Remote.rm_kill_check := (0, ENONE); Remote.rm_open := (3, ENONE);
     Remote.rm_fwrite := (1, ENONE); Remote.rm_fclose := (0, ENONE);
     Remote.rm_kill_signal := (0, ENONE);
     Remote.rm_arrivals :=
       fun k => match k with 1%nat => [77] | 2%nat => [4242] | _ => [] end;
     Remote.rm_remove := (0, ENONE) |}.

(** The receiver never answers. *)
Definition never_answered : Remote.remote_env :=
  {| Remote.rm_kill_check := (0, ENONE); Remote.rm_open := (3, ENONE);
     Remote.rm_fwrite := (1, ENONE); Remote.rm_fclose := (0, ENONE);
     Remote.rm_kill_signal := (0, ENONE);
     Remote.rm_arrivals := fun k => [];
     Remote.rm_remove := (0, ENONE) |}.

Definition fresh_sender : Remote.sender :=
  {| Remote.sg := {| Remote.rxusr2 := 0; Remote.sender_usr2 := 0 |};
     Remote.s_errno := ENONE; Remote.s_trace := [] |}.

End Examples.

(** * More concrete states and environments *)

Module Fixtures.
Import Transfer Examples.

(** Every read is interrupted by a signal. *)
Definition interrupted_input : read_env :=
  {| re_splice := (-1, EINVAL); re_fdatasync := (0, ENONE);
     re_read := (-1, EINTR); re_read_data := [];
     re_lseek_cur := (0, ENONE);
     re_lseek_set := fun target => (target, ENONE);
     re_lseek_retry := fun target => (target, ENONE) |}.

(** Three bytes arrive, then the next read() is interrupted by a signal. *)
Definition interrupted_after_three : read_env :=
  {| re_splice := (-1, EINVAL); re_fdatasync := (0, ENONE);
     re_read := (-1, EINTR); re_read_data := [x61; x62; x0a];
     re_lseek_cur := (0, ENONE);
     re_lseek_set := fun target => (target, ENONE);
     re_lseek_retry := fun target => (target, ENONE) |}.

(** Every read fails with EIO, and the input cannot be seeked. *)
Definition unseekable_input : read_env :=
  {| re_splice := (-1, EINVAL); re_fdatasync := (0, ENONE);
     re_read := (-1, EIO); re_read_data := [];
     re_lseek_cur := (-1, ESPIPE);
     re_lseek_set := fun target => (-1, ESPIPE);
     re_lseek_retry := fun target => (-1, ESPIPE) |}.

(** An empty 16-byte buffer, splice switched off, errors skipped at
    [skip_level]. *)
Definition idle_world (skip_level : Z) : world :=
  make_world (settings skip_level true false) (transfer_state empty_buffer 0 0).

(** Before the first call of pv_transfer: no buffer yet. *)
Definition unallocated : world :=
  on_transfer (fun t => set_buffer_size 0 (set_transfer_buffer None t)) (idle_world 0).

(** Line mode with "ab\ncd\nef" waiting to be written and room to record
    four line positions. *)
Definition three_lines_pending : world :=
  make_world (settings 0 true true)
    (set_line_positions (Some [0; 0; 0; 0])
       (set_line_positions_capacity 4 (transfer_state three_lines 8 0))).

(** --sparse-output with eight null bytes waiting to be written. *)
Definition sparse_nulls_pending : world :=
  make_world
    {| error_skip_block := 0; rate_limit := 0; target_buffer_size := 16; size := 0;
       skip_errors := 0; output_fd := 1; history_interval := 1; width := 80;
       interval := 1; linemode := false; bits := false;
       null_terminated_lines := false; no_splice := true;
       stop_at_size := false; sync_after_write := false; direct_io := false;
       direct_io_changed := false; sparse_output := true; discard_input := false |}
    (transfer_state empty_buffer 8 0).

(** The output is a regular file: lseek() works and write() takes eight
    bytes. *)
Definition regular_file : write_env :=
  {| we_lseek := (8, ENONE); we_setitimer := (0, ENONE);
     we_write := (8, ENONE); we_cleartimer := (0, ENONE); we_calloc := true |}.

(** The output pipe takes [count] bytes and no more. *)
Definition pipe_taking (count : Z) : write_env :=
  {| we_lseek := (-1, ESPIPE); we_setitimer := (0, ENONE);
     we_write := (count, ENONE); we_cleartimer := (0, ENONE); we_calloc := true |}.

(** Two measurements taken, at 1 s and 2 s, in a history of two entries. *)
Definition two_entry_history : Calc.pvtransfercalc_s :=
  {| Calc.transfer_rate := 100; Calc.average_rate := 100; Calc.prev_elapsed_sec := 2;
     Calc.prev_rate := 100; Calc.prev_trans := 0; Calc.current_avg_rate := 100;
     Calc.rate_min := 100; Calc.rate_max := 100; Calc.rate_sum := 200;
     Calc.ratesquared_sum := 20000; Calc.measurements_taken := 2;
     Calc.history := Some [(1%Q, 100); (2%Q, 200)]; Calc.history_len := 2;
     Calc.history_first := 0; Calc.history_last := 1;
     Calc.prev_transferred := 200; Calc.percentage := 0 |}.

(** The receiver, process 4242, answers during the first sleep, and a
    SIGUSR2 from process 77 arrives after it during the same sleep. *)
Definition overtaken_answer : Remote.remote_env :=
  {| Remote.rm_kill_check := (0, ENONE); Remote.rm_open := (3, ENONE);
     Remote.rm_fwrite := (1, ENONE); Remote.rm_fclose := (0, ENONE);
     Remote.rm_kill_signal := (0, ENONE);
     Remote.rm_arrivals := fun k => match k with O => [4242; 77] | _ => [] end;
     Remote.rm_remove := (0, ENONE) |}.

End Fixtures.

(** * src/pv/number.c *)

Module Number.
Import Display.

(** [pv_isdigit] *)
Definition pv_isdigit (c : ascii) : bool :=
  (N_of_ascii "0" <=? N_of_ascii c)%N && (N_of_ascii c <=? N_of_ascii "9")%N.

(** [c - '0'] *)
Definition digit_value (c : ascii) : Z := Z.of_N (N_of_ascii c) - 48.

(** ['.' == c || ',' == c] *)
Definition is_decimal_mark (c : ascii) : bool :=
  Ascii.eqb c "." || Ascii.eqb c ",".

(** [' ' == c || '\t' == c] *)
Definition is_blank (c : ascii) : bool :=
  Ascii.eqb c " " || Ascii.eqb c "009".

(** The string from [str[readpos]] on is what is left to read; at its end
    [str[readpos]] is the terminating null. *)
Definition current (s : string) : ascii :=
  match s with
  | String c _ => c
  | EmptyString => "000"%char
  end.

(** Lines 46-47: skip any non-numeric leading characters. *)
Fixpoint skip_non_digits (s : string) : string :=
  match s with
  | EmptyString => s
  | String c rest => if pv_isdigit c then s else skip_non_digits rest
  end.

(** Lines 53-56: the digits before the decimal mark. *)
Fixpoint parse_integral (integral_part : Z) (s : string) : Z * string :=
  match s with
  | EmptyString => (integral_part, s)
  | String c rest =>
      if pv_isdigit c then
        let integral_part := to_off_t (integral_part * 10) in
        parse_integral (to_off_t (integral_part + digit_value c)) rest
      else (integral_part, s)
  end.

(** Lines 68-75: the digits after the decimal mark, counted down to
    0.0001. *)
Fixpoint parse_fraction (fractional_part fractional_divisor : Z) (s : string)
  : Z * Z * string :=
  match s with
  | EmptyString => (fractional_part, fractional_divisor, s)
  | String c rest =>
      if pv_isdigit c then
        if fractional_divisor <? 10000 then
          let fractional_part := to_off_t (fractional_part * 10) in
          parse_fraction (to_off_t (fractional_part + digit_value c))
            (to_uint (fractional_divisor * 10)) rest
        else parse_fraction fractional_part fractional_divisor rest
      else (fractional_part, fractional_divisor, s)
  end.

(** Lines 84-85, and 228-229 and 260-261 of [pv_getnum_check]. *)
Fixpoint skip_blanks (s : string) : string :=
  match s with
  | EmptyString => s
  | String c rest => if is_blank c then skip_blanks rest else s
  end.

(** Lines 86-109: binary_shift and decimal_multiplier for a units letter. *)
Definition units_of (c : ascii) : Z * Z :=
  if Ascii.eqb c "k" || Ascii.eqb c "K" then (10, 1000)
  else if Ascii.eqb c "m" || Ascii.eqb c "M" then (20, 1000000)
  else if Ascii.eqb c "g" || Ascii.eqb c "G" then (30, 1000000000)
  else if Ascii.eqb c "t" || Ascii.eqb c "T" then (40, 1000000000000)
  else (0, 0).

(** Lines 127-145: shift left, by no more than 30 at a time.  Every turn
    takes at least 1 off [binary_shift], so [binary_shift] turns are
    enough. *)
Fixpoint shift_left (turns : nat) (binary_shift integral_part fractional_part : Z)
  : Z * Z :=
  match turns with
  | O => (integral_part, fractional_part)
  | S turns =>
      if binary_shift >? 0 then
        let shiftby := if binary_shift >? 30 then 30 else binary_shift in
        shift_left turns (to_uint (binary_shift - shiftby))
          (to_off_t (Z.shiftl integral_part shiftby))
          (to_off_t (Z.shiftl fractional_part shiftby))
      else (integral_part, fractional_part)
  end.

(** [pv_getnum_size]; [None] is a NULL [str]. *)
Definition pv_getnum_size (str : option string) (decimal_units : bool) : Z :=
  match str with
  | None => 0
  | Some str =>
      let s := skip_non_digits (c_string str) in
      let '(integral_part, s) := parse_integral 0 s in
      let '(fractional_part, fractional_divisor, s) :=
        if is_decimal_mark (current s)
        then parse_fraction 0 1 (match s with String _ rest => rest | _ => s end)
        else (0, 1, s) in
      let '(binary_shift, decimal_multiplier) :=
        match s with
        | EmptyString => (0, 0)
        | String _ _ => units_of (current (skip_blanks s))
        end in
      let '(binary_shift, decimal_multiplier) :=
        if decimal_units then (0, decimal_multiplier) else (binary_shift, 0) in
      let '(integral_part, fractional_part) :=
        shift_left (Z.to_nat binary_shift) binary_shift integral_part
          fractional_part in
      let '(integral_part, fractional_part) :=
        if decimal_multiplier >? 0 then
          (to_off_t (integral_part * decimal_multiplier),
           to_off_t (fractional_part * decimal_multiplier))
        else (integral_part, fractional_part) in
      let fractional_part := Z.quot fractional_part fractional_divisor in
      to_off_t (integral_part + fractional_part)
  end.

(** [pv_getnum_count] *)
Definition pv_getnum_count (str : option string) (decimal_units : bool) : Z :=
  to_uint (pv_getnum_size str decimal_units).

(** The values of [pv_numtype] that number.c and its callers name. *)
Inductive pv_numtype : Type :=
  | PV_NUMTYPE_BARE_INTEGER
  | PV_NUMTYPE_BARE_DOUBLE
  | PV_NUMTYPE_ANY_WITH_SUFFIX.

Definition is_bare_integer (type : pv_numtype) : bool :=
  match type with PV_NUMTYPE_BARE_INTEGER => true | _ => false end.

Definition is_any_with_suffix (type : pv_numtype) : bool :=
  match type with PV_NUMTYPE_ANY_WITH_SUFFIX => true | _ => false end.

(** Lines 236 and 248: [for (; pv_isdigit(str[0]); str++);] *)
Fixpoint skip_digits (s : string) : string :=
  match s with
  | EmptyString => s
  | String c rest => if pv_isdigit c then skip_digits rest else s
  end.

(** Lines 264-277: whether the character is a units letter. *)
Definition is_units_letter (c : ascii) : bool :=
  Ascii.eqb c "k" || Ascii.eqb c "K" || Ascii.eqb c "m" || Ascii.eqb c "M"
  || Ascii.eqb c "g" || Ascii.eqb c "G" || Ascii.eqb c "t" || Ascii.eqb c "T".

(** [pv_getnum_check]; [None] is a NULL [str]. *)
Definition pv_getnum_check (str : option string) (type : pv_numtype) : bool :=
  match str with
  | None => false
  | Some str =>
      let s := skip_blanks (c_string str) in
      if negb (pv_isdigit (current s)) then false
      else
        let s := skip_digits s in
        let marked := is_decimal_mark (current s) in
        if marked && is_bare_integer type then false
        else
          let s :=
            if marked
            then skip_digits (match s with String _ rest => rest | _ => s end)
            else s in
          match s with
          | EmptyString => true
          | String _ _ =>
              if negb (is_any_with_suffix type) then false
              else
                match skip_blanks s with
                | String c rest =>
                    if is_units_letter c then
                      match rest with
                      | EmptyString => true
                      | String _ _ => false
                      end
                    else false
                | EmptyString => false
                end
          end
  end.

End Number.

(** * src/pv/string.c: pv_strwidth and pv_strlcat *)

Module Strings.

Definition ESC : byte := x1b.
Definition BRACKET : byte := x5b.     (* '[' *)
Definition SEMICOLON : byte := x3b.

(** [(c >= '0' && c <= '9') || (';' == c)] *)
Definition is_parameter (c : byte) : bool :=
  let n := Byte.to_N c in
  ((48 <=? n)%N && (n <=? 57)%N) || Byte.eqb c SEMICOLON.

(** Lines 244-250: from [read_pos] on, pass over digits and semicolons
    while [read_pos < bytes - 1], that is while more than one byte is
    left. *)
Fixpoint skip_parameters (s : list byte) : list byte :=
  match s with
  | [] => s
  | c :: rest =>
      match rest with
      | [] => s
      | _ :: _ => if is_parameter c then skip_parameters rest else s
      end
  end.

(** Lines 238-251: the copy of the string without its ECMA-48 CSI
    sequences; [s] is what is left from [read_pos] on.  Every turn of the
    loop moves [read_pos] on by one byte at least, so as many turns as bytes
    are enough. *)
Fixpoint copy_raw (turns : nat) (s : list byte) : list byte :=
  match turns with
  | O => []
  | S turns =>
      match s with
      | [] => []
      | c :: rest =>
          match rest with
          | [] => [c]
          | next :: after =>
              if Byte.eqb c ESC && Byte.eqb next BRACKET
              then copy_raw turns (tl (skip_parameters after))
              else c :: copy_raw turns rest
          end
      end
  end.

(** [pv_strwidth] as built without ENABLE_NLS: the number of bytes of the
    copy.  [calloc_works] is the outcome of the calloc() made for a string
    of 255 bytes or more. *)
Definition pv_strwidth (calloc_works : bool) (string : option (list byte))
    (bytes : Z) : Z :=
  match string with
  | None => 0
  | Some string =>
      if bytes =? 0 then 0
      else if negb (bytes <? 256 - 1) && negb calloc_works then bytes
      else
        let s := firstn (Z.to_nat bytes) string in
        Z.of_nat (List.length (copy_raw (List.length s) s))
  end.

(** [strlen]: the bytes before the first null. *)
Fixpoint c_bytes (s : list byte) : list byte :=
  match s with
  | [] => []
  | c :: rest => if Byte.eqb c x00 then [] else c :: c_bytes rest
  end.

Definition strlen (s : list byte) : Z := Z.of_nat (List.length (c_bytes s)).

(** [pv_strlcat] as built without HAVE_STRLCAT, with vsnprintf():
    the value returned and the buffer [dst]. *)
Definition pv_strlcat (dst : option (list byte)) (src : option (list byte))
    (dstsize : Z) : Z * option (list byte) :=
  match dst, src with
  | None, _ => (0, dst)
  | Some _, None => (0, dst)
  | Some d, Some src =>
      if dstsize =? 0 then (0, dst)
      else
        let d := buf_store d (dstsize - 1) [x00] in
        let dstlen := strlen d in
        let srclen := strlen src in
        let available := to_size_t (dstsize - dstlen) in
        let d :=
          if available >? 1 then
            (* pv_snprintf(dst + dstlen, available, "%.*s", available - 1, src) *)
            let d := buf_store d dstlen [x00] in
            let formatted := firstn (Z.to_nat (available - 1)) (c_bytes src) in
            let d := buf_store d dstlen (formatted ++ [x00]) in
            buf_store d (dstlen + available - 1) [x00]
          else d in
        (to_size_t (dstlen + srclen), Some d)
  end.

End Strings.

(** * Vocabulary of the statements *)

Module Vocabulary.

(** The circular record of line positions is in order: a capacity, a head
    below it, a length up to it, and room for the capacity. *)
Definition ring_in_order (t : pvtransferstate_s) : Prop :=
  match line_positions t with
  | None => True
  | Some positions =>
      0 < line_positions_capacity t <= Z.of_nat (List.length positions)
      /\ 0 <= line_positions_head t < line_positions_capacity t
      /\ 0 <= line_positions_length t <= line_positions_capacity t
  end.

(** How many of [bytes] are the line separator. *)
Definition separators (separator : byte) (bytes : list byte) : Z :=
  Z.of_nat (List.length (filter (fun b => Byte.eqb b separator) bytes)).

(** The last [n] elements of a list. *)
Definition lastn {A : Type} (n : nat) (l : list A) : list A :=
  skipn (List.length l - n) l.

(** The bytes moved since the previous call: lines 97-101 of calc.c. *)
Definition bytes_since_last (calc : Calc.pvtransfercalc_s)
    (transfer : pvtransferstate_s) : Z :=
  if transferred transfer >=? 0
  then to_off_t (transferred transfer - Calc.prev_transferred calc) else 0.

(** The control file was created: the receiver exists and
    pv_open_controlfile() gave a stream. *)
Definition opened (env : Remote.remote_env) : bool :=
  (fst (Remote.rm_kill_check env) =? 0) && (0 <=? fst (Remote.rm_open env)).

(** Reading digits stops at the start of [s]. *)
Definition stops_digits (s : string) : Prop :=
  Number.pv_isdigit (Number.current s) = false.

(** The power of 1024, or of 1000 with decimal units, that a units letter
    stands for: K 1, M 2, G 3, T 4, in either case; 0 for any other
    character. *)
Definition units_exponent (c : ascii) : Z :=
  if Ascii.eqb c "k" || Ascii.eqb c "K" then 1
  else if Ascii.eqb c "m" || Ascii.eqb c "M" then 2
  else if Ascii.eqb c "g" || Ascii.eqb c "G" then 3
  else if Ascii.eqb c "t" || Ascii.eqb c "T" then 4
  else 0.

Definition units_factor (c : ascii) (decimal_units : bool) : Z :=
  (if decimal_units then 1000 else 1024) ^ units_exponent c.

(** The characters of the decimal digits [ds], and the number they
    write. *)
Fixpoint digits_string (ds : list Z) : string :=
  match ds with
  | [] => EmptyString
  | d :: rest => String (ascii_of_N (Z.to_N (48 + d))) (digits_string rest)
  end.

Definition digits_value (ds : list Z) : Z :=
  fold_left (fun acc d => acc * 10 + d) ds 0.

Definition is_digit (d : Z) : Prop := 0 <= d <= 9.

(** The whole number [z] is a value of the format: it has fewer bits than
    the mantissa. *)
Definition exact_in (fmt : Float.format) (z : Z) : Prop :=
  Z.abs z < 2 ^ Float.MANT_DIG fmt.

(** [buf'] is [buf] but for the [len] bytes from [pos] on. *)
Definition same_outside (buf buf' : list byte) (pos len : Z) : Prop :=
  List.length buf' = List.length buf
  /\ forall i, 0 <= i -> i < pos \/ pos + len <= i ->
       buf_get buf' i = buf_get buf i.

(** The world after [stored] has been copied to the buffer at the read
    position. *)
Definition store_at_read_position (stored : list byte) (w : world) : world :=
  on_transfer (fun t =>
    set_transfer_buffer
      (option_map_buf (fun b => buf_store b (read_position t) stored)
         (transfer_buffer t)) t) w.

End Vocabulary.

(** * Facts about the integer conversions *)

Module IntFacts.

Lemma to_off_t_id z : fits_off_t z -> to_off_t z = z.
Proof.
  unfold fits_off_t, to_off_t. intros H.
  rewrite Z.mod_small by lia. lia.
Qed.

Lemma to_off_t_range z : fits_off_t (to_off_t z).
Proof.
  unfold fits_off_t, to_off_t.
  pose proof (Z.mod_pos_bound (z + 2 ^ 63) (2 ^ 64) ltac:(lia)). lia.
Qed.

Lemma to_size_t_id z : fits_size_t z -> to_size_t z = z.
Proof. unfold fits_size_t, to_size_t. intros H. apply Z.mod_small. lia. Qed.

Lemma to_int_id z : fits_int z -> to_int z = z.
Proof.
  unfold fits_int, to_int. intros H. rewrite Z.mod_small by lia. lia.
Qed.

Lemma to_uint_id z : 0 <= z < 2 ^ 32 -> to_uint z = z.
Proof. unfold to_uint. intros H. apply Z.mod_small. lia. Qed.

Lemma to_uint16_id z : fits_uint16 z -> to_uint16 z = z.
Proof. unfold fits_uint16, to_uint16. intros H. apply Z.mod_small. lia. Qed.

End IntFacts.

(** * Facts about the comparisons of long doubles *)

Module QFacts.
Import Calc.

Lemma Qltb_true a b : Qltb a b = true -> (a < b)%Q.
Proof.
  unfold Qltb. intros H. apply negb_true_iff in H.
  apply Qnot_le_lt. intros L. apply Qle_bool_iff in L. congruence.
Qed.

Lemma Qltb_false a b : Qltb a b = false -> (b <= a)%Q.
Proof.
  unfold Qltb. intros H. apply negb_false_iff in H.
  apply Qle_bool_iff. exact H.
Qed.

End QFacts.

(** * Facts about transfer.c: what each part leaves alone *)

Module TransferFacts.
Import Transfer Footprint IntFacts.

Ltac break_match :=
  match goal with
  | |- context [if ?b then _ else _] => destruct b eqn:?
  | |- context [match ?x with _ => _ end] => destruct x eqn:?
  end.

Ltac unfold_world :=
  unfold mark_input_ended, pv_error, emit, syscall, set_exit_status,
    set_pipe_closed, on_transfer, on_control, on_display, on_state in *.

Lemma emits_refl w : emits w w [].
Proof. unfold emits. now rewrite app_nil_r. Qed.

Lemma emits_trans w w1 w2 a b : emits w w1 a -> emits w1 w2 b -> emits w w2 (a ++ b).
Proof. unfold emits. intros -> ->. now rewrite app_assoc. Qed.

Lemma count_events_app p a b :
  count_events p (a ++ b) = (count_events p a + count_events p b)%nat.
Proof. unfold count_events. now rewrite filter_app, length_app. Qed.

(** Closes a goal [exists new, emits w w' new /\ ...] once [w'] is explicit. *)
Ltac show_emits :=
  unfold emits; cbn; rewrite <- ?app_assoc; cbn;
  eexists; split; [ first [ reflexivity | symmetry; apply app_nil_r ] | ].

Lemma errno_eqb_eq a b : errno_eqb a b = true -> a = b.
Proof. destruct a, b; cbn; congruence. Qed.

Lemma errno_eqb_neq a b : errno_eqb a b = false -> a <> b.
Proof. destruct a, b; cbn; congruence. Qed.

Ltac bool_hyps :=
  repeat match goal with
  | H : _ && _ = true |- _ => apply andb_prop in H; destruct H
  | H : _ || _ = false |- _ => apply orb_false_elim in H; destruct H
  | H : _ && _ = false |- _ => apply andb_false_iff in H; destruct H
  | H : _ || _ = true |- _ => apply orb_prop in H; destruct H
  | H : negb _ = true |- _ => apply negb_true_iff in H
  | H : negb _ = false |- _ => apply negb_false_iff in H
  | H : (_ =? _) = true |- _ => apply Z.eqb_eq in H
  | H : (_ =? _) = false |- _ => apply Z.eqb_neq in H
  | H : (_ <? _) = true |- _ => apply Z.ltb_lt in H
  | H : (_ <? _) = false |- _ => apply Z.ltb_ge in H
  | H : (_ >? _) = true |- _ => rewrite Z.gtb_ltb in H; apply Z.ltb_lt in H
  | H : (_ >? _) = false |- _ => rewrite Z.gtb_ltb in H; apply Z.ltb_ge in H
  | H : (_ >=? _) = true |- _ => rewrite Z.geb_leb in H; apply Z.leb_le in H
  | H : (_ >=? _) = false |- _ => rewrite Z.geb_leb in H; apply Z.leb_gt in H
  | H : (_ <=? _) = true |- _ => apply Z.leb_le in H
  | H : (_ <=? _) = false |- _ => apply Z.leb_gt in H
  end.

Ltac split_ifs :=
  repeat match goal with
  | H : context [if ?a <? ?b then _ else _] |- _ => destruct (Z.ltb_spec a b); try lia
  | |- context [?a =? ?b] => destruct (Z.eqb_spec a b); try lia; cbn
  end.

Ltac finish :=
  intros; bool_hyps; cbn in *; rewrite ?Z.eqb_refl in *; cbn in *;
  split_ifs; cbn in *;
  repeat match goal with
  | H : errno_eqb _ _ = true |- _ => apply errno_eqb_eq in H
  | H : errno_eqb _ _ = false |- _ => apply errno_eqb_neq in H
  end;
  try solve [ reflexivity | lia | congruence | tauto
            | intuition (try lia; try congruence) ].

Lemma splice_or_read_footprint cfg env w fd m bcr dns :
  exists new,
    emits w (snd (splice_or_read cfg env w fd m bcr dns)) new
    /\ fetch_footprint env fd w (snd (splice_or_read cfg env w fd m bcr dns)) new.
Proof.
  unfold fetch_footprint, splice_or_read, read_into_buffer. unfold_world. cbn.
  repeat (break_match; cbn).
  all: show_emits.
  all: repeat split; cbn; auto.
  all: finish.
Qed.

Lemma skip_past_error_footprint env w fd eof_out bcr :
  let '(r, eof_in', eof_out', w') := skip_past_error env w fd false eof_out bcr in
  r = 1 /\ exists new, emits w w' new /\ skip_footprint fd w w' eof_in' new.
Proof.
  unfold skip_footprint, skip_past_error. unfold_world. cbn.
  repeat (break_match; cbn).
  all: (split; [reflexivity|]); show_emits.
  all: repeat split; cbn; auto.
  all: finish.
Qed.

Ltac close_counts :=
  rewrite ?count_events_app; cbn;
  repeat match goal with
  | H : count_events _ _ = _ |- _ => rewrite H
  | H : forall f, count_events _ _ = _ |- _ => rewrite H
  end;
  cbn; try reflexivity; try lia.

(** Puts the footprint of a call together from those of its parts, which
    are among the hypotheses. *)
Ltac compose_footprint :=
  repeat split; auto;
  try solve [ close_counts ];
  try solve [ intros f Hf;
              match goal with
              | H : forall f, _ -> count_events (is_splice_on f) _ = _ |- _ =>
                  specialize (H f Hf)
              end; close_counts ];
  try solve [ intros Hf;
              match goal with
              | H : _ -> count_events (is_read_on _) _ = _ |- _ => specialize (H Hf)
              end; close_counts ];
  try solve [ match goal with
              | H : _ \/ _ |- _ \/ _ =>
                  destruct H as [H | (? & ? & ? & ?)];
                  [ left; congruence
                  | right; repeat split; auto; close_counts ]
              end ];
  try solve [ intros Hc Hr He;
              match goal with
              | H : (0 < count_events (is_splice_on _) _)%nat -> _ |- _ =>
                  rewrite <- H; auto; try congruence;
                  rewrite ?count_events_app in Hc; cbn in Hc;
                  repeat match goal with
                  | K : forall f, count_events (is_splice_on f) _ = _ |- _ =>
                      rewrite K in Hc
                  end; lia
              end ];
  try solve [ left; repeat split; auto; try congruence; close_counts ];
  try solve [ right; repeat split; auto; try congruence; close_counts ].

Lemma pv__transfer_read_footprint cfg env w fd eof_out m :
  let '(r, eof_in', eof_out', w') := pv__transfer_read cfg env w fd false eof_out m in
  exists new, emits w w' new /\ read_footprint env fd w w' eof_in' new.
Proof.
  unfold pv__transfer_read.
  destruct (splice_or_read_footprint cfg env w fd m (bytes_can_read_of (pv w))
              (skip_errors (control (pv w)) =? 0)) as (n1 & E1 & F1).
  destruct (splice_or_read cfg env w fd m (bytes_can_read_of (pv w))
              (skip_errors (control (pv w)) =? 0)) as [[nread dns] w1].
  cbn [snd] in *.
  unfold fetch_footprint in F1.
  destruct F1 as (Fc & Fd & Fp & Fx & Fn & Fw & Fl & Ft & Cw & Cp & Cwr & Ck & Cs & Sf & Rec & Rd).
  assert (Quiet : forall w', trace w' = trace w1 ->
            control (pv w') = control (pv w1) ->
            display (pv w') = display (pv w1) ->
            pipe_closed (pv w') = pipe_closed (pv w1) ->
            last_read_skip_fd (transfer (pv w')) = last_read_skip_fd (transfer (pv w1)) ->
            to_write (transfer (pv w')) = to_write (transfer (pv w1)) ->
            splice_failed_fd (transfer (pv w')) = splice_failed_fd (transfer (pv w1)) ->
            read_error_warning_shown (transfer (pv w'))
            = read_error_warning_shown (transfer (pv w1)) ->
            forall e, exists new, emits w w' new /\ read_footprint env fd w w' e new).
  { intros w' Ht Hc Hd Hp Hl Hw Hs Hr e. exists n1. split.
    - unfold emits in *. congruence.
    - unfold read_footprint. rewrite Hc, Hd, Hp, Hl, Hw, Hs, Hr.
      repeat split; auto; left; repeat split; auto. }
  destruct (nread =? 0).
  { unfold mark_input_ended. apply Quiet; reflexivity. }
  destruct (nread >? 0).
  { apply Quiet; unfold_world; cbn; try reflexivity;
      destruct (HAVE_SPLICE cfg && splice_used (transfer (pv w1))); reflexivity. }
  destruct (errno_eqb (errno w1) EINTR || errno_eqb (errno w1) EAGAIN).
  { exists (n1 ++ [EvSelect (-1) (-1) 10000]). split.
    - unfold emits in *. unfold emit. cbn. rewrite E1. now rewrite app_assoc.
    - unfold read_footprint, emit. cbn. compose_footprint. }
  destruct dns.
  { unfold mark_input_ended. unfold_world. cbn.
    exists (n1 ++ [EvError MsgReadFailed]). split.
    - unfold emits in *. cbn. rewrite E1. now rewrite app_assoc.
    - unfold read_footprint. cbn. compose_footprint. }
  match goal with
  | |- context [skip_past_error env ?w2 fd false eof_out ?b] =>
      pose proof (skip_past_error_footprint env w2 fd eof_out b) as K;
      destruct (skip_past_error env w2 fd false eof_out b) as [[[r ei] eo] w3]
  end.
  destruct K as (_ & n2 & E2 & F2).
  unfold skip_footprint in F2. unfold_world. cbn in F2, E2.
  destruct F2 as (Gc & Gd & Gp & Gx & Gl & Gt & Gs & Dw & Ds & Dr & Dp & Gw & Dm & Dk).
  exists (n1 ++ n2). split.
  - unfold emits in *. rewrite E2, E1. now rewrite app_assoc.
  - unfold read_footprint.
    rewrite Gc, Gd, Gp, Gl, Gt, Gs, Gw, Fc.
    rewrite Fw in Dm. rewrite Fc in Dk.
    compose_footprint.
Qed.

Lemma track_byte_frame sep b acc :
  let t := snd acc in
  let t' := snd (track_byte sep b acc) in
  splice_failed_fd t' = splice_failed_fd t
  /\ read_error_warning_shown t' = read_error_warning_shown t
  /\ last_read_skip_fd t' = last_read_skip_fd t.
Proof.
  destruct acc as [[lines d] t]. unfold track_byte. cbn.
  repeat (break_match; cbn); auto.
Qed.

Lemma track_lines_frame sep bytes d t :
  let t' := snd (track_lines sep bytes d t) in
  splice_failed_fd t' = splice_failed_fd t
  /\ read_error_warning_shown t' = read_error_warning_shown t
  /\ last_read_skip_fd t' = last_read_skip_fd t.
Proof.
  unfold track_lines.
  change t with (snd (0, d, t)) at 2 4 6.
  generalize (0, d, t). clear d t.
  induction bytes as [|b bytes IH]; intros acc; cbn.
  - auto.
  - destruct (IH (track_byte sep b acc)) as (A & B & C).
    destruct (track_byte_frame sep b acc) as (A' & B' & C').
    cbn in *. repeat split; congruence.
Qed.

Ltac name_track_lines :=
  match goal with
  | |- context [track_lines ?a ?b ?c ?d] =>
      let F := fresh "F" in
      pose proof (track_lines_frame a b c d) as F;
      destruct (track_lines a b c d) as [[? ?] ?];
      cbn in F; destruct F as (? & ? & ?)
  end.

Lemma quiet_refl w : quiet w w [].
Proof. unfold quiet. repeat split; auto. apply emits_refl. Qed.

Lemma quiet_trans w w1 w2 a b :
  quiet w w1 a -> quiet w1 w2 b -> quiet w w2 (a ++ b).
Proof.
  unfold quiet.
  intros (E1 & L1 & S1 & R1 & K1 & C1 & P1 & Q1) (E2 & L2 & S2 & R2 & K2 & C2 & P2 & Q2).
  repeat split; try congruence.
  - eapply emits_trans; eauto.
  - rewrite count_events_app. lia.
  - intros f. rewrite count_events_app, P1, P2. reflexivity.
  - intros f. rewrite count_events_app, Q1, Q2. reflexivity.
Qed.

(** Closes [exists new, quiet w w' new /\ ...] for an explicit [w']. *)
Ltac show_quiet :=
  unfold quiet, emits; cbn; rewrite <- ?app_assoc; cbn;
  eexists;
  repeat match goal with |- _ /\ _ => split end;
  [ first [ reflexivity | symmetry; apply app_nil_r ] | .. ];
  cbn; auto; finish.

Lemma count_zero_filter p l : count_events p l = 0%nat -> filter p l = [].
Proof. unfold count_events. apply length_zero_iff_nil. Qed.

Lemma timed_write_quiet cfg env w :
  exists new,
    quiet w (snd (timed_write cfg env w)) new
    /\ filter is_write_call new
       = [EvWrite (output_fd (control (pv w)))
            (to_size_t (to_write (transfer (pv w))))].
Proof.
  unfold timed_write. unfold_world. cbn.
  repeat (break_match; cbn). all: show_quiet.
Qed.

Lemma write_failed_quiet w nwritten write_errno eof_in eof_out lw :
  exists new,
    quiet w (snd (write_failed w nwritten write_errno eof_in eof_out lw)) new
    /\ count_events is_write_call new = 0%nat.
Proof.
  unfold write_failed. unfold_world. cbn.
  repeat (break_match; cbn). all: show_quiet.
Qed.

Lemma write_completed_quiet env w buf nwritten eof_in eof_out lw :
  exists new,
    quiet w (snd (write_completed env w buf nwritten eof_in eof_out lw)) new
    /\ count_events is_write_call new = 0%nat.
Proof.
  unfold write_completed. unfold_world. cbn.
  repeat (first [ name_track_lines | break_match ]; cbn).
  all: show_quiet.
Qed.

Lemma silent_refl w : silent w w [].
Proof. split; [apply quiet_refl | reflexivity]. Qed.

Lemma silent_trans w w1 w2 a b :
  silent w w1 a -> silent w1 w2 b -> silent w w2 (a ++ b).
Proof.
  intros [Q1 C1] [Q2 C2]. split.
  - eapply quiet_trans; eauto.
  - rewrite count_events_app. lia.
Qed.

Ltac show_silent := unfold silent; show_quiet.

(** The write is quiet. *)
Lemma pv__transfer_write_quiet cfg env w eof_in eof_out lw :
  exists new,
    quiet w (snd (pv__transfer_write cfg env w eof_in eof_out lw)) new
    /\ (count_events is_write_call new = 0%nat
        \/ write_called env w
             (pv__transfer_write cfg env w eof_in eof_out lw) lw new).
Proof.
  unfold pv__transfer_write.
  destruct (transfer_buffer (transfer (pv w))) as [buf|].
  2:{ unfold_world. cbn. show_quiet. }
  destruct (discard_input (control (pv w))).
  { destruct (to_write (transfer (pv w)) >? 0).
    - destruct (write_completed_quiet env w buf (to_write (transfer (pv w)))
                  eof_in eof_out lw) as (n & Q & C).
      exists n. split; [exact Q | left; exact C].
    - destruct (write_failed_quiet w (to_write (transfer (pv w))) ENONE
                  eof_in eof_out lw) as (n & Q & C).
      exists n. split; [exact Q | left; exact C]. }
  assert (Timed : forall w0 n0, quiet w w0 n0 ->
            count_events is_write_call n0 = 0%nat ->
            control (pv w0) = control (pv w) ->
            to_write (transfer (pv w0)) = to_write (transfer (pv w)) ->
            let result :=
              let '(nwritten, write_errno, w1) := timed_write cfg env w0 in
              if nwritten >? 0
              then write_completed env w1 buf nwritten eof_in eof_out lw
              else write_failed w1 nwritten write_errno eof_in eof_out lw in
            exists new,
              quiet w (snd result) new
              /\ (count_events is_write_call new = 0%nat
                  \/ write_called env w result lw new)).
  { intros w0 n0 Q0 C0 Ec Et result. subst result.
    destruct (timed_write_quiet cfg env w0) as (n1 & Q1 & W1).
    rewrite Ec, Et in W1.
    assert (R : fst (we_write env) < 0 -> snd (we_write env) = EPIPE ->
                fst (fst (timed_write cfg env w0)) = fst (we_write env)
                /\ snd (fst (timed_write cfg env w0)) = EPIPE).
    { intros Hr He. unfold timed_write. unfold_world. cbn.
      repeat (break_match; cbn); bool_hyps; try lia; auto. }
    destruct (timed_write cfg env w0) as [[nwritten write_errno] w1]. cbn in *.
    destruct (nwritten >? 0) eqn:G.
    - destruct (write_completed_quiet env w1 buf nwritten eof_in eof_out lw)
        as (n2 & Q2 & C2).
      exists (n0 ++ n1 ++ n2). split.
      + eapply quiet_trans; [exact Q0|]. eapply quiet_trans; eauto.
      + right. split.
        * rewrite !filter_app, (count_zero_filter _ _ C0),
            (count_zero_filter _ _ C2), W1. reflexivity.
        * intros Hr He. destruct (R Hr He) as [R1 R2]. bool_hyps. lia.
    - destruct (write_failed_quiet w1 nwritten write_errno eof_in eof_out lw)
        as (n2 & Q2 & C2).
      exists (n0 ++ n1 ++ n2). split.
      + eapply quiet_trans; [exact Q0|]. eapply quiet_trans; eauto.
      + right. split.
        * rewrite !filter_app, (count_zero_filter _ _ C0),
            (count_zero_filter _ _ C2), W1. reflexivity.
        * intros Hr He. destruct (R Hr He) as [R1 R2]. subst write_errno.
          unfold write_failed.
          destruct (nwritten =? 0) eqn:Z0; [bool_hyps; lia|]. cbn.
          eexists. split; [reflexivity|]. reflexivity. }
  destruct (to_write (transfer (pv w)) >? 0) eqn:TW.
  2:{ destruct (write_failed_quiet w 0 ENONE eof_in eof_out lw) as (n & Q & C).
      cbn. exists n. split; [exact Q | left; exact C]. }
  destruct (sparse_output (control (pv w))
            && negb (output_not_seekable (transfer (pv w)))
            && all_nulls buf (write_position (transfer (pv w)))
                 (to_size_t (to_write (transfer (pv w))))).
  2:{ exact (Timed w [] (quiet_refl w) eq_refl eq_refl eq_refl). }
  unfold syscall at 1. cbn -[timed_write write_completed write_failed].
  destruct (fst (we_lseek env) =? -1) eqn:L.
  - match goal with
    | |- context [timed_write cfg env ?w0] =>
        assert (Q0 : quiet w w0 [EvLseekCur (output_fd (control (pv w)))
                                   (to_write (transfer (pv w)))])
          by (unfold_world; show_quiet);
        exact (Timed w0 _ Q0 eq_refl eq_refl eq_refl)
    end.
  - match goal with
    | |- context [write_completed env ?w0 buf ?n eof_in eof_out lw] =>
        destruct (write_completed_quiet env w0 buf n eof_in eof_out lw)
          as (n2 & Q2 & C2);
        assert (Q0 : quiet w w0 [EvLseekCur (output_fd (control (pv w)))
                                   (to_write (transfer (pv w)))])
    end.
    { show_quiet. }
    match goal with
    | |- context [if ?c then _ else _] => destruct c eqn:G
    end.
    + eexists. split; [eapply quiet_trans; [exact Q0 | exact Q2]|].
      left. rewrite count_events_app, C2. reflexivity.
    + match goal with
      | |- context [write_failed ?w0 ?n ENONE eof_in eof_out lw] =>
          destruct (write_failed_quiet w0 n ENONE eof_in eof_out lw)
            as (n3 & Q3 & C3)
      end.
      eexists. split; [eapply quiet_trans; [exact Q0 | exact Q3]|].
      left. rewrite count_events_app, C3. reflexivity.
Qed.

Lemma footprint_of_quiet env fd w w' n :
  last_read_skip_fd (transfer (pv w)) = fd ->
  quiet w w' n ->
  transfer_footprint env fd (read_error_warning_shown (transfer (pv w)))
    (splice_failed_fd (transfer (pv w))) (linemode (control (pv w))) w' n.
Proof.
  unfold quiet, transfer_footprint.
  intros L (E & Lm & S & R & K & C & P & Q).
  repeat split; auto; try congruence.
Qed.

Lemma footprint_of_read env fd w w' ei n :
  last_read_skip_fd (transfer (pv w)) = fd ->
  read_footprint (te_read env) fd w w' ei n ->
  transfer_footprint env fd (read_error_warning_shown (transfer (pv w)))
    (splice_failed_fd (transfer (pv w))) (linemode (control (pv w))) w' n.
Proof.
  unfold read_footprint, transfer_footprint.
  intros L (Fc & Fd & Fp & Fl & Ft & Cw & Cs & Sf & Rec & Rd & W).
  repeat split; auto; try congruence.
  destruct W as [(A & B & C & D) | (A & B & C & D)]; [left | right];
    repeat split; auto.
Qed.

Lemma footprint_then_quiet env fd ws0 sff0 lm0 w1 w2 a b :
  transfer_footprint env fd ws0 sff0 lm0 w1 a ->
  quiet w1 w2 b ->
  transfer_footprint env fd ws0 sff0 lm0 w2 (a ++ b).
Proof.
  unfold quiet, transfer_footprint.
  intros (L & Lm & Cs & Sf & W) (E & Lm2 & S2 & R2 & K2 & C2 & P2 & Q2).
  repeat split; try congruence.
  - intros f Hf. rewrite count_events_app, (Cs f Hf), Q2. reflexivity.
  - destruct Sf as [Sf | (Sa & Sb & Sc & Sd)]; [left; congruence|].
    right. repeat split; auto; try congruence.
    rewrite count_events_app, Sd, Q2. reflexivity.
  - rewrite !count_events_app, P2, C2, R2.
    destruct W as [(A & B & C) | (A & B & C)]; [left | right];
      repeat split; auto; lia.
Qed.

Lemma quiet_then_footprint env fd w w1 w2 a b :
  quiet w w1 a ->
  transfer_footprint env fd (read_error_warning_shown (transfer (pv w1)))
    (splice_failed_fd (transfer (pv w1))) (linemode (control (pv w1))) w2 b ->
  transfer_footprint env fd (read_error_warning_shown (transfer (pv w)))
    (splice_failed_fd (transfer (pv w))) (linemode (control (pv w))) w2 (a ++ b).
Proof.
  unfold quiet, transfer_footprint.
  intros (E & Lm1 & S1 & R1 & K1 & C1 & P1 & Q1) (L & Lm & Cs & Sf & W).
  rewrite S1, R1, Lm1 in *.
  repeat split; auto.
  - intros f Hf. rewrite count_events_app, (Cs f Hf), Q1. reflexivity.
  - destruct Sf as [Sf | (Sa & Sb & Sc & Sd)]; [left; congruence|].
    right. repeat split; auto.
    rewrite count_events_app, Sd, Q1. reflexivity.
  - rewrite !count_events_app, P1, C1.
    destruct W as [(A & B & C) | (A & B & C)]; [left | right];
      repeat split; auto.
Qed.

Lemma await_descriptors_silent env w fd eof_in eof_out allowed :
  exists new,
    silent w (snd (await_descriptors env w fd eof_in eof_out allowed)) new.
Proof.
  unfold await_descriptors, is_data_ready. unfold_world. cbn.
  repeat (break_match; cbn). all: show_silent.
Qed.

Lemma await_descriptors_ready env w fd eof_in eof_out allowed :
  snd (fst (fst (await_descriptors env w fd eof_in eof_out allowed))) = true ->
  eof_in = false.
Proof.
  unfold await_descriptors, is_data_ready. unfold_world. cbn.
  destruct eof_in; cbn; [|reflexivity].
  rewrite andb_false_r. cbn. congruence.
Qed.

Lemma rotate_buffer_silent w : exists new, silent w (rotate_buffer w) new.
Proof.
  unfold rotate_buffer. unfold_world. cbn.
  repeat (break_match; cbn). all: show_silent.
Qed.

Lemma apply_direct_io_silent cfg w fd eof_in eof_out :
  exists new, silent w (apply_direct_io cfg w fd eof_in eof_out) new.
Proof.
  unfold apply_direct_io. unfold_world. cbn.
  repeat (break_match; cbn). all: show_silent.
Qed.

(** An allocation prints nothing and leaves the state alone. *)
Lemma allocate_silent cfg env w outfd infd size :
  exists new,
    silent w (snd (pv__allocate_aligned_buffer cfg env w outfd infd size)) new
    /\ pv (snd (pv__allocate_aligned_buffer cfg env w outfd infd size)) = pv w
    /\ Forall (fun e => is_allocation_call e = true) new.
Proof.
  unfold pv__allocate_aligned_buffer. unfold_world.
  destruct (aligned_allocation cfg), (infd >=? 0),
    (HAVE_SYSCONF cfg && HAVE_SC_PAGESIZE cfg), (ae_posix_memalign env =? 0),
    (ae_malloc env); cbn.
  all: unfold silent, quiet, emits; cbn; rewrite <- ?app_assoc; cbn.
  all: eexists; repeat match goal with |- _ /\ _ => split end;
       [ reflexivity | .. ]; cbn; auto.
  all: repeat constructor.
Qed.

Lemma grow_buffer_silent cfg env w fd buf :
  exists new, silent w (grow_buffer cfg env w fd buf) new.
Proof.
  unfold grow_buffer.
  destruct (buffer_size (transfer (pv w)) <? target_buffer_size (control (pv w))).
  2:{ exists []. apply silent_refl. }
  destruct (allocate_silent cfg (te_alloc env) w (output_fd (control (pv w))) fd
              (to_size_t (target_buffer_size (control (pv w)) + 32)))
    as (new & (Q & C) & P & _).
  destruct (pv__allocate_aligned_buffer cfg (te_alloc env) w _ fd _) as [newptr w1].
  cbn [snd] in *. exists new.
  destruct Q as (E & L & S & R & F & Rest).
  destruct newptr; unfold_world; cbn; unfold silent, quiet, emits in *; cbn;
    rewrite ?P; repeat split; auto; apply Rest.
Qed.

Lemma ensure_buffer_silent cfg env w fd buf w' :
  ensure_buffer cfg env w fd = (Some buf, w') -> exists new, silent w w' new.
Proof.
  unfold ensure_buffer.
  destruct (transfer_buffer (transfer (pv w))).
  - intros E. inversion E. subst. exists []. apply silent_refl.
  - destruct (allocate_silent cfg (te_alloc env) w (output_fd (control (pv w))) fd
                (to_size_t (target_buffer_size (control (pv w)) + 32)))
      as (new & (Q & C) & P & _).
    destruct (pv__allocate_aligned_buffer cfg (te_alloc env) w _ fd _) as [newptr w1].
    cbn [snd] in *. destruct newptr; intros E; inversion E; subst.
    exists new. destruct Q as (Em & L & S & R & F & Rest).
    unfold_world; cbn; unfold silent, quiet, emits in *; cbn;
      rewrite ?P; repeat split; auto; apply Rest.
Qed.

(** A failed first allocation: only the calls of the allocation. *)
Lemma ensure_buffer_failed_silent cfg env w fd w' :
  ensure_buffer cfg env w fd = (None, w') ->
  exists new, silent w w' new /\ pv w' = pv w.
Proof.
  unfold ensure_buffer.
  destruct (transfer_buffer (transfer (pv w))); [discriminate|].
  destruct (allocate_silent cfg (te_alloc env) w (output_fd (control (pv w))) fd
              (to_size_t (target_buffer_size (control (pv w)) + 32)))
    as (new & Q & P & _).
  destruct (pv__allocate_aligned_buffer cfg (te_alloc env) w _ fd _) as [newptr w1].
  cbn [snd] in *. destruct newptr; intros E; inversion E; subst.
  exists new. split; assumption.
Qed.

Lemma quiet_emits w w' n : quiet w w' n -> emits w w' n.
Proof. intros Q. apply Q. Qed.

Lemma quiet_last_fd w w' n :
  quiet w w' n ->
  last_read_skip_fd (transfer (pv w')) = last_read_skip_fd (transfer (pv w)).
Proof. intros Q. apply Q. Qed.

Lemma read_stage_footprint cfg env w fd eof_in eof_out allowed ready r ei eo w' :
  last_read_skip_fd (transfer (pv w)) = fd ->
  (ready = true -> eof_in = false) ->
  read_stage cfg env w fd eof_in eof_out allowed ready = (r, ei, eo, w') ->
  exists new,
    emits w w' new
    /\ transfer_footprint env fd (read_error_warning_shown (transfer (pv w)))
         (splice_failed_fd (transfer (pv w))) (linemode (control (pv w))) w' new
    /\ count_events is_write_call new = 0%nat
    /\ pipe_closed (pv w') = pipe_closed (pv w).
Proof.
  intros L Hready. unfold read_stage. destruct ready.
  - rewrite (Hready eq_refl).
    pose proof (pv__transfer_read_footprint cfg (te_read env) w fd eof_out allowed) as F.
    destruct (pv__transfer_read cfg (te_read env) w fd false eof_out allowed)
      as [[[r0 e1] e2] w2].
    destruct F as (n & E & F). intros X. inversion X. subst.
    exists n. split; [exact E|]. split.
    + eapply footprint_of_read; eauto.
    + unfold read_footprint in F. tauto.
  - intros X. inversion X. subst. exists []. split; [apply emits_refl|]. split.
    + apply footprint_of_quiet; [reflexivity | apply quiet_refl].
    + auto.
Qed.

Lemma write_stage_quiet cfg env w eof_in eof_out lw ready r ei eo lw' w' :
  write_stage cfg env w eof_in eof_out lw ready = (r, ei, eo, lw', w') ->
  exists new,
    quiet w w' new
    /\ (count_events is_write_call new = 0%nat
        \/ (filter is_write_call new
            = [EvWrite (output_fd (control (pv w)))
                 (to_size_t (truncate_to_last_line (pv w)))]
            /\ (fst (we_write (te_write env)) < 0 ->
                snd (we_write (te_write env)) = EPIPE ->
                r = 0 /\ ei = true /\ eo = true /\ pipe_closed (pv w') = 1))).
Proof.
  unfold write_stage.
  set (w0 := on_transfer (set_to_write (truncate_to_last_line (pv w))) w).
  assert (Q0 : quiet w w0 []) by (unfold w0; unfold_world; show_quiet).
  assert (Skip : (1, eof_in, eof_out, lw, w0) = (r, ei, eo, lw', w') ->
            exists new,
              quiet w w' new
              /\ (count_events is_write_call new = 0%nat
                  \/ (filter is_write_call new
                      = [EvWrite (output_fd (control (pv w)))
                           (to_size_t (truncate_to_last_line (pv w)))]
                      /\ (fst (we_write (te_write env)) < 0 ->
                          snd (we_write (te_write env)) = EPIPE ->
                          r = 0 /\ ei = true /\ eo = true
                          /\ pipe_closed (pv w') = 1)))).
  { intros X. inversion X. subst. exists []. split; [exact Q0 | left; reflexivity]. }
  destruct lw as [l|]; [|exact Skip].
  match goal with |- context [if ?c then _ else _] => destruct c end;
    [|exact Skip].
  destruct (pv__transfer_write_quiet cfg (te_write env) w0 eof_in eof_out (Some l))
    as (n & Q & C).
  intros X. rewrite X in *. cbn in Q.
  exists ([] ++ n). split; [eapply quiet_trans; eauto|].
  destruct C as [C | (F & C)]; [left; exact C|].
  right. split; [exact F|].
  intros Hr He. destruct (C Hr He) as (w2 & Eq & P).
  inversion Eq. subst. auto.
Qed.

Lemma transfer_body_footprint cfg env w fd eof_in eof_out allowed lw
    ret ei eo lw' w' :
  last_read_skip_fd (transfer (pv w)) = fd ->
  transfer_body cfg env w fd eof_in eof_out allowed lw = (ret, ei, eo, lw', w') ->
  exists new,
    emits w w' new
    /\ transfer_footprint env fd (read_error_warning_shown (transfer (pv w)))
         (splice_failed_fd (transfer (pv w))) (linemode (control (pv w))) w' new
    /\ (count_events is_write_call new = 0%nat
        \/ (fst (we_write (te_write env)) < 0 ->
            snd (we_write (te_write env)) = EPIPE ->
            ret = 0 /\ ei = true /\ eo = true /\ pipe_closed (pv w') = 1)).
Proof.
  intros L. unfold transfer_body.
  assert (Done : forall n0 wq, quiet w wq n0 -> count_events is_write_call n0 = 0%nat ->
            exists new,
              emits w wq new
              /\ transfer_footprint env fd (read_error_warning_shown (transfer (pv w)))
                   (splice_failed_fd (transfer (pv w))) (linemode (control (pv w)))
                   wq new
              /\ (count_events is_write_call new = 0%nat
                  \/ (fst (we_write (te_write env)) < 0 ->
                      snd (we_write (te_write env)) = EPIPE ->
                      ret = 0 /\ ei = true /\ eo = true /\ pipe_closed (pv wq) = 1))).
  { intros n0 wq Q C. exists n0. split; [apply Q|]. split.
    - apply footprint_of_quiet; assumption.
    - left. exact C. }
  destruct (eof_in && eof_out).
  { intros X. inversion X. subst. apply (Done [] w'); [apply quiet_refl | reflexivity]. }
  destruct (await_descriptors_silent env w fd eof_in eof_out allowed) as (n0 & Q0 & C0).
  pose proof (await_descriptors_ready env w fd eof_in eof_out allowed) as Rdy.
  destruct (await_descriptors env w fd eof_in eof_out allowed)
    as [[[n rr] rw] w0]. cbn in Q0, Rdy.
  destruct (n <? 0).
  { destruct (errno_eqb (errno w0) EINTR); intros X; inversion X; subst.
    - apply (Done n0 w'); assumption.
    - match goal with
      | |- context [pipe_closed (pv ?wq)] =>
          assert (Q1 : quiet w0 wq [EvError MsgSelectFailed])
            by (unfold_world; show_quiet)
      end.
      eapply (Done (n0 ++ [EvError MsgSelectFailed])).
      + eapply quiet_trans; eauto.
      + rewrite count_events_app, C0. reflexivity. }
  set (w1 := on_transfer (set_written 0) w0).
  assert (Q1 : quiet w0 w1 []) by (unfold w1; unfold_world; show_quiet).
  assert (Q01 : quiet w w1 (n0 ++ [])) by (eapply quiet_trans; eauto).
  assert (L1 : last_read_skip_fd (transfer (pv w1)) = fd).
  { rewrite (quiet_last_fd _ _ _ Q01). exact L. }
  destruct (read_stage cfg env w1 fd eof_in eof_out allowed rr)
    as [[[r e1] e2] w2] eqn:RS.
  destruct (read_stage_footprint _ _ _ _ _ _ _ _ _ _ _ _ L1 Rdy RS)
    as (n2 & E2 & F2 & C2 & P2).
  pose proof (quiet_then_footprint _ _ _ _ _ _ _ Q01 F2) as F02.
  assert (E02 : emits w w2 ((n0 ++ []) ++ n2)).
  { eapply emits_trans; [apply Q01 | exact E2]. }
  destruct (r =? 0).
  { intros X. inversion X. subst. eexists. split; [exact E02|]. split; [exact F02|].
    left. rewrite !count_events_app, C0, C2. reflexivity. }
  destruct (write_stage cfg env w2 e1 e2 lw rw) as [[[[r3 e3] e4] lw3] w3] eqn:WS.
  destruct (write_stage_quiet _ _ _ _ _ _ _ _ _ _ _ _ WS) as (n3 & Q3 & C3).
  pose proof (footprint_then_quiet _ _ _ _ _ _ _ _ _ F02 Q3) as F03.
  assert (E03 : emits w w3 (((n0 ++ []) ++ n2) ++ n3)).
  { eapply emits_trans; [exact E02 | apply Q3]. }
  destruct (r3 =? 0) eqn:R3.
  { intros X. inversion X. subst. eexists. split; [exact E03|]. split; [exact F03|].
    destruct C3 as [C3 | C3].
    - left. rewrite !count_events_app, C0, C2, C3. reflexivity.
    - right. intros Hr He. destruct C3 as (_ & C3).
      destruct (C3 Hr He) as (_ & A & B & C). auto. }
  destruct (rotate_buffer_silent w3) as (n4 & Q4 & C4).
  intros X. inversion X. subst.
  eexists. split; [eapply emits_trans; [exact E03 | apply Q4]|]. split.
  - eapply footprint_then_quiet; eauto.
  - destruct C3 as [C3 | C3].
    + left. rewrite !count_events_app, C0, C2, C3, C4. reflexivity.
    + right. intros Hr He. destruct C3 as (_ & C3).
      destruct (C3 Hr He) as (Z0 & _). bool_hyps. lia.
Qed.

Lemma quiet_then_footprint_from env fd ws0 w w1 w2 a b :
  quiet w w1 a ->
  transfer_footprint env fd ws0
    (splice_failed_fd (transfer (pv w1))) (linemode (control (pv w1))) w2 b ->
  transfer_footprint env fd ws0
    (splice_failed_fd (transfer (pv w))) (linemode (control (pv w))) w2 (a ++ b).
Proof.
  unfold quiet, transfer_footprint.
  intros (E & Lm1 & S1 & R1 & K1 & C1 & P1 & Q1) (L & Lm & Cs & Sf & W).
  rewrite S1, Lm1 in *.
  repeat split; auto.
  - intros f Hf. rewrite count_events_app, (Cs f Hf), Q1. reflexivity.
  - destruct Sf as [Sf | (Sa & Sb & Sc & Sd)]; [left; congruence|].
    right. repeat split; auto.
    rewrite count_events_app, Sd, Q1. reflexivity.
  - rewrite !count_events_app, P1, C1.
    destruct W as [(A & B & C) | (A & B & C)]; [left | right];
      repeat split; auto.
Qed.

Lemma pv_transfer_footprint cfg env w fd eof_in eof_out allowed lw
    ret ei eo lw' w' :
  pv_transfer cfg env w fd eof_in eof_out allowed lw = (ret, ei, eo, lw', w') ->
  exists new,
    emits w w' new
    /\ transfer_footprint env fd (warning_shown_for fd w)
         (splice_failed_fd (transfer (pv w))) (linemode (control (pv w))) w' new
    /\ (count_events is_write_call new = 0%nat
        \/ (fst (we_write (te_write env)) < 0 ->
            snd (we_write (te_write env)) = EPIPE ->
            ret = 0 /\ ei = true /\ eo = true /\ pipe_closed (pv w') = 1)).
Proof.
  unfold pv_transfer.
  destruct (apply_direct_io_silent cfg w fd eof_in eof_out) as (na & Qa & Ca).
  set (wa := apply_direct_io cfg w fd eof_in eof_out) in *.
  set (wb := reset_error_skipping wa fd).
  assert (Tb : trace wb = trace wa
               /\ splice_failed_fd (transfer (pv wb)) = splice_failed_fd (transfer (pv wa))
               /\ linemode (control (pv wb)) = linemode (control (pv wa))
               /\ last_read_skip_fd (transfer (pv wb)) = fd
               /\ read_error_warning_shown (transfer (pv wb)) = warning_shown_for fd w).
  { unfold wb, reset_error_skipping, warning_shown_for.
    destruct Qa as (_ & _ & _ & Rw & Lf & _).
    rewrite <- Rw, <- Lf.
    destruct (Z.eqb_spec fd (last_read_skip_fd (transfer (pv wa)))); cbn; auto. }
  destruct Tb as (Tt & Ts & Tl & Tf & Tw).
  assert (Finish : forall n wq,
            emits wb wq n ->
            transfer_footprint env fd (read_error_warning_shown (transfer (pv wb)))
              (splice_failed_fd (transfer (pv wb))) (linemode (control (pv wb))) wq n ->
            forall r e1 e2,
            (count_events is_write_call n = 0%nat
             \/ (fst (we_write (te_write env)) < 0 ->
                 snd (we_write (te_write env)) = EPIPE ->
                 r = 0 /\ e1 = true /\ e2 = true /\ pipe_closed (pv wq) = 1)) ->
            exists new,
              emits w wq new
              /\ transfer_footprint env fd (warning_shown_for fd w)
                   (splice_failed_fd (transfer (pv w))) (linemode (control (pv w)))
                   wq new
              /\ (count_events is_write_call new = 0%nat
                  \/ (fst (we_write (te_write env)) < 0 ->
                      snd (we_write (te_write env)) = EPIPE ->
                      r = 0 /\ e1 = true /\ e2 = true /\ pipe_closed (pv wq) = 1))).
  { intros n wq E F r e1 e2 C. exists (na ++ n). split.
    - unfold emits in *. rewrite E, Tt. destruct Qa as (Ea & _). rewrite Ea.
      now rewrite app_assoc.
    - split.
      + rewrite Tw, Ts, Tl in F. eapply quiet_then_footprint_from; eauto.
      + destruct C as [C | C]; [left | right; exact C].
        rewrite count_events_app, Ca, C. reflexivity. }
  destruct (ensure_buffer cfg env wb fd) as [[buf|] wc] eqn:EB.
  2:{ destruct (ensure_buffer_failed_silent _ _ _ _ _ EB) as (nc & (Qc & Cc) & Pc).
      intros X. injection X as <- <- <- <- <-.
      apply Finish with (n := nc ++ [EvError MsgBufferAllocFailed]).
      - unfold_world. unfold emits. cbn. destruct Qc as (Ec & _). rewrite Ec.
        now rewrite app_assoc.
      - eapply quiet_then_footprint; [exact Qc|].
        apply footprint_of_quiet.
        + cbn. rewrite Pc. exact Tf.
        + unfold_world. show_quiet.
      - left. rewrite count_events_app, Cc. reflexivity. }
  destruct (ensure_buffer_silent _ _ _ _ _ _ EB) as (nc & Qc & Cc).
  destruct (grow_buffer_silent cfg env wc fd buf) as (nd & Qd & Cd).
  set (wd := grow_buffer cfg env wc fd buf) in *.
  assert (Qbd : quiet wb wd (nc ++ nd)) by (eapply quiet_trans; eauto).
  intros X.
  destruct (transfer_body_footprint _ _ _ _ _ _ _ _ _ _ _ _ _
              (eq_trans (quiet_last_fd _ _ _ Qbd) Tf) X) as (n & E & F & C).
  apply Finish with (n := (nc ++ nd) ++ n).
  - eapply emits_trans; [apply Qbd | exact E].
  - eapply quiet_then_footprint; eauto.
  - destruct C as [C | C]; [left | right; exact C].
    rewrite !count_events_app, Cc, Cd, C. reflexivity.
Qed.

End TransferFacts.

(** * Facts about rounding *)

Module FloatFacts.
Import Float.

(** Rounding does not depend on how the rational is written. *)
Lemma round_compat fmt x y : (x == y)%Q -> round fmt x = round fmt y.
Proof. intros E. unfold round. now rewrite (Qred_complete _ _ E). Qed.

Lemma round_zero fmt : round fmt 0 = 0%Q.
Proof. reflexivity. Qed.

Lemma Qred_inject_Z n : Qred (inject_Z n) = inject_Z n.
Proof.
  unfold Qred, inject_Z.
  pose proof (Z.ggcd_gcd n 1) as G.
  pose proof (Z.ggcd_correct_divisors n 1) as D.
  destruct (Z.ggcd n 1) as [g [a b]]. cbn [fst snd] in *.
  rewrite Z.gcd_1_r in G. subst g. destruct D as (Da & Db).
  rewrite Z.mul_1_l in Da, Db. subst a b. reflexivity.
Qed.

Lemma pow2_nonpos e : e <= 0 -> (pow2 e == / inject_Z (2 ^ (- e)))%Q.
Proof.
  intros E. destruct e as [|p|p]; try lia.
  - reflexivity.
  - unfold pow2. cbn [Z.opp]. rewrite <- Pos2Z.inj_pow. reflexivity.
Qed.


(** The nearest integer to an integer is that integer. *)
Lemma round_half_even_integer x m : (x == inject_Z m)%Q -> round_half_even x = m.
Proof.
  intros E. unfold round_half_even.
  rewrite (Qfloor_comp _ _ E), Qfloor_Z.
  assert (L : (x - inject_Z m ?= 1 # 2)%Q = Lt).
  { change (x - inject_Z m < 1 # 2)%Q. rewrite E. lra. }
  rewrite L. reflexivity.
Qed.

Lemma floor_log2_integer n : n <> 0 -> floor_log2 (inject_Z n) = Z.log2 (Z.abs n).
Proof.
  intros N. unfold floor_log2, inject_Z. cbn [Qnum Qden].
  change (Z.log2 1) with 0. rewrite Z.sub_0_r.
  assert (P : 0 < Z.abs n) by lia.
  pose proof (Z.log2_spec _ P) as (L & _).
  pose proof (Z.log2_nonneg (Z.abs n)) as K.
  assert (Q : Qle_bool (pow2 (Z.log2 (Z.abs n))) (Z.abs n # 1) = true).
  { apply Qle_bool_iff.
    destruct (Z.log2 (Z.abs n)) as [|p|p] eqn:E; try lia; unfold pow2.
    - unfold Qle. cbn. lia.
    - unfold Qle, inject_Z. cbn [Qnum Qden]. lia. }
  rewrite Q. reflexivity.
Qed.

(** An integer of fewer bits than the mantissa has is a value of the
    format: converting it changes nothing. *)
Lemma round_integer fmt n :
  MIN_EXP fmt <= MANT_DIG fmt ->
  Z.abs n < 2 ^ MANT_DIG fmt ->
  (round fmt (inject_Z n) == inject_Z n)%Q.
Proof.
  intros Emin Small. unfold round. rewrite Qred_inject_Z.
  destruct (Z.eq_dec n 0) as [->|N]; [reflexivity|].
  assert (NZ : Qeq_bool (inject_Z n) 0 = false).
  { apply not_true_is_false. intros X. apply Qeq_bool_iff in X.
    unfold Qeq, inject_Z in X. cbn in X. lia. }
  rewrite NZ. unfold ulp_exponent. rewrite (floor_log2_integer n N).
  assert (P : 0 < Z.abs n) by lia.
  assert (L : Z.log2 (Z.abs n) < MANT_DIG fmt) by (apply Z.log2_lt_pow2; lia).
  set (e := Z.max _ _).
  assert (E : e <= 0) by (unfold e; lia).
  assert (Pw : 0 < 2 ^ (- e)) by (apply Z.pow_pos_nonneg; lia).
  assert (I : (inject_Z n / pow2 e == inject_Z (n * 2 ^ (- e)))%Q).
  { rewrite (pow2_nonpos e E), inject_Z_mult. unfold Qdiv.
    rewrite Qinv_involutive. reflexivity. }
  rewrite (round_half_even_integer _ _ I).
  rewrite (pow2_nonpos e E), inject_Z_mult.
  field. intros X. unfold Qeq, inject_Z in X. cbn in X. lia.
Qed.

Lemma of_integer_exact fmt n :
  MIN_EXP fmt <= MANT_DIG fmt ->
  Z.abs n < 2 ^ MANT_DIG fmt ->
  (of_integer fmt n == inject_Z n)%Q.
Proof. apply round_integer. Qed.






End FloatFacts.

(** * Claims about transfer.c *)

Module TransferSpec.
Import Transfer Footprint IntFacts TransferFacts Examples Fixtures.

Lemma events_since_emits w w' n : emits w w' n -> events_since w w' = n.
Proof.
  unfold emits, events_since. intros ->.
  rewrite skipn_app, Nat.sub_diag, skipn_all. reflexivity.
Qed.

(** The adaptive schedule, by ranges of the count of errors in a row. *)
Lemma adaptive_skip_values n :
  (n < 5 -> adaptive_skip n = 1)
  /\ (5 <= n <= 9 -> adaptive_skip n = 2)
  /\ (10 <= n <= 19 -> adaptive_skip n = Z.shiftl 1 (n - 10))
  /\ (20 <= n -> adaptive_skip n = 512).
Proof.
  unfold adaptive_skip. repeat split; intros H.
  - destruct (n <? 10) eqn:A; destruct (n <? 5) eqn:B; lia.
  - destruct (n <? 10) eqn:A; destruct (n <? 5) eqn:B; lia.
  - destruct (n <? 10) eqn:A; [lia|]. destruct (n <? 20) eqn:B; [|lia].
    rewrite to_uint_id by lia.
    assert (K : n = 10 \/ n = 11 \/ n = 12 \/ n = 13 \/ n = 14 \/ n = 15
                \/ n = 16 \/ n = 17 \/ n = 18 \/ n = 19) by lia.
    repeat (destruct K as [K | K]; [subst n; reflexivity|]). subst n; reflexivity.
  - destruct (n <? 10) eqn:A; [lia|]. destruct (n <? 20) eqn:B; [lia|]. reflexivity.
Qed.

(** C1 (as amended).  When a read fails for good and errors are skipped,
    with n the count of read errors in a row including this one: the skip
    amount chosen is the explicit block size when one is set, and otherwise
    1 byte while n < 5 (the first four errors in a row), 2 bytes for n from
    5 to 9, 1 << (n - 10) bytes for n from 10 to 19 and 512 bytes from n = 20
    on; pv__transfer_read then seeks to the current offset plus that amount
    after alignment and trimming. *)
Theorem skip_amount_follows_schedule cfg env w fd eof_in eof_out max_to_write
    nread do_not_skip_errors w1 :
  splice_or_read cfg env w fd max_to_write (bytes_can_read_of (pv w))
    (skip_errors (control (pv w)) =? 0) = (nread, do_not_skip_errors, w1) ->
  nread < 0 ->
  errno w1 <> EINTR -> errno w1 <> EAGAIN ->
  do_not_skip_errors = false ->
  0 <= fst (re_lseek_cur env) ->
  0 <= error_skip_block (control (pv w)) ->
  let n := to_off_t (read_errors_in_a_row (transfer (pv w)) + 1) in
  let chosen := choose_skip (error_skip_block (control (pv w))) n in
  let orig_offset := fst (re_lseek_cur env) in
  (error_skip_block (control (pv w)) = 0 -> n < 5 -> chosen = 1)
  /\ (error_skip_block (control (pv w)) = 0 -> 5 <= n <= 9 -> chosen = 2)
  /\ (error_skip_block (control (pv w)) = 0 -> 10 <= n <= 19 ->
      chosen = Z.shiftl 1 (n - 10))
  /\ (error_skip_block (control (pv w)) = 0 -> 20 <= n -> chosen = 512)
  /\ (error_skip_block (control (pv w)) <> 0 ->
      chosen = error_skip_block (control (pv w)))
  /\ In (EvLseekSet fd
           (to_off_t (orig_offset
                      + trim_skip (align_skip orig_offset chosen)
                          (bytes_can_read_of (pv w)))))
        (events_since w
           (snd (pv__transfer_read cfg env w fd eof_in eof_out max_to_write))).
Proof.
  intros E Hneg Hintr Hagain Hdns Horig Hesb n chosen orig_offset.
  pose proof (adaptive_skip_values n) as (S1 & S2 & S3 & S4).
  assert (C0 : error_skip_block (control (pv w)) = 0 -> chosen = adaptive_skip n).
  { intros Z0. unfold chosen, choose_skip. rewrite Z0. reflexivity. }
  repeat split.
  - intros Z0 H. rewrite C0; auto.
  - intros Z0 H. rewrite C0; auto.
  - intros Z0 H. rewrite C0; auto.
  - intros Z0 H. rewrite C0; auto.
  - intros NZ. unfold chosen, choose_skip.
    destruct (error_skip_block (control (pv w)) >? 0) eqn:G; [reflexivity | lia].
  - destruct (splice_or_read_footprint cfg env w fd max_to_write
                (bytes_can_read_of (pv w)) (skip_errors (control (pv w)) =? 0))
      as (n1 & E1 & F).
    rewrite E in F, E1. cbn in F, E1. destruct F as (Fc & _ & _ & _ & Fn & _).
    unfold pv__transfer_read. rewrite E.
    destruct (nread =? 0) eqn:N0; [lia|].
    destruct (nread >? 0) eqn:N1; [lia|].
    assert (T : errno_eqb (errno w1) EINTR || errno_eqb (errno w1) EAGAIN = false).
    { destruct (errno w1); cbn; congruence. }
    rewrite T. subst do_not_skip_errors.
    unfold skip_past_error. unfold_world. cbn.
    rewrite Fc, Fn.
    fold n. fold chosen.
    destruct (re_lseek_cur env) as [o e] eqn:Ecur. cbn in *.
    fold orig_offset.
    assert (G : (0 >? orig_offset) = false) by (unfold orig_offset; lia).
    rewrite G. unfold emits in E1. unfold events_since.
    repeat (break_match; cbn);
      rewrite E1, <- ?app_assoc, skipn_app, Nat.sub_diag, skipn_all; cbn;
      rewrite ?in_app_iff; cbn; tauto.
Qed.

Lemma skip_amount_follows_schedule_witness :
  choose_skip 0 (to_off_t (9 + 1)) = Z.shiftl 1 0
  /\ In (EvLseekSet 3 101)
        (events_since
           (make_world (settings 1 true false) (transfer_state empty_buffer 0 9))
           (snd (pv__transfer_read all_features failing_input
                   (make_world (settings 1 true false)
                      (transfer_state empty_buffer 0 9))
                   3 false false 0))).
Proof.
  pose proof (skip_amount_follows_schedule all_features failing_input
                (make_world (settings 1 true false) (transfer_state empty_buffer 0 9))
                3 false false 0 (-1) false
                (snd (splice_or_read all_features failing_input
                        (make_world (settings 1 true false)
                           (transfer_state empty_buffer 0 9))
                        3 0 16 false))
                eq_refl) as H.
  cbv zeta in H.
  destruct H as (_ & _ & H10 & _ & _ & Hseek).
  - reflexivity.
  - cbn. discriminate.
  - cbn. discriminate.
  - reflexivity.
  - cbn. discriminate.
  - cbn. discriminate.
  - split.
    + apply H10; [reflexivity | split; discriminate].
    + exact Hseek.
Defined.

(** C1, as stated, fails: the fifth read error in a row (four before it,
    then this one) is skipped by 2 bytes, not 1. *)
Lemma fifth_error_in_a_row_skips_two_bytes :
  read_errors_in_a_row (transfer_state empty_buffer 0 4) = 4
  /\ choose_skip 0 (4 + 1) <> 1
  /\ events_since
       (make_world (settings 1 true false) (transfer_state empty_buffer 0 4))
       (snd (pv__transfer_read all_features failing_input
               (make_world (settings 1 true false) (transfer_state empty_buffer 0 4))
               3 false false 0))
     = [EvRead 3 16; EvError MsgWarningReadErrors; EvLseekCur 3 0;
        EvLseekSet 3 102; EvError (MsgSkipped 100 102 2)].
Proof.
  split; [reflexivity|]. split; [discriminate|]. reflexivity.
Qed.


Lemma emits_events_since w w' n : emits w w' n -> emits w w' (events_since w w').
Proof. intros E. now rewrite (events_since_emits _ _ _ E). Qed.

(** One call made by the loop, seen from the state before what the loop did
    in between. *)
Lemma call_transfer_footprint cfg c w :
  keeps_bookkeeping (tc_between c) ->
  exists new,
    emits w (call_transfer cfg c w) new
    /\ transfer_footprint (tc_env c) (tc_fd c) (warning_shown_for (tc_fd c) w)
         (splice_failed_fd (transfer (pv w))) (linemode (control (pv w)))
         (call_transfer cfg c w) new.
Proof.
  intros K. unfold call_transfer.
  destruct (K w) as (Kt & Kl & Ks & Kw & Kf).
  destruct (pv_transfer cfg (tc_env c) (tc_between c w) (tc_fd c) (tc_eof_in c)
              (tc_eof_out c) (tc_allowed c) (tc_lineswritten c))
    as [[[[ret ei] eo] lw] w'] eqn:E.
  destruct (pv_transfer_footprint _ _ _ _ _ _ _ _ _ _ _ _ _ E) as (n & Em & F & _).
  exists n. cbn. split.
  - unfold emits in *. congruence.
  - unfold warning_shown_for in *. rewrite Ks, Kl, Kw, Kf in F. exact F.
Qed.





(** The warning is not once per input.  The first input, on descriptor 3,
    cannot be read and cannot be seeked: the warning is printed and the
    input is given up.  The loop goes on to the next input (loop.c 489-494),
    which is opened on the number just closed, 3, so that pv_transfer keeps
    the flag; its read errors are skipped without any warning. *)
Lemma input_opened_on_the_same_descriptor_is_not_warned :
  let w0 := make_world (settings 1 true false) (transfer_state empty_buffer 0 0) in
  let first := pv_transfer all_features (both_ready unseekable_input open_pipe)
                 w0 3 false false 0 (Some 0) in
  let w1 := snd first in
  let next := Loop.pv_next_file 3 w1 1 3 in
  let second := pv_transfer all_features (both_ready failing_input open_pipe)
                  (snd next) (fst next) false false 0 (Some 0) in
  fst first = (0, true, true, Some 0)
  /\ events_since w0 w1
     = [EvSelect 3 (-1) 90000; EvRead 3 16; EvError MsgWarningReadErrors;
        EvLseekCur 3 0; EvError MsgNotSeekable]
  /\ fst next = 3
  /\ events_since (snd next) (snd second)
     = [EvSelect 3 (-1) 90000; EvRead 3 16; EvLseekCur 3 0; EvLseekSet 3 101;
        EvError (MsgSkipped 100 101 1)]
  /\ count_events is_warning (events_since (snd next) (snd second)) = 0%nat.
Proof. vm_compute. repeat split; reflexivity. Qed.



(** Over a run of calls: no splice on [fd] while it stays the recorded
    splice-failed fd. *)
Lemma run_keeps_splice_off cfg fd calls :
  Forall (fun c => keeps_bookkeeping (tc_between c)) calls ->
  Forall (fun c =>
            tc_fd c = fd
            \/ ~ (fst (re_splice (te_read (tc_env c))) < 0
                  /\ snd (re_splice (te_read (tc_env c))) = EINVAL)) calls ->
  forall w0 w acc,
    emits w0 w acc ->
    splice_failed_fd (transfer (pv w)) = fd ->
    count_events (is_splice_on fd) acc = 0%nat ->
    exists new,
      emits w0 (run_transfers cfg calls w) new
      /\ count_events (is_splice_on fd) new = 0%nat
      /\ splice_failed_fd (transfer (pv (run_transfers cfg calls w))) = fd.
Proof.
  induction calls as [|c calls IH]; intros Hk Hother w0 w acc E S C.
  - exists acc. auto.
  - inversion Hk as [|? ? Kc Hk']. inversion Hother as [|? ? Oc Hother']. subst.
    destruct (call_transfer_footprint cfg c w Kc) as (n & En & F).
    destruct F as (_ & _ & Cs & Sf & _).
    cbn [run_transfers].
    apply (IH Hk' Hother' w0 (call_transfer cfg c w) (acc ++ n)).
    + eapply emits_trans; eauto.
    + destruct Sf as [Sf | (Sa & Sb & Sc & _)]; [exact Sf|].
      destruct Oc as [Oc | Oc]; [congruence | tauto].
    + rewrite count_events_app, C. cbn. apply Cs.
      destruct (Z.eq_dec (splice_failed_fd (transfer (pv w))) (tc_fd c));
        [right; assumption | left; congruence].
Qed.

(** C6 (as amended).  A splice on fd that fails with EINVAL makes fd the
    recorded splice-failed fd.  While fd is the recorded one, a call of
    pv__transfer_read on fd makes no splice and goes to the ordinary read.
    Over the following calls of pv_transfer, no splice is attempted on fd as
    long as no splice on another fd fails with EINVAL: only the fd of the
    latest such failure is remembered. *)
Theorem splice_not_retried_while_fd_is_the_recorded_one :
  (forall cfg env w fd eof_out max_to_write,
     let w' := snd (pv__transfer_read cfg env w fd false eof_out max_to_write) in
     (0 < count_events (is_splice_on fd) (events_since w w'))%nat ->
     fst (re_splice env) < 0 -> snd (re_splice env) = EINVAL ->
     splice_failed_fd (transfer (pv w')) = fd)
  /\ (forall cfg env w fd eof_out max_to_write,
        let w' := snd (pv__transfer_read cfg env w fd false eof_out max_to_write) in
        splice_failed_fd (transfer (pv w)) = fd ->
        count_events (is_splice_on fd) (events_since w w') = 0%nat
        /\ count_events (is_read_on fd) (events_since w w') = 1%nat
        /\ splice_failed_fd (transfer (pv w')) = fd)
  /\ (forall cfg fd calls w,
        splice_failed_fd (transfer (pv w)) = fd ->
        Forall (fun c => keeps_bookkeeping (tc_between c)) calls ->
        Forall (fun c =>
                  tc_fd c = fd
                  \/ ~ (fst (re_splice (te_read (tc_env c))) < 0
                        /\ snd (re_splice (te_read (tc_env c))) = EINVAL)) calls ->
        let w' := run_transfers cfg calls w in
        count_events (is_splice_on fd) (events_since w w') = 0%nat
        /\ splice_failed_fd (transfer (pv w')) = fd).
Proof.
  split; [|split].
  - intros cfg env w fd eof_out m w'. unfold w'.
    pose proof (pv__transfer_read_footprint cfg env w fd eof_out m) as F.
    destruct (pv__transfer_read cfg env w fd false eof_out m) as [[[r ei] eo] w1].
    destruct F as (n & E & F). cbn [snd].
    rewrite (events_since_emits _ _ _ E).
    destruct F as (_ & _ & _ & _ & _ & _ & _ & _ & Rec & _). exact Rec.
  - intros cfg env w fd eof_out m w' S. unfold w'.
    pose proof (pv__transfer_read_footprint cfg env w fd eof_out m) as F.
    destruct (pv__transfer_read cfg env w fd false eof_out m) as [[[r ei] eo] w1].
    destruct F as (n & E & F). cbn [snd].
    rewrite (events_since_emits _ _ _ E).
    destruct F as (_ & _ & _ & _ & _ & _ & Cs & Sf & _ & Rd & _).
    repeat split.
    + apply Cs. right. exact S.
    + apply Rd. exact S.
    + destruct Sf as [Sf | (Sf & _)]; congruence.
  - intros cfg fd calls w S Hk Hother w'. unfold w'.
    destruct (run_keeps_splice_off cfg fd calls Hk Hother w w [] (emits_refl w) S
                eq_refl) as (n & E & C & S').
    rewrite (events_since_emits _ _ _ E). auto.
Qed.

Lemma splice_not_retried_witness :
  count_events (is_splice_on 3)
    (events_since
       (call_transfer all_features
          (call_on 3 (both_ready empty_unspliceable closed_pipe))
          (make_world (settings 0 false false) (transfer_state empty_buffer 0 0)))
       (run_transfers all_features
          [call_on 3 (both_ready empty_unspliceable closed_pipe);
           call_on 3 (both_ready empty_unspliceable closed_pipe)]
          (call_transfer all_features
             (call_on 3 (both_ready empty_unspliceable closed_pipe))
             (make_world (settings 0 false false)
                (transfer_state empty_buffer 0 0)))))
  = 0%nat.
Proof.
  apply (proj2 (proj2 splice_not_retried_while_fd_is_the_recorded_one)
           all_features 3
           [call_on 3 (both_ready empty_unspliceable closed_pipe);
            call_on 3 (both_ready empty_unspliceable closed_pipe)]).
  - reflexivity.
  - repeat constructor; intros w; repeat split.
  - repeat constructor; left; reflexivity.
Defined.

(** C6, as stated, fails: splice fails with EINVAL on fd 3, then on fd 0,
    and the next call on fd 3 tries splice on fd 3 again. *)
Lemma splice_retried_after_failure_on_another_fd :
  let w0 := make_world (settings 0 false false) (transfer_state empty_buffer 0 0) in
  let w1 :=
    call_transfer all_features
      (call_on 3 (both_ready empty_unspliceable closed_pipe)) w0 in
  let w2 :=
    call_transfer all_features
      (call_on 0 (both_ready empty_unspliceable closed_pipe)) w1 in
  let w3 :=
    call_transfer all_features
      (call_on 3 (both_ready empty_unspliceable closed_pipe)) w2 in
  events_since w0 w1 = [EvSelect 3 (-1) 90000; EvSplice 3 1 16; EvRead 3 16]
  /\ splice_failed_fd (transfer (pv w1)) = 3
  /\ events_since w1 w2 = [EvSelect 0 (-1) 90000; EvSplice 0 1 16; EvRead 0 16]
  /\ splice_failed_fd (transfer (pv w2)) = 0
  /\ events_since w2 w3 = [EvSelect 3 (-1) 90000; EvSplice 3 1 16; EvRead 3 16].
Proof. repeat split. Qed.


(** The timed write, when [pv__transfer_write_repeated] fails with EPIPE. *)
Lemma timed_write_epipe cfg env w :
  fst (we_write env) < 0 -> snd (we_write env) = EPIPE ->
  exists w',
    timed_write cfg env w = (fst (we_write env), EPIPE, w')
    /\ pv w' = pv w
    /\ exists new,
         emits w w' new
         /\ count_events (is_message MsgWriteFailed) new = 0%nat
         /\ ((HAVE_SETITIMER cfg = false
              \/ (fst (we_setitimer env) = 0 /\ fst (we_cleartimer env) = 0)) ->
             count_events is_error new = 0%nat).
Proof.
  intros Hr He. unfold timed_write. unfold_world. cbn.
  destruct (Z.ltb_spec (fst (we_write env)) 0) as [_|]; [|lia].
  rewrite He.
  repeat (break_match; cbn).
  all: eexists; split; [reflexivity|]; split; [reflexivity|].
  all: unfold emits; cbn; rewrite <- ?app_assoc; cbn.
  all: eexists; split; [reflexivity|]; split; [reflexivity|].
  all: intros [Hs | [Hs Hc]]; bool_hyps; try congruence; try reflexivity.
Qed.

(** C5.  When the write to the output fails with EPIPE, pv__transfer_write
    returns 0 with *eof_in and *eof_out true and the pipe-closed flag set; the
    exit status is unchanged and "write failed" is not printed (nothing is
    printed at all when the interval timer calls succeed); and pv_transfer
    returns 0 from such a call. *)
Theorem epipe_on_write_is_an_orderly_end :
  (forall cfg env w eof_in eof_out lw buf,
     transfer_buffer (transfer (pv w)) = Some buf ->
     discard_input (control (pv w)) = false ->
     0 < to_write (transfer (pv w)) ->
     sparse_output (control (pv w))
     && negb (output_not_seekable (transfer (pv w)))
     && all_nulls buf (write_position (transfer (pv w)))
          (to_size_t (to_write (transfer (pv w)))) = false
     \/ fst (we_lseek env) = -1 ->
     fst (we_write env) < 0 -> snd (we_write env) = EPIPE ->
     exists w',
       pv__transfer_write cfg env w eof_in eof_out lw = (0, true, true, lw, w')
       /\ pipe_closed (pv w') = 1
       /\ exit_status (pv w') = exit_status (pv w)
       /\ count_events (is_message MsgWriteFailed) (events_since w w') = 0%nat
       /\ ((HAVE_SETITIMER cfg = false
            \/ (fst (we_setitimer env) = 0 /\ fst (we_cleartimer env) = 0)) ->
           count_events is_error (events_since w w') = 0%nat))
  /\ (forall cfg env w fd eof_in eof_out allowed lw ret eof_in' eof_out' lw' w',
        pv_transfer cfg env w fd eof_in eof_out allowed lw
        = (ret, eof_in', eof_out', lw', w') ->
        (0 < count_events is_write_call (events_since w w'))%nat ->
        fst (we_write (te_write env)) < 0 ->
        snd (we_write (te_write env)) = EPIPE ->
        ret = 0 /\ eof_in' = true /\ eof_out' = true /\ pipe_closed (pv w') = 1).
Proof.
  split.
  - intros cfg env w eof_in eof_out lw buf Hb Hd Ht Hreach Hr He.
    assert (Go : forall w0 n0,
              emits w w0 n0 -> count_events is_error n0 = 0%nat ->
              exit_status (pv w0) = exit_status (pv w) ->
              exists w',
                (let '(nwritten, write_errno, w1) := timed_write cfg env w0 in
                 if nwritten >? 0
                 then write_completed env w1 buf nwritten eof_in eof_out lw
                 else write_failed w1 nwritten write_errno eof_in eof_out lw)
                = (0, true, true, lw, w')
                /\ pipe_closed (pv w') = 1
                /\ exit_status (pv w') = exit_status (pv w)
                /\ count_events (is_message MsgWriteFailed) (events_since w w') = 0%nat
                /\ ((HAVE_SETITIMER cfg = false
                     \/ (fst (we_setitimer env) = 0 /\ fst (we_cleartimer env) = 0)) ->
                    count_events is_error (events_since w w') = 0%nat)).
    { intros w0 n0 E0 C0 X0.
      destruct (timed_write_epipe cfg env w0 Hr He) as (w1 & T & P & n1 & E1 & M1 & Q1).
      rewrite T.
      destruct (Z.gtb_spec (fst (we_write env)) 0) as [|_]; [lia|].
      unfold write_failed.
      destruct (Z.eqb_spec (fst (we_write env)) 0) as [|_]; [lia|]. cbn.
      eexists. split; [reflexivity|].
      assert (E : emits w (set_pipe_closed 1 w1) (n0 ++ n1)).
      { unfold emits in *. cbn. rewrite E1, E0. now rewrite app_assoc. }
      rewrite (events_since_emits _ _ _ E). rewrite !count_events_app, M1.
      cbn. rewrite P. repeat split; auto.
      - assert (count_events (is_message MsgWriteFailed) n0 = 0%nat); [|lia].
        revert C0. unfold count_events. clear.
        induction n0 as [|e n0 IH]; cbn; [reflexivity|].
        destruct e; cbn; auto. destruct m; cbn; auto; discriminate.
      - intros Hs. rewrite (Q1 Hs). lia. }
    unfold pv__transfer_write. rewrite Hb, Hd.
    destruct (Z.gtb_spec (to_write (transfer (pv w))) 0) as [_|]; [|lia].
    destruct Hreach as [Hn | Hl].
    + rewrite Hn. apply (Go w []); [apply emits_refl | reflexivity | reflexivity].
    + match goal with
      | |- context [if ?c then _ else _] => destruct c
      end.
      * unfold syscall at 1. cbn -[timed_write write_completed write_failed].
        rewrite Hl. cbn -[timed_write write_completed write_failed].
        match goal with
        | |- context [timed_write cfg env ?w0] =>
            apply (Go w0 [EvLseekCur (output_fd (control (pv w)))
                            (to_write (transfer (pv w)))])
        end; [unfold emits; reflexivity | reflexivity | reflexivity].
      * apply (Go w []); [apply emits_refl | reflexivity | reflexivity].
  - intros cfg env w fd eof_in eof_out allowed lw ret ei eo lw' w' E Hc Hr He.
    destruct (pv_transfer_footprint _ _ _ _ _ _ _ _ _ _ _ _ _ E) as (n & Em & _ & C).
    rewrite (events_since_emits _ _ _ Em) in Hc.
    destruct C as [C | C]; [lia | exact (C Hr He)].
Qed.

Lemma epipe_on_write_witness :
  exists w',
    pv__transfer_write all_features closed_pipe
      (make_world (settings 0 true false) (transfer_state three_lines 8 0))
      false false (Some 0)
    = (0, true, true, Some 0, w')
    /\ pipe_closed (pv w') = 1.
Proof.
  destruct (proj1 epipe_on_write_is_an_orderly_end all_features closed_pipe
              (make_world (settings 0 true false) (transfer_state three_lines 8 0))
              false false (Some 0) three_lines)
    as (w' & E & P & _).
  - reflexivity.
  - reflexivity.
  - reflexivity.
  - left. reflexivity.
  - reflexivity.
  - reflexivity.
  - exists w'. split; assumption.
Defined.


(** [memrchr_from] finds the last match below [n], if there is one. *)
Lemma memrchr_from_last buffer m n :
  match memrchr_from buffer m n with
  | Some k =>
      0 <= k < Z.of_nat n
      /\ nth (Z.to_nat k) buffer NUL = m
      /\ forall j, (Z.to_nat k < j < n)%nat -> nth j buffer NUL <> m
  | None => forall j, (j < n)%nat -> nth j buffer NUL <> m
  end.
Proof.
  induction n as [|n IH]; cbn [memrchr_from].
  - intros j Hj. lia.
  - destruct (Byte.eqb (nth n buffer NUL) m) eqn:E.
    + apply Byte.byte_dec_bl in E. rewrite Nat2Z.id.
      repeat split; try lia. exact E.
    + assert (Hn : nth n buffer NUL <> m).
      { intros X. rewrite X in E.
        rewrite (Byte.byte_dec_lb eq_refl) in E. discriminate. }
      destruct (memrchr_from buffer m n) as [k|].
      * destruct IH as (R & A & B). repeat split; try lia; auto.
        intros j Hj. destruct (Nat.eq_dec j n) as [->|]; [exact Hn|].
        apply B. lia.
      * intros j Hj. destruct (Nat.eq_dec j n) as [->|]; [exact Hn|].
        apply IH. lia.
Qed.

(** The cut of lines 1267-1277, with n the amount to write after it: if
    the pending window holds a newline, the n bytes end with the last
    newline of the window; if it holds none, n is the whole window; n is
    never more than the window, and at least one byte. *)
Lemma cut_at_last_newline s buf :
  transfer_buffer (transfer s) = Some buf ->
  linemode (control s) = true ->
  null_terminated_lines (control s) = false ->
  0 < to_write (transfer s) < 2 ^ 63 ->
  0 <= write_position (transfer s) ->
  let n := truncate_to_last_line s in
  let pending i := buf_get buf (write_position (transfer s) + i) in
  ((exists i, 0 <= i < to_write (transfer s) /\ pending i = NEWLINE) ->
   1 <= n <= to_write (transfer s)
   /\ pending (n - 1) = NEWLINE
   /\ forall i, n <= i < to_write (transfer s) -> pending i <> NEWLINE)
  /\ ((forall i, 0 <= i < to_write (transfer s) -> pending i <> NEWLINE) ->
      n = to_write (transfer s))
  /\ 1 <= n <= to_write (transfer s).
Proof.
  intros Hb Hl Hn Ht Hw n pending.
  assert (Hpend : forall k : nat,
            nth k (skipn (Z.to_nat (write_position (transfer s))) buf) NUL
            = pending (Z.of_nat k)).
  { intros k. unfold pending, buf_get. rewrite nth_skipn. f_equal. lia. }
  assert (Hcut : n = match memrchr_from
                             (skipn (Z.to_nat (write_position (transfer s))) buf)
                             NEWLINE (Z.to_nat (to_write (transfer s))) with
                     | Some end_ => end_ + 1
                     | None => to_write (transfer s)
                     end).
  { unfold n, truncate_to_last_line. rewrite Hb, Hl, Hn.
    destruct (Z.gtb_spec (to_write (transfer s)) 0) as [_|]; [|lia]. cbn.
    unfold pv_memrchr. rewrite to_size_t_id by (unfold fits_size_t; lia).
    destruct (Z.ltb_spec (to_write (transfer s)) 1) as [|_]; [lia|].
    pose proof (memrchr_from_last
                  (skipn (Z.to_nat (write_position (transfer s))) buf) NEWLINE
                  (Z.to_nat (to_write (transfer s)))) as M.
    destruct (memrchr_from _ _ _) as [k|]; [|reflexivity].
    destruct M as (R & _). unfold to_ssize_t.
    apply to_off_t_id. unfold fits_off_t. lia. }
  pose proof (memrchr_from_last
                (skipn (Z.to_nat (write_position (transfer s))) buf) NEWLINE
                (Z.to_nat (to_write (transfer s)))) as M.
  destruct (memrchr_from _ _ _) as [k|]; rewrite Hcut; clear Hcut.
  - destruct M as (R & A & B). rewrite Hpend, Z2Nat.id in A by lia.
    split; [|split].
    + intros _. split; [lia|]. split.
      * replace (k + 1 - 1) with k by lia. exact A.
      * intros i Hi. specialize (B (Z.to_nat i)).
        rewrite Hpend, Z2Nat.id in B by lia. apply B. lia.
    + intros None_. exfalso. apply (None_ k); [lia | exact A].
    + lia.
  - split; [|split].
    + intros (i & Hi & Pi). exfalso. specialize (M (Z.to_nat i)).
      rewrite Hpend, Z2Nat.id in M by lia. apply M; [lia | exact Pi].
    + intros _. reflexivity.
    + lia.
Qed.

End TransferSpec.

(** * Claims about loop.c *)

Module LoopSpec.
Import Transfer Loop IntFacts TransferFacts Examples.

(** The accounting after [pv_transfer] changes nothing but the transfer
    counters. *)
Lemma update_unread_frame cfg env pipe w :
  pipe_closed (pv (update_unread cfg env pipe w)) = pipe_closed (pv w)
  /\ control (pv (update_unread cfg env pipe w)) = control (pv w)
  /\ total_written (transfer (pv (update_unread cfg env pipe w)))
     = total_written (transfer (pv w)).
Proof.
  unfold update_unread.
  repeat match goal with |- context [if ?b then _ else _] => destruct b end;
    destruct w as [[? ? ? ? []] ? ?]; cbn; auto.
Qed.

(** What lines 402-429 leave in written_but_not_consumed. *)
Lemma update_unread_value cfg env w :
  HAVE_FIONREAD cfg = true ->
  fits_int (pe_nbytes env) ->
  written_but_not_consumed (transfer (pv (update_unread cfg env true w)))
  = if negb (pipe_closed (pv w) =? 0) then 0
    else if (pe_ioctl env =? 0) && (pe_nbytes env >=? 0) then pe_nbytes env else 0.
Proof.
  intros F I. unfold update_unread. rewrite F. cbn [andb].
  destruct (negb (pipe_closed (pv w) =? 0)).
  - destruct w as [[? ? ? ? []] ? ?]; reflexivity.
  - destruct (pe_ioctl env =? 0); cbn [andb].
    + destruct (pe_nbytes env >=? 0) eqn:G.
      * destruct w as [[? ? ? ? []] ? ?]; cbn.
        apply Z.geb_le in G.
        apply to_size_t_id. unfold fits_int in I. unfold fits_size_t. lia.
      * destruct w as [[? ? ? ? []] ? ?]; reflexivity.
    + destruct w as [[? ? ? ? []] ? ?]; reflexivity.
Qed.

Lemma update_transferred_bytes w :
  linemode (control (pv w)) = false ->
  let w' := update_transferred true w in
  transferred (transfer (pv w'))
  = to_off_t (total_written (transfer (pv w)) - written_but_not_consumed (transfer (pv w)))
  /\ total_written (transfer (pv w')) = total_written (transfer (pv w))
  /\ written_but_not_consumed (transfer (pv w'))
     = written_but_not_consumed (transfer (pv w))
  /\ pipe_closed (pv w') = pipe_closed (pv w).
Proof.
  intros L. unfold update_transferred. rewrite L. cbn.
  destruct w as [[? ? ? ? []] ? ?]; cbn. auto.
Qed.

(** C2.  One pass of the main loop that gets past pv_transfer, writing to a
    pipe with line mode off and FIONREAD available: transferred becomes the
    cumulative count written minus written_but_not_consumed, which is the
    count FIONREAD reported (0 if the ioctl failed or reported a negative
    count); and when the pipe-closed flag is set, written_but_not_consumed is
    0 and transferred is the cumulative count written. *)
Theorem transferred_is_written_minus_unread cfg env l w l' w' :
  HAVE_FIONREAD cfg = true ->
  output_is_pipe l = true ->
  linemode (control (pv w)) = false ->
  fits_int (pe_nbytes env) ->
  transfer_and_account cfg env l w = inl (l', w') ->
  0 <= total_written (transfer (pv w')) ->
  let unread := written_but_not_consumed (transfer (pv w')) in
  transferred (transfer (pv w')) = total_written (transfer (pv w')) - unread
  /\ (pipe_closed (pv w') <> 0 ->
      unread = 0
      /\ transferred (transfer (pv w')) = total_written (transfer (pv w')))
  /\ (pipe_closed (pv w') = 0 ->
      unread = if (pe_ioctl env =? 0) && (pe_nbytes env >=? 0)
               then pe_nbytes env else 0).
Proof.
  intros F P L I R T. unfold transfer_and_account in R.
  rewrite P in R.
  cbv zeta in R.
  pose (call := if (0 <? size (control (pv w))) && stop_at_size (control (pv w))
                   && (0 >=? cansend l) && eof_in l && eof_out l
                then (0, eof_in l, eof_out l, Some (lineswritten l), w)
                else pv_transfer cfg (pe_transfer env) w (input_fd l)
                       (eof_in l) (eof_out l) (cansend l) (Some (lineswritten l))).
  fold call in R.
  assert (K : forall written ei eo lw w1,
             call = (written, ei, eo, lw, w1) ->
             linemode (control (pv w1)) = false).
  { intros written ei eo lw w1. unfold call.
    destruct (_ && _).
    - intros [= <- <- <- <- <-]. exact L.
    - intros PT. apply pv_transfer_footprint in PT.
      destruct PT as (new & _ & (_ & LM & _) & _). rewrite LM. exact L. }
  destruct call as [[[[written ei] eo] lw] w1].
  specialize (K _ _ _ _ _ eq_refl).
  destruct (written <? 0); [discriminate|].
  rewrite K in R.
  injection R as <- <-. cbn [written_now].
  set (w2 := on_transfer _ w1).
  assert (K2 : linemode (control (pv w2)) = false
               /\ fits_off_t (total_written (transfer (pv w2)))
               /\ pipe_closed (pv w2) = pipe_closed (pv w1)).
  { unfold w2. destruct w1 as [[? ? ? ? []] ? ?]; cbn in *.
    split; [exact K|]. split; [apply to_off_t_range|reflexivity]. }
  destruct K2 as (L2 & T2 & P2).
  destruct (update_unread_frame cfg env true w2) as (P3 & C3 & T3).
  pose proof (update_unread_value cfg env w2 F I) as V3.
  set (w3 := update_unread cfg env true w2) in *.
  assert (L3 : linemode (control (pv w3)) = false) by (rewrite C3; exact L2).
  destruct (update_transferred_bytes w3 L3) as (Tr & T4 & V4 & P4).
  cbv zeta in *.
  set (w4 := update_transferred true w3) in *.
  change (0 <= total_written (transfer (pv w4))) in T.
  rewrite V4, T4, P4, P3 in *. rewrite T3 in *. rewrite V3 in *.
  assert (B : 0 <= (if negb (pipe_closed (pv w2) =? 0) then 0
                    else if (pe_ioctl env =? 0) && (pe_nbytes env >=? 0)
                         then pe_nbytes env else 0) < 2 ^ 31).
  { unfold fits_int in I.
    destruct (negb _); [lia|].
    destruct (_ && _) eqn:E; [|lia].
    apply andb_true_iff in E. destruct E as (_ & E). apply Z.geb_le in E. lia. }
  assert (Tr' : transferred (transfer (pv w4))
                = total_written (transfer (pv w2))
                  - (if negb (pipe_closed (pv w2) =? 0) then 0
                     else if (pe_ioctl env =? 0) && (pe_nbytes env >=? 0)
                          then pe_nbytes env else 0)).
  { rewrite Tr.
    rewrite to_off_t_id; [reflexivity|]. unfold fits_off_t in *. lia. }
  split; [exact Tr'|]. split.
  - intros N. apply Z.eqb_neq in N. rewrite N in *. cbn [negb] in *. split; [reflexivity|lia].
  - intros N. rewrite N. reflexivity.
Qed.

Lemma transferred_is_written_minus_unread_witness :
  let r := transfer_and_account all_features (pass_reporting open_pipe 5) piping
             (make_world (settings 0 true false) (transfer_state three_lines 8 0)) in
  match r with
  | inl (_, w') =>
      transferred (transfer (pv w')) = 3
      /\ total_written (transfer (pv w')) = 8
      /\ written_but_not_consumed (transfer (pv w')) = 5
  | inr _ => False
  end.
Proof.
  cbv zeta.
  destruct (transfer_and_account all_features (pass_reporting open_pipe 5) piping
              (make_world (settings 0 true false) (transfer_state three_lines 8 0)))
    as [[l' w']|] eqn:R.
  - pose proof (transferred_is_written_minus_unread all_features
                  (pass_reporting open_pipe 5) piping
                  (make_world (settings 0 true false) (transfer_state three_lines 8 0))
                  l' w'
                  eq_refl eq_refl eq_refl ltac:(unfold fits_int; cbn; lia) R) as H.
    vm_compute in R. injection R as <- <-.
    cbn in H. specialize (H ltac:(lia)). cbn. lia.
  - vm_compute in R. discriminate.
Defined.

End LoopSpec.

(** * Claims about calc.c *)

Module CalcSpec.
Import Calc QFacts FloatFacts Examples.











(** Nor is 100 the bound while transferred <= size: at the end of a
    transfer of 360287970189643 bytes the three roundings of pv_percentage
    give 100.00000000000001421..., that is 100 + 2^-46. *)
Lemma percentage_above_100_at_the_end_of_the_transfer :
  let calc' :=
    pv_calculate_transfer_rate Float.x86_64 idle_calc (progress 360287970189643 1)
      (expecting 360287970189643) plain_display false in
  transferred (progress 360287970189643 1) = size (expecting 360287970189643)
  /\ (percentage calc' == 100 + (1 # 2 ^ 46))%Q.
Proof. cbv zeta. split; [reflexivity | vm_compute; reflexivity]. Qed.

End CalcSpec.

(** * Claims about the layout of pv_format *)

Module LayoutSpec.
Import Display IntFacts Examples.

Section Passes.

Variable component_function : Z -> pvformatter_args_s -> Z * pvformatter_args_s.
Variable pv_strwidth : list byte -> Z.

(** The formatters leave the type and the chosen size of their segment as
    they were. *)
Hypothesis formatters_keep_kind : forall type args,
  let segment := fa_segment (snd (component_function type args)) in
  seg_type segment = seg_type (fa_segment args)
  /\ seg_chosen_size segment = seg_chosen_size (fa_segment args).

Lemma elastic_set_seg_width v s : elastic (set_seg_width v s) = elastic s.
Proof. reflexivity. Qed.

Lemma elastic_after_formatter type v s info :
  elastic (fa_segment (snd (component_function type
                              (with_segment (set_seg_width v s) info))))
  = elastic s.
Proof.
  destruct (formatters_keep_kind type (with_segment (set_seg_width v s) info))
    as (T & C).
  unfold elastic, fixed_width. rewrite T, C. reflexivity.
Qed.

Lemma elastic_cases s :
  (seg_type s =? -1) = true /\ elastic s = false
  \/ (seg_type s =? -1) = false /\ fixed_width s = false /\ elastic s = true
  \/ (seg_type s =? -1) = false /\ fixed_width s = true /\ elastic s = false.
Proof.
  unfold elastic. destruct (seg_type s =? -1), (fixed_width s); cbn; auto.
Qed.

(** The first pass: it counts the elastic segments, leaves them as they
    are, and adds up the widths of the others. *)
Lemma fixed_pass_spec segments :
  forall info s c segs1 info1 s1 c1,
  Forall (fun g => fits_uint16 (seg_width g)) segments ->
  0 <= s -> 0 <= c ->
  s + 65535 * Z.of_nat (List.length segments) < 2 ^ 64 ->
  c + Z.of_nat (List.length segments) < 2 ^ 64 ->
  fixed_pass component_function pv_strwidth segments info s c
  = (segs1, info1, s1, c1) ->
  c1 = c + Z.of_nat (List.length (filter elastic segments))
  /\ s1 = s + total_width (filter (fun g => negb (elastic g)) segs1)
  /\ filter elastic segs1 = filter elastic segments
  /\ s <= s1 <= s + 65535 * Z.of_nat (List.length segments).
Proof.
  induction segments as [|g rest IH]; intros info s c segs1 info1 s1 c1 W S C BS BC.
  - cbn. intros [= <- <- <- <-]. cbn. repeat split; lia.
  - inversion W as [|? ? Wg Wrest]; subst.
    cbn [fixed_pass]. cbn [List.length] in BS, BC.
    unfold fits_uint16 in Wg.
    destruct (elastic_cases g) as [(T & E)|[(T & F & E)|(T & F & E)]];
      rewrite T; try rewrite F; cbn [negb].
    + destruct (fixed_pass _ _ rest info _ c) as [[[r i] s'] c'] eqn:R.
      intros [= <- <- <- <-].
      rewrite to_size_t_id in R by (unfold fits_size_t; lia).
      apply IH in R; auto; try lia.
      destruct R as (Rc & Rs & Rf & Rb).
      cbn [filter]. rewrite E. cbn [negb]. unfold total_width in *. cbn [map fold_right].
      cbn [List.length]. repeat split; try lia. exact Rf.
    + destruct (fixed_pass _ _ rest info s _) as [[[r i] s'] c'] eqn:R.
      intros [= <- <- <- <-].
      rewrite to_size_t_id in R by (unfold fits_size_t; lia).
      apply IH in R; auto; try lia.
      destruct R as (Rc & Rs & Rf & Rb).
      cbn [filter]. rewrite E. cbn [negb List.length]. unfold total_width in *.
      cbn [List.length]. repeat split; try lia. f_equal. exact Rf.
    + cbv zeta.
      pose proof (elastic_after_formatter (seg_type g) (seg_chosen_size g) g info) as K.
      change (seg_type (set_seg_width (seg_chosen_size g) g)) with (seg_type g).
      destruct (component_function (seg_type g)
                  (with_segment (set_seg_width (seg_chosen_size g) g) info))
        as [bytes_added info'] eqn:CF.
      cbn [snd] in K.
      set (wd := if bytes_added >? 0 then _ else 0).
      assert (Wd : 0 <= wd <= 65535).
      { unfold wd. destruct (bytes_added >? 0); [|lia].
        unfold to_uint16. pose proof (Z.mod_pos_bound
          (pv_strwidth (buf_slice (fa_buffer info') (fa_offset info') bytes_added))
          (2 ^ 16) ltac:(lia)). lia. }
      set (g' := set_seg_width wd (fa_segment info')).
      change (seg_width g') with wd.
      destruct (fixed_pass _ _ rest _ _ c) as [[[r i] s'] c'] eqn:R.
      intros [= <- <- <- <-].
      rewrite to_size_t_id in R by (unfold fits_size_t; lia).
      apply IH in R; auto; try lia.
      destruct R as (Rc & Rs & Rf & Rb).
      assert (E' : elastic g' = false).
      { unfold g'. rewrite elastic_set_seg_width, K. exact E. }
      cbn [filter]. rewrite E, E'. cbn [negb]. unfold total_width in *.
      cbn [map fold_right]. change (seg_width g') with wd.
      cbn [List.length]. repeat split; try lia. exact Rf.
Qed.

(** The second pass is the rendering of the elastic segments with the
    dynamic width, and it leaves the others alone. *)
Lemma elastic_pass_spec segments :
  forall info s d segs2 info2 s2,
  elastic_pass component_function segments info s d = (segs2, info2, s2) ->
  rendered_with_width component_function (to_uint16 d) segments info
  = (segs2, info2)
  /\ filter (fun g => negb (elastic g)) segs2
     = filter (fun g => negb (elastic g)) segments.
Proof.
  induction segments as [|g rest IH]; intros info s d segs2 info2 s2.
  - cbn. intros [= <- <- <-]. split; reflexivity.
  - cbn [elastic_pass rendered_with_width].
    destruct (elastic_cases g) as [(T & E)|[(T & F & E)|(T & F & E)]];
      rewrite T; try rewrite F; rewrite E.
    + destruct (elastic_pass _ rest info _ d) as [[r i] s'] eqn:R.
      intros [= <- <- <-]. apply IH in R. destruct R as (Rc & Rf).
      rewrite Rc. cbn [filter]. rewrite E. cbn [negb].
      split; [reflexivity | f_equal; exact Rf].
    + cbv zeta.
      pose proof (elastic_after_formatter (seg_type g) (to_uint16 d) g info) as K.
      change (seg_type (set_seg_width (to_uint16 d) g)) with (seg_type g).
      destruct (component_function (seg_type g)
                  (with_segment (set_seg_width (to_uint16 d) g) info))
        as [bytes_added info'] eqn:CF.
      cbn [snd] in K.
      destruct (elastic_pass _ rest _ s d) as [[r i] s'] eqn:R.
      intros [= <- <- <-]. apply IH in R. destruct R as (Rc & Rf).
      rewrite Rc. cbn [filter]. cbn [fa_segment with_offset]. rewrite K, E.
      cbn [negb]. split; [reflexivity | exact Rf].
    + destruct (elastic_pass _ rest info s d) as [[r i] s'] eqn:R.
      intros [= <- <- <-]. apply IH in R. destruct R as (Rc & Rf).
      rewrite Rc. cbn [filter]. rewrite E. cbn [negb].
      split; [reflexivity | f_equal; exact Rf].
Qed.

(** Formatters that leave the width of their segment alone leave every
    elastic segment with the width it was rendered with. *)
Lemma rendered_width allotted segments :
  (forall type args,
     seg_width (fa_segment (snd (component_function type args)))
     = seg_width (fa_segment args)) ->
  forall info segs2 info2,
  rendered_with_width component_function allotted segments info = (segs2, info2) ->
  Forall (fun g => elastic g = true -> seg_width g = allotted) segs2
  /\ List.length (filter elastic segs2) = List.length (filter elastic segments).
Proof.
  intros Keep.
  induction segments as [|g rest IH]; intros info segs2 info2.
  - cbn. intros [= <- <-]. split; [constructor | reflexivity].
  - cbn [rendered_with_width]. destruct (elastic g) eqn:E.
    + pose proof (elastic_after_formatter (seg_type g) allotted g info) as K.
      pose proof (Keep (seg_type g) (with_segment (set_seg_width allotted g) info))
        as W.
      destruct (component_function (seg_type g)
                  (with_segment (set_seg_width allotted g) info))
        as [bytes_added info'] eqn:CF.
      cbn [snd] in K, W.
      destruct (rendered_with_width _ allotted rest _) as [r i] eqn:R.
      intros [= <- <-]. apply IH in R. destruct R as (Rw & Rl).
      split.
      * constructor; [intros _; exact W | exact Rw].
      * cbn [filter]. rewrite K, E. cbn [List.length]. now rewrite Rl.
    + destruct (rendered_with_width _ allotted rest info) as [r i] eqn:R.
      intros [= <- <-]. apply IH in R. destruct R as (Rw & Rl).
      split.
      * constructor; [intros X; congruence | exact Rw].
      * cbn [filter]. rewrite E. exact Rl.
Qed.

End Passes.

(** Lines 1120-1129 without wrap-around. *)
Lemma dynamic_width_quotient width static count :
  fits_uint16 width -> 0 <= static -> 0 < count ->
  dynamic_width width static count = Z.max 0 (width - static) / count.
Proof.
  unfold fits_uint16, dynamic_width. intros W S C.
  destruct (Z.gtb_spec width static).
  - rewrite to_size_t_id by (unfold fits_size_t; lia).
    rewrite Z.max_r by lia.
    destruct (Z.gtb_spec count 1).
    + apply Z.quot_div_nonneg; lia.
    + replace count with 1 by lia. rewrite Z.div_1_r. reflexivity.
  - rewrite Z.max_l by lia.
    destruct (Z.gtb_spec count 1).
    + rewrite Z.quot_0_l by lia. rewrite Z.div_0_l by lia. reflexivity.
    + rewrite Z.div_0_l by lia. reflexivity.
Qed.

(** C7.  With formatters that leave the type and chosen size of their
    segment alone, at most PV_FORMAT_ARRAY_MAX segments and widths that fit
    the 16-bit width type: after the first pass static_portion_width is the
    sum of the widths of the static strings and fixed-width segments and
    dynamic_segment_count is the number of elastic segments; the dynamic
    segment width is max(0, width - static_portion_width) divided, by integer
    division, by that number; and what the second pass leaves, segments and
    formatter state, is what rendering every elastic segment in turn with
    exactly that width leaves, starting from what the first pass left.
    Where the formatters do not touch the width of their segment, every
    elastic segment has that width in the end. *)
Theorem elastic_segments_share_remaining_width
    (component_function : Z -> pvformatter_args_s -> Z * pvformatter_args_s)
    (pv_strwidth : list byte -> Z)
    control segments info segs' info' static count dsw :
  (forall type args,
     let segment := fa_segment (snd (component_function type args)) in
     seg_type segment = seg_type (fa_segment args)
     /\ seg_chosen_size segment = seg_chosen_size (fa_segment args)) ->
  fits_uint16 (width control) ->
  (List.length segments <= PV_FORMAT_ARRAY_MAX)%nat ->
  Forall (fun g => fits_uint16 (seg_width g)) segments ->
  pv_format_layout component_function pv_strwidth control segments info
  = (segs', info', static, count, dsw) ->
  let first_pass := fixed_pass component_function pv_strwidth segments info 0 0 in
  let fixed := fst (fst (fst first_pass)) in
  static = total_width (filter (fun g => negb (elastic g)) fixed)
  /\ filter (fun g => negb (elastic g)) segs'
     = filter (fun g => negb (elastic g)) fixed
  /\ count = Z.of_nat (List.length (filter elastic segments))
  /\ filter elastic fixed = filter elastic segments
  /\ (0 < count -> dsw = Z.max 0 (width control - static) / count)
  /\ rendered_with_width component_function dsw fixed (snd (fst (fst first_pass)))
     = (segs', info')
  /\ ((forall type args,
         seg_width (fa_segment (snd (component_function type args)))
         = seg_width (fa_segment args)) ->
      Forall (fun g => elastic g = true -> seg_width g = dsw) segs'
      /\ Z.of_nat (List.length (filter elastic segs')) = count).
Proof.
  intros Keep W Len Wd. unfold pv_format_layout, PV_FORMAT_ARRAY_MAX in *.
  destruct (fixed_pass component_function pv_strwidth segments info 0 0)
    as [[[segs1 info1] s1] c1] eqn:P1.
  pose proof P1 as P1'.
  apply (fixed_pass_spec component_function pv_strwidth Keep) in P1';
    auto; try lia.
  destruct P1' as (C1 & S1 & F1 & B1).
  destruct (elastic_pass component_function segs1 info1 s1 _)
    as [[segs2 info2] s2] eqn:P2.
  apply (elastic_pass_spec component_function Keep) in P2.
  destruct P2 as (K2 & F2).
  intros [= <- <- <- <- <-]. cbn [fst snd].
  assert (D : fits_uint16 (dynamic_width (width control) s1 c1)).
  { unfold dynamic_width, fits_uint16 in *.
    destruct (Z.gtb_spec (width control) s1).
    - rewrite to_size_t_id by (unfold fits_size_t; lia).
      destruct (Z.gtb_spec c1 1); [|lia].
      rewrite Z.quot_div_nonneg by lia.
      split; [apply Z.div_pos; lia|].
      apply Z.le_lt_trans with (width control - s1); [|lia].
      apply Z.div_le_upper_bound; nia.
    - destruct (Z.gtb_spec c1 1); [|lia].
      rewrite Z.quot_0_l by lia. lia. }
  rewrite (to_uint16_id _ D) in K2.
  split; [rewrite S1; reflexivity|].
  split; [exact F2|].
  split; [lia|].
  split; [exact F1|].
  split; [intros Pos; apply dynamic_width_quotient; auto; lia|].
  split; [exact K2|].
  intros KeepW.
  destruct (rendered_width component_function Keep _ segs1 KeepW _ _ _ K2)
    as (Rw & Rl).
  split; [exact Rw|]. rewrite Rl, F1. lia.
Qed.

Lemma elastic_segments_share_remaining_width_witness :
  let '(segs', _, static, count, dsw) :=
    pv_format_layout five_bytes one_column_each (expecting 100) two_bars
      (formatter_args 50 100 10 false) in
  static = 7 /\ count = 2 /\ dsw = 36 /\ map seg_width segs' = [36; 2; 5; 36].
Proof.
  destruct (pv_format_layout five_bytes one_column_each (expecting 100) two_bars
              (formatter_args 50 100 10 false))
    as [[[[segs' info'] static] count] dsw] eqn:R.
  assert (K : forall type args,
             let segment := fa_segment (snd (five_bytes type args)) in
             seg_type segment = seg_type (fa_segment args)
             /\ seg_chosen_size segment = seg_chosen_size (fa_segment args)).
  { intros type args. unfold five_bytes, pv_formatter_segmentcontent. cbv zeta.
    destruct (_ =? 0); split; reflexivity. }
  pose proof (elastic_segments_share_remaining_width five_bytes one_column_each
                (expecting 100) two_bars (formatter_args 50 100 10 false)
                segs' info' static count dsw K
                ltac:(unfold fits_uint16; cbn; lia)
                ltac:(unfold PV_FORMAT_ARRAY_MAX; cbn; lia)
                ltac:(repeat constructor; unfold fits_uint16; cbn; lia)
                R) as (S & _).
  vm_compute in R. injection R as <- <- <- <- <-.
  repeat split; reflexivity.
Defined.

End LayoutSpec.

(** * Claims about the ETA formatter *)

Module EtaSpec.
Import Calc Display IntFacts QFacts Examples.
Import Float.

(** ** Strings without null bytes *)

Lemma no_nul_append a b : no_nul (a ++ b) = no_nul a && no_nul b.
Proof.
  induction a as [|c a IH]; cbn; [reflexivity|].
  rewrite IH. apply andb_assoc.
Qed.

Lemma no_nul_c_string s : no_nul (c_string s) = true.
Proof.
  induction s as [|c s IH]; cbn; [reflexivity|].
  destruct (Ascii.eqb c "000") eqn:E; cbn; [reflexivity|].
  rewrite E, IH. reflexivity.
Qed.

Lemma no_nul_string_take n : forall s, no_nul s = true -> no_nul (string_take n s) = true.
Proof.
  induction n as [|n IH]; intros [|c s]; cbn; auto.
  intros H. apply andb_true_iff in H. destruct H as (C & S).
  rewrite C, (IH s S). reflexivity.
Qed.

Lemma length_string_take n : forall s,
  (String.length s <= n)%nat -> string_take n s = s.
Proof.
  induction n as [|n IH]; intros [|c s]; cbn; auto; try lia.
  intros H. rewrite IH by lia. reflexivity.
Qed.

Lemma length_string_take_le n : forall s, (String.length (string_take n s) <= n)%nat.
Proof.
  induction n as [|n IH]; intros [|c s]; cbn; try lia.
  specialize (IH s). lia.
Qed.

Lemma length_append a b :
  String.length (a ++ b) = (String.length a + String.length b)%nat.
Proof. induction a as [|c a IH]; cbn; [reflexivity|]. rewrite IH. reflexivity. Qed.

Lemma blank_out_spaces s : no_nul s = true -> blank_out s = spaces (String.length s).
Proof.
  induction s as [|c s IH]; cbn; [reflexivity|].
  intros H. apply andb_true_iff in H. destruct H as (C & S).
  apply negb_true_iff in C. rewrite C, (IH S). reflexivity.
Qed.

(** ** The digits of "%ld" *)

Lemma digits_no_nul d : no_nul (NilEmpty.string_of_uint d) = true.
Proof. induction d; cbn; auto. Qed.

Lemma digits_length d :
  String.length (NilEmpty.string_of_uint d) = Decimal.nb_digits d.
Proof. induction d; cbn; auto. Qed.

Lemma double_digits d :
  (Decimal.nb_digits (Decimal.Little.double d) <= S (Decimal.nb_digits d)
   /\ Decimal.nb_digits (Decimal.Little.succ_double d) <= S (Decimal.nb_digits d))%nat.
Proof. induction d; cbn; lia. Qed.

Lemma little_digits p :
  (Decimal.nb_digits (Pos.to_little_uint p) <= Pos.size_nat p)%nat.
Proof.
  induction p as [p IH|p IH|]; cbn; try lia.
  - pose proof (proj2 (double_digits (Pos.to_little_uint p))). lia.
  - pose proof (proj1 (double_digits (Pos.to_little_uint p))). lia.
Qed.

Lemma size_nat_bound p : forall n, Zpos p < 2 ^ Z.of_nat n -> (Pos.size_nat p <= n)%nat.
Proof.
  induction p as [p IH|p IH|]; intros [|n] H; cbn in *; try lia.
  - rewrite Pos2Z.inj_xI in H.
    replace (Z.pow_pos 2 (Pos.of_succ_nat n)) with (2 * 2 ^ Z.of_nat n) in H.
    + specialize (IH n). lia.
    + change (Z.pow_pos 2 (Pos.of_succ_nat n)) with (2 ^ Z.pos (Pos.of_succ_nat n)).
      rewrite Zpos_P_of_succ_nat. rewrite Z.pow_succ_r by lia. reflexivity.
  - rewrite Pos2Z.inj_xO in H.
    replace (Z.pow_pos 2 (Pos.of_succ_nat n)) with (2 * 2 ^ Z.of_nat n) in H.
    + specialize (IH n). lia.
    + change (Z.pow_pos 2 (Pos.of_succ_nat n)) with (2 ^ Z.pos (Pos.of_succ_nat n)).
      rewrite Zpos_P_of_succ_nat. rewrite Z.pow_succ_r by lia. reflexivity.
Qed.

(** "%ld" of a number below 2^n: digits only, at most n of them (and one
    for 0). *)
Lemma fmt_ld_plain z n :
  0 <= z < 2 ^ Z.of_nat n ->
  no_nul (fmt_ld z) = true
  /\ (1 <= String.length (fmt_ld z) <= Nat.max 1 n)%nat.
Proof.
  intros (Z0 & Zn). unfold fmt_ld.
  destruct z as [|p|p]; try lia.
  - split; [reflexivity|].
    change (String.length (NilZero.string_of_int (Z.to_int 0))) with 1%nat. lia.
  - cbn [Z.to_int NilZero.string_of_int].
    unfold Pos.to_uint.
    assert (L : (Decimal.nb_digits (Decimal.rev (Pos.to_little_uint p)) <= n)%nat).
    { rewrite DecimalFacts.nb_digits_rev.
      pose proof (little_digits p). pose proof (size_nat_bound p n Zn). lia. }
    pose proof (digits_no_nul (Decimal.rev (Pos.to_little_uint p))) as N.
    pose proof (digits_length (Decimal.rev (Pos.to_little_uint p))) as D.
    destruct (Decimal.rev (Pos.to_little_uint p));
      cbn [NilZero.string_of_uint];
      try (split; [exact N|]; rewrite D; cbn [Decimal.nb_digits] in *; lia).
    split; [reflexivity|]. change (String.length "0") with 1%nat. lia.
Qed.

Lemma fmt_02ld_plain z n :
  0 <= z < 2 ^ Z.of_nat n ->
  no_nul (fmt_02ld z) = true
  /\ (String.length (fmt_02ld z) <= Nat.max 2 n)%nat.
Proof.
  intros H. destruct (fmt_ld_plain z n H) as (N & L).
  unfold fmt_02ld. destruct (Nat.ltb_spec (String.length (fmt_ld z)) 2).
  - split; [cbn; exact N|]. cbn [append String.length]. lia.
  - split; [exact N|lia].
Qed.

(** [pv_bound_long] as a minimum and a maximum. *)
Lemma pv_bound_long_clamp x lo hi :
  lo <= hi -> pv_bound_long x lo hi = Z.max lo (Z.min hi x).
Proof.
  intros H. unfold pv_bound_long.
  destruct (Z.ltb_spec x lo); [lia|].
  destruct (Z.gtb_spec x hi); lia.
Qed.

(** The fields of the text, which fits the 128 bytes of [content]. *)
Lemma eta_text_shape label eta :
  0 <= eta <= 360000000 ->
  (86400 < eta ->
   eta_text label eta
   = (fmt_16s label ++ " " ++ fmt_ld (eta / 86400) ++ ":"
      ++ fmt_02ld ((eta / 3600) mod 24) ++ ":"
      ++ fmt_02ld ((eta / 60) mod 60) ++ ":" ++ fmt_02ld (eta mod 60))%string)
  /\ (eta <= 86400 ->
      eta_text label eta
      = (fmt_16s label ++ " " ++ fmt_ld (eta / 3600) ++ ":"
         ++ fmt_02ld ((eta / 60) mod 60) ++ ":" ++ fmt_02ld (eta mod 60))%string)
  /\ no_nul (eta_text label eta) = true.
Proof.
  intros E.
  assert (Q60 : 0 <= eta / 60) by (apply Z.div_pos; lia).
  assert (Q3600 : 0 <= eta / 3600) by (apply Z.div_pos; lia).
  assert (Days : 0 <= eta / 86400 < 2 ^ Z.of_nat 13).
  { split; [apply Z.div_pos; lia|apply Z.div_lt_upper_bound; cbn; lia]. }
  assert (Hours : 0 <= eta / 3600 < 2 ^ Z.of_nat 17).
  { split; [apply Z.div_pos; lia|apply Z.div_lt_upper_bound; cbn; lia]. }
  assert (HH : 0 <= (eta / 3600) mod 24 < 2 ^ Z.of_nat 5).
  { pose proof (Z.mod_pos_bound (eta / 3600) 24 ltac:(lia)). cbn. lia. }
  assert (MM : 0 <= (eta / 60) mod 60 < 2 ^ Z.of_nat 6).
  { pose proof (Z.mod_pos_bound (eta / 60) 60 ltac:(lia)). cbn. lia. }
  assert (SS : 0 <= eta mod 60 < 2 ^ Z.of_nat 6).
  { pose proof (Z.mod_pos_bound eta 60 ltac:(lia)). cbn. lia. }
  destruct (fmt_ld_plain _ _ Days) as (Nd & Ld).
  destruct (fmt_ld_plain _ _ Hours) as (Nh & Lh).
  destruct (fmt_02ld_plain _ _ HH) as (Nhh & Lhh).
  destruct (fmt_02ld_plain _ _ MM) as (Nmm & Lmm).
  destruct (fmt_02ld_plain _ _ SS) as (Nss & Lss).
  pose proof (length_string_take_le 16 (c_string label)) as Ll.
  pose proof (no_nul_string_take 16 _ (no_nul_c_string label)) as Nl.
  fold (fmt_16s label) in Ll, Nl.
  unfold eta_text, pv_snprintf.
  rewrite !Z.quot_div_nonneg, !Z.rem_mod_nonneg by lia.
  destruct (Z.gtb_spec eta 86400) as [Big|Small].
  - rewrite length_string_take
      by (rewrite !length_append; cbn [String.length]; lia).
    split; [reflexivity|]. split; [lia|].
    rewrite !no_nul_append, Nl, Nd, Nhh, Nmm, Nss. reflexivity.
  - rewrite length_string_take
      by (rewrite !length_append; cbn [String.length]; lia).
    split; [lia|]. split; [reflexivity|].
    rewrite !no_nul_append, Nl, Nh, Nmm, Nss. reflexivity.
Qed.

(** C8 (as amended).  A call of the ETA formatter with the size known and a
    buffer to write to hands over the text for eta seconds.  eta is 0 when
    less than one byte has been transferred or the current average rate is
    below the double constant 0.001.  Otherwise the quotient
    (long double) (size - transferred) / rate is rounded to long double and
    converted to long: where its integer part is a long, eta is that
    integer part cut to the range 0 to 360000000; where it is not, the
    conversion is undefined in C and eta is what the platform makes of it,
    cut to the same range.  The text has a day field exactly when eta
    exceeds 86400; and on the final update it is replaced by as many
    spaces. *)
Theorem eta_is_clamped_quotient_when_measurable p label args :
  let d := fa_display args in
  let so_far := transferred (fa_transfer args) - initial_offset d in
  let remaining := size (fa_control args) - transferred (fa_transfer args) in
  let rate := current_avg_rate (fa_calc args) in
  let quotient := ldbl p (of_integer (long_double p) remaining / rate) in
  1 <= size (fa_control args) ->
  fa_buffer_size args <> 0 ->
  fits_off_t so_far ->
  fits_off_t (size (fa_control args) - initial_offset d) ->
  fits_off_t remaining ->
  exists eta text,
    (so_far < 1 \/ (rate < c_0_001)%Q -> eta = 0)
    /\ (1 <= so_far -> (c_0_001 <= rate)%Q ->
        (LONG_MIN <= Qtruncate quotient <= LONG_MAX ->
         eta = Z.max 0 (Z.min 360000000 (Qtruncate quotient)))
        /\ (~ LONG_MIN <= Qtruncate quotient <= LONG_MAX ->
            eta = Z.max 0 (Z.min 360000000 (long_of_unrepresentable p quotient))))
    /\ 0 <= eta <= 360000000
    /\ (86400 < eta ->
        text
        = (fmt_16s label ++ " " ++ fmt_ld (eta / 86400) ++ ":"
           ++ fmt_02ld ((eta / 3600) mod 24) ++ ":"
           ++ fmt_02ld ((eta / 60) mod 60) ++ ":" ++ fmt_02ld (eta mod 60))%string)
    /\ (eta <= 86400 ->
        text
        = (fmt_16s label ++ " " ++ fmt_ld (eta / 3600) ++ ":"
           ++ fmt_02ld ((eta / 60) mod 60) ++ ":" ++ fmt_02ld (eta mod 60))%string)
    /\ pv_formatter_eta p label args
       = pv_formatter_segmentcontent
           (if final_update d then spaces (String.length text) else text)
           args.
Proof.
  intros d so_far remaining rate quotient Size Buf Fs Ft Fr.
  assert (Sec : (so_far < 1 \/ (rate < c_0_001)%Q -> eta_seconds p args = 0)
             /\ (1 <= so_far -> (c_0_001 <= rate)%Q ->
                 (LONG_MIN <= Qtruncate quotient <= LONG_MAX ->
                  eta_seconds p args
                  = Z.max 0 (Z.min 360000000 (Qtruncate quotient)))
                 /\ (~ LONG_MIN <= Qtruncate quotient <= LONG_MAX ->
                     eta_seconds p args
                     = Z.max 0 (Z.min 360000000
                                  (long_of_unrepresentable p quotient))))
             /\ 0 <= eta_seconds p args <= 360000000).
  { unfold eta_seconds, pv_seconds_remaining.
    fold d. fold so_far. fold rate.
    rewrite (to_off_t_id so_far Fs), (to_off_t_id _ Ft).
    replace (size (fa_control args) - initial_offset d - so_far) with remaining
      by (unfold remaining, so_far; ring).
    rewrite (to_off_t_id remaining Fr). fold quotient.
    rewrite !pv_bound_long_clamp by lia.
    destruct (Z.ltb_spec so_far 1) as [Few|Some_]; cbn [orb].
    - split; [reflexivity|]. split; [lia|]. cbn. lia.
    - destruct (Qltb rate c_0_001) eqn:Slow.
      + apply Qltb_true in Slow.
        split; [reflexivity|]. split; [intros _ R; lra|]. cbn. lia.
      + apply Qltb_false in Slow.
        split; [intros [F|F]; [lia|lra]|].
        split; [|lia]. intros _ _.
        unfold long_of_ldouble.
        destruct (Z.leb_spec LONG_MIN (Qtruncate quotient));
          destruct (Z.leb_spec (Qtruncate quotient) LONG_MAX); cbn [andb];
          split; intros X; try reflexivity; try lia; exfalso; apply X; lia. }
  destruct Sec as (Zero & Quot & Range).
  destruct (eta_text_shape label _ Range) as (Long & Short & Plain).
  exists (eta_seconds p args), (eta_text label (eta_seconds p args)).
  split; [exact Zero|]. split; [exact Quot|]. split; [exact Range|].
  split; [exact Long|]. split; [exact Short|].
  unfold pv_formatter_eta.
  destruct (Z.ltb_spec (size (fa_control args)) 1); [lia|].
  destruct (Z.eqb_spec (fa_buffer_size args) 0); [contradiction|].
  unfold eta_content. fold d.
  rewrite (blank_out_spaces _ Plain). reflexivity.
Qed.

Lemma eta_is_clamped_quotient_witness :
  exists eta text,
    eta = 5 /\ text = "ETA 0:00:05"%string
    /\ pv_formatter_eta x86_64 "ETA" (formatter_args 50 100 10 false)
       = pv_formatter_segmentcontent text (formatter_args 50 100 10 false).
Proof.
  destruct (eta_is_clamped_quotient_when_measurable x86_64 "ETA"
              (formatter_args 50 100 10 false))
    as (eta & text & _ & Quot & _ & _ & Short & Out).
  - cbn. lia.
  - cbn. lia.
  - unfold fits_off_t. cbn. lia.
  - unfold fits_off_t. cbn. lia.
  - unfold fits_off_t. cbn. lia.
  - exists eta, text.
    assert (E : eta = 5).
    { destruct Quot as (Q & _); [cbn; lia|vm_compute; discriminate|].
      rewrite Q; [vm_compute; reflexivity|]. vm_compute. split; discriminate. }
    subst eta. split; [reflexivity|].
    assert (T : text = "ETA 0:00:05"%string).
    { rewrite Short by lia. reflexivity. }
    subst text. split; [reflexivity|]. exact Out.
Defined.

(** C8, as stated, fails: with 50 bytes of 100 transferred at an average
    of 0.0005 bytes per second, the remaining amount over the rate is
    100000 seconds, and the ETA shown is 0:00:00. *)
Lemma eta_is_zero_below_a_thousandth_per_second :
  let args := formatter_args 50 100 (1 # 2000) false in
  1 <= size (fa_control args)
  /\ pv_bound_long
       (Qtruncate (inject_Z (size (fa_control args) - transferred (fa_transfer args))
                   / current_avg_rate (fa_calc args)))
       0 360000000 = 100000
  /\ eta_seconds x86_64 args = 0
  /\ eta_content x86_64 "ETA" args = "ETA 0:00:00"%string.
Proof.
  cbv zeta. split; [cbn; lia|]. repeat split; vm_compute; reflexivity.
Qed.

(** Where the quotient is no long, the ETA shown is the platform's: with
    2^62 bytes left at 1/512 bytes per second the quotient is 2^71; x86-64
    shows 0:00:00, a machine whose conversion saturates 100000 hours. *)
Lemma eta_beyond_long_depends_on_the_platform :
  let args := formatter_args 1 (2 ^ 62 + 1) (1 # 512) false in
  ldbl x86_64 (of_integer (long_double x86_64) (2 ^ 62) / (1 # 512))
  = inject_Z (2 ^ 71)
  /\ eta_content x86_64 "ETA" args = "ETA 0:00:00"%string
  /\ eta_content arm64_apple "ETA" args = "ETA 4166:16:00:00"%string.
Proof. cbv zeta. repeat split; vm_compute; reflexivity. Qed.

End EtaSpec.

(** * Claims about pv_remote_set *)

Module RemoteSpec.
Import Remote TransferFacts Examples Fixtures.

(** After a run of signals only the last one shows. *)
Lemma deliver_last pids : forall g,
  fold_left (fun g p => pv_sig_usr2 p g) pids g
  = match rev pids with
    | [] => g
    | pid :: _ => {| rxusr2 := 1; sender_usr2 := pid |}
    end.
Proof.
  induction pids as [|p pids IH] using rev_ind; intros g; [reflexivity|].
  rewrite fold_left_app, rev_app_distr. reflexivity.
Qed.

(** The waiting loop from its turn [k] on, the flag being clear: it ends,
    having slept [n] times; with an acknowledgement seen at the last of these
    sleeps and at none before, or after turn 108 without any. *)
Lemma wait_for_ack_spec env remote : forall fuel k signal_sender s,
  rxusr2 (sg s) = 0 ->
  (k <= 109)%nat -> (110 <= fuel + k)%nat ->
  exists received s' n,
    wait_for_ack fuel env remote (1100000 - 10000 * Z.of_nat k) false
      signal_sender k s = Some (received, s')
    /\ s_trace s' = s_trace s ++ repeat sleep_event n
    /\ s_errno s' = s_errno s
    /\ (received = true ->
        (1 <= n)%nat /\ (k + n <= 109)%nat
        /\ acknowledged env remote (k + n - 1) = true
        /\ forall j, (k <= j < k + n - 1)%nat -> acknowledged env remote j = false)
    /\ (received = false ->
        n = (109 - k)%nat
        /\ forall j, (k <= j < 109)%nat -> acknowledged env remote j = false).
Proof.
  induction fuel as [|fuel IH]; intros k signal_sender s Clear K F.
  - lia.
  - cbn [wait_for_ack].
    destruct (Z.gtb_spec (1100000 - 10000 * Z.of_nat k) 10000) as [More|Done];
      cbn [andb negb].
    + assert (K' : (k < 109)%nat) by lia.
      unfold deliver. cbn [sg s_emit s_errno s_trace].
      rewrite deliver_last.
      pose proof (eq_refl (acknowledged env remote k)) as A.
      unfold acknowledged at 1 in A.
      destruct (rev (rm_arrivals env k)) as [|pid rest] eqn:Arr.
      * unfold pv_sigusr2_received. rewrite Clear. cbn [Z.eqb].
        replace (1100000 - 10000 * Z.of_nat k - 10000)
          with (1100000 - 10000 * Z.of_nat (S k)) by lia.
        destruct (IH (S k) signal_sender
                    {| sg := sg s; s_errno := s_errno s;
                       s_trace := s_trace s ++ [sleep_event] |})
          as (r & s' & n & W & T & E & Yes & No); [exact Clear|lia|lia|].
        exists r, s', (S n). split; [exact W|].
        cbn [s_trace s_errno] in T, E.
        split; [rewrite T, <- app_assoc; reflexivity|]. split; [exact E|].
        split.
        -- intros R. destruct (Yes R) as (N1 & N2 & N3 & N4).
           split; [lia|]. split; [lia|]. split.
           ++ replace (k + S n - 1)%nat with (S k + n - 1)%nat by lia. exact N3.
           ++ intros j J. destruct (Nat.eq_dec j k) as [->|Ne]; [symmetry; exact A|].
              apply N4. lia.
        -- intros R. destruct (No R) as (N1 & N2).
           split; [lia|].
           intros j J. destruct (Nat.eq_dec j k) as [->|Ne]; [symmetry; exact A|].
           apply N2. lia.
      * unfold pv_sigusr2_received. cbn [rxusr2 sender_usr2 Z.eqb].
        destruct (pid =? remote) eqn:Match.
        -- exists true.
           eexists. exists 1%nat. split.
           { destruct fuel; cbn [wait_for_ack]; rewrite andb_false_r; reflexivity. }
           cbn [s_trace s_errno repeat].
           split; [reflexivity|]. split; [reflexivity|]. split.
           ++ intros _. split; [lia|]. split; [lia|]. split.
              ** replace (k + 1 - 1)%nat with k by lia. symmetry. exact A.
              ** intros j J. lia.
           ++ discriminate.
        -- replace (1100000 - 10000 * Z.of_nat k - 10000)
             with (1100000 - 10000 * Z.of_nat (S k)) by lia.
           destruct (IH (S k) pid
                       {| sg := {| rxusr2 := 0; sender_usr2 := pid |};
                          s_errno := s_errno s;
                          s_trace := s_trace s ++ [sleep_event] |})
             as (r & s' & n & W & T & E & Yes & No); [reflexivity|lia|lia|].
           exists r, s', (S n). split; [exact W|].
           cbn [s_trace s_errno] in T, E.
           split; [rewrite T, <- app_assoc; reflexivity|]. split; [exact E|].
           split.
           ++ intros R. destruct (Yes R) as (N1 & N2 & N3 & N4).
              split; [lia|]. split; [lia|]. split.
              ** replace (k + S n - 1)%nat with (S k + n - 1)%nat by lia. exact N3.
              ** intros j J. destruct (Nat.eq_dec j k) as [->|Ne]; [symmetry; exact A|].
                 apply N4. lia.
           ++ intros R. destruct (No R) as (N1 & N2).
              split; [lia|].
              intros j J. destruct (Nat.eq_dec j k) as [->|Ne]; [symmetry; exact A|].
              apply N2. lia.
    + assert (k = 109%nat) by lia. subst k.
      exists false, s, 0%nat. split; [reflexivity|].
      cbn [repeat]. rewrite app_nil_r.
      split; [reflexivity|]. split; [reflexivity|]. split; [discriminate|].
      intros _. split; [reflexivity|]. intros j J. lia.
Qed.

Lemma count_events_repeat_sleep n :
  count_events is_sleep (repeat sleep_event n) = n
  /\ count_events is_remove (repeat sleep_event n) = 0%nat.
Proof.
  unfold count_events. induction n as [|n (A & B)]; cbn; auto.
Qed.

(** The latest of the signals of the k-th sleep is from [remote]. *)
Lemma acknowledged_latest env remote k :
  acknowledged env remote k = true
  <-> exists earlier, rm_arrivals env k = earlier ++ [remote].
Proof.
  unfold acknowledged. split.
  - destruct (rev (rm_arrivals env k)) as [|pid rest] eqn:R; [discriminate|].
    intros E. apply Z.eqb_eq in E. subst pid. exists (rev rest).
    rewrite <- (rev_involutive (rm_arrivals env k)), R. reflexivity.
  - intros (earlier & ->). rewrite rev_app_distr. cbn. apply Z.eqb_refl.
Qed.

(** C9 (as amended).  When the control file has been written and closed and
    the receiver signalled, pv_remote_set returns after sleeping 10 ms at
    most 109 times (1.09 seconds, within the 1.1 seconds allowed); it
    removes the control file exactly once, whether or not the
    acknowledgement came; it returns 0 exactly when, for one of the first
    109 sleeps, the latest SIGUSR2 to arrive during it was from the remote
    process (the handler keeps the sender of the latest signal only), having
    slept no longer than up to the first such sleep; and otherwise it
    returns PV_ERROREXIT_REMOTE_OR_PID after reporting that the message was
    not received. *)
Theorem ack_awaited_for_at_most_1100_ms env s remote :
  fst (rm_kill_check env) = 0 ->
  0 <= fst (rm_open env) ->
  fst (rm_fwrite env) = 1 ->
  fst (rm_fclose env) = 0 ->
  fst (rm_kill_signal env) = 0 ->
  exists ret s' new,
    pv_remote_set env s remote = Some (ret, s')
    /\ s_trace s' = s_trace s ++ new
    /\ (count_events is_sleep new <= 109)%nat
    /\ 10 * Z.of_nat (count_events is_sleep new) <= 1100
    /\ count_events is_remove new = 1%nat
    /\ (ret = 0 <->
        exists k earlier,
          (k < 109)%nat /\ rm_arrivals env k = earlier ++ [remote])
    /\ (ret = 0 ->
        (exists earlier,
           rm_arrivals env (count_events is_sleep new - 1) = earlier ++ [remote])
        /\ forall j earlier, (j < count_events is_sleep new - 1)%nat ->
             rm_arrivals env j <> earlier ++ [remote])
    /\ (ret <> 0 ->
        ret = PV_ERROREXIT_REMOTE_OR_PID
        /\ count_events is_sleep new = 109%nat
        /\ In (EvError MsgNotReceived) new).
Proof.
  intros Kc Op Fw Fc Ks. unfold pv_remote_set, s_call.
  rewrite Kc, Fw, Fc, Ks. cbn [Z.eqb negb Z.ltb Z.compare].
  destruct (Z.ltb_spec (fst (rm_open env)) 0); [lia|].
  cbn [s_emit sg s_errno s_trace].
  set (g := pv_sigusr2_received (sg s) 0).
  assert (G : rxusr2 (snd g) = 0).
  { unfold g, pv_sigusr2_received. destruct (Z.eqb_spec (rxusr2 (sg s)) 0); cbn; auto. }
  destruct g as [[got signal_sender] g']. cbn [snd] in G.
  match goal with
  | |- context [wait_for_ack 110 env remote 1100000 false signal_sender 0 ?s0] =>
      destruct (wait_for_ack_spec env remote 110 0 signal_sender s0)
        as (received & s1 & n & W & T & E & Yes & No); [exact G|lia|lia|]
  end.
  change (1100000 - 10000 * Z.of_nat 0) with 1100000 in W.
  rewrite W. cbn [s_trace s_errno] in T, E. cbv zeta.
  cbv iota.
  destruct (count_events_repeat_sleep n) as (Cs & Cr).
  set (prefix := [EvKill remote 0; EvOpenControlFile; EvWriteControlFile;
                  EvCloseControlFile; EvKill remote SIGUSR2]).
  set (s2 := {| sg := sg s1;
                s_errno := if fst (rm_remove env) <? 0
                           then snd (rm_remove env) else s_errno s1;
                s_trace := s_trace s1 ++ [EvRemoveControlFile] |}).
  set (s3 := if negb (fst (rm_remove env) =? 0) then s_error s2 else s2).
  assert (T3 : exists tail,
             s_trace s3 = s_trace s ++ prefix ++ repeat sleep_event n
                          ++ EvRemoveControlFile :: tail
             /\ count_events is_sleep tail = 0%nat
             /\ count_events is_remove tail = 0%nat).
  { unfold s3, s2, s_error, s_emit.
    destruct (negb (fst (rm_remove env) =? 0)); cbn [s_trace]; rewrite T;
      eexists; (split; [rewrite <- !app_assoc; cbn [app]; reflexivity|]);
      split; reflexivity. }
  destruct T3 as (tail & T3 & Ts & Tr).
  assert (Shape : forall more,
             count_events is_sleep (prefix ++ repeat sleep_event n
                                    ++ EvRemoveControlFile :: tail ++ more)
             = (n + count_events is_sleep more)%nat
             /\ count_events is_remove (prefix ++ repeat sleep_event n
                                        ++ EvRemoveControlFile :: tail ++ more)
                = (1 + count_events is_remove more)%nat).
  { intros more.
    change (EvRemoveControlFile :: tail ++ more)
      with ([EvRemoveControlFile] ++ tail ++ more).
    rewrite !count_events_app, Cs, Cr, Ts, Tr. split; reflexivity. }
  destruct received.
  - destruct (Yes eq_refl) as (N1 & N2 & N3 & N4). cbn [Nat.add] in *.
    destruct (Shape []) as (Ss & Sr). rewrite app_nil_r in Ss, Sr.
    exists 0, s3, (prefix ++ repeat sleep_event n ++ EvRemoveControlFile :: tail).
    split; [reflexivity|]. split; [exact T3|].
    rewrite Ss, Sr. cbn [count_events filter List.length]. rewrite Nat.add_0_r.
    split; [lia|]. split; [lia|]. split; [reflexivity|]. split.
    { split; [intros _|reflexivity].
      apply acknowledged_latest in N3. destruct N3 as (earlier & N3).
      exists (n - 1)%nat, earlier. split; [lia|exact N3]. }
    split.
    { intros _. split; [apply acknowledged_latest; exact N3|].
      intros j earlier J X.
      assert (A : acknowledged env remote j = true)
        by (apply acknowledged_latest; exists earlier; exact X).
      rewrite N4 in A by lia. discriminate. }
    intros Ne. contradiction.
  - destruct (No eq_refl) as (N1 & N2). rewrite Nat.sub_0_r in N1. subst n.
    destruct (Shape [EvError MsgNotReceived]) as (Ss & Sr).
    exists PV_ERROREXIT_REMOTE_OR_PID, (s_emit (EvError MsgNotReceived) s3),
      (prefix ++ repeat sleep_event 109
       ++ EvRemoveControlFile :: tail ++ [EvError MsgNotReceived]).
    split; [reflexivity|]. split.
    { cbn [s_emit s_trace]. rewrite T3. rewrite <- !app_assoc. reflexivity. }
    rewrite Ss, Sr. cbn [count_events filter List.length is_sleep is_remove].
    rewrite Nat.add_0_r.
    split; [lia|]. split; [lia|]. split; [reflexivity|]. split.
    { unfold PV_ERROREXIT_REMOTE_OR_PID. split; [discriminate|].
      intros (k & earlier & K & X).
      assert (A : acknowledged env remote k = true)
        by (apply acknowledged_latest; exists earlier; exact X).
      rewrite N2 in A by lia. discriminate. }
    split.
    { unfold PV_ERROREXIT_REMOTE_OR_PID. discriminate. }
    intros _. split; [reflexivity|]. split; [reflexivity|].
    apply in_or_app. right. apply in_or_app. right. right.
    apply in_or_app. right. left. reflexivity.
Qed.

Lemma ack_awaited_witness :
  exists ret s',
    pv_remote_set answered_in_third_sleep fresh_sender 4242 = Some (ret, s')
    /\ ret = 0
    /\ count_events is_sleep (s_trace s') = 3%nat
    /\ count_events is_remove (s_trace s') = 1%nat.
Proof.
  destruct (ack_awaited_for_at_most_1100_ms answered_in_third_sleep fresh_sender 4242
              eq_refl ltac:(cbn; lia) eq_refl eq_refl eq_refl)
    as (ret & s' & new & Run & Trace & _ & _ & Removed & Iff & First & _).
  exists ret, s'. cbn [s_trace fresh_sender app] in Trace. rewrite Trace.
  assert (R : ret = 0).
  { apply Iff. exists 2%nat, []. split; [lia|reflexivity]. }
  split; [exact Run|]. split; [exact R|]. split; [|exact Removed].
  destruct (First R) as ((earlier & A) & _).
  destruct (count_events is_sleep new) as [|[|[|[|n]]]];
    try (destruct earlier as [|? [|? ?]]; discriminate A).
  reflexivity.
Defined.

(** C9, as stated, fails: the remote process 4242 acknowledges during the
    first sleep and a SIGUSR2 from process 77 follows before the flag is
    looked at; the handler has kept 77 as the sender, the acknowledgement is
    not seen, and after 109 sleeps pv_remote_set reports that the message
    was not received and returns the error code. *)
Lemma acknowledgement_followed_by_another_signal_is_lost :
  exists s',
    pv_remote_set overtaken_answer fresh_sender 4242
    = Some (PV_ERROREXIT_REMOTE_OR_PID, s')
    /\ rm_arrivals overtaken_answer 0 = [4242; 77]
    /\ count_events is_sleep (s_trace s') = 109%nat
    /\ In (EvError MsgNotReceived) (s_trace s').
Proof.
  eexists. split; [vm_compute; reflexivity|].
  split; [reflexivity|]. split; [vm_compute; reflexivity|].
  vm_compute. repeat (first [left; reflexivity | right]).
Qed.

End RemoteSpec.

(** * Facts about byte buffers *)

Module BufferFacts.

Lemma buf_store_length buf pos data :
  0 <= pos -> (Z.to_nat pos + List.length data <= List.length buf)%nat ->
  List.length (buf_store buf pos data) = List.length buf.
Proof.
  intros P L. unfold buf_store.
  rewrite !length_app, length_firstn, length_skipn. lia.
Qed.

Lemma buf_store_slice buf pos data :
  (Z.to_nat pos <= List.length buf)%nat ->
  buf_slice (buf_store buf pos data) pos (Z.of_nat (List.length data)) = data.
Proof.
  intros L. unfold buf_slice, buf_store.
  rewrite skipn_app, length_firstn, Nat.min_l by lia.
  rewrite Nat.sub_diag, skipn_firstn_comm, Nat.sub_diag. cbn [firstn skipn app].
  rewrite Nat2Z.id, firstn_app, Nat.sub_diag, firstn_all. cbn [firstn].
  apply app_nil_r.
Qed.

Lemma buf_store_outside buf pos data i :
  0 <= pos -> (Z.to_nat pos + List.length data <= List.length buf)%nat ->
  0 <= i -> i < pos \/ pos + Z.of_nat (List.length data) <= i ->
  buf_get (buf_store buf pos data) i = buf_get buf i.
Proof.
  intros P L I O. unfold buf_get, buf_store.
  destruct O as [Lo|Hi].
  - rewrite app_nth1 by (rewrite length_firstn; lia).
    rewrite nth_firstn.
    destruct (Nat.ltb_spec (Z.to_nat i) (Z.to_nat pos)); [reflexivity|lia].
  - rewrite app_nth2 by (rewrite length_firstn; lia).
    rewrite length_firstn, Nat.min_l by lia.
    rewrite app_nth2 by lia.
    rewrite nth_skipn. f_equal. lia.
Qed.

Lemma buf_zero_slice buf pos len :
  0 <= len -> (Z.to_nat pos <= List.length buf)%nat ->
  buf_slice (buf_zero buf pos len) pos len = repeat NUL (Z.to_nat len).
Proof.
  intros N L. unfold buf_zero.
  pose proof (buf_store_slice buf pos (repeat NUL (Z.to_nat len)) L) as S.
  rewrite repeat_length, Z2Nat.id in S by lia. exact S.
Qed.

Lemma buf_slice_length buf pos len :
  0 <= pos -> 0 <= len -> pos + len <= Z.of_nat (List.length buf) ->
  List.length (buf_slice buf pos len) = Z.to_nat len.
Proof.
  intros P L B. unfold buf_slice. rewrite length_firstn, length_skipn. lia.
Qed.

(** The first bytes of a buffer after a store that ends where they end. *)
Lemma buf_store_prefix buf pos data :
  0 <= pos -> pos <= Z.of_nat (List.length buf) ->
  buf_slice (buf_store buf pos data) 0 (pos + Z.of_nat (List.length data))
  = buf_slice buf 0 pos ++ data.
Proof.
  intros P L. unfold buf_slice, buf_store. cbn [Z.to_nat skipn].
  rewrite firstn_app, length_firstn, Nat.min_l by lia.
  rewrite firstn_firstn, Nat.min_r by lia.
  replace (Z.to_nat (pos + Z.of_nat (List.length data)) - Z.to_nat pos)%nat
    with (List.length data) by lia.
  rewrite firstn_app, Nat.sub_diag, firstn_all. cbn [firstn].
  rewrite app_nil_r. reflexivity.
Qed.

Lemma buf_store_beyond buf pos data i :
  0 <= pos -> pos + Z.of_nat (List.length data) <= Z.of_nat (List.length buf) ->
  pos + Z.of_nat (List.length data) <= i ->
  buf_get (buf_store buf pos data) i = buf_get buf i.
Proof.
  intros P L I. apply buf_store_outside; lia.
Qed.

(** What was added to a trace is what comes after the old trace. *)
Lemma events_since_app w w' new :
  trace w' = trace w ++ new -> events_since w w' = new.
Proof.
  unfold events_since. intros ->.
  rewrite skipn_app, Nat.sub_diag, skipn_all. reflexivity.
Qed.

End BufferFacts.

(** * The outcomes of one call of pv__transfer_read *)

Module ReadOutcomes.
Import Transfer Footprint IntFacts TransferFacts BufferFacts Vocabulary.
Import Examples Fixtures.

(** Without splice(), the data comes from the one call of
    [pv__transfer_read_repeated]. *)
Lemma splice_or_read_plain cfg env w fd m bcr dns :
  HAVE_SPLICE cfg = false
  \/ no_splice (control (pv w)) = true
  \/ linemode (control (pv w)) = true ->
  exists w0,
    splice_or_read cfg env w fd m bcr dns
    = (fst (read_into_buffer env w0 fd bcr), dns, snd (read_into_buffer env w0 fd bcr))
    /\ trace w0 = trace w /\ errno w0 = errno w
    /\ exit_status (pv w0) = exit_status (pv w)
    /\ control (pv w0) = control (pv w)
    /\ pipe_closed (pv w0) = pipe_closed (pv w)
    /\ display (pv w0) = display (pv w)
    /\ (HAVE_SPLICE cfg = false /\ transfer (pv w0) = transfer (pv w)
        \/ transfer (pv w0) = set_splice_used false (transfer (pv w))).
Proof.
  intros H. unfold splice_or_read.
  destruct (HAVE_SPLICE cfg) eqn:HS.
  - assert (C : negb (linemode (control (pv (on_transfer (set_splice_used false) w))))
                && negb (no_splice (control (pv (on_transfer (set_splice_used false) w))))
                = false).
    { cbn. destruct H as [H|[H|H]]; [discriminate| |]; rewrite H; cbn;
        [apply andb_false_r|reflexivity]. }
    rewrite C. cbn [andb].
    exists (on_transfer (set_splice_used false) w).
    cbn [splice_used transfer pv on_transfer on_state set_splice_used negb].
    destruct (read_into_buffer env (on_transfer (set_splice_used false) w) fd bcr).
    cbn. repeat split; auto.
  - exists w. destruct (read_into_buffer env w fd bcr). cbn. repeat split; auto.
Qed.

Lemma buf_store_nothing buf pos : buf_store buf pos [] = buf.
Proof.
  unfold buf_store. cbn [app List.length]. rewrite Nat.add_0_r.
  apply firstn_skipn.
Qed.

Lemma store_nothing w : pv (store_at_read_position [] w) = pv w.
Proof.
  unfold store_at_read_position, on_transfer, on_state. cbn.
  destruct (pv w) as [x c pc d t]. cbn. f_equal.
  destruct t. cbn. unfold set_transfer_buffer. cbn. f_equal.
  match goal with
  | |- context [option_map_buf _ ?b] => destruct b as [l|]
  end; cbn; [|reflexivity].
  now rewrite buf_store_nothing.
Qed.

(** What [pv__transfer_read_repeated] leaves behind when it gives no count
    of bytes: at the end of the input, nothing; on a failure, the bytes of
    the read() calls that worked before the one that failed, fewer than
    were asked for. *)
Lemma read_into_buffer_failed env w fd bcr :
  fst (re_read env) <= 0 ->
  exists stored,
    read_into_buffer env w fd bcr
    = (fst (re_read env),
       store_at_read_position stored
         {| pv := pv w;
            errno := if fst (re_read env) <? 0 then snd (re_read env) else errno w;
            trace := trace w ++ [EvRead fd bcr] |})
    /\ Z.of_nat (List.length stored) <= Z.max 0 (bcr - 1)
    /\ (fst (re_read env) = 0 -> stored = []).
Proof.
  intros H. unfold read_into_buffer, syscall.
  destruct (Z.gtb_spec (fst (re_read env)) 0); [lia|].
  destruct (Z.ltb_spec (fst (re_read env)) 0).
  - eexists. split; [reflexivity|]. split; [|lia].
    rewrite length_firstn. lia.
  - exists []. split; [reflexivity|]. split; [cbn; lia | reflexivity].
Qed.

(** Bytes stored in the free part of the buffer leave the rest of it
    alone. *)
Lemma store_in_free_part buf pos stored len :
  0 <= pos -> Z.of_nat (List.length stored) <= Z.max 0 len ->
  pos + Z.max 0 len <= Z.of_nat (List.length buf) ->
  same_outside buf (buf_store buf pos stored) pos len.
Proof.
  intros P L B. split.
  - apply buf_store_length; lia.
  - intros i I O. apply buf_store_outside; lia.
Qed.

(** The end of the input: read() gives 0.  The call returns 1 with *eof_in
    set, and *eof_out set as well once the buffer has been written out; it
    prints nothing and leaves the exit status, the buffer and the counters
    alone. *)
Theorem end_of_input_sets_eof cfg env w fd eof_in eof_out max_to_write :
  HAVE_SPLICE cfg = false
  \/ no_splice (control (pv w)) = true
  \/ linemode (control (pv w)) = true ->
  fst (re_read env) = 0 ->
  exists w',
    pv__transfer_read cfg env w fd eof_in eof_out max_to_write
    = (1, true,
       if write_position (transfer (pv w)) >=? read_position (transfer (pv w))
       then true else eof_out,
       w')
    /\ events_since w w' = [EvRead fd (bytes_can_read_of (pv w))]
    /\ exit_status (pv w') = exit_status (pv w)
    /\ transfer_buffer (transfer (pv w')) = transfer_buffer (transfer (pv w))
    /\ read_position (transfer (pv w')) = read_position (transfer (pv w))
    /\ write_position (transfer (pv w')) = write_position (transfer (pv w))
    /\ total_bytes_read (transfer (pv w')) = total_bytes_read (transfer (pv w))
    /\ read_errors_in_a_row (transfer (pv w'))
       = read_errors_in_a_row (transfer (pv w)).
Proof.
  intros Plain Zero. unfold pv__transfer_read.
  destruct (splice_or_read_plain cfg env w fd max_to_write (bytes_can_read_of (pv w))
              (skip_errors (control (pv w)) =? 0) Plain)
    as (w0 & -> & T0 & E0 & X0 & C0 & P0 & D0 & S0).
  destruct (read_into_buffer_failed env w0 fd (bytes_can_read_of (pv w)))
    as (stored & -> & _ & Nothing); [lia|].
  rewrite (Nothing Zero). cbn [fst snd].
  rewrite Zero. cbn [Z.eqb]. unfold mark_input_ended.
  rewrite store_nothing. cbn [pv].
  eexists. split.
  - destruct S0 as [(_ & ->) | ->]; reflexivity.
  - rewrite store_nothing.
    unfold events_since, store_at_read_position, on_transfer, on_state.
    cbn [trace pv]. rewrite T0.
    rewrite skipn_app, Nat.sub_diag, skipn_all. cbn [app skipn].
    destruct S0 as [(_ & ->) | ->]; cbn; auto 10.
Qed.

(** How much may be read: never more than the free part of the buffer,
    and with --stop-at-size (outside line mode) never more than what is
    left of the size. *)
Lemma bytes_can_read_bound s :
  0 <= read_position (transfer s) <= buffer_size (transfer s) ->
  buffer_size (transfer s) < 2 ^ 63 ->
  (stop_at_size (control s) = true -> linemode (control s) = false ->
   0 <= total_bytes_read (transfer s) <= size (control s)
   /\ size (control s) < 2 ^ 63) ->
  0 <= bytes_can_read_of s <= buffer_size (transfer s) - read_position (transfer s)
  /\ (stop_at_size (control s) = true -> linemode (control s) = false ->
      bytes_can_read_of s <= size (control s) - total_bytes_read (transfer s)).
Proof.
  intros RP Big Stop. unfold bytes_can_read_of.
  rewrite (to_size_t_id (buffer_size (transfer s) - read_position (transfer s)))
    by (unfold fits_size_t; lia).
  destruct (stop_at_size (control s)); cbn [andb]; [|split; [lia|discriminate]].
  destruct (linemode (control s)); cbn [negb]; [split; [lia|discriminate]|].
  destruct (Stop eq_refl eq_refl) as (T & S).
  rewrite (to_off_t_id (buffer_size (transfer s) - read_position (transfer s)))
    by (unfold fits_off_t; lia).
  rewrite (to_off_t_id (size (control s) - total_bytes_read (transfer s)))
    by (unfold fits_off_t; lia).
  destruct (Z.gtb_spec (buffer_size (transfer s) - read_position (transfer s))
              (size (control s) - total_bytes_read (transfer s))).
  - rewrite to_size_t_id by (unfold fits_size_t; lia). split; [lia|]. intros _ _. lia.
  - split; [lia|]. intros _ _. lia.
Qed.

(** The state of the buffer and the positions before the read, splice()
    not being in use. *)
Lemma before_read cfg w w0 buf :
  (HAVE_SPLICE cfg = false /\ transfer (pv w0) = transfer (pv w)
   \/ transfer (pv w0) = set_splice_used false (transfer (pv w))) ->
  transfer_buffer (transfer (pv w)) = Some buf ->
  transfer_buffer (transfer (pv w0)) = Some buf
  /\ read_position (transfer (pv w0)) = read_position (transfer (pv w))
  /\ write_position (transfer (pv w0)) = write_position (transfer (pv w))
  /\ total_bytes_read (transfer (pv w0)) = total_bytes_read (transfer (pv w))
  /\ buffer_size (transfer (pv w0)) = buffer_size (transfer (pv w))
  /\ read_errors_in_a_row (transfer (pv w0))
     = read_errors_in_a_row (transfer (pv w))
  /\ read_error_warning_shown (transfer (pv w0))
     = read_error_warning_shown (transfer (pv w)).
Proof.
  intros S0 Buf.
  destruct S0 as [(_ & ->) | ->]; cbn; rewrite ?Buf; repeat split; auto.
Qed.

(** A transient failure of read() (EINTR or EAGAIN), splice() not being in
    use: the call waits 10 ms and returns 0; the EOF flags, the exit status,
    the positions and the counters are as before, and nothing is printed.
    The buffer is as it was outside its free part; there the read() calls
    that worked before the one that failed may have left their bytes, which
    are not counted. *)
Theorem transient_read_error_is_retried
    cfg env w fd eof_in eof_out max_to_write buf :
  HAVE_SPLICE cfg = false
  \/ no_splice (control (pv w)) = true
  \/ linemode (control (pv w)) = true ->
  transfer_buffer (transfer (pv w)) = Some buf ->
  fst (re_read env) < 0 ->
  snd (re_read env) = EINTR \/ snd (re_read env) = EAGAIN ->
  let t := transfer (pv w) in
  0 <= read_position t <= buffer_size t ->
  buffer_size t <= Z.of_nat (List.length buf) ->
  buffer_size t < 2 ^ 63 ->
  (stop_at_size (control (pv w)) = true -> linemode (control (pv w)) = false ->
   0 <= total_bytes_read t <= size (control (pv w))
   /\ size (control (pv w)) < 2 ^ 63) ->
  exists w' buf',
    pv__transfer_read cfg env w fd eof_in eof_out max_to_write
    = (0, eof_in, eof_out, w')
    /\ events_since w w'
       = [EvRead fd (bytes_can_read_of (pv w)); EvSelect (-1) (-1) 10000]
    /\ exit_status (pv w') = exit_status (pv w)
    /\ transfer_buffer (transfer (pv w')) = Some buf'
    /\ same_outside buf buf' (read_position t) (bytes_can_read_of (pv w) - 1)
    /\ read_position (transfer (pv w')) = read_position t
    /\ write_position (transfer (pv w')) = write_position t
    /\ total_bytes_read (transfer (pv w')) = total_bytes_read t
    /\ read_errors_in_a_row (transfer (pv w')) = read_errors_in_a_row t.
Proof.
  intros Plain Buf Neg Transient t RP BS Big Stop. subst t.
  destruct (bytes_can_read_bound (pv w) RP Big Stop) as (Can & _).
  unfold pv__transfer_read.
  destruct (splice_or_read_plain cfg env w fd max_to_write (bytes_can_read_of (pv w))
              (skip_errors (control (pv w)) =? 0) Plain)
    as (w0 & -> & T0 & E0 & X0 & C0 & P0 & D0 & S0).
  destruct (before_read cfg w w0 buf S0 Buf) as (B0 & R0 & W0 & TB0 & BS0 & RE0 & _).
  destruct (read_into_buffer_failed env w0 fd (bytes_can_read_of (pv w)))
    as (stored & -> & Few & _); [lia|].
  cbn [fst snd].
  destruct (Z.eqb_spec (fst (re_read env)) 0); [lia|].
  destruct (Z.gtb_spec (fst (re_read env)) 0); [lia|].
  destruct (Z.ltb_spec (fst (re_read env)) 0); [|lia].
  unfold store_at_read_position, on_transfer, on_state.
  cbn -[buf_store bytes_can_read_of].
  assert (Tr : errno_eqb (snd (re_read env)) EINTR
               || errno_eqb (snd (re_read env)) EAGAIN = true).
  { destruct Transient as [-> | ->]; reflexivity. }
  rewrite Tr. rewrite B0, R0. cbn [option_map_buf].
  eexists. exists (buf_store buf (read_position (transfer (pv w))) stored).
  split; [reflexivity|].
  unfold events_since, emit. cbn -[buf_store bytes_can_read_of].
  rewrite T0, <- app_assoc.
  rewrite skipn_app, Nat.sub_diag, skipn_all. cbn [app skipn].
  split; [reflexivity|]. split; [exact X0|]. split; [reflexivity|].
  split; [apply store_in_free_part; lia|].
  repeat split; assumption.
Qed.

(** Skipping past an error changes neither the exit status nor the count
    of errors in a row, and returns 1. *)
Lemma skip_past_error_frame env w fd eof_in eof_out bcr :
  let r := skip_past_error env w fd eof_in eof_out bcr in
  fst (fst (fst r)) = 1
  /\ exit_status (pv (snd r)) = exit_status (pv w)
  /\ read_errors_in_a_row (transfer (pv (snd r)))
     = read_errors_in_a_row (transfer (pv w))
  /\ total_bytes_read (transfer (pv (snd r))) = total_bytes_read (transfer (pv w))
  /\ write_position (transfer (pv (snd r))) = write_position (transfer (pv w)).
Proof.
  unfold skip_past_error. unfold_world. cbn.
  repeat (break_match; cbn); auto.
Qed.

(** A read error that is not transient, splice() not being in use: the
    transfer-error bit goes into the exit status and the count of errors in
    a row goes up by one, whether or not errors are skipped; the call
    returns 1.  When errors are not skipped, "read failed" is printed, the
    input is taken to have ended, and the buffer is as it was outside its
    free part (where read() calls that worked before the one that failed
    may have left their bytes). *)
Theorem hard_read_error_is_recorded
    cfg env w fd eof_in eof_out max_to_write buf :
  HAVE_SPLICE cfg = false
  \/ no_splice (control (pv w)) = true
  \/ linemode (control (pv w)) = true ->
  transfer_buffer (transfer (pv w)) = Some buf ->
  fst (re_read env) < 0 ->
  snd (re_read env) <> EINTR -> snd (re_read env) <> EAGAIN ->
  let t := transfer (pv w) in
  0 <= read_position t <= buffer_size t ->
  buffer_size t <= Z.of_nat (List.length buf) ->
  buffer_size t < 2 ^ 63 ->
  (stop_at_size (control (pv w)) = true -> linemode (control (pv w)) = false ->
   0 <= total_bytes_read t <= size (control (pv w))
   /\ size (control (pv w)) < 2 ^ 63) ->
  let r := pv__transfer_read cfg env w fd eof_in eof_out max_to_write in
  let w' := snd r in
  fst (fst (fst r)) = 1
  /\ Z.land (exit_status (pv w')) PV_ERROREXIT_TRANSFER = PV_ERROREXIT_TRANSFER
  /\ exit_status (pv w') = Z.lor (exit_status (pv w)) PV_ERROREXIT_TRANSFER
  /\ read_errors_in_a_row (transfer (pv w'))
     = to_off_t (read_errors_in_a_row t + 1)
  /\ total_bytes_read (transfer (pv w')) = total_bytes_read t
  /\ (skip_errors (control (pv w)) = 0 ->
      snd (fst (fst r)) = true
      /\ snd (fst r)
         = (if write_position t >=? read_position t then true else eof_out)
      /\ events_since w w'
         = [EvRead fd (bytes_can_read_of (pv w)); EvError MsgReadFailed]
      /\ read_position (transfer (pv w')) = read_position t
      /\ exists buf',
           transfer_buffer (transfer (pv w')) = Some buf'
           /\ same_outside buf buf' (read_position t)
                (bytes_can_read_of (pv w) - 1)).
Proof.
  intros Plain Buf Neg NotIntr NotAgain t RP BS Big Stop r w'.
  subst t. unfold w', r, pv__transfer_read.
  destruct (bytes_can_read_bound (pv w) RP Big Stop) as (Can & _).
  destruct (splice_or_read_plain cfg env w fd max_to_write (bytes_can_read_of (pv w))
              (skip_errors (control (pv w)) =? 0) Plain)
    as (w0 & -> & T0 & E0 & X0 & C0 & P0 & D0 & S0).
  destruct (before_read cfg w w0 buf S0 Buf) as (B0 & R0 & W0 & TB0 & BS0 & RE0 & _).
  destruct (read_into_buffer_failed env w0 fd (bytes_can_read_of (pv w)))
    as (stored & -> & Few & _); [lia|].
  cbn [fst snd].
  destruct (Z.eqb_spec (fst (re_read env)) 0); [lia|].
  destruct (Z.gtb_spec (fst (re_read env)) 0); [lia|].
  destruct (Z.ltb_spec (fst (re_read env)) 0); [|lia].
  assert (Tr : errno_eqb (snd (re_read env)) EINTR
               || errno_eqb (snd (re_read env)) EAGAIN = false).
  { destruct (snd (re_read env)); cbn; congruence. }
  assert (Land : forall a b, Z.land (Z.lor a b) b = b).
  { intros a b. apply Z.bits_inj'. intros k _.
    rewrite Z.land_spec, Z.lor_spec. destruct (Z.testbit a k), (Z.testbit b k); reflexivity. }
  unfold store_at_read_position.
  destruct (Z.eqb_spec (skip_errors (control (pv w))) 0) as [NoSkip|Skip].
  - unfold_world. cbn -[buf_store bytes_can_read_of]. rewrite Tr.
    cbn -[buf_store bytes_can_read_of]. rewrite X0, Land, RE0, TB0, R0, W0, B0.
    cbn [option_map_buf].
    split; [reflexivity|]. split; [reflexivity|]. split; [reflexivity|].
    split; [reflexivity|]. split; [reflexivity|].
    intros _. split; [reflexivity|]. split; [reflexivity|].
    split.
    { unfold events_since. cbn [trace]. rewrite T0, <- app_assoc.
      rewrite skipn_app, Nat.sub_diag, skipn_all. reflexivity. }
    split; [reflexivity|].
    eexists. split; [reflexivity|]. apply store_in_free_part; lia.
  - cbn -[buf_store bytes_can_read_of skip_past_error]. rewrite Tr.
    match goal with
    | |- context [skip_past_error env ?w1 fd eof_in eof_out ?b] =>
        destruct (skip_past_error_frame env w1 fd eof_in eof_out b)
          as (R1 & R2 & R3 & R4 & R5)
    end.
    cbv zeta in *. rewrite R1, R2, R3, R4.
    unfold_world. cbn -[buf_store bytes_can_read_of]. rewrite X0, Land, RE0, TB0.
    split; [reflexivity|]. split; [reflexivity|]. split; [reflexivity|].
    split; [reflexivity|]. split; [reflexivity|].
    intros Z0. contradiction.
Qed.

(** Data read without splice(): the bytes are in the buffer from the old
    read position on, the rest of the buffer is as it was, the read position
    and the total read go up by the count, the count of errors in a row is
    back to 0, the new read position is still within the buffer, and with
    --stop-at-size the total read does not pass the size. *)
Theorem data_read_lands_at_read_position
    cfg env w fd eof_in eof_out max_to_write buf :
  HAVE_SPLICE cfg = false
  \/ no_splice (control (pv w)) = true
  \/ linemode (control (pv w)) = true ->
  transfer_buffer (transfer (pv w)) = Some buf ->
  let t := transfer (pv w) in
  let nread := fst (re_read env) in
  0 < nread <= bytes_can_read_of (pv w) ->
  (Z.to_nat nread <= List.length (re_read_data env))%nat ->
  0 <= read_position t <= buffer_size t ->
  buffer_size t <= Z.of_nat (List.length buf) ->
  buffer_size t < 2 ^ 63 ->
  (stop_at_size (control (pv w)) = true -> linemode (control (pv w)) = false ->
   0 <= total_bytes_read t <= size (control (pv w))
   /\ size (control (pv w)) < 2 ^ 63) ->
  exists w' buf',
    pv__transfer_read cfg env w fd eof_in eof_out max_to_write
    = (1, eof_in, eof_out, w')
    /\ transfer_buffer (transfer (pv w')) = Some buf'
    /\ List.length buf' = List.length buf
    /\ buf_slice buf' (read_position t) nread
       = firstn (Z.to_nat nread) (re_read_data env)
    /\ (forall i, 0 <= i -> i < read_position t \/ read_position t + nread <= i ->
        buf_get buf' i = buf_get buf i)
    /\ read_position (transfer (pv w')) = read_position t + nread
    /\ read_position (transfer (pv w')) <= buffer_size (transfer (pv w'))
    /\ total_bytes_read (transfer (pv w')) = to_off_t (total_bytes_read t + nread)
    /\ (stop_at_size (control (pv w)) = true -> linemode (control (pv w)) = false ->
        total_bytes_read (transfer (pv w')) <= size (control (pv w)))
    /\ read_errors_in_a_row (transfer (pv w')) = 0
    /\ write_position (transfer (pv w')) = write_position t
    /\ exit_status (pv w') = exit_status (pv w)
    /\ events_since w w' = [EvRead fd (bytes_can_read_of (pv w))].
Proof.
  intros Plain Buf t nread N D RP BS Big Stop. subst t.
  destruct (bytes_can_read_bound (pv w) RP Big Stop) as (Can & Left).
  set (data := firstn (Z.to_nat nread) (re_read_data env)).
  assert (DL : List.length data = Z.to_nat nread).
  { unfold data. rewrite length_firstn. lia. }
  unfold pv__transfer_read.
  destruct (splice_or_read_plain cfg env w fd max_to_write (bytes_can_read_of (pv w))
              (skip_errors (control (pv w)) =? 0) Plain)
    as (w0 & -> & T0 & E0 & X0 & C0 & P0 & D0 & S0).
  assert (Same : transfer_buffer (transfer (pv w0)) = Some buf
                 /\ read_position (transfer (pv w0)) = read_position (transfer (pv w))
                 /\ write_position (transfer (pv w0)) = write_position (transfer (pv w))
                 /\ total_bytes_read (transfer (pv w0)) = total_bytes_read (transfer (pv w))
                 /\ buffer_size (transfer (pv w0)) = buffer_size (transfer (pv w))
                 /\ (HAVE_SPLICE cfg && splice_used (transfer (pv w0))) = false).
  { destruct S0 as [(HS & ->) | ->]; cbn; rewrite ?Buf; repeat split; auto.
    - rewrite HS. reflexivity.
    - apply andb_false_r. }
  destruct Same as (B0 & R0 & W0 & TB0 & BS0 & NS).
  unfold read_into_buffer, syscall. cbn [fst snd].
  fold nread. destruct (Z.gtb_spec nread 0); [|lia].
  unfold on_transfer, on_state.
  cbn -[buf_store to_size_t to_off_t firstn Z.to_nat].
  destruct (Z.eqb_spec nread 0); [lia|].
  destruct (Z.gtb_spec nread 0); [|lia].
  rewrite NS. rewrite B0. cbn [option_map_buf]. rewrite R0. fold data.
  assert (Fit : (Z.to_nat (read_position (transfer (pv w))) + List.length data <= List.length buf)%nat)
    by lia.
  eexists. exists (buf_store buf (read_position (transfer (pv w))) data).
  split; [reflexivity|].
  cbn -[buf_store to_size_t to_off_t firstn Z.to_nat buf_slice buf_get].
  rewrite ?R0, ?W0, ?TB0, ?BS0, ?X0.
  split; [reflexivity|].
  split; [apply buf_store_length; lia|].
  split.
  { pose proof (buf_store_slice buf (read_position (transfer (pv w))) data ltac:(lia)) as S.
    rewrite DL, Z2Nat.id in S by lia. exact S. }
  split.
  { intros i I O. apply buf_store_outside; try lia. }
  split; [apply to_size_t_id; unfold fits_size_t; lia|].
  split; [rewrite to_size_t_id by (unfold fits_size_t; lia); lia|].
  split; [reflexivity|].
  split.
  { intros St Ln. destruct (Stop St Ln). specialize (Left St Ln).
    rewrite to_off_t_id by (unfold fits_off_t; lia). lia. }
  split; [reflexivity|]. split; [reflexivity|]. split; [reflexivity|].
  unfold events_since. cbn [trace]. rewrite T0.
  rewrite skipn_app, Nat.sub_diag, skipn_all. reflexivity.
Qed.

(** A read error skipped with success, splice() not being in use: the part
    of the buffer standing for the skipped bytes is zero-filled, the buffer
    is as it was outside the free part that the read was given, the read
    position goes up by the amount skipped and stays within the buffer, and
    the EOF flags do not change. *)
Theorem skipped_bytes_are_zero_filled
    cfg env w fd eof_in eof_out max_to_write buf :
  HAVE_SPLICE cfg = false
  \/ no_splice (control (pv w)) = true
  \/ linemode (control (pv w)) = true ->
  transfer_buffer (transfer (pv w)) = Some buf ->
  fst (re_read env) < 0 ->
  snd (re_read env) <> EINTR -> snd (re_read env) <> EAGAIN ->
  skip_errors (control (pv w)) <> 0 ->
  let t := transfer (pv w) in
  let orig_offset := fst (re_lseek_cur env) in
  let amount :=
    trim_skip
      (align_skip orig_offset
         (choose_skip (error_skip_block (control (pv w)))
            (to_off_t (read_errors_in_a_row t + 1))))
      (bytes_can_read_of (pv w)) in
  0 <= orig_offset -> 0 < amount -> orig_offset + amount < 2 ^ 63 ->
  fst (re_lseek_set env (orig_offset + amount)) = orig_offset + amount ->
  0 <= read_position t <= buffer_size t ->
  buffer_size t <= Z.of_nat (List.length buf) ->
  buffer_size t < 2 ^ 63 ->
  (stop_at_size (control (pv w)) = true -> linemode (control (pv w)) = false ->
   0 <= total_bytes_read t <= size (control (pv w))
   /\ size (control (pv w)) < 2 ^ 63) ->
  exists w' buf',
    pv__transfer_read cfg env w fd eof_in eof_out max_to_write
    = (1, eof_in, eof_out, w')
    /\ transfer_buffer (transfer (pv w')) = Some buf'
    /\ buf_slice buf' (read_position t) amount = repeat NUL (Z.to_nat amount)
    /\ amount <= bytes_can_read_of (pv w)
    /\ same_outside buf buf' (read_position t) (bytes_can_read_of (pv w))
    /\ read_position (transfer (pv w')) = read_position t + amount
    /\ read_position (transfer (pv w')) <= buffer_size (transfer (pv w'))
    /\ total_bytes_read (transfer (pv w')) = total_bytes_read t.
Proof.
  intros Plain Buf Neg NotIntr NotAgain Skip t orig_offset amount
    Orig Pos NoWrap Seek RP BS Big Stop. subst t.
  destruct (bytes_can_read_bound (pv w) RP Big Stop) as (Can & _).
  assert (Am : amount <= bytes_can_read_of (pv w)).
  { unfold amount, trim_skip.
    rewrite (to_off_t_id (bytes_can_read_of (pv w))) by (unfold fits_off_t; lia).
    match goal with |- context [?a >? ?b] => destruct (Z.gtb_spec a b) end; lia. }
  unfold pv__transfer_read.
  destruct (splice_or_read_plain cfg env w fd max_to_write (bytes_can_read_of (pv w))
              (skip_errors (control (pv w)) =? 0) Plain)
    as (w0 & -> & T0 & E0 & X0 & C0 & P0 & D0 & S0).
  destruct (before_read cfg w w0 buf S0 Buf)
    as (B0 & R0 & W0 & TB0 & BS0 & RE0 & WS0).
  destruct (read_into_buffer_failed env w0 fd (bytes_can_read_of (pv w)))
    as (stored & -> & Few & _); [lia|].
  cbn [fst snd].
  destruct (Z.eqb_spec (fst (re_read env)) 0); [lia|].
  destruct (Z.gtb_spec (fst (re_read env)) 0); [lia|].
  destruct (Z.ltb_spec (fst (re_read env)) 0); [|lia].
  assert (Tr : errno_eqb (snd (re_read env)) EINTR
               || errno_eqb (snd (re_read env)) EAGAIN = false).
  { destruct (snd (re_read env)); cbn; congruence. }
  unfold store_at_read_position.
  set (b1 := buf_store buf (read_position (transfer (pv w))) stored).
  assert (L1 : List.length b1 = List.length buf)
    by (unfold b1; apply buf_store_length; lia).
  assert (O1 : forall i, 0 <= i ->
                 i < read_position (transfer (pv w))
                 \/ read_position (transfer (pv w)) + bytes_can_read_of (pv w) <= i ->
                 buf_get b1 i = buf_get buf i).
  { intros i I O. unfold b1. apply buf_store_outside; lia. }
  cbn -[buf_store bytes_can_read_of skip_past_error]. rewrite Tr.
  destruct (Z.eqb_spec (skip_errors (control (pv w))) 0); [contradiction|].
  unfold skip_past_error. unfold_world.
  cbn -[buf_store buf_zero to_size_t to_off_t choose_skip align_skip trim_skip
        bytes_can_read_of].
  rewrite C0, RE0, WS0, B0, R0. cbn [option_map_buf]. fold b1.
  fold orig_offset.
  assert (O : (0 >? orig_offset) = false) by lia.
  assert (TA : to_off_t (orig_offset + amount) = orig_offset + amount)
    by (apply to_off_t_id; unfold fits_off_t; lia).
  destruct (read_error_warning_shown (transfer (pv w))); cbn [negb].
  all: cbn -[buf_store buf_zero to_size_t to_off_t choose_skip align_skip trim_skip
             bytes_can_read_of].
  all: rewrite ?C0, ?RE0; fold orig_offset; rewrite O; fold amount.
  all: rewrite TA, Seek.
  all: assert (L : (orig_offset + amount <? 0) = false) by lia.
  all: assert (G : (amount >? 0) = true) by lia.
  all: rewrite L; cbv beta iota; rewrite L; cbv beta iota.
  all: replace (orig_offset + amount - orig_offset) with amount by lia.
  all: rewrite (to_off_t_id amount) by (unfold fits_off_t; lia).
  all: rewrite G; cbv beta iota.
  all: cbn -[buf_store buf_zero to_size_t to_off_t buf_slice buf_get bytes_can_read_of].
  all: destruct (skip_errors (control (pv w)) <? 2).
  all: eexists; exists (buf_zero b1 (read_position (transfer (pv w))) (to_size_t amount)).
  all: split; [reflexivity|].
  all: cbn -[buf_store buf_zero to_size_t to_off_t buf_slice buf_get bytes_can_read_of].
  all: rewrite ?TB0, ?BS0, ?R0.
  all: rewrite (to_size_t_id amount) by (unfold fits_size_t; lia).
  all: split; [reflexivity|].
  all: split; [apply buf_zero_slice; lia|].
  all: split; [exact Am|].
  all: split;
    [split;
     [unfold buf_zero; rewrite buf_store_length by (rewrite ?repeat_length; lia);
      exact L1
     |intros i I Out; unfold buf_zero;
      rewrite buf_store_outside by (rewrite ?repeat_length; lia);
      apply O1; assumption]|].
  all: split; [apply to_size_t_id; unfold fits_size_t; lia|].
  all: split; [rewrite to_size_t_id by (unfold fits_size_t; lia); lia|].
  all: reflexivity.
Qed.

Lemma end_of_input_sets_eof_witness :
  exists w',
    pv__transfer_read all_features empty_unspliceable (idle_world 0) 3 false false 0
    = (1, true, true, w').
Proof.
  destruct (end_of_input_sets_eof all_features empty_unspliceable (idle_world 0)
              3 false false 0 (or_intror (or_introl eq_refl)) eq_refl)
    as (w' & E & _).
  exists w'. exact E.
Defined.

Lemma transient_read_error_is_retried_witness :
  exists w' buf',
    pv__transfer_read all_features interrupted_after_three (idle_world 0)
      3 false false 0
    = (0, false, false, w')
    /\ transfer_buffer (transfer (pv w')) = Some buf'
    /\ buf_slice buf' 0 3 = [x61; x62; x0a]
    /\ read_position (transfer (pv w')) = 0
    /\ total_bytes_read (transfer (pv w')) = 0.
Proof.
  destruct (transient_read_error_is_retried all_features interrupted_after_three
              (idle_world 0) 3 false false 0 empty_buffer
              (or_intror (or_introl eq_refl)) eq_refl
              ltac:(cbn; lia) (or_introl eq_refl))
    as (w' & buf' & E & _ & _ & B & _ & R & _ & T & _).
  - cbn. lia.
  - cbn. lia.
  - cbn. lia.
  - cbn. discriminate.
  - exists w', buf'. split; [exact E|]. split; [exact B|].
    split; [|split; [exact R | exact T]].
    vm_compute in E. injection E as <-. injection B as <-. reflexivity.
Defined.

Lemma hard_read_error_is_recorded_witness :
  let r := pv__transfer_read all_features failing_input (idle_world 0) 3 false false 0 in
  exit_status (pv (snd r)) = 1 /\ snd (fst (fst r)) = true.
Proof.
  destruct (hard_read_error_is_recorded all_features failing_input (idle_world 0)
              3 false false 0 empty_buffer (or_intror (or_introl eq_refl)) eq_refl
              ltac:(cbn; lia) ltac:(cbn; discriminate) ltac:(cbn; discriminate))
    as (_ & _ & X & _ & _ & NoSkip).
  - cbn. lia.
  - cbn. lia.
  - cbn. lia.
  - cbn. discriminate.
  - destruct (NoSkip eq_refl) as (E & _).
    split; [exact X|exact E].
Defined.

Lemma data_read_lands_at_read_position_witness :
  exists w' buf',
    pv__transfer_read all_features steady_input (idle_world 0) 3 false false 0
    = (1, false, false, w')
    /\ transfer_buffer (transfer (pv w')) = Some buf'
    /\ buf_slice buf' 0 8 = [x61; x62; x0a; x63; x64; x0a; x65; x66]
    /\ read_position (transfer (pv w')) = 8.
Proof.
  destruct (data_read_lands_at_read_position all_features steady_input (idle_world 0)
              3 false false 0 empty_buffer (or_intror (or_introl eq_refl)) eq_refl)
    as (w' & buf' & E & B & _ & S & _ & R & _).
  - cbn. lia.
  - cbn. lia.
  - cbn. lia.
  - cbn. lia.
  - cbn. lia.
  - cbn. discriminate.
  - exists w', buf'. split; [exact E|]. split; [exact B|]. split; [exact S|exact R].
Defined.

Lemma skipped_bytes_are_zero_filled_witness :
  exists w' buf',
    pv__transfer_read all_features failing_input (idle_world 1) 3 false false 0
    = (1, false, false, w')
    /\ transfer_buffer (transfer (pv w')) = Some buf'
    /\ buf_slice buf' 0 1 = [NUL]
    /\ read_position (transfer (pv w')) = 1.
Proof.
  destruct (skipped_bytes_are_zero_filled all_features failing_input (idle_world 1)
              3 false false 0 empty_buffer (or_intror (or_introl eq_refl)) eq_refl)
    as (w' & buf' & E & B & S & _ & _ & R & _).
  - cbn. lia.
  - cbn. discriminate.
  - cbn. discriminate.
  - cbn. discriminate.
  - cbn. lia.
  - vm_compute. reflexivity.
  - vm_compute. reflexivity.
  - reflexivity.
  - cbn. lia.
  - cbn. lia.
  - cbn. lia.
  - cbn. discriminate.
  - exists w', buf'. split; [exact E|]. split; [exact B|]. split; [exact S|exact R].
Defined.

End ReadOutcomes.

(** * The ways one call of pv_transfer can end early *)

Module TransferOutcomes.
Import Transfer Footprint IntFacts TransferFacts BufferFacts Examples Fixtures.

(** Before the buffer is looked at, only the O_DIRECT flags may be set. *)
Lemma prelude_events cfg w fd eof_in eof_out :
  let w1 := reset_error_skipping (apply_direct_io cfg w fd eof_in eof_out) fd in
  exists new,
    emits w w1 new
    /\ Forall (fun e => exists f, e = EvFcntl f) new
    /\ ((eof_in = true /\ eof_out = true) -> new = [])
    /\ exit_status (pv w1) = exit_status (pv w)
    /\ transfer_buffer (transfer (pv w1)) = transfer_buffer (transfer (pv w))
    /\ buffer_size (transfer (pv w1)) = buffer_size (transfer (pv w))
    /\ read_position (transfer (pv w1)) = read_position (transfer (pv w))
    /\ write_position (transfer (pv w1)) = write_position (transfer (pv w))
    /\ total_bytes_read (transfer (pv w1)) = total_bytes_read (transfer (pv w))
    /\ written (transfer (pv w1)) = written (transfer (pv w))
    /\ linemode (control (pv w1)) = linemode (control (pv w))
    /\ target_buffer_size (control (pv w1)) = target_buffer_size (control (pv w))
    /\ rate_limit (control (pv w1)) = rate_limit (control (pv w))
    /\ output_fd (control (pv w1)) = output_fd (control (pv w)).
Proof.
  unfold reset_error_skipping, apply_direct_io. unfold_world. cbn.
  destruct (HAVE_O_DIRECT cfg && direct_io_changed (control (pv w)));
    destruct eof_in, eof_out; cbn;
    match goal with
    | |- context [if negb (fd =? ?x) then _ else _] => destruct (negb (fd =? x))
    end; cbn;
    unfold emits; cbn; rewrite <- ?app_assoc; cbn;
    (eexists; split; [first [reflexivity | symmetry; apply app_nil_r]|]);
    repeat split; auto; try (intros (A & B); discriminate);
    repeat constructor; eauto.
Qed.

(** What [pv__allocate_aligned_buffer] gives, and the calls it makes. *)
Lemma allocate_result cfg a w outfd infd size :
  exists new w',
    pv__allocate_aligned_buffer cfg a w outfd infd size
    = ((if allocation_succeeds cfg a
        then Some (repeat NUL (Z.to_nat size)) else None), w')
    /\ pv w' = pv w
    /\ trace w' = trace w ++ new
    /\ Forall (fun e => is_allocation_call e = true) new.
Proof.
  unfold pv__allocate_aligned_buffer, allocation_succeeds. unfold_world.
  destruct (aligned_allocation cfg), (infd >=? 0),
    (HAVE_SYSCONF cfg && HAVE_SC_PAGESIZE cfg), (ae_posix_memalign a =? 0),
    (ae_malloc a); cbn.
  all: eexists; eexists; split; [reflexivity|]; cbn; rewrite <- ?app_assoc; cbn.
  all: split; [reflexivity|]; split; [reflexivity|]; repeat constructor.
Qed.

(** The calls of the allocation are no waits, reads, writes or messages. *)
Lemma count_allocation_calls p new :
  (forall e, is_allocation_call e = true -> p e = false) ->
  Forall (fun e => is_allocation_call e = true) new ->
  count_events p new = 0%nat.
Proof.
  intros P F. unfold count_events.
  induction F as [|e l A _ IH]; cbn; [reflexivity|].
  rewrite (P e A). exact IH.
Qed.

Ltac not_allocation :=
  let e := fresh "e" in
  intros e; destruct e; cbn; intros; congruence.

(** No buffer and none to be had: pv_transfer reports "buffer allocation
    failed", puts the memory bit in the exit status and returns -1, without
    waiting for, reading or writing anything. *)
Theorem buffer_allocation_failure_aborts
    cfg env w fd eof_in eof_out allowed lineswritten :
  transfer_buffer (transfer (pv w)) = None ->
  allocation_succeeds cfg (te_alloc env) = false ->
  exists w',
    pv_transfer cfg env w fd eof_in eof_out allowed lineswritten
    = (-1, eof_in, eof_out, lineswritten, w')
    /\ exit_status (pv w') = Z.lor (exit_status (pv w)) PV_ERROREXIT_MEMORY
    /\ transfer_buffer (transfer (pv w')) = None
    /\ count_events (is_message MsgBufferAllocFailed) (events_since w w') = 1%nat
    /\ count_events is_sleep (events_since w w') = 0%nat
    /\ count_events (is_read_on fd) (events_since w w') = 0%nat
    /\ count_events (is_splice_on fd) (events_since w w') = 0%nat
    /\ count_events is_write_call (events_since w w') = 0%nat.
Proof.
  intros None_ NoAlloc. unfold pv_transfer.
  destruct (prelude_events cfg w fd eof_in eof_out)
    as (new & E & F & _ & X & B & _).
  cbv zeta in *.
  set (w1 := reset_error_skipping (apply_direct_io cfg w fd eof_in eof_out) fd) in *.
  unfold ensure_buffer. rewrite B, None_.
  destruct (allocate_result cfg (te_alloc env) w1 (output_fd (control (pv w1))) fd
              (to_size_t (target_buffer_size (control (pv w1)) + 32)))
    as (calls & w2 & -> & P2 & T2 & A2).
  rewrite NoAlloc.
  eexists. split; [reflexivity|].
  unfold_world. cbn. rewrite P2, X, B, None_.
  split; [reflexivity|]. split; [reflexivity|].
  unfold events_since. cbn. unfold emits in E. rewrite T2, E, <- !app_assoc.
  rewrite skipn_app, Nat.sub_diag, skipn_all. cbn [skipn app].
  rewrite !count_events_app.
  assert (C : forall p, (forall f, p (EvFcntl f) = false) -> count_events p new = 0%nat).
  { intros p P. clear E. unfold count_events.
    induction F as [|e l (f & ->) _ IH]; cbn; [reflexivity|]. rewrite P. exact IH. }
  rewrite !C by reflexivity.
  rewrite !(count_allocation_calls _ calls) by (try not_allocation; exact A2).
  repeat split; reflexivity.
Qed.

Lemma buffer_allocation_failure_aborts_witness :
  exists w',
    pv_transfer all_features
      {| te_alloc := no_memory; te_select := (2, ENONE); te_fd_in_set := true;
         te_fd_out_set := true; te_read := steady_input; te_write := open_pipe |}
      unallocated 3 false false 0 (Some 0)
    = (-1, false, false, Some 0, w')
    /\ exit_status (pv w') = PV_ERROREXIT_MEMORY.
Proof.
  destruct (buffer_allocation_failure_aborts all_features
              {| te_alloc := no_memory; te_select := (2, ENONE);
                 te_fd_in_set := true; te_fd_out_set := true;
                 te_read := steady_input; te_write := open_pipe |}
              unallocated 3 false false 0 (Some 0) eq_refl eq_refl)
    as (w' & E & X & _).
  exists w'. split; [exact E|exact X].
Defined.

(** Lines 1131-1178 with a buffer to be had: the only calls are those of
    the allocation, none when there is a buffer of the target size already,
    and nothing but the buffer, its size and the target size can change. *)
Lemma buffer_ready cfg env w1 fd :
  transfer_buffer (transfer (pv w1)) <> None
  \/ allocation_succeeds cfg (te_alloc env) = true ->
  exists buf w2 new,
    ensure_buffer cfg env w1 fd = (Some buf, w2)
    /\ trace (grow_buffer cfg env w2 fd buf) = trace w1 ++ new
    /\ Forall (fun e => is_allocation_call e = true) new
    /\ (transfer_buffer (transfer (pv w1)) <> None ->
        target_buffer_size (control (pv w1)) <= buffer_size (transfer (pv w1)) ->
        new = [])
    /\ exit_status (pv (grow_buffer cfg env w2 fd buf)) = exit_status (pv w1)
    /\ read_position (transfer (pv (grow_buffer cfg env w2 fd buf)))
       = read_position (transfer (pv w1))
    /\ write_position (transfer (pv (grow_buffer cfg env w2 fd buf)))
       = write_position (transfer (pv w1))
    /\ total_bytes_read (transfer (pv (grow_buffer cfg env w2 fd buf)))
       = total_bytes_read (transfer (pv w1))
    /\ written (transfer (pv (grow_buffer cfg env w2 fd buf)))
       = written (transfer (pv w1))
    /\ linemode (control (pv (grow_buffer cfg env w2 fd buf)))
       = linemode (control (pv w1))
    /\ rate_limit (control (pv (grow_buffer cfg env w2 fd buf)))
       = rate_limit (control (pv w1))
    /\ output_fd (control (pv (grow_buffer cfg env w2 fd buf)))
       = output_fd (control (pv w1))
    /\ read_errors_in_a_row (transfer (pv (grow_buffer cfg env w2 fd buf)))
       = read_errors_in_a_row (transfer (pv w1))
    /\ last_read_skip_fd (transfer (pv (grow_buffer cfg env w2 fd buf)))
       = last_read_skip_fd (transfer (pv w1)).
Proof.
  intros H. unfold ensure_buffer.
  destruct (transfer_buffer (transfer (pv w1))) as [buf|] eqn:B.
  - exists buf, w1. unfold grow_buffer.
    destruct (Z.ltb_spec (buffer_size (transfer (pv w1)))
                (target_buffer_size (control (pv w1)))) as [Grow|Enough].
    + destruct (allocate_result cfg (te_alloc env) w1 (output_fd (control (pv w1)))
                  fd (to_size_t (target_buffer_size (control (pv w1)) + 32)))
        as (calls & w2 & -> & P2 & T2 & A2).
      exists calls. split; [reflexivity|].
      destruct (allocation_succeeds cfg (te_alloc env)); unfold_world; cbn;
        rewrite ?P2; repeat split; auto; intros; lia.
    + exists []. rewrite app_nil_r. repeat split; auto.
  - destruct H as [H|H]; [congruence|].
    destruct (allocate_result cfg (te_alloc env) w1 (output_fd (control (pv w1)))
                fd (to_size_t (target_buffer_size (control (pv w1)) + 32)))
      as (calls & w2 & -> & P2 & T2 & A2).
    rewrite H. eexists. eexists. exists calls. split; [reflexivity|].
    unfold grow_buffer. unfold_world. cbn. rewrite P2, Z.ltb_irrefl. cbn.
    rewrite ?P2. repeat split; auto. intros X. congruence.
Qed.

(** With both EOF flags set pv_transfer returns 0 at once: it waits for
    nothing, reads and writes nothing and prints nothing; the only calls it
    can make are those of the buffer allocation, and it makes none when
    there is a buffer of the target size already.  The positions, the byte
    counters and the exit status are as before; *lineswritten is set to 0 in
    line mode; the count of read errors in a row is kept if the descriptor
    is that of the call before, and is 0 otherwise. *)
Theorem nothing_is_done_after_both_eofs cfg env w fd allowed lineswritten :
  transfer_buffer (transfer (pv w)) <> None
  \/ allocation_succeeds cfg (te_alloc env) = true ->
  let r := pv_transfer cfg env w fd true true allowed lineswritten in
  let w' := snd r in
  fst (fst (fst (fst r))) = 0
  /\ snd (fst (fst (fst r))) = true
  /\ snd (fst (fst r)) = true
  /\ snd (fst r)
     = match lineswritten with
       | Some l => if linemode (control (pv w)) then Some 0 else Some l
       | None => None
       end
  /\ Forall (fun e => is_allocation_call e = true) (events_since w w')
  /\ (transfer_buffer (transfer (pv w)) <> None ->
      target_buffer_size (control (pv w)) <= buffer_size (transfer (pv w)) ->
      events_since w w' = [])
  /\ exit_status (pv w') = exit_status (pv w)
  /\ read_position (transfer (pv w')) = read_position (transfer (pv w))
  /\ write_position (transfer (pv w')) = write_position (transfer (pv w))
  /\ total_bytes_read (transfer (pv w')) = total_bytes_read (transfer (pv w))
  /\ written (transfer (pv w')) = written (transfer (pv w))
  /\ read_errors_in_a_row (transfer (pv w'))
     = (if fd =? last_read_skip_fd (transfer (pv w))
        then read_errors_in_a_row (transfer (pv w)) else 0)
  /\ last_read_skip_fd (transfer (pv w')) = fd.
Proof.
  intros Have r w'. unfold w', r, pv_transfer.
  destruct (prelude_events cfg w fd true true)
    as (new & E & _ & Nil & X & B & Bs & R & W & T & Wr & L & Tg & _).
  cbv zeta in *. rewrite (Nil (conj eq_refl eq_refl)) in E.
  assert (Re : read_errors_in_a_row
                 (transfer (pv (reset_error_skipping
                                  (apply_direct_io cfg w fd true true) fd)))
               = (if fd =? last_read_skip_fd (transfer (pv w))
                  then read_errors_in_a_row (transfer (pv w)) else 0)
               /\ last_read_skip_fd
                    (transfer (pv (reset_error_skipping
                                     (apply_direct_io cfg w fd true true) fd)))
                  = fd).
  { unfold reset_error_skipping, apply_direct_io. unfold_world.
    destruct (HAVE_O_DIRECT cfg && direct_io_changed (control (pv w))); cbn;
      destruct (Z.eqb_spec fd (last_read_skip_fd (transfer (pv w)))); cbn; auto. }
  destruct Re as (Re & Lf).
  set (w1 := reset_error_skipping (apply_direct_io cfg w fd true true) fd) in *.
  destruct (buffer_ready cfg env w1 fd) as (buf & w2 & calls & -> & G).
  { rewrite B. exact Have. }
  destruct G as (Gt & Ga & Gn & Gx & Gr & Gw & Gtb & Gwr & Gl & _ & _ & Ge & Gf).
  unfold transfer_body. cbn [andb fst snd].
  unfold events_since. rewrite Gt. unfold emits in E. rewrite E, app_nil_r.
  rewrite skipn_app, Nat.sub_diag, skipn_all. cbn [skipn app].
  rewrite Gx, Gr, Gw, Gtb, Gwr, Gl, Ge, Gf, L.
  repeat split; auto.
  intros Hb Hs. apply Gn; [rewrite B; exact Hb | rewrite Tg, Bs; exact Hs].
Qed.

Lemma nothing_is_done_after_both_eofs_witness :
  events_since (idle_world 0)
    (snd (pv_transfer all_features (both_ready steady_input open_pipe)
            (idle_world 0) 3 true true 0 (Some 0)))
  = [].
Proof.
  destruct (nothing_is_done_after_both_eofs all_features
              (both_ready steady_input open_pipe) (idle_world 0) 3 0 (Some 0))
    as (_ & _ & _ & _ & _ & Nothing & _).
  - left. discriminate.
  - apply Nothing; [discriminate | cbn; lia].
Defined.

(** select() fails.  Interrupted by a signal (EINTR): pv_transfer returns 0
    and says nothing.  Any other error: it prints "select call failed",
    puts the transfer bit in the exit status and returns -1.  Either way
    nothing is read or written, and the EOF flags, positions and counters
    are as before. *)
Theorem failed_select_reads_and_writes_nothing
    cfg env w fd eof_in eof_out allowed lineswritten :
  transfer_buffer (transfer (pv w)) <> None
  \/ allocation_succeeds cfg (te_alloc env) = true ->
  eof_in && eof_out = false ->
  fst (te_select env) < 0 ->
  let r := pv_transfer cfg env w fd eof_in eof_out allowed lineswritten in
  let w' := snd r in
  let new := events_since w w' in
  snd (fst (fst (fst r))) = eof_in
  /\ snd (fst (fst r)) = eof_out
  /\ count_events is_sleep new = 1%nat
  /\ count_events (is_read_on fd) new = 0%nat
  /\ count_events (is_splice_on fd) new = 0%nat
  /\ count_events is_write_call new = 0%nat
  /\ read_position (transfer (pv w')) = read_position (transfer (pv w))
  /\ write_position (transfer (pv w')) = write_position (transfer (pv w))
  /\ total_bytes_read (transfer (pv w')) = total_bytes_read (transfer (pv w))
  /\ (snd (te_select env) = EINTR ->
      fst (fst (fst (fst r))) = 0
      /\ count_events is_error new = 0%nat
      /\ exit_status (pv w') = exit_status (pv w))
  /\ (snd (te_select env) <> EINTR ->
      fst (fst (fst (fst r))) = -1
      /\ count_events is_error new = 1%nat
      /\ count_events (is_message MsgSelectFailed) new = 1%nat
      /\ exit_status (pv w') = Z.lor (exit_status (pv w)) PV_ERROREXIT_TRANSFER).
Proof.
  intros Have NotDone Fail r w' new. unfold new, w', r, pv_transfer.
  destruct (prelude_events cfg w fd eof_in eof_out)
    as (pre & E & F & _ & X & B & _ & R & W & T & _).
  cbv zeta in *.
  set (w1 := reset_error_skipping (apply_direct_io cfg w fd eof_in eof_out) fd) in *.
  destruct (buffer_ready cfg env w1 fd) as (buf & w2 & calls & -> & G).
  { rewrite B. exact Have. }
  destruct G as (Gt & Ga & _ & Gx & Gr & Gw & Gtb & _).
  set (w3 := grow_buffer cfg env w2 fd buf) in *.
  assert (C : forall p, (forall f, p (EvFcntl f) = false) -> count_events p pre = 0%nat).
  { intros p P. clear E. unfold count_events.
    induction F as [|e l (f & ->) _ IH]; cbn; [reflexivity|]. rewrite P. exact IH. }
  unfold transfer_body. rewrite NotDone.
  unfold await_descriptors, is_data_ready, syscall.
  cbn -[Z.ltb to_ssize_t].
  destruct (Z.ltb_spec (fst (te_select env)) 0) as [_|]; [|lia].
  unfold events_since, emits in *.
  destruct (errno_eqb (snd (te_select env)) EINTR) eqn:Intr.
  - apply errno_eqb_eq in Intr.
    cbn -[to_ssize_t]. rewrite Gt, E, <- !app_assoc.
    rewrite skipn_app, Nat.sub_diag, skipn_all. cbn [skipn app].
    rewrite !count_events_app, !C by reflexivity.
    rewrite !(count_allocation_calls _ calls) by (try not_allocation; exact Ga).
    rewrite Gx, Gr, Gw, Gtb, X, R, W, T.
    cbn. repeat split; auto; intros; congruence.
  - apply errno_eqb_neq in Intr.
    unfold_world. cbn -[to_ssize_t]. rewrite Gt, E, <- !app_assoc.
    rewrite skipn_app, Nat.sub_diag, skipn_all. cbn [skipn app].
    rewrite !count_events_app, !C by reflexivity.
    rewrite !(count_allocation_calls _ calls) by (try not_allocation; exact Ga).
    rewrite Gx, Gr, Gw, Gtb, X, R, W, T.
    cbn. repeat split; auto; intros; congruence.
Qed.

Lemma failed_select_reads_and_writes_nothing_witness :
  let r :=
    pv_transfer all_features
      {| te_alloc := memory_available; te_select := (-1, EINVAL);
         te_fd_in_set := false;
         te_fd_out_set := false; te_read := steady_input; te_write := open_pipe |}
      (idle_world 0) 3 false false 0 (Some 0) in
  fst (fst (fst (fst r))) = -1 /\ exit_status (pv (snd r)) = PV_ERROREXIT_TRANSFER.
Proof.
  destruct (failed_select_reads_and_writes_nothing all_features
              {| te_alloc := memory_available; te_select := (-1, EINVAL);
         te_fd_in_set := false;
                 te_fd_out_set := false; te_read := steady_input;
                 te_write := open_pipe |}
              (idle_world 0) 3 false false 0 (Some 0)
              ltac:(left; discriminate) eq_refl ltac:(cbn; lia))
    as (_ & _ & _ & _ & _ & _ & _ & _ & _ & _ & Other).
  destruct (Other ltac:(cbn; discriminate)) as (R & _ & _ & X).
  split; [exact R|exact X].
Defined.

(** Moving the bytes still to be written to the front of the buffer: they
    are the same bytes, now from position 0 on, and nothing is printed. *)
Theorem compaction_keeps_pending_bytes w buf :
  transfer_buffer (transfer (pv w)) = Some buf ->
  0 <= write_position (transfer (pv w)) <= read_position (transfer (pv w)) ->
  read_position (transfer (pv w)) <= Z.of_nat (List.length buf) ->
  read_position (transfer (pv w)) < 2 ^ 64 ->
  let pending := read_position (transfer (pv w)) - write_position (transfer (pv w)) in
  let t' := transfer (pv (rotate_buffer w)) in
  exists buf',
    transfer_buffer t' = Some buf'
    /\ List.length buf' = List.length buf
    /\ write_position t' = 0
    /\ read_position t' = pending
    /\ buf_slice buf' 0 pending
       = buf_slice buf (write_position (transfer (pv w))) pending
    /\ trace (rotate_buffer w) = trace w.
Proof.
  intros Buf WP RP Big pending t'. unfold t', rotate_buffer.
  destruct (Z.gtb_spec (write_position (transfer (pv w))) 0) as [Pos|Zero].
  - destruct (Z.ltb_spec (write_position (transfer (pv w)))
                (read_position (transfer (pv w)))) as [Pending|Drained].
    + unfold_world. cbn -[buf_store buf_slice to_size_t].
      rewrite Buf. cbn [option_map_buf]. fold pending.
      pose proof (buf_slice_length buf (write_position (transfer (pv w))) pending
                    ltac:(lia) ltac:(unfold pending; lia) ltac:(unfold pending; lia))
        as L.
      rewrite (to_size_t_id pending) by (unfold fits_size_t, pending; lia).
      eexists. split; [reflexivity|].
      split; [apply buf_store_length; [lia|rewrite L; unfold pending; cbn; lia]|].
      split; [reflexivity|]. split; [reflexivity|]. split; [|reflexivity].
      pose proof (buf_store_slice buf 0
                    (buf_slice buf (write_position (transfer (pv w))) pending)
                    ltac:(cbn; lia)) as S.
      rewrite L, Z2Nat.id in S by (unfold pending; lia). exact S.
    + unfold_world. cbn. rewrite Buf.
      exists buf. assert (pending = 0) as -> by (unfold pending; lia).
      repeat split; auto.
  - assert (write_position (transfer (pv w)) = 0) as Z0 by lia.
    exists buf. unfold pending. rewrite Z0, Z.sub_0_r. repeat split; auto.
Qed.

Lemma compaction_keeps_pending_bytes_witness :
  let w := on_transfer (fun t => set_write_position 3 (set_read_position 8 t))
             (make_world (settings 0 true false) (transfer_state three_lines 8 0)) in
  exists buf',
    transfer_buffer (transfer (pv (rotate_buffer w))) = Some buf'
    /\ buf_slice buf' 0 5 = [x63; x64; x0a; x65; x66]
    /\ read_position (transfer (pv (rotate_buffer w))) = 5.
Proof.
  cbv zeta.
  destruct (compaction_keeps_pending_bytes
              (on_transfer (fun t => set_write_position 3 (set_read_position 8 t))
                 (make_world (settings 0 true false) (transfer_state three_lines 8 0)))
              three_lines eq_refl)
    as (buf' & B & _ & _ & R & S & _).
  - cbn. lia.
  - cbn. lia.
  - cbn. lia.
  - exists buf'. split; [exact B|]. split; [exact S|exact R].
Defined.

(** A larger target buffer size: the new buffer starts with the contents of
    the old one; if it cannot be had, the target goes back to the size there
    is.  Either way the target size is at most the buffer size afterwards,
    and the buffer is at least as long as its size says.  Nothing is
    printed: the only calls are those of the allocation, and there are none
    when the buffer has the target size already. *)
Theorem growing_the_buffer_keeps_its_contents cfg env w fd buf :
  transfer_buffer (transfer (pv w)) = Some buf ->
  let size_before := buffer_size (transfer (pv w)) in
  let target := target_buffer_size (control (pv w)) in
  0 <= size_before <= Z.of_nat (List.length buf) ->
  target + 32 < 2 ^ 64 ->
  let w' := grow_buffer cfg env w fd buf in
  exists buf',
    transfer_buffer (transfer (pv w')) = Some buf'
    /\ buf_slice buf' 0 size_before = buf_slice buf 0 size_before
    /\ target_buffer_size (control (pv w')) <= buffer_size (transfer (pv w'))
    /\ buffer_size (transfer (pv w')) <= Z.of_nat (List.length buf')
    /\ (allocation_succeeds cfg (te_alloc env) = true ->
        buffer_size (transfer (pv w')) = Z.max size_before target
        /\ target_buffer_size (control (pv w')) = target)
    /\ (allocation_succeeds cfg (te_alloc env) = false ->
        buffer_size (transfer (pv w')) = size_before /\ buf' = buf)
    /\ Forall (fun e => is_allocation_call e = true) (events_since w w')
    /\ (target <= size_before -> trace w' = trace w).
Proof.
  intros Buf size_before target Size Target w'. unfold w', grow_buffer.
  fold size_before. fold target.
  destruct (Z.ltb_spec size_before target) as [Grow|Enough].
  - destruct (allocate_result cfg (te_alloc env) w (output_fd (control (pv w))) fd
                (to_size_t (target + 32)))
      as (calls & w2 & -> & P2 & T2 & A2).
    assert (Ev : forall w3, trace w3 = trace w2 -> events_since w w3 = calls).
    { intros w3 E3. unfold events_since. rewrite E3, T2.
      rewrite skipn_app, Nat.sub_diag, skipn_all. reflexivity. }
    destruct (allocation_succeeds cfg (te_alloc env)).
    + unfold_world. cbn -[buf_store buf_slice to_size_t repeat events_since].
      rewrite Ev by reflexivity.
      rewrite (to_size_t_id (target + 32)) by (unfold fits_size_t; lia).
      pose proof (buf_slice_length buf 0 size_before ltac:(lia) ltac:(lia) ltac:(lia))
        as L.
      destruct (Z.gtb_spec size_before 0) as [Some_|None_].
      * eexists. split; [reflexivity|].
        split.
        { pose proof (buf_store_slice (repeat NUL (Z.to_nat (target + 32))) 0
                        (buf_slice buf 0 size_before) ltac:(cbn; lia)) as S.
          rewrite L, Z2Nat.id in S by lia. exact S. }
        rewrite P2. fold target.
        split; [lia|].
        split.
        { rewrite buf_store_length; rewrite ?repeat_length, ?L; cbn; lia. }
        split; [intros _; split; [lia|reflexivity]|].
        split; [discriminate|]. split; [exact A2 | lia].
      * eexists. split; [reflexivity|].
        assert (size_before = 0) as -> by lia.
        rewrite P2. fold target.
        split; [reflexivity|]. split; [lia|].
        split; [rewrite repeat_length; lia|].
        split; [intros _; split; [lia|reflexivity]|].
        split; [discriminate|]. split; [exact A2 | lia].
    + unfold_world. cbn -[events_since]. rewrite Ev by reflexivity.
      rewrite P2. fold size_before. rewrite Buf.
      exists buf. repeat split; auto; try lia; discriminate.
  - exists buf. rewrite Buf. fold size_before. fold target.
    assert (Ev : events_since w w = []).
    { unfold events_since. apply skipn_all. }
    rewrite Ev. repeat split; auto; try lia.
Qed.

Lemma growing_the_buffer_keeps_its_contents_witness :
  let w := on_control (set_target_buffer_size 64)
             (make_world (settings 0 true false) (transfer_state three_lines 8 0)) in
  let w' := grow_buffer all_features (both_ready steady_input open_pipe) w 3
              three_lines in
  exists buf',
    transfer_buffer (transfer (pv w')) = Some buf'
    /\ buf_slice buf' 0 16 = buf_slice three_lines 0 16
    /\ buffer_size (transfer (pv w')) = 64
    /\ events_since w w'
       = [EvFpathconf 3; EvFpathconf 1; EvSysconf; EvPosixMemalign 4096 96].
Proof.
  cbv zeta.
  destruct (growing_the_buffer_keeps_its_contents all_features
              (both_ready steady_input open_pipe)
              (on_control (set_target_buffer_size 64)
                 (make_world (settings 0 true false) (transfer_state three_lines 8 0)))
              3 three_lines eq_refl)
    as (buf' & B & S & _ & _ & Ok & _).
  - cbn. lia.
  - cbn. lia.
  - exists buf'. split; [exact B|]. split; [exact S|].
    destruct (Ok eq_refl) as (Sz & _). split; [exact Sz | reflexivity].
Defined.

End TransferOutcomes.

(** * What a write leaves behind *)

Module WriteOutcomes.
Import Transfer Footprint IntFacts TransferFacts BufferFacts Vocabulary.
Import Examples Fixtures.

(** One byte of the loop of lines 835-900. *)
Lemma track_byte_step sep b lines d t :
  ring_in_order t ->
  let '(lines', d', t') := track_byte sep b (lines, d, t) in
  lines' = lines + separators sep [b]
  /\ last_output_position t' = to_off_t (last_output_position t + 1)
  /\ ring_in_order t'
  /\ line_positions_capacity t' = line_positions_capacity t
  /\ (line_positions t = None -> line_positions t' = None)
  /\ (line_positions t <> None ->
      line_positions t' <> None
      /\ line_positions_length t'
         = Z.min (line_positions_capacity t)
             (line_positions_length t + separators sep [b]))
  /\ read_position t' = read_position t
  /\ write_position t' = write_position t
  /\ transfer_buffer t' = transfer_buffer t
  /\ written t' = written t.
Proof.
  intros Ring. unfold track_byte, separators. cbn [filter].
  destruct (Byte.eqb b sep) eqn:E; cbn [negb List.length].
  - unfold ring_in_order in *.
    destruct (line_positions t) as [ps|] eqn:P; cbn.
    + destruct Ring as (C & H & L).
      rewrite length_app, length_firstn. cbn [List.length]. rewrite length_skipn.
      repeat split; try lia; try congruence;
        repeat match goal with
        | |- context [if ?a >=? ?b then _ else _] => destruct (Z.geb_spec a b)
        | |- context [if ?a <? ?b then _ else _] => destruct (Z.ltb_spec a b)
        end; try lia.
    + repeat split; auto; try lia; try congruence. rewrite P. exact I.
  - cbn. repeat split; auto; try lia.
    unfold ring_in_order in Ring.
    destruct (line_positions t); [|congruence]. lia.
Qed.

(** The loop of lines 835-900 from any count of lines on. *)
Lemma track_fold_counts sep bytes : forall lines0 d0 t0,
  ring_in_order t0 ->
  0 <= last_output_position t0 ->
  last_output_position t0 + Z.of_nat (List.length bytes) < 2 ^ 63 ->
  let '(lines, d', t') :=
    fold_left (fun acc b => track_byte sep b acc) bytes (lines0, d0, t0) in
  lines = lines0 + separators sep bytes
  /\ last_output_position t'
     = last_output_position t0 + Z.of_nat (List.length bytes)
  /\ ring_in_order t'
  /\ line_positions_capacity t' = line_positions_capacity t0
  /\ (line_positions t0 = None -> line_positions t' = None)
  /\ (line_positions t0 <> None ->
      line_positions t' <> None
      /\ line_positions_length t'
         = Z.min (line_positions_capacity t0)
             (line_positions_length t0 + separators sep bytes))
  /\ read_position t' = read_position t0
  /\ write_position t' = write_position t0
  /\ transfer_buffer t' = transfer_buffer t0
  /\ written t' = written t0.
Proof.
  induction bytes as [|b bytes IH]; intros lines0 d0 t0 Ring Pos Fit.
  - cbn. unfold separators. cbn. repeat split; auto; try lia.
    unfold ring_in_order in Ring.
    destruct (line_positions t0); [|congruence]. lia.
  - cbn [fold_left List.length] in *.
    pose proof (track_byte_step sep b lines0 d0 t0 Ring) as S.
    destruct (track_byte sep b (lines0, d0, t0)) as [[l1 d1] t1].
    destruct S as (S1 & S2 & S3 & S4 & S5 & S6 & S7 & S8 & S9 & S10).
    rewrite to_off_t_id in S2 by (unfold fits_off_t; lia).
    specialize (IH l1 d1 t1 S3 ltac:(lia) ltac:(lia)).
    destruct (fold_left _ bytes (l1, d1, t1)) as [[l2 d2] t2].
    destruct IH as (I1 & I2 & I3 & I4 & I5 & I6 & I7 & I8 & I9 & I10).
    assert (Sum : separators sep (b :: bytes)
                  = separators sep [b] + separators sep bytes).
    { unfold separators. cbn [filter]. destruct (Byte.eqb b sep); cbn [List.length]; lia. }
    assert (Nn : 0 <= separators sep [b] /\ 0 <= separators sep bytes)
      by (unfold separators; lia).
    rewrite Sum.
    split; [lia|]. split; [lia|]. split; [exact I3|]. split; [congruence|].
    split; [auto|].
    split.
    { intros N. destruct (S6 N) as (N1 & L1). destruct (I6 N1) as (N2 & L2).
      split; [exact N2|]. rewrite L2, L1, S4.
      unfold ring_in_order in Ring. destruct (line_positions t0); [|congruence].
      lia. }
    repeat split; congruence.
Qed.

(** The loop of lines 835-900 over the bytes just written: it counts the
    separators among them, moves the output position on by one per byte,
    and keeps the record of line positions in order, its length growing by
    one per separator up to the capacity. *)
Theorem lines_counted_are_the_separators_written sep bytes d t :
  ring_in_order t ->
  0 <= last_output_position t ->
  last_output_position t + Z.of_nat (List.length bytes) < 2 ^ 63 ->
  let '(lines, d', t') := track_lines sep bytes d t in
  lines = separators sep bytes
  /\ last_output_position t' = last_output_position t + Z.of_nat (List.length bytes)
  /\ ring_in_order t'
  /\ line_positions_capacity t' = line_positions_capacity t
  /\ (line_positions t = None -> line_positions t' = None)
  /\ (line_positions t <> None ->
      line_positions t' <> None
      /\ line_positions_length t'
         = Z.min (line_positions_capacity t)
             (line_positions_length t + separators sep bytes))
  /\ read_position t' = read_position t
  /\ write_position t' = write_position t
  /\ transfer_buffer t' = transfer_buffer t
  /\ written t' = written t.
Proof.
  intros Ring Pos Fit. unfold track_lines.
  pose proof (track_fold_counts sep bytes 0 d t Ring Pos Fit) as G.
  destruct (fold_left _ bytes (0, d, t)) as [[l' d'] t'].
  destruct G as (G1 & G). split; [lia|exact G].
Qed.

Lemma lines_counted_witness :
  let '(lines, _, t') :=
    track_lines NEWLINE (buf_slice three_lines 0 8) plain_display
      (transfer_state three_lines 8 0) in
  lines = 2 /\ last_output_position t' = 8.
Proof.
  pose proof (lines_counted_are_the_separators_written NEWLINE
                (buf_slice three_lines 0 8) plain_display
                (transfer_state three_lines 8 0) I ltac:(vm_compute; discriminate)
                ltac:(vm_compute; reflexivity))
    as H.
  destruct (track_lines NEWLINE (buf_slice three_lines 0 8) plain_display
              (transfer_state three_lines 8 0)) as [[lines d'] t'].
  destruct H as (L & P & _). split; [exact L|exact P].
Defined.

(** The timed call of [pv__transfer_write_repeated] changes nothing in the
    state; it gives what the write gave. *)
Lemma timed_write_state cfg env w :
  let r := timed_write cfg env w in
  exists new,
    trace (snd r) = trace w ++ new
    /\ pv (snd r) = pv w
    /\ fst (fst r) = fst (we_write env)
    /\ (fst (we_write env) < 0 -> snd (fst r) = snd (we_write env))
    /\ count_events is_write_call new = 1%nat
    /\ In (EvWrite (output_fd (control (pv w))) (to_size_t (to_write (transfer (pv w)))))
          new
    /\ count_events (is_message MsgWriteFailed) new = 0%nat
    /\ count_events is_sleep new = 0%nat.
Proof.
  unfold timed_write. unfold_world.
  destruct (HAVE_SETITIMER cfg); cbn;
    repeat (break_match; cbn);
    rewrite <- ?app_assoc; cbn;
    (eexists; split; [reflexivity|]);
    cbn; repeat split; auto; try lia; try (intros; congruence); tauto.
Qed.

(** Lines 790-963, once the line positions are allocated (or not needed). *)
Lemma write_completed_positions env w buf n eof_in eof_out lw :
  let t := transfer (pv w) in
  let c := control (pv w) in
  let tracking :=
    match lw with
    | Some _ => if linemode c then true else showing_previous_line (display (pv w))
    | None => showing_previous_line (display (pv w))
    end in
  let separator := if null_terminated_lines c then NUL else NEWLINE in
  line_positions t <> None \/ lw = None \/ tracking = false ->
  ring_in_order t ->
  0 < n -> 0 <= write_position t ->
  write_position t + n <= Z.of_nat (List.length buf) ->
  write_position t + n < 2 ^ 64 ->
  - 2 ^ 63 <= written t + n < 2 ^ 63 ->
  0 <= last_output_position t -> last_output_position t + n < 2 ^ 63 ->
  exists eo' lw' w',
    write_completed env w buf n eof_in eof_out lw = (1, eof_in, eo', lw', w')
    /\ written (transfer (pv w')) = written t + n
    /\ (read_position t <= write_position t + n ->
        write_position (transfer (pv w')) = 0
        /\ read_position (transfer (pv w')) = 0
        /\ eo' = (if eof_in then true else eof_out))
    /\ (write_position t + n < read_position t ->
        write_position (transfer (pv w')) = write_position t + n
        /\ read_position (transfer (pv w')) = read_position t
        /\ eo' = eof_out)
    /\ transfer_buffer (transfer (pv w')) = transfer_buffer t
    /\ exit_status (pv w') = exit_status (pv w)
    /\ trace w' = trace w
    /\ lw' = (if tracking
              then match lw with
                   | Some l =>
                       Some (to_long (l + separators separator
                                            (buf_slice buf (write_position t) n)))
                   | None => None
                   end
              else lw)
    /\ ring_in_order (transfer (pv w')).
Proof.
  destruct w as [[x c0 p d0 t0] e tr].
  cbn -[track_lines to_size_t to_ssize_t to_long buf_slice update_lastwritten
        separators ring_in_order].
  intros Alloc Ring N WP Fit Big Wr Lop LopFit.
  assert (BL : Z.of_nat (List.length (buf_slice buf (write_position t0) n)) = n).
  { rewrite buf_slice_length by lia. lia. }
  pose proof (track_fold_counts
                (if null_terminated_lines c0 then NUL else NEWLINE)
                (buf_slice buf (write_position t0) n) 0 d0 t0 Ring Lop ltac:(lia)) as L.
  change (fold_left
            (fun acc b =>
               track_byte (if null_terminated_lines c0 then NUL else NEWLINE) b acc)
            (buf_slice buf (write_position t0) n) (0, d0, t0))
    with (track_lines (if null_terminated_lines c0 then NUL else NEWLINE)
            (buf_slice buf (write_position t0) n) d0 t0) in L.
  cbn [Z.add] in L.
  unfold write_completed. unfold_world.
  cbn -[track_lines to_size_t to_ssize_t to_long buf_slice update_lastwritten
        separators ring_in_order].
  destruct lw as [l|]; destruct (linemode c0); destruct (showing_previous_line d0);
    destruct (line_positions t0) as [ps|] eqn:LP;
    try (exfalso; destruct Alloc as [A|[A|A]]; congruence);
    cbn -[track_lines to_size_t to_ssize_t to_long buf_slice update_lastwritten
          separators ring_in_order];
    try (destruct (track_lines (if null_terminated_lines c0 then NUL else NEWLINE)
                     (buf_slice buf (write_position t0) n) d0 t0) as [[lines d1] t1];
         destruct L as (L1 & L2 & L3 & L4 & L5 & L6 & L7 & L8 & L9 & L10);
         cbn -[to_size_t to_ssize_t to_long buf_slice update_lastwritten
               separators ring_in_order];
         rewrite ?L7, ?L8, ?L9, ?L10; rewrite ?L1).
  all: rewrite ?(to_size_t_id (write_position t0 + n)) by (unfold fits_size_t; lia).
  all: unfold to_ssize_t;
       rewrite ?(to_off_t_id (written t0 + n)) by (unfold fits_off_t; lia).
  all: match goal with
       | |- context [showing_last_written ?d && (?k >? 0)] =>
           destruct (showing_last_written d && (k >? 0))
       end.
  all: cbn -[to_long buf_slice update_lastwritten separators ring_in_order].
  all: rewrite ?L7, ?L8.
  all: destruct (Z.geb_spec (write_position t0 + n) (read_position t0)).
  all: eexists; eexists; eexists; (split; [reflexivity|]).
  all: cbn -[to_long buf_slice update_lastwritten separators ring_in_order].
  all: rewrite ?L7, ?L8, ?L9, ?L10.
  all: repeat split; auto; try lia; try congruence.
Qed.

(** A write that goes through (no --discard-input, no sparse output): the
    write position moves on by the count written, or both positions go back
    to 0 once everything read has been written, in which case *eof_out
    follows *eof_in; the count is added to [written], the lines counted are
    the separators among the bytes written, the buffer and the exit status
    are untouched, and there was exactly one call to write. *)
Theorem written_bytes_leave_the_buffer cfg env w eof_in eof_out lw buf :
  let t := transfer (pv w) in
  let c := control (pv w) in
  let n := fst (we_write env) in
  let tracking :=
    match lw with
    | Some _ => if linemode c then true else showing_previous_line (display (pv w))
    | None => showing_previous_line (display (pv w))
    end in
  let separator := if null_terminated_lines c then NUL else NEWLINE in
  transfer_buffer t = Some buf ->
  discard_input c = false -> sparse_output c = false ->
  0 < to_write t -> 0 < n ->
  line_positions t <> None \/ lw = None \/ tracking = false ->
  ring_in_order t ->
  0 <= write_position t ->
  write_position t + n <= Z.of_nat (List.length buf) ->
  write_position t + n < 2 ^ 64 ->
  - 2 ^ 63 <= written t + n < 2 ^ 63 ->
  0 <= last_output_position t -> last_output_position t + n < 2 ^ 63 ->
  exists eo' lw' w',
    pv__transfer_write cfg env w eof_in eof_out lw = (1, eof_in, eo', lw', w')
    /\ written (transfer (pv w')) = written t + n
    /\ (read_position t <= write_position t + n ->
        write_position (transfer (pv w')) = 0
        /\ read_position (transfer (pv w')) = 0
        /\ eo' = (if eof_in then true else eof_out))
    /\ (write_position t + n < read_position t ->
        write_position (transfer (pv w')) = write_position t + n
        /\ read_position (transfer (pv w')) = read_position t
        /\ eo' = eof_out)
    /\ transfer_buffer (transfer (pv w')) = Some buf
    /\ exit_status (pv w') = exit_status (pv w)
    /\ lw' = (if tracking
              then match lw with
                   | Some l =>
                       Some (to_long (l + separators separator
                                            (buf_slice buf (write_position t) n)))
                   | None => None
                   end
              else lw)
    /\ ring_in_order (transfer (pv w'))
    /\ count_events is_write_call (events_since w w') = 1%nat
    /\ In (EvWrite (output_fd c) (to_size_t (to_write t))) (events_since w w').
Proof.
  intros t c n tracking separator Buf NoDiscard NoSparse ToWrite N Alloc Ring WP
    Fit Big Wr Lop LopFit.
  unfold pv__transfer_write. fold t c. rewrite Buf, NoDiscard, NoSparse.
  destruct (Z.gtb_spec (to_write t) 0) as [_|]; [|lia]. cbn [andb].
  destruct (timed_write_state cfg env w) as (new & Tn & P & R & _ & Cw & Iw & _).
  destruct (timed_write cfg env w) as [[nw we] w1]. cbn [fst snd] in *.
  subst nw. fold n. destruct (Z.gtb_spec n 0) as [_|]; [|lia].
  destruct (write_completed_positions env w1 buf n eof_in eof_out lw)
    as (eo' & lw' & w' & E & C1 & C2 & C3 & C4 & C5 & C6 & C7 & C8);
    rewrite ?P; auto.
  rewrite P in *. fold t c in C1, C2, C3, C4, C7. fold tracking separator in C7.
  exists eo', lw', w'. split; [exact E|].
  split; [exact C1|]. split; [exact C2|]. split; [exact C3|].
  split; [rewrite C4; exact Buf|]. split; [exact C5|]. split; [exact C7|].
  split; [exact C8|].
  assert (Ev : events_since w w' = new).
  { apply events_since_app. rewrite C6. exact Tn. }
  rewrite Ev. split; [exact Cw|exact Iw].
Qed.

Lemma written_bytes_leave_the_buffer_witness :
  exists eo' lw' w',
    pv__transfer_write all_features open_pipe three_lines_pending false false (Some 0)
    = (1, false, eo', lw', w')
    /\ lw' = Some 2
    /\ write_position (transfer (pv w')) = 0
    /\ written (transfer (pv w')) = 8.
Proof.
  destruct (written_bytes_leave_the_buffer all_features open_pipe
              three_lines_pending false false (Some 0) three_lines
              eq_refl eq_refl eq_refl)
    as (eo' & lw' & w' & E & W & Drained & _ & _ & _ & L & _).
  - cbn. lia.
  - cbn. lia.
  - left. discriminate.
  - cbn. lia.
  - cbn. lia.
  - cbn. lia.
  - cbn. lia.
  - cbn. lia.
  - cbn. lia.
  - cbn. lia.
  - exists eo', lw', w'. split; [exact E|]. split; [exact L|].
    split; [apply Drained; cbn; lia|exact W].
Defined.

(** Sparse output: when the bytes to write are all null and the output can
    be moved along with lseek(), no write is made at all; the bytes count
    as written just the same. *)
Theorem null_bytes_are_seeked_over cfg env w eof_in eof_out lw buf :
  let t := transfer (pv w) in
  let c := control (pv w) in
  let n := to_write t in
  let tracking :=
    match lw with
    | Some _ => if linemode c then true else showing_previous_line (display (pv w))
    | None => showing_previous_line (display (pv w))
    end in
  transfer_buffer t = Some buf ->
  discard_input c = false ->
  sparse_output c = true -> output_not_seekable t = false ->
  all_nulls buf (write_position t) (to_size_t n) = true ->
  fst (we_lseek env) <> -1 ->
  0 < n ->
  line_positions t <> None \/ lw = None \/ tracking = false ->
  ring_in_order t ->
  0 <= write_position t ->
  write_position t + n <= Z.of_nat (List.length buf) ->
  write_position t + n < 2 ^ 64 ->
  - 2 ^ 63 <= written t + n < 2 ^ 63 ->
  0 <= last_output_position t -> last_output_position t + n < 2 ^ 63 ->
  exists eo' lw' w',
    pv__transfer_write cfg env w eof_in eof_out lw = (1, eof_in, eo', lw', w')
    /\ events_since w w' = [EvLseekCur (output_fd c) n]
    /\ count_events is_write_call (events_since w w') = 0%nat
    /\ written (transfer (pv w')) = written t + n
    /\ (read_position t <= write_position t + n ->
        write_position (transfer (pv w')) = 0
        /\ read_position (transfer (pv w')) = 0)
    /\ (write_position t + n < read_position t ->
        write_position (transfer (pv w')) = write_position t + n
        /\ read_position (transfer (pv w')) = read_position t)
    /\ exit_status (pv w') = exit_status (pv w).
Proof.
  intros t c n tracking Buf NoDiscard Sparse Seekable Nulls Seek N Alloc Ring WP
    Fit Big Wr Lop LopFit.
  unfold pv__transfer_write. fold t c. rewrite Buf, NoDiscard, Sparse, Seekable.
  fold n. destruct (Z.gtb_spec n 0) as [_|]; [|lia]. cbn [andb negb].
  rewrite Nulls. unfold syscall. cbn [fst snd].
  destruct (Z.eqb_spec (fst (we_lseek env)) (-1)); [contradiction|].
  destruct (Z.gtb_spec n 0) as [_|]; [|lia].
  match goal with
  | |- context [write_completed env ?w1 buf n eof_in eof_out lw] =>
      destruct (write_completed_positions env w1 buf n eof_in eof_out lw)
        as (eo' & lw' & w' & E & C1 & C2 & C3 & C4 & C5 & C6 & C7 & C8); auto
  end.
  cbn [pv trace] in *. fold t in C1, C2, C3.
  exists eo', lw', w'. split; [exact E|].
  unfold events_since. rewrite C6, skipn_app, Nat.sub_diag, skipn_all.
  cbn [skipn app]. split; [reflexivity|]. split; [reflexivity|].
  split; [exact C1|].
  split; [intros D; destruct (C2 D) as (A & B & _); auto|].
  split; [intros D; destruct (C3 D) as (A & B & _); auto|]. exact C5.
Qed.

Lemma null_bytes_are_seeked_over_witness :
  exists eo' lw' w',
    pv__transfer_write all_features regular_file sparse_nulls_pending false false
      (Some 0)
    = (1, false, eo', lw', w')
    /\ events_since sparse_nulls_pending w' = [EvLseekCur 1 8]
    /\ written (transfer (pv w')) = 8.
Proof.
  destruct (null_bytes_are_seeked_over all_features regular_file
              sparse_nulls_pending false false (Some 0) empty_buffer
              eq_refl eq_refl eq_refl eq_refl)
    as (eo' & lw' & w' & E & Ev & _ & W & _).
  - vm_compute. reflexivity.
  - cbn. discriminate.
  - cbn. lia.
  - right. right. reflexivity.
  - vm_compute. intuition (try discriminate; try reflexivity).
  - cbn. lia.
  - cbn. lia.
  - cbn. lia.
  - cbn. lia.
  - cbn. lia.
  - cbn. lia.
  - exists eo', lw', w'. split; [exact E|]. split; [exact Ev|exact W].
Defined.

(** A write that fails.  Nothing written, or EINTR or EAGAIN: the call waits
    10 ms and returns 0 with nothing changed.  Any error other than these
    and EPIPE: "write failed" is printed, the transfer bit goes into the
    exit status, [written] is -1, *eof_out is set and the call returns 1. *)
Theorem failed_write_is_retried_or_reported cfg env w eof_in eof_out lw buf :
  let t := transfer (pv w) in
  let c := control (pv w) in
  let n := fst (we_write env) in
  transfer_buffer t = Some buf ->
  discard_input c = false -> sparse_output c = false ->
  0 < to_write t -> n <= 0 ->
  let r := pv__transfer_write cfg env w eof_in eof_out lw in
  let w' := snd r in
  let new := events_since w w' in
  read_position (transfer (pv w')) = read_position t
  /\ write_position (transfer (pv w')) = write_position t
  /\ transfer_buffer (transfer (pv w')) = Some buf
  /\ count_events is_write_call new = 1%nat
  /\ snd (fst r) = lw
  /\ (n = 0 \/ snd (we_write env) = EINTR \/ snd (we_write env) = EAGAIN ->
      fst (fst (fst (fst r))) = 0
      /\ snd (fst (fst (fst r))) = eof_in
      /\ snd (fst (fst r)) = eof_out
      /\ exit_status (pv w') = exit_status (pv w)
      /\ written (transfer (pv w')) = written t
      /\ count_events (is_message MsgWriteFailed) new = 0%nat
      /\ In (EvSelect (-1) (-1) 10000) new)
  /\ (n < 0 -> snd (we_write env) <> EINTR -> snd (we_write env) <> EAGAIN ->
      snd (we_write env) <> EPIPE ->
      fst (fst (fst (fst r))) = 1
      /\ snd (fst (fst (fst r))) = eof_in
      /\ snd (fst (fst r)) = true
      /\ exit_status (pv w') = Z.lor (exit_status (pv w)) PV_ERROREXIT_TRANSFER
      /\ written (transfer (pv w')) = -1
      /\ count_events (is_message MsgWriteFailed) new = 1%nat).
Proof.
  intros t c n Buf NoDiscard NoSparse ToWrite N r w' new.
  unfold new, w', r, pv__transfer_write. fold t c. rewrite Buf, NoDiscard, NoSparse.
  destruct (Z.gtb_spec (to_write t) 0) as [_|]; [|lia]. cbn [andb].
  destruct (timed_write_state cfg env w) as (new1 & Tn & P & R & Er & Cw & Iw & Cm & Cs).
  destruct (timed_write cfg env w) as [[nw we] [p1 e1 tr1]]. cbn [fst snd pv trace] in *.
  subst nw p1 tr1. fold n in Er |- *.
  destruct (Z.gtb_spec n 0) as [|_]; [lia|].
  unfold write_failed. unfold_world.
  destruct (Z.eqb_spec n 0) as [Zero|NonZero]; cbn [orb].
  - cbn [fst snd pv trace]. fold t.
    rewrite (events_since_app w _ (new1 ++ [EvSelect (-1) (-1) 10000]))
      by (cbn; rewrite app_assoc; reflexivity).
    rewrite !count_events_app, Cw, Cm. cbn.
    repeat split; auto; try lia; try (apply in_or_app; right; left; reflexivity).
  - assert (Neg : n < 0) by lia. specialize (Er Neg). subst we.
    destruct (errno_eqb (snd (we_write env)) EINTR
              || errno_eqb (snd (we_write env)) EAGAIN) eqn:Transient.
    + cbn [fst snd pv trace]. fold t.
      rewrite (events_since_app w _ (new1 ++ [EvSelect (-1) (-1) 10000]))
        by (cbn; rewrite app_assoc; reflexivity).
      rewrite !count_events_app, Cw, Cm. cbn.
      apply orb_prop in Transient.
      repeat split; auto; try lia;
        try (apply in_or_app; right; left; reflexivity).
      all: exfalso; destruct Transient as [T|T]; apply errno_eqb_eq in T;
        congruence.
    + apply orb_false_elim in Transient. destruct Transient as (T1 & T2).
      apply errno_eqb_neq in T1, T2.
      destruct (errno_eqb (snd (we_write env)) EPIPE) eqn:Pipe.
      * apply errno_eqb_eq in Pipe.
        cbn [fst snd pv trace]. fold t.
        rewrite (events_since_app w _ new1) by reflexivity.
        repeat split; auto; try lia;
          try (intros; congruence).
        all: exfalso;
          match goal with
          | A : _ \/ _ \/ _ |- _ => destruct A as [A|[A|A]]; [lia|congruence|congruence]
          end.
      * apply errno_eqb_neq in Pipe.
        cbn [fst snd pv trace]. fold t.
        rewrite (events_since_app w _ (new1 ++ [EvError MsgWriteFailed]))
          by (cbn; rewrite app_assoc; reflexivity).
        rewrite !count_events_app, Cw, Cm. cbn.
        repeat split; auto; try lia.
        all: exfalso;
          match goal with
          | A : _ \/ _ \/ _ |- _ => destruct A as [A|[A|A]]; [lia|congruence|congruence]
          end.
Qed.

Lemma failed_write_is_retried_or_reported_witness :
  let r := pv__transfer_write all_features
             {| we_lseek := (-1, ESPIPE); we_setitimer := (0, ENONE);
                we_write := (-1, EIO); we_cleartimer := (0, ENONE);
                we_calloc := true |}
             (make_world (settings 0 true false) (transfer_state three_lines 8 0))
             false false (Some 0) in
  fst (fst (fst (fst r))) = 1 /\ snd (fst (fst r)) = true
  /\ exit_status (pv (snd r)) = PV_ERROREXIT_TRANSFER.
Proof.
  destruct (failed_write_is_retried_or_reported all_features
              {| we_lseek := (-1, ESPIPE); we_setitimer := (0, ENONE);
                 we_write := (-1, EIO); we_cleartimer := (0, ENONE);
                 we_calloc := true |}
              (make_world (settings 0 true false) (transfer_state three_lines 8 0))
              false false (Some 0) three_lines eq_refl eq_refl eq_refl
              ltac:(cbn; lia) ltac:(cbn; lia))
    as (_ & _ & _ & _ & _ & _ & Hard).
  destruct (Hard ltac:(cbn; lia) ltac:(cbn; discriminate) ltac:(cbn; discriminate)
              ltac:(cbn; discriminate)) as (R & _ & E & X & _).
  split; [exact R|]. split; [exact E|exact X].
Defined.

End WriteOutcomes.

(** * The rate statistics and the history of pv_calculate_transfer_rate *)

Module CalcOutcomes.
Import Calc IntFacts QFacts FloatFacts Examples Fixtures Vocabulary.

Ltac case_Qltb a b :=
  let E := fresh "E" in
  destruct (Qltb a b) eqn:E;
  [ apply Qltb_true in E | apply Qltb_false in E ].

Lemma Qleb_true a b : Qleb a b = true -> (a <= b)%Q.
Proof. unfold Qleb. apply Qle_bool_imp_le. Qed.

Lemma Qleb_false a b : Qleb a b = false -> (b < a)%Q.
Proof.
  unfold Qleb. intros H. apply Qnot_le_lt. intros L.
  apply Qle_bool_iff in L. congruence.
Qed.

(** What the history update and the percentage leave alone. *)
Lemma update_history_frame p calc transfer interval rate :
  let calc' := pv__update_average_rate_history p calc transfer interval rate in
  rate_min calc' = rate_min calc /\ rate_max calc' = rate_max calc
  /\ rate_sum calc' = rate_sum calc
  /\ measurements_taken calc' = measurements_taken calc
  /\ prev_elapsed_sec calc' = prev_elapsed_sec calc
  /\ prev_trans calc' = prev_trans calc
  /\ prev_rate calc' = prev_rate calc
  /\ prev_transferred calc' = prev_transferred calc
  /\ ratesquared_sum calc' = ratesquared_sum calc.
Proof.
  unfold pv__update_average_rate_history.
  destruct (history calc); [|repeat split].
  repeat match goal with |- context [if ?b then _ else _] => destruct b end;
    destruct calc; repeat split.
Qed.

Lemma update_percentage_frame calc transfer control rate :
  let calc' := update_percentage calc transfer control rate in
  rate_min calc' = rate_min calc /\ rate_max calc' = rate_max calc
  /\ rate_sum calc' = rate_sum calc
  /\ measurements_taken calc' = measurements_taken calc
  /\ prev_elapsed_sec calc' = prev_elapsed_sec calc
  /\ prev_trans calc' = prev_trans calc
  /\ prev_rate calc' = prev_rate calc
  /\ prev_transferred calc' = prev_transferred calc
  /\ ratesquared_sum calc' = ratesquared_sum calc
  /\ transfer_rate calc' = transfer_rate calc
  /\ history calc' = history calc
  /\ history_first calc' = history_first calc
  /\ history_last calc' = history_last calc
  /\ history_len calc' = history_len calc.
Proof.
  unfold update_percentage.
  repeat match goal with |- context [if ?b then _ else _] => destruct b end;
    destruct calc; repeat split.
Qed.

(** The statistics after [pv_calculate_transfer_rate] are those
    [measure_rate] left. *)
Lemma calculate_statistics p calc transfer control display final :
  let calc' := pv_calculate_transfer_rate p calc transfer control display final in
  let m := snd (measure_rate p calc transfer control) in
  rate_min calc' = rate_min m /\ rate_max calc' = rate_max m
  /\ rate_sum calc' = rate_sum m
  /\ measurements_taken calc' = measurements_taken m
  /\ prev_elapsed_sec calc' = prev_elapsed_sec m
  /\ prev_trans calc' = prev_trans m
  /\ prev_rate calc' = prev_rate m
  /\ prev_transferred calc' = prev_transferred m
  /\ ratesquared_sum calc' = ratesquared_sum m
  /\ (final = false ->
      transfer_rate calc' = fst (measure_rate p calc transfer control)).
Proof.
  unfold pv_calculate_transfer_rate.
  destruct (measure_rate p calc transfer control) as [rate m] eqn:M. cbn [fst snd].
  destruct (update_history_frame p m transfer (history_interval control) rate)
    as (B1 & B2 & B3 & B4 & B5 & B6 & B7 & B8 & B9).
  cbv zeta in B1, B2, B3, B4, B5, B6, B7, B8, B9.
  set (c1 := pv__update_average_rate_history p m transfer (history_interval control)
                rate) in *.
  clearbody c1. clear M.
  destruct final; cbv beta iota zeta;
    [ match goal with
      | |- context [ldbl p ?x] => generalize (ldbl p x); intros ar
      end | ];
    match goal with
    | |- context [update_percentage ?c transfer control ?r] =>
        destruct (update_percentage_frame c transfer control r)
          as (A1 & A2 & A3 & A4 & A5 & A6 & A7 & A8 & A9 & A10 & _);
        cbv zeta in A1, A2, A3, A4, A5, A6, A7, A8, A9, A10;
        rewrite A1, A2, A3, A4, A5, A6, A7, A8, A9, A10
    end;
    destruct c1; cbn in *; repeat split; try assumption; try discriminate.
Qed.

(** Lines 97-101: the bytes since the last call. *)
Lemma measure_rate_bytes calc transfer :
  (if transferred transfer >=? 0
   then (to_off_t (transferred transfer - prev_transferred calc),
         set_prev_transferred (transferred transfer) calc)
   else (0, calc))
  = (bytes_since_last calc transfer,
     if transferred transfer >=? 0
     then set_prev_transferred (transferred transfer) calc else calc).
Proof. unfold bytes_since_last. destruct (transferred transfer >=? 0); reflexivity. Qed.

(** A rate is measured when more than the double constant 0.01 (which is
    above 1/100 by less than 10^-18) has passed, by the rounded difference
    of the two times, since the last measurement.  The rate measured, each
    step of its computation rounded to long double, then lies between the
    minimum and the maximum recorded once it has been taken into account,
    whatever they were before; it is added to the sum of rates, its square
    to the sum of squares, both sums being rounded, and it is counted.
    Otherwise nothing is measured: the statistics stay as they were. *)
Theorem measured_rate_is_within_recorded_extremes
    p calc transfer control display final :
  let time_since_last :=
    ldbl p (elapsed_seconds transfer - prev_elapsed_sec calc) in
  let rate :=
    ldbl p (ldbl p (Float.of_integer (Float.long_double p)
                      (bytes_since_last calc transfer)
                    + prev_trans calc)
            / time_since_last) in
  let measured := if bits control then ldbl p (8 * rate) else rate in
  let calc' := pv_calculate_transfer_rate p calc transfer control display final in
  ((c_0_01 < time_since_last)%Q ->
   (rate_min calc' <= measured)%Q
   /\ (measured <= rate_max calc')%Q
   /\ rate_sum calc' = ldbl p (rate_sum calc + measured)
   /\ ratesquared_sum calc'
      = ldbl p (ratesquared_sum calc + ldbl p (measured * measured))
   /\ measurements_taken calc' = to_size_t (measurements_taken calc + 1)
   /\ (prev_trans calc' == 0)%Q
   /\ prev_elapsed_sec calc' = elapsed_seconds transfer)
  /\ ((time_since_last <= c_0_01)%Q ->
      rate_min calc' = rate_min calc
      /\ rate_max calc' = rate_max calc
      /\ rate_sum calc' = rate_sum calc
      /\ ratesquared_sum calc' = ratesquared_sum calc
      /\ measurements_taken calc' = measurements_taken calc
      /\ prev_elapsed_sec calc' = prev_elapsed_sec calc).
Proof.
  intros time rate measured calc'.
  destruct (calculate_statistics p calc transfer control display final)
    as (A1 & A2 & A3 & A4 & A5 & A6 & _ & _ & A9 & _).
  fold calc' in A1, A2, A3, A4, A5, A6, A9. rewrite A1, A2, A3, A4, A5, A6, A9.
  unfold measure_rate. rewrite measure_rate_bytes.
  set (c0 := if transferred transfer >=? 0
             then set_prev_transferred (transferred transfer) calc else calc).
  assert (F : prev_elapsed_sec c0 = prev_elapsed_sec calc
              /\ prev_trans c0 = prev_trans calc /\ rate_min c0 = rate_min calc
              /\ rate_max c0 = rate_max calc /\ rate_sum c0 = rate_sum calc
              /\ measurements_taken c0 = measurements_taken calc
              /\ ratesquared_sum c0 = ratesquared_sum calc).
  { unfold c0. destruct (transferred transfer >=? 0); destruct calc; repeat split. }
  destruct F as (F1 & F2 & F3 & F4 & F5 & F6 & F7).
  cbv zeta. rewrite F1, F2. fold time. fold rate.
  destruct c0 as [tr ar pes pr pt car rmin rmax rsum rsq mt h hl hf hlast ptf pc].
  cbn -[Qltb Qleb Qplus Qmult to_size_t ldbl c_0_01] in *. subst.
  destruct (Qleb time c_0_01) eqn:Short.
  - apply Qleb_true in Short. split; [intros T; lra|]. intros _.
    cbn. repeat split; reflexivity.
  - apply Qleb_false in Short. split; [|intros T; lra]. intros _.
    fold measured.
    destruct (measurements_taken calc <? 1) eqn:First; cbn [orb];
      [|case_Qltb measured (rate_min calc)];
      cbn -[Qltb Qplus Qmult to_size_t ldbl];
      case_Qltb (rate_max calc) measured; cbn -[Qltb Qplus Qmult to_size_t ldbl];
      repeat split; try lra; try reflexivity.
Qed.

Lemma measured_rate_witness :
  let calc' :=
    pv_calculate_transfer_rate Float.x86_64 idle_calc (progress 500 2)
      (expecting 1000) plain_display false in
  (rate_min calc' <= 250)%Q /\ (250 <= rate_max calc')%Q.
Proof.
  destruct (measured_rate_is_within_recorded_extremes Float.x86_64 idle_calc
              (progress 500 2) (expecting 1000) plain_display false)
    as (Taken & _).
  destruct Taken as (A & B & _).
  - vm_compute. reflexivity.
  - split.
    + eapply Qle_trans; [exact A|]. vm_compute. discriminate.
    + eapply Qle_trans; [|exact B]. vm_compute. discriminate.
Defined.

(** When exactly the double 0.01 has passed, which is more than 1/100 of a
    second, nothing is measured. *)
Lemma nothing_measured_at_the_double_constant :
  (1 # 100 < c_0_01)%Q
  /\ measurements_taken
       (pv_calculate_transfer_rate Float.x86_64 idle_calc (progress 500 c_0_01)
          (expecting 1000) plain_display false)
     = 0.
Proof. split; vm_compute; reflexivity. Qed.

(** A call that comes within the double constant 0.01 of the last
    measurement measures nothing, and loses nothing: the bytes it saw are
    carried over, and the next measurement gives the rate it would have
    given had the early call not been made.  This is so as long as the byte
    counts are whole numbers that the long double format holds exactly: the
    amount carried over so far is a whole number k, and the counts and their
    sums with k are below 2 ^ LDBL_MANT_DIG in absolute value. *)
Theorem early_call_loses_no_bytes p calc early later control display k :
  let once := pv_calculate_transfer_rate p calc later control display false in
  let twice :=
    pv_calculate_transfer_rate p
      (pv_calculate_transfer_rate p calc early control display false)
      later control display false in
  let first_part := transferred early - prev_transferred calc in
  let second_part := transferred later - transferred early in
  (ldbl p (elapsed_seconds early - prev_elapsed_sec calc) <= c_0_01)%Q ->
  (c_0_01 < ldbl p (elapsed_seconds later - prev_elapsed_sec calc))%Q ->
  0 <= transferred early -> 0 <= transferred later ->
  fits_off_t first_part ->
  fits_off_t second_part ->
  fits_off_t (first_part + second_part) ->
  Float.MIN_EXP (Float.long_double p) <= Float.MANT_DIG (Float.long_double p) ->
  (prev_trans calc == inject_Z k)%Q ->
  exact_in (Float.long_double p) first_part ->
  exact_in (Float.long_double p) second_part ->
  exact_in (Float.long_double p) (first_part + second_part) ->
  exact_in (Float.long_double p) (k + first_part) ->
  exact_in (Float.long_double p) (k + first_part + second_part) ->
  transfer_rate twice = transfer_rate once
  /\ measurements_taken twice = measurements_taken once
  /\ measurements_taken
       (pv_calculate_transfer_rate p calc early control display false)
     = measurements_taken calc.
Proof.
  intros once twice first_part second_part Early Later T1 T2 F1 F2 F3
    Fmt K X1 X2 X3 X4 X5.
  unfold exact_in in *.
  unfold once, twice. clear once twice.
  remember (pv_calculate_transfer_rate p calc early control display false) as mid
    eqn:Hmid.
  destruct (calculate_statistics p calc early control display false)
    as (_ & _ & _ & M4 & M5 & M6 & _ & M8 & _).
  destruct (calculate_statistics p calc later control display false)
    as (_ & _ & _ & O4 & _ & _ & _ & _ & _ & O9).
  destruct (calculate_statistics p mid later control display false)
    as (_ & _ & _ & W4 & _ & _ & _ & _ & _ & W9).
  rewrite <- Hmid in M4, M5, M6, M8. clear Hmid.
  rewrite (O9 eq_refl), (W9 eq_refl), O4, W4.
  (* the early call *)
  assert (Mid : prev_elapsed_sec mid = prev_elapsed_sec calc
                /\ (prev_trans mid == inject_Z (k + first_part))%Q
                /\ prev_transferred mid = transferred early
                /\ measurements_taken mid = measurements_taken calc
                /\ measurements_taken (snd (measure_rate p calc early control))
                   = measurements_taken calc).
  { rewrite M4, M5, M6, M8. clear M4 M5 M6 M8. unfold measure_rate.
    destruct (Z.geb_spec (transferred early) 0) as [_|]; [|lia].
    fold first_part. rewrite (to_off_t_id _ F1).
    destruct calc as [tr ar pes pr pt car rmin rmax rsum rsq mt h hl hf hlast ptf pc].
    cbn -[Qleb Qplus Qminus Qdiv ldbl c_0_01 Float.of_integer] in *.
    destruct (Qleb (ldbl p (elapsed_seconds early - pes)) c_0_01) eqn:Short.
    - cbn -[ldbl Float.of_integer]. split; [reflexivity|].
      split; [|repeat split; reflexivity].
      unfold ldbl.
      assert (E : (pt + Float.of_integer (Float.long_double p) first_part
                   == inject_Z (k + first_part))%Q).
      { rewrite (of_integer_exact _ _ Fmt X1), K, inject_Z_plus. reflexivity. }
      rewrite (round_compat _ _ _ E). apply round_integer; assumption.
    - apply Qleb_false in Short. lra. }
  destruct Mid as (P1 & P2 & P3 & P4 & P5). clear M4 M5 M6 M8.
  assert (Sum : first_part + second_part
                = transferred later - prev_transferred calc)
    by (unfold first_part, second_part; ring).
  split; [|split; [|exact P4]].
  - unfold measure_rate.
    destruct (Z.geb_spec (transferred later) 0) as [_|]; [|lia].
    rewrite P3. fold second_part. rewrite <- Sum.
    rewrite (to_off_t_id _ F2), (to_off_t_id _ F3).
    destruct mid as [tr ar pes pr pt car rmin rmax rsum rsq mt h hl hf hlast ptf pc].
    destruct calc as [tr0 ar0 pes0 pr0 pt0 car0 rmin0 rmax0 rsum0 rsq0 mt0 h0 hl0 hf0
                        hlast0 ptf0 pc0].
    cbn -[Qleb Qplus Qminus Qdiv Qltb Qmult to_size_t Qeq inject_Z ldbl c_0_01
          Float.of_integer] in *.
    subst pes.
    destruct (Qleb (ldbl p (elapsed_seconds later - pes0)) c_0_01) eqn:Short.
    { apply Qleb_true in Short. lra. }
    cbn [fst]. unfold ldbl.
    assert (Ea : (Float.of_integer (Float.long_double p) second_part + pt
                  == inject_Z (k + first_part + second_part))%Q).
    { rewrite (of_integer_exact _ _ Fmt X2), P2, <- inject_Z_plus.
      apply inject_Z_injective. ring. }
    assert (Eb : (Float.of_integer (Float.long_double p) (first_part + second_part)
                  + pt0
                  == inject_Z (k + first_part + second_part))%Q).
    { rewrite (of_integer_exact _ _ Fmt X3), K, <- inject_Z_plus.
      apply inject_Z_injective. ring. }
    rewrite (round_compat _ _ _ Ea), (round_compat _ _ _ Eb). reflexivity.
  - unfold measure_rate.
    destruct (Z.geb_spec (transferred later) 0) as [_|]; [|lia].
    destruct mid as [tr ar pes pr pt car rmin rmax rsum rsq mt h hl hf hlast ptf pc].
    destruct calc as [tr0 ar0 pes0 pr0 pt0 car0 rmin0 rmax0 rsum0 rsq0 mt0 h0 hl0 hf0
                        hlast0 ptf0 pc0].
    cbn -[Qleb Qplus Qminus Qdiv Qltb Qmult to_size_t ldbl c_0_01
          Float.of_integer] in *.
    subst pes mt.
    destruct (Qleb (ldbl p (elapsed_seconds later - pes0)) c_0_01) eqn:Short.
    { apply Qleb_true in Short. lra. }
    cbn -[Qleb Qplus Qminus Qdiv Qltb Qmult to_size_t ldbl Float.of_integer].
    repeat match goal with
           | |- context [if ?b then _ else _] => destruct b
           end; reflexivity.
Qed.

Lemma early_call_loses_no_bytes_witness :
  (transfer_rate
     (pv_calculate_transfer_rate Float.x86_64
        (pv_calculate_transfer_rate Float.x86_64 idle_calc (progress 100 (1 # 200))
           (expecting 1000) plain_display false)
        (progress 500 2) (expecting 1000) plain_display false)
   == 250)%Q.
Proof.
  destruct (early_call_loses_no_bytes Float.x86_64 idle_calc
              (progress 100 (1 # 200)) (progress 500 2) (expecting 1000)
              plain_display 0)
    as (R & _).
  - vm_compute. discriminate.
  - vm_compute. reflexivity.
  - cbn. lia.
  - cbn. lia.
  - unfold fits_off_t. cbn. lia.
  - unfold fits_off_t. cbn. lia.
  - unfold fits_off_t. cbn. lia.
  - cbn. lia.
  - reflexivity.
  - unfold exact_in. cbn. lia.
  - unfold exact_in. cbn. lia.
  - unfold exact_in. cbn. lia.
  - unfold exact_in. cbn. lia.
  - unfold exact_in. cbn. lia.
  - rewrite R. vm_compute. reflexivity.
Defined.

Lemma history_put_length h i e :
  0 <= i < Z.of_nat (List.length h) ->
  List.length (history_put h i e) = List.length h.
Proof.
  intros I. unfold history_put.
  rewrite !length_app, length_firstn, length_skipn. cbn [List.length]. lia.
Qed.

Lemma history_put_get h i e :
  0 <= i < Z.of_nat (List.length h) ->
  history_get (history_put h i e) i = e
  /\ forall j, 0 <= j -> j <> i -> history_get (history_put h i e) j = history_get h j.
Proof.
  intros I. unfold history_put, history_get.
  assert (L : List.length (firstn (Z.to_nat i) h) = Z.to_nat i)
    by (rewrite length_firstn; lia).
  split.
  - rewrite app_nth2 by lia. rewrite L, Nat.sub_diag. reflexivity.
  - intros j J Ne.
    destruct (Z.ltb_spec j i).
    + rewrite app_nth1 by lia. rewrite nth_firstn.
      destruct (Nat.ltb_spec (Z.to_nat j) (Z.to_nat i)); [reflexivity|lia].
    + rewrite app_nth2 by lia. rewrite L.
      destruct (Z.to_nat j - Z.to_nat i)%nat as [|k] eqn:D; [lia|].
      cbn [app nth]. rewrite nth_skipn. f_equal. lia.
Qed.

(** The history of transfer positions is a ring inside its array: an update
    keeps both indices below [history_len] and the array at its length; and
    unless it came too soon after the previous one, the entry at the new
    [history_last] is the present position, every other entry being as it
    was. *)
Theorem history_stays_within_its_array p calc transfer interval rate h :
  let calc' := pv__update_average_rate_history p calc transfer interval rate in
  history calc = Some h ->
  0 < history_len calc <= Z.of_nat (List.length h) ->
  0 <= history_first calc < history_len calc ->
  0 <= history_last calc < history_len calc ->
  history_len calc' = history_len calc
  /\ 0 <= history_first calc' < history_len calc
  /\ 0 <= history_last calc' < history_len calc
  /\ exists h',
       history calc' = Some h'
       /\ List.length h' = List.length h
       /\ (calc' = calc
           \/ history_get h' (history_last calc')
              = (elapsed_seconds transfer, transferred transfer)
              /\ forall i, 0 <= i -> i <> history_last calc' ->
                   history_get h' i = history_get h i).
Proof.
  intros calc' H Len First Last. unfold calc', pv__update_average_rate_history.
  rewrite H.
  pose proof (Z.mod_pos_bound (history_last calc + 1) (history_len calc)
                ltac:(lia)) as ML.
  pose proof (Z.mod_pos_bound (history_first calc + 1) (history_len calc)
                ltac:(lia)) as MF.
  destruct calc as [tr ar pes pr pt car rmin rmax rsum rsq mt hh hl hf hlast ptf pc].
  cbn -[Qltb Qplus Qminus Qdiv Z.modulo history_put history_get ldbl
        Float.of_integer c_0_000001] in *.
  subst hh.
  destruct (Qltb 0 (fst (history_get h hlast))) eqn:Started;
    cbn -[Qltb Qplus Qminus Qdiv Z.modulo history_put history_get ldbl
          Float.of_integer c_0_000001].
  - destruct (Qltb (elapsed_seconds transfer)
                (ldbl p (fst (history_get h hlast)
                         + Float.of_integer (Float.long_double p) interval)))
      eqn:Soon;
      cbn -[Qltb Qplus Qminus Qdiv Z.modulo history_put history_get ldbl
            Float.of_integer c_0_000001].
    + repeat split; try lia. exists h. repeat split. left. reflexivity.
    + destruct (Z.eqb_spec ((hlast + 1) mod hl) hf) as [Full|Room];
        cbn -[Qltb Qplus Qminus Qdiv Z.modulo history_put history_get ldbl
              Float.of_integer c_0_000001];
        match goal with
        | |- context [if ?a =? ?b then _ else _] => destruct (a =? b)
        end;
        cbn -[Qltb Qplus Qminus Qdiv Z.modulo history_put history_get ldbl
              Float.of_integer c_0_000001];
        (repeat split; try lia;
         eexists; split; [reflexivity|];
         split; [apply history_put_length; lia|];
         right; apply history_put_get; lia).
  - match goal with
    | |- context [if ?a =? ?b then _ else _] => destruct (a =? b)
    end;
      cbn -[Qltb Qplus Qminus Qdiv Z.modulo history_put history_get ldbl
            Float.of_integer c_0_000001];
      (repeat split; try lia;
       eexists; split; [reflexivity|];
       split; [apply history_put_length; lia|];
       right; apply history_put_get; lia).
Qed.

Lemma history_stays_within_its_array_witness :
  let calc' :=
    pv__update_average_rate_history Float.x86_64 two_entry_history (progress 300 3)
      1 100%Q in
  history_first calc' = 1 /\ history_last calc' = 0
  /\ history calc' = Some [(3%Q, 300); (2%Q, 200)].
Proof.
  destruct (history_stays_within_its_array Float.x86_64 two_entry_history
              (progress 300 3) 1 100%Q [(1%Q, 100); (2%Q, 200)] eq_refl)
    as (_ & _ & _ & h' & _).
  - cbn. lia.
  - cbn. lia.
  - cbn. lia.
  - vm_compute. repeat split.
Defined.

End CalcOutcomes.

(** * The ways pv_remote_set can end *)

Module RemoteOutcomes.
Import Remote TransferFacts Examples Vocabulary.

Lemma sleeps_only n :
  count_events is_sleep (repeat sleep_event n) = n
  /\ count_events is_remove (repeat sleep_event n) = 0%nat
  /\ count_events is_error (repeat sleep_event n) = 0%nat.
Proof.
  unfold count_events. induction n as [|n (A & B & C)]; cbn; auto.
Qed.

(** pv_remote_set always returns, with 0 or PV_ERROREXIT_REMOTE_OR_PID; it
    removes the control file once if it was created and never otherwise,
    whichever step fails; and it prints a message whenever it returns
    nonzero. *)
Theorem control_file_is_removed_exactly_when_created env s remote :
  exists ret s' new,
    pv_remote_set env s remote = Some (ret, s')
    /\ s_trace s' = s_trace s ++ new
    /\ (ret = 0 \/ ret = PV_ERROREXIT_REMOTE_OR_PID)
    /\ count_events is_remove new = (if opened env then 1 else 0)%nat
    /\ (ret <> 0 -> (1 <= count_events is_error new)%nat).
Proof.
  unfold pv_remote_set, s_call, opened. cbn [fst snd].
  destruct (Z.eqb_spec (fst (rm_kill_check env)) 0) as [Kc|Kc]; cbn [negb andb].
  2:{ eexists _, _, _. split; [reflexivity|]. cbn [s_error s_emit s_trace].
      split; [rewrite <- app_assoc; reflexivity|]. split; [right; reflexivity|].
      split; [reflexivity|]. intros _. cbn. lia. }
  destruct (Z.ltb_spec (fst (rm_open env)) 0) as [Op|Op].
  { destruct (Z.leb_spec 0 (fst (rm_open env))); [lia|].
    eexists _, _, _. split; [reflexivity|]. cbn [s_error s_emit s_trace].
    split; [rewrite <- !app_assoc; reflexivity|]. split; [right; reflexivity|].
    split; [reflexivity|]. intros _. cbn. lia. }
  destruct (Z.leb_spec 0 (fst (rm_open env))); [|lia].
  destruct (Z.eqb_spec (fst (rm_fwrite env)) 1) as [Fw|Fw]; cbn [negb].
  2:{ eexists _, _, _. split; [reflexivity|]. cbn [s_error s_emit s_trace].
      split; [rewrite <- !app_assoc; reflexivity|]. split; [right; reflexivity|].
      split; [reflexivity|]. intros _. cbn. lia. }
  destruct (Z.eqb_spec (fst (rm_fclose env)) 0) as [Fc|Fc]; cbn [negb].
  2:{ eexists _, _, _. split; [reflexivity|]. cbn [s_error s_emit s_trace].
      split; [rewrite <- !app_assoc; reflexivity|]. split; [right; reflexivity|].
      split; [reflexivity|]. intros _. cbn. lia. }
  cbn [s_emit sg s_errno s_trace].
  set (g := pv_sigusr2_received (sg s) 0).
  assert (G : rxusr2 (snd g) = 0).
  { unfold g, pv_sigusr2_received. destruct (Z.eqb_spec (rxusr2 (sg s)) 0); cbn; auto. }
  destruct g as [[got signal_sender] g']. cbn [snd] in G.
  destruct (Z.eqb_spec (fst (rm_kill_signal env)) 0) as [Ks|Ks]; cbn [negb].
  2:{ eexists _, _, _. split; [reflexivity|]. cbn [s_error s_emit s_trace].
      split; [rewrite <- !app_assoc; reflexivity|]. split; [right; reflexivity|].
      split; [reflexivity|]. intros _. cbn. lia. }
  match goal with
  | |- context [wait_for_ack 110 env remote 1100000 false signal_sender 0 ?s0] =>
      destruct (RemoteSpec.wait_for_ack_spec env remote 110 0 signal_sender s0)
        as (received & s1 & n & W & T & E & _ & _); [exact G|lia|lia|]
  end.
  change (1100000 - 10000 * Z.of_nat 0) with 1100000 in W.
  rewrite W. cbn [s_trace s_errno] in T, E. cbv zeta.
  destruct (sleeps_only n) as (Cs & Cr & Ce).
  destruct received;
    destruct (Z.eqb_spec (fst (rm_remove env)) 0) as [Rm|Rm]; cbn [negb];
    eexists _, _, _; (split; [reflexivity|]);
    cbn [s_error s_emit s_trace]; rewrite T;
    (split; [rewrite <- !app_assoc; reflexivity|]);
    rewrite !count_events_app, Cr, Ce;
    (split; [(left; reflexivity) || (right; reflexivity)|]);
    (split; [reflexivity|]); intros Nz; cbn; try lia; contradiction.
Qed.

(** A failure at any step up to the sending of the signal: pv_remote_set
    returns PV_ERROREXIT_REMOTE_OR_PID at once, without waiting, having
    printed one message, which is not "message not received"; and unless
    the control file was written and closed, no SIGUSR2 is sent. *)
Theorem failed_setup_is_reported_without_waiting env s remote :
  fst (rm_kill_check env) <> 0 \/ fst (rm_open env) < 0 \/ fst (rm_fwrite env) <> 1
  \/ fst (rm_fclose env) <> 0 \/ fst (rm_kill_signal env) <> 0 ->
  exists s' new,
    pv_remote_set env s remote = Some (PV_ERROREXIT_REMOTE_OR_PID, s')
    /\ s_trace s' = s_trace s ++ new
    /\ count_events is_sleep new = 0%nat
    /\ count_events is_error new = 1%nat
    /\ count_events (is_message MsgNotReceived) new = 0%nat
    /\ (fst (rm_kill_check env) <> 0 \/ fst (rm_open env) < 0 \/ fst (rm_fwrite env) <> 1
        \/ fst (rm_fclose env) <> 0 ->
        ~ In (EvKill remote SIGUSR2) new).
Proof.
  intros Failure. unfold pv_remote_set, s_call. cbn [fst snd].
  assert (NoSignal : forall l : list event,
             (forall e, In e l -> e <> EvKill remote SIGUSR2) ->
             ~ In (EvKill remote SIGUSR2) l).
  { intros l A I. apply (A _ I). reflexivity. }
  destruct (Z.eqb_spec (fst (rm_kill_check env)) 0) as [Kc|Kc]; cbn [negb].
  2:{ eexists _, _. split; [reflexivity|]. cbn [s_error s_emit s_trace].
      split; [rewrite <- !app_assoc; reflexivity|].
      repeat split. intros _ [A|[A|[]]]; discriminate A. }
  destruct (Z.ltb_spec (fst (rm_open env)) 0) as [Op|Op].
  { eexists _, _. split; [reflexivity|]. cbn [s_error s_emit s_trace].
    split; [rewrite <- !app_assoc; reflexivity|].
    repeat split. intros _ [A|[A|[A|[]]]]; discriminate A. }
  destruct (Z.eqb_spec (fst (rm_fwrite env)) 1) as [Fw|Fw]; cbn [negb].
  2:{ eexists _, _. split; [reflexivity|]. cbn [s_error s_emit s_trace].
      split; [rewrite <- !app_assoc; reflexivity|].
      repeat split. intros _ [A|[A|[A|[A|[A|[A|[]]]]]]]; discriminate A. }
  destruct (Z.eqb_spec (fst (rm_fclose env)) 0) as [Fc|Fc]; cbn [negb].
  2:{ eexists _, _. split; [reflexivity|]. cbn [s_error s_emit s_trace].
      split; [rewrite <- !app_assoc; reflexivity|].
      repeat split. intros _ [A|[A|[A|[A|[A|[A|[]]]]]]]; discriminate A. }
  cbn [s_emit sg s_errno s_trace].
  destruct (pv_sigusr2_received (sg s) 0) as [[got signal_sender] g'].
  destruct (Z.eqb_spec (fst (rm_kill_signal env)) 0) as [Ks|Ks]; cbn [negb].
  { exfalso. destruct Failure as [F|[F|[F|[F|F]]]]; lia. }
  eexists _, _. split; [reflexivity|]. cbn [s_error s_emit s_trace].
  split; [rewrite <- !app_assoc; reflexivity|].
  repeat split. intros [F|[F|[F|F]]]; lia.
Qed.

Lemma failed_setup_witness :
  exists s',
    pv_remote_set
      {| rm_kill_check := (-1, EOTHER); rm_open := (3, ENONE); rm_fwrite := (1, ENONE);
         rm_fclose := (0, ENONE); rm_kill_signal := (0, ENONE);
         rm_arrivals := fun _ => []; rm_remove := (0, ENONE) |}
      fresh_sender 4242
    = Some (PV_ERROREXIT_REMOTE_OR_PID, s')
    /\ s_trace s' = [EvKill 4242 0; EvError (MsgRemote EOTHER)].
Proof.
  destruct (failed_setup_is_reported_without_waiting
              {| rm_kill_check := (-1, EOTHER); rm_open := (3, ENONE); rm_fwrite := (1, ENONE);
                 rm_fclose := (0, ENONE); rm_kill_signal := (0, ENONE);
                 rm_arrivals := fun _ => []; rm_remove := (0, ENONE) |}
              fresh_sender 4242)
    as (s' & new & Run & _).
  - left. cbn. discriminate.
  - exists s'. split; [exact Run|].
    vm_compute in Run. injection Run as <-. reflexivity.
Defined.

End RemoteOutcomes.

(** * Placing formatted content in the display buffer *)

Module DisplayOutcomes.
Import Display IntFacts BufferFacts Examples.

Lemma length_list_byte_of_string s :
  List.length (list_byte_of_string s) = String.length s.
Proof.
  unfold list_byte_of_string.
  induction s as [|c s IH]; cbn [list_ascii_of_string map List.length String.length];
    congruence.
Qed.

(** [pv_formatter_segmentcontent] puts the whole of the string in the buffer
    at the current offset when it ends before the last byte of the buffer,
    touching nothing else; otherwise it puts nothing at all and reports 0
    bytes.  Either way the segment records the offset and the byte count
    returned, and nothing is written outside the buffer. *)
Theorem segment_content_is_all_or_nothing content info :
  let text := list_byte_of_string (c_string content) in
  let n := Z.of_nat (List.length text) in
  let r := pv_formatter_segmentcontent content info in
  let info' := snd r in
  0 <= fa_offset info -> n < 2 ^ 16 ->
  fa_buffer_size info <= Z.of_nat (List.length (fa_buffer info)) ->
  seg_offset (fa_segment info') = fa_offset info
  /\ seg_bytes (fa_segment info') = fst r
  /\ List.length (fa_buffer info') = List.length (fa_buffer info)
  /\ (fa_offset info + n < fa_buffer_size info ->
      fst r = n
      /\ buf_slice (fa_buffer info') (fa_offset info) n = text
      /\ forall i, 0 <= i -> i < fa_offset info \/ fa_offset info + n <= i ->
           buf_get (fa_buffer info') i = buf_get (fa_buffer info) i)
  /\ (fa_buffer_size info <= fa_offset info + n ->
      fst r = 0 /\ fa_buffer info' = fa_buffer info).
Proof.
  intros text n r info' Off Short Size.
  unfold info', r, pv_formatter_segmentcontent.
  assert (N : to_uint16 (Z.of_nat (String.length (c_string content))) = n).
  { unfold n, text. rewrite length_list_byte_of_string.
    apply to_uint16_id. unfold fits_uint16. split; [lia|].
    unfold n, text in Short. rewrite length_list_byte_of_string in Short. exact Short. }
  rewrite N. fold text.
  destruct (Z.geb_spec (fa_offset info) (fa_buffer_size info)) as [Past|Within].
  - destruct (Z.geb_spec (fa_offset info + 0) (fa_buffer_size info)); [|lia].
    cbn. repeat split; try lia.
  - destruct (Z.geb_spec (fa_offset info + n) (fa_buffer_size info)) as [Over|Fits].
    + cbn. repeat split; try lia.
    + destruct (Z.eqb_spec n 0) as [Empty|Some_].
      * cbn. rewrite Empty. repeat split; try lia.
        -- unfold buf_slice. destruct text; [reflexivity|].
           unfold n in Empty. cbn in Empty. lia.
      * cbn [fst snd fa_segment fa_buffer with_segment with_buffer set_seg_content
               seg_offset seg_bytes fa_offset].
        assert (T : firstn (Z.to_nat n) text = text).
        { unfold n. rewrite Nat2Z.id. apply firstn_all. }
        rewrite T.
        split; [reflexivity|]. split; [reflexivity|].
        split; [apply buf_store_length; lia|].
        split; [|lia]. intros _.
        split; [reflexivity|]. split.
        -- unfold n. apply buf_store_slice. lia.
        -- intros i I O. apply buf_store_outside; try lia.
Qed.

Lemma segment_content_witness :
  let r :=
    pv_formatter_segmentcontent "12345" (formatter_args 0 0 0 false) in
  fst r = 5 /\ buf_slice (fa_buffer (snd r)) 0 5 = [x31; x32; x33; x34; x35].
Proof.
  destruct (segment_content_is_all_or_nothing "12345" (formatter_args 0 0 0 false))
    as (_ & _ & _ & Fits & _).
  - cbn. lia.
  - cbn. lia.
  - cbn. lia.
  - destruct Fits as (A & B & _); [cbn; lia|]. split; [exact A|exact B].
Defined.

End DisplayOutcomes.

(** * Looking for the last newline *)

Module LineOutcomes.
Import Transfer IntFacts BufferFacts Examples Fixtures.

(** [pv_memrchr] gives the offset of the last byte equal to [match_] among
    the first [length] bytes of the buffer, and NULL exactly when none of
    them is. *)
Theorem memrchr_finds_the_last_match buffer match_ length :
  length <= Z.of_nat (List.length buffer) ->
  match pv_memrchr buffer match_ length with
  | Some k =>
      0 <= k < length /\ buf_get buffer k = match_
      /\ forall j, k < j < length -> buf_get buffer j <> match_
  | None => forall j, 0 <= j < length -> buf_get buffer j <> match_
  end.
Proof.
  intros _. unfold pv_memrchr.
  destruct (Z.ltb_spec length 1) as [Empty|Some_].
  - intros j J. lia.
  - pose proof (TransferSpec.memrchr_from_last buffer match_ (Z.to_nat length)) as S.
    destruct (memrchr_from buffer match_ (Z.to_nat length)) as [k|].
    + destruct S as (R & At & Last). split; [lia|]. split; [exact At|].
      intros j J. unfold buf_get. apply Last. lia.
    + intros j J. unfold buf_get. apply S. lia.
Qed.

Lemma memrchr_witness : pv_memrchr three_lines NEWLINE 8 = Some 5.
Proof.
  pose proof (memrchr_finds_the_last_match three_lines NEWLINE 8
                ltac:(cbn; lia)) as S.
  destruct (pv_memrchr three_lines NEWLINE 8) as [k|] eqn:E.
  - destruct S as (R & At & Last).
    destruct (Z.lt_trichotomy k 5) as [Lt|[->|Gt]]; [|reflexivity|].
    + exfalso. apply (Last 5); [lia|reflexivity].
    + exfalso.
      assert (K : k = 6 \/ k = 7) by lia.
      destruct K as [-> | ->]; discriminate At.
  - exfalso. apply (S 5); [lia|reflexivity].
Defined.

End LineOutcomes.

(** * The copy kept of the last bytes written *)

Module WindowOutcomes.
Import Transfer IntFacts BufferFacts Vocabulary Examples Fixtures.

(** With --last-written the display keeps a window of [lastwritten_bytes]
    bytes.  After a write the window holds the last [lastwritten_bytes]
    bytes of what it held followed by what was just written; its length and
    the bytes after the window are untouched. *)
Theorem last_written_window_slides buf write_position nwritten d :
  let size := lastwritten_bytes d in
  let old := lastwritten_buffer d in
  let written := buf_slice buf (write_position - nwritten) nwritten in
  let d' := update_lastwritten buf write_position nwritten d in
  0 <= size <= Z.of_nat (List.length old) ->
  0 < nwritten <= write_position ->
  write_position <= Z.of_nat (List.length buf) ->
  buf_slice (lastwritten_buffer d') 0 size
  = lastn (Z.to_nat size) (buf_slice old 0 size ++ written)
  /\ List.length (lastwritten_buffer d') = List.length old
  /\ (forall i, size <= i -> buf_get (lastwritten_buffer d') i = buf_get old i)
  /\ lastwritten_bytes d' = size.
Proof.
  intros size old written d' Size N Fit.
  unfold d', update_lastwritten. fold size old.
  set (new_portion_size := if nwritten >? size then size else nwritten).
  set (old_portion_size := size - new_portion_size).
  assert (New : 0 <= new_portion_size <= size /\ new_portion_size <= nwritten).
  { unfold new_portion_size. destruct (Z.gtb_spec nwritten size); lia. }
  set (kept := buf_slice old new_portion_size old_portion_size).
  set (fresh := buf_slice buf (write_position - new_portion_size) new_portion_size).
  assert (Lk : List.length kept = Z.to_nat old_portion_size).
  { apply buf_slice_length; unfold old_portion_size; lia. }
  assert (Lf : List.length fresh = Z.to_nat new_portion_size).
  { apply buf_slice_length; lia. }
  set (moved := if old_portion_size >? 0 then buf_store old 0 kept else old).
  assert (M : List.length moved = List.length old
              /\ buf_slice moved 0 old_portion_size = kept
              /\ forall i, size <= i -> buf_get moved i = buf_get old i).
  { unfold moved. destruct (Z.gtb_spec old_portion_size 0) as [Pos|Zero].
    - split; [apply buf_store_length; unfold old_portion_size in *; lia|]. split.
      + pose proof (buf_store_prefix old 0 kept ltac:(lia) ltac:(lia)) as S.
        rewrite Lk, Z2Nat.id in S by lia. cbn [Z.add] in S. exact S.
      + intros i I. apply buf_store_beyond; unfold old_portion_size in *; lia.
    - split; [reflexivity|]. split; [|reflexivity].
      assert (E : old_portion_size = 0) by (unfold old_portion_size in *; lia).
      unfold kept. rewrite E. reflexivity. }
  destruct M as (M1 & M2 & M3).
  destruct d as [pl nl lwb io nll lb slw spl fu op]. cbn [lastwritten_buffer
    lastwritten_bytes set_lastwritten_buffer] in *.
  split; [|split; [|split; [|reflexivity]]].
  - pose proof (buf_store_prefix moved old_portion_size fresh
                  ltac:(unfold old_portion_size; lia)
                  ltac:(unfold old_portion_size; lia)) as S.
    rewrite Lf, Z2Nat.id in S by lia.
    replace (old_portion_size + new_portion_size) with size in S
      by (unfold old_portion_size; lia).
    rewrite S, M2. clear S.
    unfold lastn, kept, fresh, written, buf_slice, old_portion_size.
    cbn [Z.to_nat skipn].
    assert (Lw : List.length
                   (firstn (Z.to_nat nwritten)
                      (skipn (Z.to_nat (write_position - nwritten)) buf))
                 = Z.to_nat nwritten).
    { rewrite length_firstn, length_skipn. lia. }
    assert (Lo : List.length (firstn (Z.to_nat size) old) = Z.to_nat size).
    { rewrite length_firstn. lia. }
    rewrite length_app, Lw, Lo.
    replace (Z.to_nat size + Z.to_nat nwritten - Z.to_nat size)%nat
      with (Z.to_nat nwritten) by lia.
    rewrite skipn_app, Lo.
    unfold new_portion_size in *.
    destruct (Z.gtb_spec nwritten size) as [More|Less].
    + rewrite Z.sub_diag. cbn [Z.to_nat firstn app].
      rewrite (skipn_all2 (firstn (Z.to_nat size) old)) by lia. cbn [app].
      rewrite skipn_firstn_comm.
      replace (Z.to_nat nwritten - (Z.to_nat nwritten - Z.to_nat size))%nat
        with (Z.to_nat size) by lia.
      rewrite skipn_skipn. f_equal. f_equal. lia.
    + replace (Z.to_nat nwritten - Z.to_nat size)%nat with 0%nat by lia.
      cbn [skipn]. f_equal.
      rewrite skipn_firstn_comm. f_equal. lia.
  - rewrite buf_store_length; [exact M1| |]; unfold old_portion_size; lia.
  - intros i I. rewrite buf_store_beyond; [apply M3; exact I| | |];
      unfold old_portion_size; lia.
Qed.

Lemma last_written_window_slides_witness :
  let d := {| previous_line := []; next_line := [];
              lastwritten_buffer := [x31; x32; x33; x34] ++ repeat NUL 252;
              initial_offset := 0; next_line_len := 0; lastwritten_bytes := 4;
              showing_last_written := true; showing_previous_line := false;
              final_update := false; output_produced := false |} in
  buf_slice (lastwritten_buffer (update_lastwritten three_lines 2 2 d)) 0 4
  = [x33; x34; x61; x62].
Proof.
  intros d.
  destruct (last_written_window_slides three_lines 2 2 d) as (W & _).
  - cbn. lia.
  - lia.
  - cbn. lia.
  - etransitivity; [exact W|reflexivity].
Defined.

End WindowOutcomes.

(** * Reading numbers: pv_getnum_size and pv_getnum_check *)

Module NumberOutcomes.
Import Display Number IntFacts Vocabulary.

Lemma of_uint_acc_grows d : forall acc,
  Zpos acc <= Zpos (Pos.of_uint_acc d acc).
Proof.
  induction d; intros acc; cbn [Pos.of_uint_acc]; try lia;
    match goal with
    | |- _ <= Zpos (Pos.of_uint_acc _ ?a) => specialize (IHd a); lia
    end.
Qed.

Lemma parse_integral_stops acc s :
  stops_digits s -> parse_integral acc s = (acc, s).
Proof.
  unfold stops_digits. destruct s as [|c s]; cbn [current parse_integral].
  - reflexivity.
  - intros ->. reflexivity.
Qed.

Ltac digit_step IHd :=
  match goal with
  | |- context [pv_isdigit ?c] =>
      change (pv_isdigit c) with true; cbv iota;
      match goal with
      | |- context [digit_value c] =>
          let v := eval vm_compute in (digit_value c) in
          change (digit_value c) with v
      end
  end.

Lemma parse_integral_acc d : forall acc rest,
  stops_digits rest ->
  Zpos (Pos.of_uint_acc d acc) < 2 ^ 63 ->
  parse_integral (Zpos acc) (NilEmpty.string_of_uint d ++ rest)
  = (Zpos (Pos.of_uint_acc d acc), rest).
Proof.
  induction d; intros acc rest Stop Fit;
    cbn [NilEmpty.string_of_uint append Pos.of_uint_acc parse_integral] in *.
  1: { apply parse_integral_stops. exact Stop. }
  all: digit_step IHd;
    match type of Fit with
    | Zpos (Pos.of_uint_acc _ ?a) < _ =>
        pose proof (of_uint_acc_grows d a) as G;
        rewrite (to_off_t_id (Zpos acc * 10)) by (unfold fits_off_t; lia);
        rewrite to_off_t_id by (unfold fits_off_t; lia);
        replace (Zpos acc * 10 + _) with (Zpos a) by lia;
        apply IHd; assumption
    end.
Qed.

Lemma parse_integral_digits d : forall rest,
  stops_digits rest ->
  Z.of_N (Pos.of_uint d) < 2 ^ 63 ->
  parse_integral 0 (NilEmpty.string_of_uint d ++ rest)
  = (Z.of_N (Pos.of_uint d), rest).
Proof.
  induction d; intros rest Stop Fit;
    cbn [NilEmpty.string_of_uint append Pos.of_uint parse_integral] in *.
  1: { apply parse_integral_stops. exact Stop. }
  1: { digit_step IHd. cbn [Z.mul Z.add]. change (to_off_t 0) with 0.
       apply IHd; assumption. }
  all: digit_step IHd; cbn [Z.mul Z.add]; change (to_off_t 0) with 0;
    cbn [Z.add]; rewrite to_off_t_id by (unfold fits_off_t; lia);
    cbn [Z.of_N]; apply parse_integral_acc; [exact Stop|exact Fit].
Qed.

(** What "%ld" prints for a number that is not negative is read back. *)
Lemma parse_integral_fmt_ld n rest :
  0 <= n < 2 ^ 63 -> stops_digits rest ->
  parse_integral 0 (fmt_ld n ++ rest) = (n, rest).
Proof.
  intros N Stop. unfold fmt_ld.
  destruct n as [|p|p]; [| |lia].
  - cbn [Z.to_int NilZero.string_of_int NilZero.string_of_uint].
    exact (parse_integral_digits (Decimal.D0 Decimal.Nil) rest Stop ltac:(cbn; lia)).
  - cbn [Z.to_int NilZero.string_of_int].
    pose proof (DecimalPos.Unsigned.of_to p) as OT.
    pose proof (DecimalPos.Unsigned.to_uint_nonnil p) as NN.
    assert (E : NilZero.string_of_uint (Pos.to_uint p)
                = NilEmpty.string_of_uint (Pos.to_uint p)).
    { destruct (Pos.to_uint p); [contradiction|reflexivity..]. }
    rewrite E.
    rewrite parse_integral_digits; [rewrite OT; reflexivity|exact Stop|].
    rewrite OT. cbn [Z.of_N]. lia.
Qed.

Lemma c_string_append a b :
  no_nul a = true -> c_string (a ++ b) = (a ++ c_string b)%string.
Proof.
  induction a as [|c a IH]; cbn [no_nul append c_string]; [reflexivity|].
  intros N. apply andb_prop in N. destruct N as (C & N).
  apply negb_true_iff in C. rewrite C, (IH N). reflexivity.
Qed.

Lemma append_empty s : (s ++ "")%string = s.
Proof. induction s as [|c s IH]; cbn [append]; congruence. Qed.

Lemma c_string_plain a : no_nul a = true -> c_string a = a.
Proof.
  intros N. rewrite <- (append_empty a) at 1.
  rewrite c_string_append by exact N. apply append_empty.
Qed.

(** "%ld" of a number that is not negative starts with a digit. *)
Lemma fmt_ld_starts_with_digit n :
  0 <= n -> exists c s, fmt_ld n = String c s /\ pv_isdigit c = true.
Proof.
  intros N. unfold fmt_ld. destruct n as [|p|p]; [| |lia].
  - exists "0"%char, EmptyString. split; reflexivity.
  - cbn [Z.to_int NilZero.string_of_int].
    pose proof (DecimalPos.Unsigned.to_uint_nonnil p) as NN.
    destruct (Pos.to_uint p); [contradiction|..];
      cbn [NilZero.string_of_uint NilEmpty.string_of_uint];
      eexists _, _; (split; [reflexivity|reflexivity]).
Qed.

Lemma skip_non_digits_at_digit c s :
  pv_isdigit c = true -> skip_non_digits (String c s) = String c s.
Proof. intros D. cbn [skip_non_digits]. rewrite D. reflexivity. Qed.

Lemma skip_blanks_spaces k c rest :
  is_blank c = false ->
  skip_blanks (spaces k ++ String c rest) = String c rest.
Proof.
  intros B. induction k as [|k IH]; cbn [spaces append skip_blanks].
  - rewrite B. reflexivity.
  - change (is_blank " ") with true. cbv iota. exact IH.
Qed.

Lemma no_nul_spaces k : no_nul (spaces k) = true.
Proof. induction k as [|k IH]; cbn [spaces no_nul]; [reflexivity|exact IH]. Qed.

(** The tail after the number: blanks, then a character that is neither a
    digit, a blank, a decimal mark nor the terminating null. *)
Lemma tail_shape k c rest :
  pv_isdigit c = false -> is_blank c = false -> is_decimal_mark c = false ->
  c <> "000"%char ->
  let tail := (spaces k ++ String c (c_string rest))%string in
  c_string (spaces k ++ String c rest) = tail
  /\ stops_digits tail
  /\ is_decimal_mark (current tail) = false
  /\ (exists h t, tail = String h t)
  /\ skip_blanks tail = String c (c_string rest).
Proof.
  intros D B M NZ tail.
  assert (NZb : Ascii.eqb c "000" = false) by (apply Ascii.eqb_neq; exact NZ).
  split.
  { rewrite c_string_append by apply no_nul_spaces.
    cbn [c_string]. rewrite NZb. reflexivity. }
  split.
  { unfold stops_digits, tail. destruct k; cbn [spaces append current];
      [exact D|reflexivity]. }
  split.
  { unfold tail. destruct k; cbn [spaces append current]; [exact M|reflexivity]. }
  split.
  { unfold tail. destruct k; cbn [spaces append]; eexists _, _; reflexivity. }
  apply skip_blanks_spaces. exact B.
Qed.

Lemma units_of_factor c :
  let '(binary_shift, decimal_multiplier) := units_of c in
  (binary_shift = 0 \/ binary_shift = 10 \/ binary_shift = 20
   \/ binary_shift = 30 \/ binary_shift = 40)
  /\ units_factor c false = 2 ^ binary_shift
  /\ units_factor c true
     = (if decimal_multiplier >? 0 then decimal_multiplier else 1)
  /\ 0 <= decimal_multiplier <= 1000000000000.
Proof.
  unfold units_of, units_factor, units_exponent.
  destruct (Ascii.eqb c "k" || Ascii.eqb c "K");
    [|destruct (Ascii.eqb c "m" || Ascii.eqb c "M");
      [|destruct (Ascii.eqb c "g" || Ascii.eqb c "G");
        [|destruct (Ascii.eqb c "t" || Ascii.eqb c "T")]]];
    (split; [lia|split; [reflexivity|split; [reflexivity|lia]]]).
Qed.

Lemma shift_left_done turns integral_part fractional_part :
  shift_left turns 0 integral_part fractional_part
  = (integral_part, fractional_part).
Proof. destruct turns; reflexivity. Qed.

Lemma shift_left_turn turns binary_shift integral_part fractional_part :
  0 < binary_shift ->
  shift_left (S turns) binary_shift integral_part fractional_part
  = shift_left turns
      (to_uint (binary_shift - (if binary_shift >? 30 then 30 else binary_shift)))
      (to_off_t (Z.shiftl integral_part
                   (if binary_shift >? 30 then 30 else binary_shift)))
      (to_off_t (Z.shiftl fractional_part
                   (if binary_shift >? 30 then 30 else binary_shift))).
Proof.
  intros P. cbn [shift_left].
  destruct (Z.gtb_spec binary_shift 0); [reflexivity|lia].
Qed.

Lemma shift_left_scales binary_shift integral_part fractional_part :
  binary_shift = 0 \/ binary_shift = 10 \/ binary_shift = 20
  \/ binary_shift = 30 \/ binary_shift = 40 ->
  0 <= integral_part -> integral_part * 2 ^ binary_shift < 2 ^ 63 ->
  0 <= fractional_part -> fractional_part * 2 ^ binary_shift < 2 ^ 63 ->
  shift_left (Z.to_nat binary_shift) binary_shift integral_part fractional_part
  = (integral_part * 2 ^ binary_shift, fractional_part * 2 ^ binary_shift).
Proof.
  intros S I IF F FF.
  assert (Step : forall x k, 0 <= x -> 0 <= k -> x * 2 ^ k < 2 ^ 63 ->
                        to_off_t (Z.shiftl x k) = x * 2 ^ k).
  { intros x k X K XF. rewrite Z.shiftl_mul_pow2 by lia.
    apply to_off_t_id. unfold fits_off_t. nia. }
  destruct S as [->|[->|[->|[->| ->]]]].
  - rewrite shift_left_done. f_equal; lia.
  - change (Z.to_nat 10) with (S 9). rewrite shift_left_turn by lia.
    change (10 >? 30) with false. cbv iota.
    change (to_uint (10 - 10)) with 0. rewrite shift_left_done.
    rewrite !Step by lia. reflexivity.
  - change (Z.to_nat 20) with (S 19). rewrite shift_left_turn by lia.
    change (20 >? 30) with false. cbv iota.
    change (to_uint (20 - 20)) with 0. rewrite shift_left_done.
    rewrite !Step by lia. reflexivity.
  - change (Z.to_nat 30) with (S 29). rewrite shift_left_turn by lia.
    change (30 >? 30) with false. cbv iota.
    change (to_uint (30 - 30)) with 0. rewrite shift_left_done.
    rewrite !Step by lia. reflexivity.
  - change (Z.to_nat 40) with (S (S 38)). rewrite shift_left_turn by lia.
    change (40 >? 30) with true. cbv iota.
    change (to_uint (40 - 30)) with 10. rewrite shift_left_turn by lia.
    change (10 >? 30) with false. cbv iota.
    change (to_uint (10 - 10)) with 0. rewrite shift_left_done.
    assert (A : integral_part * 2 ^ 30 < 2 ^ 63) by lia.
    assert (B : fractional_part * 2 ^ 30 < 2 ^ 63) by lia.
    rewrite (Step integral_part 30), (Step fractional_part 30) by lia.
    rewrite !Step by lia.
    f_equal; lia.
Qed.

Lemma digit_not_blank c : pv_isdigit c = true -> is_blank c = false.
Proof.
  intros D. unfold is_blank.
  destruct (Ascii.eqb_spec c " ") as [->|_]; [discriminate D|].
  destruct (Ascii.eqb_spec c "009") as [->|_]; [discriminate D|]. reflexivity.
Qed.

Lemma skip_digits_stops s : stops_digits s -> skip_digits s = s.
Proof.
  unfold stops_digits. destruct s as [|c s]; cbn [current skip_digits];
    [reflexivity|]. intros ->. reflexivity.
Qed.

Lemma skip_digits_uint d : forall rest,
  stops_digits rest -> skip_digits (NilEmpty.string_of_uint d ++ rest) = rest.
Proof.
  induction d; intros rest Stop;
    cbn [NilEmpty.string_of_uint append skip_digits].
  1: { apply skip_digits_stops. exact Stop. }
  all: match goal with
       | |- context [pv_isdigit ?c] => change (pv_isdigit c) with true
       end; cbv iota; apply IHd; exact Stop.
Qed.

Lemma skip_digits_fmt_ld n rest :
  0 <= n -> stops_digits rest -> skip_digits (fmt_ld n ++ rest) = rest.
Proof.
  intros N Stop. unfold fmt_ld. destruct n as [|p|p]; [| |lia].
  - exact (skip_digits_uint (Decimal.D0 Decimal.Nil) rest Stop).
  - cbn [Z.to_int NilZero.string_of_int].
    pose proof (DecimalPos.Unsigned.to_uint_nonnil p) as NN.
    assert (E : NilZero.string_of_uint (Pos.to_uint p)
                = NilEmpty.string_of_uint (Pos.to_uint p)).
    { destruct (Pos.to_uint p); [contradiction|reflexivity..]. }
    rewrite E. apply skip_digits_uint. exact Stop.
Qed.

Lemma fmt_ld_no_nul n : 0 <= n < 2 ^ 63 -> no_nul (fmt_ld n) = true.
Proof.
  intros N. apply (EtaSpec.fmt_ld_plain n 63). exact N.
Qed.

(** [pv_getnum_size] on a number that "%ld" printed, followed by something
    that is neither a digit nor a decimal mark: the factor is that of the
    character the units are looked for at. *)
Lemma size_of_integer str n tail c decimal_units :
  0 <= n < 2 ^ 63 ->
  c_string str = (fmt_ld n ++ tail)%string ->
  stops_digits tail -> is_decimal_mark (current tail) = false ->
  match tail with
  | EmptyString => (0, 0)
  | String _ _ => units_of (current (skip_blanks tail))
  end = units_of c ->
  n * units_factor c decimal_units < 2 ^ 63 ->
  pv_getnum_size (Some str) decimal_units = n * units_factor c decimal_units.
Proof.
  intros N Str Stop Mark Units Fit. unfold pv_getnum_size. rewrite Str.
  destruct (fmt_ld_starts_with_digit n ltac:(lia)) as (h & t & Shape & Digit).
  assert (Skip : skip_non_digits (fmt_ld n ++ tail) = (fmt_ld n ++ tail)%string).
  { rewrite Shape. cbn [append]. apply skip_non_digits_at_digit. exact Digit. }
  rewrite Skip, (parse_integral_fmt_ld n tail N Stop), Mark, Units.
  pose proof (units_of_factor c) as U.
  destruct (units_of c) as [binary_shift decimal_multiplier].
  destruct U as (Shift & Binary & Decimal & _).
  destruct decimal_units.
  - rewrite Decimal in *. cbn [Z.to_nat shift_left]. revert Fit.
    destruct (Z.gtb_spec decimal_multiplier 0); intros Fit.
    + cbn [Z.mul]. change (to_off_t 0) with 0.
      change (Z.quot 0 1) with 0. rewrite Z.add_0_r.
      rewrite (to_off_t_id (n * decimal_multiplier)) by (unfold fits_off_t; nia).
      apply to_off_t_id. unfold fits_off_t. nia.
    + change (Z.quot 0 1) with 0. rewrite Z.add_0_r.
      rewrite to_off_t_id by (unfold fits_off_t; lia). lia.
  - rewrite Binary in *.
    rewrite shift_left_scales by (try exact Shift; lia).
    change (0 >? 0) with false. cbv iota. cbn [Z.mul].
    change (Z.quot 0 1) with 0. rewrite Z.add_0_r.
    assert (0 < 2 ^ binary_shift) by (apply Z.pow_pos_nonneg; lia).
    apply to_off_t_id. unfold fits_off_t. nia.
Qed.

(** A number printed with "%ld" that is not negative passes
    [pv_getnum_check] for every type of number, and [pv_getnum_size] and
    [pv_getnum_count] read it back, the latter as an unsigned int. *)
Theorem printed_number_is_accepted_and_read_back n type decimal_units :
  0 <= n < 2 ^ 63 ->
  pv_getnum_check (Some (fmt_ld n)) type = true
  /\ pv_getnum_size (Some (fmt_ld n)) decimal_units = n
  /\ pv_getnum_count (Some (fmt_ld n)) decimal_units = n mod 2 ^ 32.
Proof.
  intros N.
  assert (Size : pv_getnum_size (Some (fmt_ld n)) decimal_units = n).
  { rewrite (size_of_integer (fmt_ld n) n EmptyString "000" decimal_units N).
    - unfold units_factor. cbn [units_exponent]. change (units_exponent "000") with 0.
      rewrite Z.pow_0_r. lia.
    - rewrite append_empty. apply c_string_plain, fmt_ld_no_nul, N.
    - reflexivity.
    - reflexivity.
    - reflexivity.
    - unfold units_factor. change (units_exponent "000") with 0.
      rewrite Z.pow_0_r. lia. }
  split; [|split; [exact Size|unfold pv_getnum_count; rewrite Size; reflexivity]].
  unfold pv_getnum_check.
  rewrite (c_string_plain _ (fmt_ld_no_nul n N)).
  destruct (fmt_ld_starts_with_digit n ltac:(lia)) as (h & t & Shape & Digit).
  assert (Blank : skip_blanks (fmt_ld n) = fmt_ld n).
  { rewrite Shape. cbn [skip_blanks]. rewrite (digit_not_blank h Digit). reflexivity. }
  rewrite Blank.
  assert (Cur : pv_isdigit (current (fmt_ld n)) = true).
  { rewrite Shape. exact Digit. }
  rewrite Cur. cbn [negb].
  pose proof (skip_digits_fmt_ld n EmptyString ltac:(lia) eq_refl) as SD.
  rewrite append_empty in SD. rewrite SD.
  reflexivity.
Qed.

Lemma printed_number_witness :
  pv_getnum_check (Some "1024"%string) PV_NUMTYPE_BARE_INTEGER = true
  /\ pv_getnum_size (Some "1024"%string) false = 1024.
Proof.
  destruct (printed_number_is_accepted_and_read_back 1024 PV_NUMTYPE_BARE_INTEGER
              false ltac:(lia))
    as (A & B & _).
  split; [exact A|exact B].
Defined.

(** A units letter after the number, with or without blanks before it,
    multiplies the number by 1024 for K, 1024^2 for M, 1024^3 for G and
    1024^4 for T, or by the powers of 1000 with decimal units; the letter
    may be in either case, anything after it is ignored, and any other
    character there leaves the number as it is. *)
Theorem units_letter_scales_the_number n k c rest decimal_units :
  0 <= n ->
  pv_isdigit c = false -> is_blank c = false -> is_decimal_mark c = false ->
  c <> "000"%char ->
  n * units_factor c decimal_units < 2 ^ 63 ->
  pv_getnum_size (Some (fmt_ld n ++ spaces k ++ String c rest)%string)
    decimal_units
  = n * units_factor c decimal_units.
Proof.
  intros N D B M NZ Fit.
  assert (F : 1 <= units_factor c decimal_units).
  { unfold units_factor.
    assert (0 <= units_exponent c).
    { unfold units_exponent.
      repeat match goal with |- context [if ?b then _ else _] => destruct b end; lia. }
    destruct decimal_units.
    - pose proof (Z.pow_pos_nonneg 1000 (units_exponent c)). lia.
    - pose proof (Z.pow_pos_nonneg 1024 (units_exponent c)). lia. }
  assert (N63 : 0 <= n < 2 ^ 63) by nia.
  destruct (tail_shape k c rest D B M NZ) as (Str & Stop & Mark & (h & t & Shape) & Skip).
  apply (size_of_integer _ n (spaces k ++ String c (c_string rest)) c decimal_units);
    try assumption.
  - rewrite c_string_append by (apply fmt_ld_no_nul; exact N63).
    rewrite Str. reflexivity.
  - rewrite Skip. rewrite Shape. reflexivity.
Qed.

Lemma units_letter_witness :
  pv_getnum_size (Some "10 M"%string) false = 10485760
  /\ pv_getnum_size (Some "10 M"%string) true = 10000000.
Proof.
  split.
  - exact (units_letter_scales_the_number 10 1 "M" "" false ltac:(lia) eq_refl
             eq_refl eq_refl ltac:(discriminate) ltac:(vm_compute; reflexivity)).
  - exact (units_letter_scales_the_number 10 1 "M" "" true ltac:(lia) eq_refl
             eq_refl eq_refl ltac:(discriminate) ltac:(vm_compute; reflexivity)).
Defined.

(** What [pv_getnum_check] accepts as a bare integer it accepts as a bare
    double, and what it accepts as a bare double it accepts as a number with
    a suffix; a NULL string, an empty one, and one whose first character
    after the blanks is not a digit (a sign, say) are refused for every
    type. *)
Theorem stricter_number_types_accept_less str :
  (pv_getnum_check str PV_NUMTYPE_BARE_INTEGER = true ->
   pv_getnum_check str PV_NUMTYPE_BARE_DOUBLE = true)
  /\ (pv_getnum_check str PV_NUMTYPE_BARE_DOUBLE = true ->
      pv_getnum_check str PV_NUMTYPE_ANY_WITH_SUFFIX = true)
  /\ (forall type,
        match str with
        | None => True
        | Some s => pv_isdigit (current (skip_blanks (c_string s))) = false
        end ->
        pv_getnum_check str type = false).
Proof.
  unfold pv_getnum_check. destruct str as [s|]; [|repeat split; discriminate].
  set (s0 := skip_blanks (c_string s)).
  destruct (pv_isdigit (current s0)) eqn:D; cbn [negb];
    [|repeat split; discriminate].
  cbn [is_bare_integer is_any_with_suffix negb].
  set (s1 := skip_digits s0).
  destruct (is_decimal_mark (current s1)); cbn [andb].
  - split; [discriminate|]. split; [|discriminate].
    destruct (skip_digits match s1 with String _ r => r | EmptyString => s1 end);
      [reflexivity|discriminate].
  - split; [|split; [|discriminate]]; destruct s1; try reflexivity; discriminate.
Qed.

Lemma digit_character d :
  is_digit d ->
  pv_isdigit (ascii_of_N (Z.to_N (48 + d))) = true
  /\ digit_value (ascii_of_N (Z.to_N (48 + d))) = d.
Proof.
  unfold is_digit. intros D.
  assert (C : d = 0 \/ d = 1 \/ d = 2 \/ d = 3 \/ d = 4 \/ d = 5 \/ d = 6
              \/ d = 7 \/ d = 8 \/ d = 9) by lia.
  destruct C as [->|[->|[->|[->|[->|[->|[->|[->|[->| ->]]]]]]]]];
    split; reflexivity.
Qed.

Lemma parse_fraction_stops part divisor s :
  stops_digits s -> parse_fraction part divisor s = (part, divisor, s).
Proof.
  unfold stops_digits. destruct s as [|c s]; cbn [current parse_fraction];
    [reflexivity|]. intros ->. reflexivity.
Qed.

(** Lines 68-75 on a run of digits: the first four are taken, the others
    passed over. *)
Lemma parse_fraction_digits tail : forall ds (j : nat) part,
  stops_digits tail -> Forall is_digit ds ->
  (j <= 4)%nat -> 0 <= part < 10 ^ Z.of_nat j ->
  parse_fraction part (10 ^ Z.of_nat j) (digits_string ds ++ tail)
  = (fold_left (fun acc d => acc * 10 + d) (firstn (4 - j) ds) part,
     10 ^ Z.of_nat (j + Nat.min (4 - j) (List.length ds)),
     tail)
  /\ 0 <= fold_left (fun acc d => acc * 10 + d) (firstn (4 - j) ds) part
       < 10 ^ Z.of_nat (j + Nat.min (4 - j) (List.length ds)).
Proof.
  intros ds. induction ds as [|d ds IH]; intros j part Stop Digits J Part.
  - cbn [digits_string append]. rewrite parse_fraction_stops by exact Stop.
    rewrite firstn_nil. cbn [fold_left List.length].
    rewrite Nat.min_0_r, Nat.add_0_r. split; [reflexivity|exact Part].
  - inversion Digits as [|d' ds' Dd Dds]; subst.
    destruct (digit_character d Dd) as (Is & Val).
    cbn [digits_string append parse_fraction]. rewrite Is, Val.
    assert (P10 : 10 ^ Z.of_nat j <= 10000).
    { change 10000 with (10 ^ Z.of_nat 4). apply Z.pow_le_mono_r; lia. }
    destruct (Z.ltb_spec (10 ^ Z.of_nat j) 10000) as [Room|Full].
    + assert (J4 : (j < 4)%nat).
      { destruct (Nat.eq_dec j 4) as [->|]; [|lia]. exfalso.
        change (10 ^ Z.of_nat 4) with 10000 in Room. lia. }
      unfold is_digit in Dd.
      rewrite (to_off_t_id (part * 10)) by (unfold fits_off_t; lia).
      rewrite to_off_t_id by (unfold fits_off_t; lia).
      rewrite to_uint_id by lia.
      replace (10 ^ Z.of_nat j * 10) with (10 ^ Z.of_nat (S j))
        by (rewrite Nat2Z.inj_succ, Z.pow_succ_r; lia).
      destruct (IH (S j) (part * 10 + d) Stop Dds ltac:(lia)) as (E & R).
      { rewrite Nat2Z.inj_succ, Z.pow_succ_r by lia. lia. }
      replace (4 - j)%nat with (S (4 - S j)) by lia.
      cbn [firstn fold_left List.length].
      replace (j + Nat.min (S (4 - S j)) (S (List.length ds)))%nat
        with (S j + Nat.min (4 - S j) (List.length ds))%nat by lia.
      split; [exact E|exact R].
    + assert (J4 : j = 4%nat).
      { destruct (Nat.eq_dec j 4) as [->|]; [reflexivity|]. exfalso.
        assert (10 ^ Z.of_nat j <= 10 ^ Z.of_nat 3)
          by (apply Z.pow_le_mono_r; lia).
        change (10 ^ Z.of_nat 3) with 1000 in *. lia. }
      subst j.
      destruct (IH 4%nat part Stop Dds ltac:(lia) Part) as (E & R).
      cbn [Nat.sub firstn fold_left Nat.min Nat.add] in *.
      split; [exact E|exact R].
Qed.

Lemma no_nul_digits ds : Forall is_digit ds -> no_nul (digits_string ds) = true.
Proof.
  induction 1 as [|d ds Dd Dds IH]; cbn [digits_string no_nul]; [reflexivity|].
  rewrite IH, andb_true_r. apply negb_true_iff, Ascii.eqb_neq.
  intros E. destruct (digit_character d Dd) as (Is & _). rewrite E in Is.
  discriminate Is.
Qed.

Lemma units_factor_positive c decimal_units : 1 <= units_factor c decimal_units.
Proof.
  unfold units_factor.
  assert (0 <= units_exponent c).
  { unfold units_exponent.
    repeat match goal with |- context [if ?b then _ else _] => destruct b end; lia. }
  destruct decimal_units.
  - pose proof (Z.pow_pos_nonneg 1000 (units_exponent c)). lia.
  - pose proof (Z.pow_pos_nonneg 1024 (units_exponent c)). lia.
Qed.

(** [pv_getnum_size] on a number with a fractional part. *)
Lemma size_with_fraction str n mark ds tail c decimal_units :
  let factor := units_factor c decimal_units in
  let fraction := digits_value (firstn 4 ds) in
  let divisor := 10 ^ Z.of_nat (Nat.min 4 (List.length ds)) in
  0 <= n -> mark = "."%char \/ mark = ","%char -> Forall is_digit ds ->
  c_string str = (fmt_ld n ++ String mark (digits_string ds ++ tail))%string ->
  stops_digits tail ->
  match tail with
  | EmptyString => (0, 0)
  | String _ _ => units_of (current (skip_blanks tail))
  end = units_of c ->
  n * factor + fraction * factor / divisor < 2 ^ 63 ->
  pv_getnum_size (Some str) decimal_units
  = n * factor + fraction * factor / divisor.
Proof.
  intros factor fraction divisor N Mark Digits Str Stop Units Fit.
  pose proof (units_factor_positive c decimal_units) as F1. fold factor in F1.
  destruct (parse_fraction_digits tail ds 0%nat 0 Stop Digits ltac:(lia)
              ltac:(cbn; lia)) as (PF & Range).
  cbn [Nat.sub Nat.add Z.of_nat] in PF, Range.
  change (10 ^ 0) with 1 in PF.
  fold (digits_value (firstn 4 ds)) in PF, Range. fold fraction divisor in PF, Range.
  assert (Dpos : 0 < divisor) by (apply Z.pow_pos_nonneg; lia).
  assert (D4 : divisor <= 10000).
  { unfold divisor. change 10000 with (10 ^ Z.of_nat 4).
    apply Z.pow_le_mono_r; lia. }
  assert (Q : 0 <= fraction * factor / divisor)
    by (apply Z.div_pos; nia).
  assert (N63 : 0 <= n < 2 ^ 63) by nia.
  unfold pv_getnum_size. rewrite Str.
  destruct (fmt_ld_starts_with_digit n ltac:(lia)) as (h & t & Shape & Digit).
  assert (Skip : forall x, skip_non_digits (fmt_ld n ++ x) = (fmt_ld n ++ x)%string).
  { intros x. rewrite Shape. cbn [append]. apply skip_non_digits_at_digit. exact Digit. }
  rewrite Skip.
  assert (StopMark : stops_digits (String mark (digits_string ds ++ tail))).
  { unfold stops_digits. cbn [current]. destruct Mark as [-> | ->]; reflexivity. }
  rewrite (parse_integral_fmt_ld n _ N63 StopMark).
  assert (IsMark : is_decimal_mark mark = true)
    by (destruct Mark as [-> | ->]; reflexivity).
  cbn [current]. rewrite IsMark, PF, Units.
  pose proof (units_of_factor c) as U.
  destruct (units_of c) as [binary_shift decimal_multiplier].
  destruct U as (Shift & Binary & Decimal & Bound).
  unfold factor in *.
  destruct decimal_units.
  - rewrite Decimal in *. cbn [Z.to_nat shift_left]. revert Fit F1 Q.
    destruct (Z.gtb_spec decimal_multiplier 0); intros Fit F1 Q.
    + rewrite (to_off_t_id (n * decimal_multiplier)) by (unfold fits_off_t; nia).
      rewrite (to_off_t_id (fraction * decimal_multiplier))
        by (unfold fits_off_t; nia).
      rewrite Z.quot_div_nonneg by nia.
      apply to_off_t_id. unfold fits_off_t. lia.
    + rewrite Z.quot_div_nonneg by lia.
      rewrite !Z.mul_1_r in *.
      apply to_off_t_id. unfold fits_off_t. lia.
  - rewrite Binary in *.
    assert (P : 0 < 2 ^ binary_shift <= 2 ^ 40).
    { split; [apply Z.pow_pos_nonneg; lia|apply Z.pow_le_mono_r; lia]. }
    rewrite shift_left_scales by (try exact Shift; try nia; lia).
    change (0 >? 0) with false. cbv iota.
    rewrite Z.quot_div_nonneg by nia.
    apply to_off_t_id. unfold fits_off_t. nia.
Qed.

(** A fractional part is multiplied by the units before it is divided by
    its power of ten, so that 1.5K is 1536; only its first four digits
    count; and without units it is dropped. *)
Theorem fraction_is_scaled_by_the_units n mark ds k c rest decimal_units :
  let factor := units_factor c decimal_units in
  let fraction := digits_value (firstn 4 ds) in
  let divisor := 10 ^ Z.of_nat (Nat.min 4 (List.length ds)) in
  0 <= n -> mark = "."%char \/ mark = ","%char -> Forall is_digit ds ->
  pv_isdigit c = false -> is_blank c = false -> c <> "000"%char ->
  n * factor + fraction * factor / divisor < 2 ^ 63 ->
  pv_getnum_size
    (Some (fmt_ld n
           ++ String mark (digits_string ds ++ spaces k ++ String c rest))%string)
    decimal_units
  = n * factor + fraction * factor / divisor
  /\ pv_getnum_size (Some (fmt_ld n ++ String mark (digits_string ds))%string)
       decimal_units
     = n.
Proof.
  intros factor fraction divisor N Mark Digits D B NZ Fit.
  pose proof (units_factor_positive c decimal_units) as F1. fold factor in F1.
  destruct (parse_fraction_digits EmptyString ds 0%nat 0 eq_refl Digits ltac:(lia)
              ltac:(cbn; lia)) as (_ & Range).
  cbn [Nat.sub Nat.add Z.of_nat] in Range.
  fold (digits_value (firstn 4 ds)) in Range. fold fraction divisor in Range.
  assert (Dpos : 0 < divisor) by lia.
  assert (Q : 0 <= fraction * factor / divisor) by (apply Z.div_pos; nia).
  assert (N63 : 0 <= n < 2 ^ 63) by nia.
  assert (MarkNZ : Ascii.eqb mark "000" = false)
    by (destruct Mark as [-> | ->]; reflexivity).
  assert (NZb : Ascii.eqb c "000" = false) by (apply Ascii.eqb_neq; exact NZ).
  split.
  - apply (size_with_fraction _ n mark ds (spaces k ++ String c (c_string rest)) c);
      try assumption.
    + rewrite c_string_append by (apply fmt_ld_no_nul; exact N63).
      cbn [c_string]. rewrite MarkNZ.
      rewrite c_string_append by (apply no_nul_digits; exact Digits).
      rewrite c_string_append by apply no_nul_spaces.
      cbn [c_string]. rewrite NZb. reflexivity.
    + unfold stops_digits. destruct k; cbn [spaces append current];
        [exact D|reflexivity].
    + rewrite skip_blanks_spaces by exact B.
      destruct k; reflexivity.
  - rewrite (size_with_fraction _ n mark ds EmptyString "000" decimal_units);
      try assumption; try reflexivity.
    + unfold units_factor. change (units_exponent "000") with 0.
      rewrite Z.pow_0_r, !Z.mul_1_r. fold fraction divisor.
      rewrite Z.div_small by lia. lia.
    + rewrite c_string_append by (apply fmt_ld_no_nul; exact N63).
      cbn [c_string]. rewrite MarkNZ.
      rewrite append_empty. rewrite c_string_plain by (apply no_nul_digits; exact Digits).
      reflexivity.
    + unfold units_factor. change (units_exponent "000") with 0.
      rewrite Z.pow_0_r, !Z.mul_1_r. fold fraction divisor.
      rewrite Z.div_small by lia. lia.
Qed.

Lemma fraction_witness :
  pv_getnum_size (Some "1.5K"%string) false = 1536
  /\ pv_getnum_size (Some "1.5"%string) false = 1.
Proof.
  destruct (fraction_is_scaled_by_the_units 1 "." [5] 0 "K" "" false) as (A & B).
  - lia.
  - left. reflexivity.
  - constructor; [unfold is_digit; lia|constructor].
  - reflexivity.
  - reflexivity.
  - discriminate.
  - vm_compute. reflexivity.
  - split; [exact A|exact B].
Defined.

End NumberOutcomes.

(** * The width of a string with colour sequences, and pv_strlcat *)

Module StringOutcomes.
Import Strings IntFacts BufferFacts.

Lemma skip_parameters_shorter s :
  (List.length (skip_parameters s) <= List.length s)%nat.
Proof.
  induction s as [|c s IH]; cbn [skip_parameters]; [lia|].
  destruct s as [|n s]; [cbn; lia|].
  destruct (is_parameter c); [|cbn; lia].
  cbn [List.length] in *. lia.
Qed.

Lemma tl_shorter (s : list byte) : (List.length (tl s) <= List.length s)%nat.
Proof. destruct s; cbn; lia. Qed.

(** More turns than bytes change nothing. *)
Lemma copy_raw_turns : forall n m s,
  (List.length s <= n)%nat -> (List.length s <= m)%nat ->
  copy_raw n s = copy_raw m s.
Proof.
  induction n as [|n IH]; intros m s N M.
  - destruct s; [|cbn in N; lia]. destruct m; reflexivity.
  - destruct m as [|m]; [destruct s; [reflexivity|cbn in M; lia]|].
    cbn [copy_raw]. destruct s as [|c [|next after]]; try reflexivity.
    cbn [List.length] in N, M.
    pose proof (skip_parameters_shorter after).
    pose proof (tl_shorter (skip_parameters after)).
    destruct (Byte.eqb c ESC && Byte.eqb next BRACKET).
    + apply IH; lia.
    + f_equal. apply IH; cbn [List.length]; lia.
Qed.

(** The copy [pv_strwidth] makes of a string. *)
Lemma copy_of_plain_byte c s :
  c <> ESC ->
  copy_raw (List.length (c :: s)) (c :: s) = c :: copy_raw (List.length s) s.
Proof.
  intros NE. cbn [List.length copy_raw].
  destruct s as [|next after]; [reflexivity|].
  destruct (Byte.eqb c ESC) eqn:E; [apply Byte.byte_dec_bl in E; contradiction|].
  reflexivity.
Qed.

Lemma copy_of_plain_text text s :
  Forall (fun c => c <> ESC) text ->
  copy_raw (List.length (text ++ s)) (text ++ s)
  = text ++ copy_raw (List.length s) s.
Proof.
  induction 1 as [|c text NE _ IH]; [reflexivity|].
  cbn [app]. rewrite copy_of_plain_byte by exact NE. rewrite IH. reflexivity.
Qed.

Lemma skip_parameters_to_final params final rest :
  Forall (fun c => is_parameter c = true) params -> is_parameter final = false ->
  skip_parameters (params ++ final :: rest) = final :: rest.
Proof.
  intros P F. induction P as [|p params Pp _ IH]; cbn [app skip_parameters].
  - destruct rest; [reflexivity|]. rewrite F. reflexivity.
  - destruct (params ++ final :: rest) eqn:E.
    + destruct params; discriminate E.
    + rewrite Pp. exact IH.
Qed.

Lemma copy_raw_sequence turns after :
  copy_raw (S turns) (ESC :: BRACKET :: after)
  = copy_raw turns (tl (skip_parameters after)).
Proof. reflexivity. Qed.

Lemma copy_of_sequence params final rest :
  Forall (fun c => is_parameter c = true) params -> is_parameter final = false ->
  let s := ESC :: BRACKET :: params ++ final :: rest in
  copy_raw (List.length s) s = copy_raw (List.length rest) rest.
Proof.
  intros P F s. unfold s.
  change (List.length (ESC :: BRACKET :: params ++ final :: rest))
    with (S (S (List.length (params ++ final :: rest)))).
  rewrite copy_raw_sequence.
  rewrite (skip_parameters_to_final params final rest P F). cbn [tl].
  apply copy_raw_turns; [|lia].
  rewrite length_app. cbn [List.length]. lia.
Qed.

(** An ECMA-48 CSI sequence (ESC, an opening bracket, digits and
    semicolons, and the byte that ends it) takes no columns: a string that
    has one after some text without ESC is as wide as the text and what
    follows the sequence. *)
Theorem colour_sequences_take_no_columns calloc_works text params final rest :
  let s := text ++ ESC :: BRACKET :: params ++ final :: rest in
  let bytes := Z.of_nat (List.length s) in
  Forall (fun c => c <> ESC) text ->
  Forall (fun c => is_parameter c = true) params ->
  is_parameter final = false ->
  bytes < 255 \/ calloc_works = true ->
  pv_strwidth calloc_works (Some s) bytes
  = Z.of_nat (List.length text)
    + pv_strwidth calloc_works (Some rest) (Z.of_nat (List.length rest)).
Proof.
  intros s bytes T P F Room.
  assert (Raw : copy_raw (List.length s) s
                = text ++ copy_raw (List.length rest) rest).
  { unfold s. rewrite copy_of_plain_text by exact T.
    f_equal. exact (copy_of_sequence params final rest P F). }
  assert (Ls : (List.length rest < List.length s)%nat).
  { unfold s. rewrite !length_app. cbn [List.length]. rewrite length_app.
    cbn [List.length]. lia. }
  unfold pv_strwidth. fold bytes.
  destruct (Z.eqb_spec bytes 0) as [Zero|_]; [unfold bytes in Zero; lia|].
  assert (C1 : negb (bytes <? 256 - 1) && negb calloc_works = false).
  { destruct Room as [Small| ->]; [|apply andb_false_r].
    destruct (Z.ltb_spec bytes (256 - 1)); [reflexivity|lia]. }
  rewrite C1. unfold bytes. rewrite Nat2Z.id, firstn_all, Raw, length_app.
  destruct (Z.eqb_spec (Z.of_nat (List.length rest)) 0) as [Empty|_].
  - destruct rest; [|cbn in Empty; lia]. cbn. lia.
  - assert (C2 : negb (Z.of_nat (List.length rest) <? 256 - 1) && negb calloc_works
                 = false).
    { destruct Room as [Small| ->]; [|apply andb_false_r].
      destruct (Z.ltb_spec (Z.of_nat (List.length rest)) (256 - 1));
        [reflexivity|unfold bytes in Small; lia]. }
    rewrite C2, Nat2Z.id, firstn_all. lia.
Qed.

Lemma colour_sequences_witness :
  pv_strwidth true
    (Some ([x61; x62] ++ ESC :: BRACKET :: [x33; x31] ++ x6d :: [x63])) 8
  = 3.
Proof.
  etransitivity.
  - apply (colour_sequences_take_no_columns true [x61; x62] [x33; x31] x6d [x63]).
    + repeat constructor; discriminate.
    + repeat constructor.
    + reflexivity.
    + left. cbn. lia.
  - reflexivity.
Defined.

(** The width is never more than the number of bytes, and it is the number
    of bytes when the string holds no ESC. *)
Theorem width_is_at_most_the_byte_count calloc_works s :
  let bytes := Z.of_nat (List.length s) in
  let width := pv_strwidth calloc_works (Some s) bytes in
  0 <= width <= bytes
  /\ (Forall (fun c => c <> ESC) s -> width = bytes).
Proof.
  intros bytes width.
  assert (Bound : forall n (t : list byte),
             (List.length (copy_raw n t) <= List.length t)%nat).
  { induction n as [|n IH]; intros t; cbn [copy_raw]; [cbn; lia|].
    destruct t as [|c [|next after]]; cbn [List.length]; try lia.
    pose proof (skip_parameters_shorter after).
    pose proof (tl_shorter (skip_parameters after)).
    destruct (Byte.eqb c ESC && Byte.eqb next BRACKET).
    - specialize (IH (tl (skip_parameters after))). lia.
    - specialize (IH (next :: after)). cbn [List.length] in *. lia. }
  unfold width, pv_strwidth. fold bytes.
  destruct (Z.eqb_spec bytes 0) as [Zero|_]; [lia|].
  destruct (negb (bytes <? 256 - 1) && negb calloc_works); [lia|].
  unfold bytes. rewrite Nat2Z.id, firstn_all.
  pose proof (Bound (List.length s) s).
  split; [lia|].
  intros Plain. pose proof (copy_of_plain_text s [] Plain) as C.
  rewrite app_nil_r in C. rewrite C. cbn [List.length copy_raw].
  rewrite app_nil_r. reflexivity.
Qed.

(** ** pv_strlcat *)

Lemma c_bytes_clean s : Forall (fun c => c <> x00) (c_bytes s).
Proof.
  induction s as [|c s IH]; cbn [c_bytes]; [constructor|].
  destruct (Byte.eqb c x00) eqn:E; [constructor|].
  constructor; [|exact IH]. intros ->. discriminate E.
Qed.

Lemma c_bytes_of_clean text rest :
  Forall (fun c => c <> x00) text -> c_bytes (text ++ x00 :: rest) = text.
Proof.
  induction 1 as [|c text NE _ IH]; cbn [app c_bytes]; [reflexivity|].
  destruct (Byte.eqb c x00) eqn:E; [apply Byte.byte_dec_bl in E; contradiction|].
  rewrite IH. reflexivity.
Qed.

Lemma c_bytes_firstn n : forall s, c_bytes (firstn n s) = firstn n (c_bytes s).
Proof.
  induction n as [|n IH]; intros s; [reflexivity|].
  destruct s as [|c s]; [reflexivity|]. cbn [firstn c_bytes].
  destruct (Byte.eqb c x00); [reflexivity|]. cbn [firstn]. rewrite IH. reflexivity.
Qed.

Lemma c_bytes_cut s rest : c_bytes (s ++ x00 :: rest) = c_bytes s.
Proof.
  induction s as [|c s IH]; cbn [app c_bytes]; [reflexivity|].
  destruct (Byte.eqb c x00); [reflexivity|]. rewrite IH. reflexivity.
Qed.

Lemma c_bytes_is_prefix s : firstn (List.length (c_bytes s)) s = c_bytes s.
Proof.
  induction s as [|c s IH]; cbn [c_bytes]; [reflexivity|].
  destruct (Byte.eqb c x00); [reflexivity|]. cbn [List.length firstn].
  rewrite IH. reflexivity.
Qed.

Lemma c_bytes_shorter s : (List.length (c_bytes s) <= List.length s)%nat.
Proof.
  induction s as [|c s IH]; cbn [c_bytes]; [lia|].
  destruct (Byte.eqb c x00); cbn [List.length]; lia.
Qed.

(** [buf[pos] = '\0'] cuts the string at [pos]. *)
Lemma c_bytes_terminated buf pos :
  0 <= pos ->
  c_bytes (buf_store buf pos [x00]) = firstn (Z.to_nat pos) (c_bytes buf).
Proof.
  intros P. unfold buf_store. cbn [app].
  rewrite c_bytes_cut. apply c_bytes_firstn.
Qed.

(** [pv_strlcat] leaves in [dst] the string it held, cut at [dstsize - 1]
    bytes, followed by as much of [src] as fits in [dstsize - 1] bytes in
    all, always terminated; it returns the length the whole would have had,
    and writes nothing at or after [dst + dstsize]. *)
Theorem strlcat_appends_what_fits dst src dstsize :
  let held := c_bytes (firstn (Z.to_nat (dstsize - 1)) dst) in
  let r := pv_strlcat (Some dst) (Some src) dstsize in
  0 < dstsize <= Z.of_nat (List.length dst) ->
  dstsize + strlen src < 2 ^ 64 ->
  exists dst',
    snd r = Some dst'
    /\ fst r = Z.of_nat (List.length held) + strlen src
    /\ c_bytes dst' = firstn (Z.to_nat (dstsize - 1)) (held ++ c_bytes src)
    /\ strlen dst' < dstsize
    /\ List.length dst' = List.length dst
    /\ (forall i, dstsize <= i -> buf_get dst' i = buf_get dst i).
Proof.
  intros held r Size Fit. unfold r, pv_strlcat.
  destruct (Z.eqb_spec dstsize 0) as [|_]; [lia|].
  set (d1 := buf_store dst (dstsize - 1) [x00]).
  assert (H1 : c_bytes d1 = held).
  { unfold d1, held. rewrite c_bytes_terminated by lia.
    symmetry. apply c_bytes_firstn. }
  assert (L1 : List.length d1 = List.length dst).
  { apply buf_store_length; cbn [List.length]; lia. }
  assert (O1 : forall i, dstsize <= i -> buf_get d1 i = buf_get dst i).
  { intros i I. apply buf_store_outside; cbn [List.length]; lia. }
  assert (Lh : Z.of_nat (List.length held) <= dstsize - 1).
  { unfold held. rewrite c_bytes_firstn, length_firstn. lia. }
  set (dstlen := Z.of_nat (List.length held)) in *.
  assert (E1 : strlen d1 = dstlen) by (unfold strlen; rewrite H1; reflexivity).
  cbv zeta. fold d1. rewrite !E1.
  assert (Ls : 0 <= strlen src) by (unfold strlen; lia).
  rewrite (to_size_t_id (dstsize - dstlen)) by (unfold fits_size_t; lia).
  rewrite (to_size_t_id (dstlen + strlen src)) by (unfold fits_size_t; lia).
  pose proof (c_bytes_clean dst) as Clean.
  assert (CleanHeld : Forall (fun c => c <> x00) held).
  { rewrite <- H1. apply c_bytes_clean. }
  destruct (Z.gtb_spec (dstsize - dstlen) 1) as [Room|Full]; cbn [fst snd].
  - set (formatted := firstn (Z.to_nat (dstsize - dstlen - 1)) (c_bytes src)).
    assert (Lf : Z.of_nat (List.length formatted) <= dstsize - dstlen - 1).
    { unfold formatted. rewrite length_firstn. lia. }
    assert (CleanF : Forall (fun c => c <> x00) formatted).
    { unfold formatted. rewrite <- c_bytes_firstn. apply c_bytes_clean. }
    set (d2 := buf_store d1 dstlen [x00]).
    assert (L2 : List.length d2 = List.length dst).
    { unfold d2. rewrite buf_store_length; cbn [List.length]; lia. }
    assert (H2 : firstn (Z.to_nat dstlen) d2 = held).
    { unfold d2, buf_store. rewrite firstn_app, length_firstn.
      rewrite Nat.min_l by lia. rewrite Nat.sub_diag. cbn [firstn].
      rewrite app_nil_r, firstn_firstn, Nat.min_id.
      unfold dstlen. rewrite Nat2Z.id. rewrite <- H1. apply c_bytes_is_prefix. }
    set (d3 := buf_store d2 dstlen (formatted ++ [x00])).
    assert (L3 : List.length d3 = List.length dst).
    { unfold d3. rewrite buf_store_length; rewrite ?length_app; cbn [List.length];
        lia. }
    assert (H3 : c_bytes d3 = held ++ formatted).
    { unfold d3. unfold buf_store at 1. rewrite H2.
      rewrite <- app_assoc. cbn [app]. rewrite app_assoc.
      apply c_bytes_of_clean. apply Forall_app. split; assumption. }
    set (d4 := buf_store d3 (dstlen + (dstsize - dstlen) - 1) [x00]).
    assert (H4 : c_bytes d4 = held ++ formatted).
    { unfold d4. rewrite c_bytes_terminated by lia. rewrite H3.
      apply firstn_all2. rewrite length_app. lia. }
    exists d4. split; [reflexivity|]. split; [reflexivity|]. split.
    { rewrite H4. rewrite firstn_app.
      rewrite (firstn_all2 held) by lia. f_equal.
      unfold formatted. f_equal. unfold dstlen. lia. }
    split.
    { unfold strlen. rewrite H4, length_app. lia. }
    split.
    { unfold d4. rewrite buf_store_length; cbn [List.length]; lia. }
    intros i I. unfold d4.
    rewrite buf_store_outside; cbn [List.length]; try lia.
    unfold d3.
    rewrite buf_store_outside; rewrite ?length_app; cbn [List.length]; try lia.
    unfold d2.
    rewrite buf_store_outside; cbn [List.length]; try lia.
    apply O1. exact I.
  - exists d1. split; [reflexivity|]. split; [reflexivity|]. split.
    { rewrite H1. rewrite firstn_app. rewrite (firstn_all2 held) by lia.
      replace (Z.to_nat (dstsize - 1) - List.length held)%nat with 0%nat by lia.
      cbn [firstn]. rewrite app_nil_r. reflexivity. }
    split; [unfold strlen; rewrite H1; lia|].
    split; [exact L1|exact O1].
Qed.

Lemma strlcat_witness :
  let dst := [x61; x62; x63; x00; x00; x00; x00; x00; x39] in
  let src := [x64; x65; x66; x67; x68; x00] in
  fst (pv_strlcat (Some dst) (Some src) 8) = 8
  /\ exists dst',
       snd (pv_strlcat (Some dst) (Some src) 8) = Some dst'
       /\ c_bytes dst' = [x61; x62; x63; x64; x65; x66; x67]
       /\ buf_get dst' 8 = x39.
Proof.
  intros dst src.
  destruct (strlcat_appends_what_fits dst src 8) as (dst' & S & R & C & _ & _ & O).
  - cbn. lia.
  - cbn. lia.
  - split; [exact R|]. exists dst'. split; [exact S|]. split; [exact C|].
    apply (O 8). lia.
Defined.

End StringOutcomes.

(** * Claims about the writing of whole lines *)

Module LineSpec.
Import Transfer Footprint IntFacts TransferFacts BufferFacts Vocabulary.
Import Examples Fixtures.

(** Bytes among which there is a newline are not all null. *)
Lemma newline_is_not_null buf pos len k :
  0 <= pos -> 0 <= k < len -> buf_get buf (pos + k) = NEWLINE ->
  all_nulls buf pos len = false.
Proof.
  intros P K N. unfold all_nulls, buf_slice.
  apply not_true_is_false. intros A. rewrite forallb_forall in A.
  assert (Inside : (Z.to_nat (pos + k) < List.length buf)%nat).
  { destruct (Nat.ltb_spec (Z.to_nat (pos + k)) (List.length buf)) as [|Out]; [assumption|].
    unfold buf_get in N. rewrite nth_overflow in N by exact Out. discriminate N. }
  specialize (A NEWLINE). cbn in A.
  enough (I : In NEWLINE (firstn (Z.to_nat len) (skipn (Z.to_nat pos) buf)))
    by (specialize (A I); discriminate A).
  clear A. unfold buf_get in N.
  replace NEWLINE
    with (nth (Z.to_nat k) (firstn (Z.to_nat len) (skipn (Z.to_nat pos) buf)) NUL).
  - apply nth_In. rewrite length_firstn, length_skipn. lia.
  - rewrite nth_firstn.
    destruct (Nat.ltb_spec (Z.to_nat k) (Z.to_nat len)); [|lia].
    rewrite nth_skipn. rewrite <- N. f_equal. lia.
Qed.

(** What setting the amount to write leaves alone. *)
Lemma set_to_write_frame n w :
  let w0 := on_transfer (set_to_write n) w in
  to_write (transfer (pv w0)) = n
  /\ control (pv w0) = control (pv w)
  /\ display (pv w0) = display (pv w)
  /\ exit_status (pv w0) = exit_status (pv w)
  /\ trace w0 = trace w
  /\ transfer_buffer (transfer (pv w0)) = transfer_buffer (transfer (pv w))
  /\ read_position (transfer (pv w0)) = read_position (transfer (pv w))
  /\ write_position (transfer (pv w0)) = write_position (transfer (pv w))
  /\ splice_used (transfer (pv w0)) = splice_used (transfer (pv w))
  /\ output_not_seekable (transfer (pv w0)) = output_not_seekable (transfer (pv w))
  /\ written (transfer (pv w0)) = written (transfer (pv w))
  /\ line_positions (transfer (pv w0)) = line_positions (transfer (pv w))
  /\ last_output_position (transfer (pv w0)) = last_output_position (transfer (pv w))
  /\ (ring_in_order (transfer (pv w)) -> ring_in_order (transfer (pv w0))).
Proof.
  destruct w as [[x c p d t] e tr]. destruct t. cbn. unfold ring_in_order. cbn.
  repeat split; auto.
Qed.

(** The write stage in line mode, [n] being the amount left by the cut:
    when the output is ready and the input is not discarded, there is
    exactly one call of pv__transfer_write_repeated, for [n] bytes; and
    when it wrote [nwritten] bytes, these are the first [nwritten] pending
    bytes: the positions move on by [nwritten], and the lines counted are
    the newlines among them. *)
Lemma write_stage_in_line_mode cfg env w eof_in eof_out l buf n :
  let t := transfer (pv w) in
  let c := control (pv w) in
  let nwritten := fst (we_write (te_write env)) in
  n = truncate_to_last_line (pv w) ->
  1 <= n < 2 ^ 63 ->
  transfer_buffer t = Some buf ->
  linemode c = true -> null_terminated_lines c = false ->
  0 <= write_position t ->
  discard_input c = false ->
  HAVE_SPLICE cfg && splice_used t = false ->
  write_position t < read_position t ->
  sparse_output c = false
  \/ (exists k, 0 <= k < n /\ buf_get buf (write_position t + k) = NEWLINE) ->
  exists r ei eo lw' w',
    write_stage cfg env w eof_in eof_out (Some l) true = (r, ei, eo, lw', w')
    /\ filter is_write_call (events_since w w') = [EvWrite (output_fd c) n]
    /\ (0 < nwritten ->
        line_positions t <> None -> ring_in_order t ->
        write_position t + nwritten <= Z.of_nat (List.length buf) < 2 ^ 64 ->
        - 2 ^ 63 <= written t + nwritten < 2 ^ 63 ->
        0 <= last_output_position t ->
        last_output_position t + nwritten < 2 ^ 63 ->
        r = 1
        /\ written (transfer (pv w')) = written t + nwritten
        /\ lw' = Some (to_long (l + separators NEWLINE
                                      (buf_slice buf (write_position t) nwritten)))
        /\ (write_position t + nwritten < read_position t ->
            write_position (transfer (pv w')) = write_position t + nwritten
            /\ read_position (transfer (pv w')) = read_position t)
        /\ (read_position t <= write_position t + nwritten ->
            write_position (transfer (pv w')) = 0
            /\ read_position (transfer (pv w')) = 0)).
Proof.
  intros t c nwritten Hn N Buf Line NotNul WP NoDiscard NoSplice Pending Sparse.
  unfold write_stage. rewrite <- Hn. cbv zeta.
  destruct (set_to_write_frame n w)
    as (F1 & F2 & F3 & F4 & F5 & F6 & F7 & F8 & F9 & F10 & F11 & F12 & F13 & F14).
  cbv zeta in F1, F2, F3, F4, F5, F6, F7, F8, F9, F10, F11, F12, F13, F14.
  set (w0 := on_transfer (set_to_write n) w) in *. clearbody w0. clear Hn.
  rewrite F9, F7, F8, F1. fold t. rewrite NoSplice. cbn [andb negb].
  destruct (Z.gtb_spec (read_position t) (write_position t)) as [_|]; [|lia].
  destruct (Z.gtb_spec n 0) as [_|]; [|lia]. cbn [andb].
  unfold pv__transfer_write. rewrite F6. fold t. rewrite Buf, F2. fold c.
  rewrite NoDiscard, F1, F8, F10. fold t.
  destruct (Z.gtb_spec n 0) as [_|]; [|lia].
  assert (Sp : sparse_output c && negb (output_not_seekable t)
               && all_nulls buf (write_position t) (to_size_t n) = false).
  { destruct Sparse as [S|(k & K & A)].
    - rewrite S. reflexivity.
    - rewrite to_size_t_id by (unfold fits_size_t; lia).
      rewrite (newline_is_not_null buf (write_position t) n k WP K A).
      apply andb_false_r. }
  rewrite Sp. clear Sp.
  destruct (timed_write_quiet cfg (te_write env) w0) as (n1 & Q1 & W1).
  destruct (WriteOutcomes.timed_write_state cfg (te_write env) w0)
    as (new & _ & P & R & _).
  rewrite F2, F1 in W1. fold c in W1.
  rewrite to_size_t_id in W1 by (unfold fits_size_t; lia).
  destruct (timed_write cfg (te_write env) w0) as [[nw we] w1].
  cbn [fst snd] in Q1, P, R. subst nw. fold nwritten.
  apply quiet_emits in Q1. unfold emits in Q1. rewrite F5 in Q1.
  destruct (Z.gtb_spec nwritten 0) as [Pos|NotPos].
  - destruct (write_completed_quiet (te_write env) w1 buf nwritten eof_in eof_out
                (Some l)) as (n2 & Q2 & C2).
    apply quiet_emits in Q2. unfold emits in Q2.
    destruct (write_completed (te_write env) w1 buf nwritten eof_in eof_out (Some l))
      as [[[[r ei] eo] lw'] w'] eqn:E.
    cbn [snd] in Q2.
    exists r, ei, eo, lw', w'. split; [reflexivity|]. split.
    { rewrite (events_since_app w w' (n1 ++ n2))
        by (rewrite Q2, Q1, app_assoc; reflexivity).
      rewrite filter_app, W1, (count_zero_filter _ _ C2). reflexivity. }
    intros _ Alloc Ring Fit Wr Lop LopFit.
    destruct (WriteOutcomes.write_completed_positions (te_write env) w1 buf nwritten
                eof_in eof_out (Some l))
      as (eo2 & lw2 & w2 & E2 & C1 & D1 & D2 & _ & _ & _ & D7 & _);
      rewrite ?P, ?F12, ?F8, ?F11, ?F13; fold t; auto; try lia.
    rewrite E in E2. injection E2 as -> -> -> -> ->.
    rewrite P, ?F11, ?F8, ?F7, ?F2 in *. fold t c in C1, D1, D2, D7.
    rewrite Line, NotNul in D7.
    split; [reflexivity|]. split; [exact C1|]. split; [exact D7|].
    split.
    + intros Less. destruct (D2 Less) as (A & B & _). split; assumption.
    + intros All. destruct (D1 All) as (A & B & _). split; assumption.
  - destruct (write_failed_quiet w1 nwritten we eof_in eof_out (Some l))
      as (n2 & Q2 & C2).
    apply quiet_emits in Q2. unfold emits in Q2.
    destruct (write_failed w1 nwritten we eof_in eof_out (Some l))
      as [[[[r ei] eo] lw'] w'] eqn:E.
    cbn [snd] in Q2.
    exists r, ei, eo, lw', w'. split; [reflexivity|]. split.
    { rewrite (events_since_app w w' (n1 ++ n2))
        by (rewrite Q2, Q1, app_assoc; reflexivity).
      rewrite filter_app, W1, (count_zero_filter _ _ C2). reflexivity. }
    intros Pos. lia.
Qed.

(** C10.  In line mode without null-terminated lines, with n the amount to
    write after the cut of lines 1267-1277: if the pending window holds a
    newline, the n bytes end with the last newline of the window; if it
    holds none, n is the whole window.  When the output is ready, the
    input is not discarded and splice was not used, the write stage makes
    exactly one call of pv__transfer_write_repeated, for exactly n bytes.
    The bytes that call wrote, nwritten of them, are the first of the
    window: the write position moves on by nwritten (or goes back to 0
    with the read position when nothing is left), and the lines counted
    are the newlines among them.  So a write that is complete (nwritten =
    n) ends one byte after the last newline of a window that holds one;
    nothing of the kind is said of a write that stops short. *)
Theorem line_mode_write_ends_after_last_newline cfg env w eof_in eof_out l buf :
  let t := transfer (pv w) in
  let c := control (pv w) in
  let n := truncate_to_last_line (pv w) in
  let pending i := buf_get buf (write_position t + i) in
  let nwritten := fst (we_write (te_write env)) in
  let holds_newline := exists i, 0 <= i < to_write t /\ pending i = NEWLINE in
  transfer_buffer t = Some buf ->
  linemode c = true ->
  null_terminated_lines c = false ->
  0 < to_write t < 2 ^ 63 ->
  0 <= write_position t ->
  (holds_newline ->
   1 <= n <= to_write t
   /\ pending (n - 1) = NEWLINE
   /\ forall i, n <= i < to_write t -> pending i <> NEWLINE)
  /\ ((forall i, 0 <= i < to_write t -> pending i <> NEWLINE) -> n = to_write t)
  /\ (discard_input c = false ->
      HAVE_SPLICE cfg && splice_used t = false ->
      write_position t < read_position t ->
      sparse_output c = false \/ holds_newline ->
      exists r ei eo lw' w',
        write_stage cfg env w eof_in eof_out (Some l) true = (r, ei, eo, lw', w')
        /\ filter is_write_call (events_since w w') = [EvWrite (output_fd c) n]
        /\ (0 < nwritten ->
            line_positions t <> None -> ring_in_order t ->
            write_position t + nwritten <= Z.of_nat (List.length buf) < 2 ^ 64 ->
            - 2 ^ 63 <= written t + nwritten < 2 ^ 63 ->
            0 <= last_output_position t ->
            last_output_position t + nwritten < 2 ^ 63 ->
            r = 1
            /\ written (transfer (pv w')) = written t + nwritten
            /\ lw' = Some (to_long (l + separators NEWLINE
                                          (buf_slice buf (write_position t) nwritten)))
            /\ (write_position t + nwritten < read_position t ->
                write_position (transfer (pv w')) = write_position t + nwritten
                /\ read_position (transfer (pv w')) = read_position t)
            /\ (read_position t <= write_position t + nwritten ->
                write_position (transfer (pv w')) = 0
                /\ read_position (transfer (pv w')) = 0)
            /\ (nwritten = n -> holds_newline ->
                pending (nwritten - 1) = NEWLINE
                /\ forall i, nwritten <= i < to_write t -> pending i <> NEWLINE))).
Proof.
  intros t c n pending nwritten holds_newline Buf Line NotNul ToWrite WP.
  destruct (TransferSpec.cut_at_last_newline (pv w) buf Buf Line NotNul ToWrite WP)
    as (Cut & Whole & Bounds).
  cbv zeta in Cut, Whole, Bounds. fold t n pending in Cut, Whole, Bounds.
  split; [exact Cut|]. split; [exact Whole|].
  intros NoDiscard NoSplice Pending Sparse.
  destruct (write_stage_in_line_mode cfg env w eof_in eof_out l buf n)
    as (r & ei & eo & lw' & w' & E & Ev & Done); auto; try lia.
  { destruct Sparse as [S|H]; [left; exact S|right].
    destruct (Cut H) as (B & A & _). exists (n - 1). split; [lia|exact A]. }
  exists r, ei, eo, lw', w'. split; [exact E|]. split; [exact Ev|].
  intros Pos Alloc Ring Fit Wr Lop LopFit.
  destruct (Done Pos Alloc Ring Fit Wr Lop LopFit) as (R1 & R2 & R3 & R4 & R5).
  repeat (split; [assumption|]).
  intros Complete H. rewrite Complete. destruct (Cut H) as (_ & A & B).
  split; assumption.
Qed.

Lemma line_mode_write_witness :
  exists r ei eo lw' w',
    write_stage all_features (both_ready steady_input (pipe_taking 6))
      three_lines_pending false false (Some 0) true
    = (r, ei, eo, lw', w')
    /\ filter is_write_call (events_since three_lines_pending w') = [EvWrite 1 6]
    /\ write_position (transfer (pv w')) = 6
    /\ lw' = Some 2
    /\ buf_get three_lines (0 + (6 - 1)) = NEWLINE.
Proof.
  destruct (line_mode_write_ends_after_last_newline all_features
              (both_ready steady_input (pipe_taking 6)) three_lines_pending
              false false 0 three_lines eq_refl eq_refl eq_refl)
    as (Cut & _ & Write).
  - cbn. lia.
  - cbn. lia.
  - destruct Write as (r & ei & eo & lw' & w' & E & Ev & Done);
      [reflexivity | reflexivity | cbn; lia | left; reflexivity |].
    exists r, ei, eo, lw', w'. split; [exact E|]. split; [exact Ev|].
    destruct Done as (_ & _ & L & Less & _ & End_).
    + cbn. lia.
    + discriminate.
    + cbn. lia.
    + cbn. lia.
    + cbn. lia.
    + cbn. lia.
    + cbn. lia.
    + split; [apply Less; cbn; lia|]. split; [exact L|].
      apply End_; [reflexivity|]. exists 2. split; [cbn; lia|reflexivity].
Defined.

(** The pending window "ab\ncd\nef" holds two newlines and six bytes are
    asked for, but the pipe takes four: the write ends after "c", inside
    the second line. *)
Lemma short_write_ends_inside_a_line :
  let w := three_lines_pending in
  let t := transfer (pv w) in
  let '(r, _, _, lw', w') :=
    write_stage all_features (both_ready steady_input (pipe_taking 4)) w
      false false (Some 0) true in
  buf_slice three_lines (write_position t) (to_write t)
  = [x61; x62; x0a; x63; x64; x0a; x65; x66]
  /\ filter is_write_call (events_since w w') = [EvWrite 1 6]
  /\ r = 1
  /\ written (transfer (pv w')) = 4
  /\ write_position (transfer (pv w')) = write_position t + 4
  /\ buf_get three_lines (write_position t + 4 - 1) = x63
  /\ lw' = Some 1.
Proof. vm_compute. repeat split. Qed.

End LineSpec.
